(* ===== verification/_CoqProject ===== *)
-Q . S2P
Prelude.v
Base64.v
Envoy.v
Metadata.v
Codec.v
Decoder.v
Trpc.v
Brpc.v
Dubbo.v
DubboSpec.v
DubboBehaviour.v
LocalRateLimit.v
Route.v
RequestId.v
Network.v
ConnManager.v
ConnFrames.v
ConnInvariant.v
ConnBehaviour.v
UpstreamHandler.v
Thrift.v
ThriftSpec.v
ThriftBehaviour.v
ThriftSegments.v
ThriftGrammar.v
ThriftDecode.v
ThriftPieces.v
ThriftBinary.v
ThriftWitness.v
Tracing.v
UpstreamRequest.v
Router.v
RouterTracing.v
RouterAccount.v
RouterOutcome.v
RouterWitness.v
HandlerRouter.v
ShadowWriter.v
ShadowBehaviour.v
Rds.v
RdsBehaviour.v
GlobalRateLimit.v
IstioStats.v
Listener.v
ListenerBehaviour.v
Chain.v
ChainBehaviour.v
ChainResponse.v
ChainEvents.v
ChainWitness.v
