(* ===== verification/Prelude.v ===== *)
(** * MetaProtocol Proxy: a verification library

    MetaProtocol Proxy is an Envoy network filter that proxies RPC protocols.  A
    client connection is served by one [ConnectionManager]
    ([src/meta_protocol_proxy/conn_manager.cc]).  The bytes it reads go to a
    decoder ([decoder.cc]), which lets the codec of the configured protocol
    ([src/application_protocols]) take messages out of the buffer.  Each message
    becomes an [ActiveMessage] ([active_message.cc]), which runs the chain of filters
    of the configuration over the metadata of the message: rate limits, statistics,
    the exchange of node metadata, then the router, which picks a cluster from the route configuration ([route/]) and sends
    the message on.  The response comes back through the same message, is decoded,
    goes through the encoder filters and is written to the client.  Streams
    ([stream.cc]) tie the two connections together without filters.

    ** Conventions

    A C++ function is a Rocq function into [outcome]: it returns, throws, or stops
    the process or leaves the defined behaviour of C++ ([Panic]).  Code that changes
    shared objects is written in the monad [M], which keeps the state an exception
    leaves behind.  Integers are [Z] with the wrap-around of their type written out
    ([u8], [u16], [u32], [u64] and the signed ones).  Logging is left out everywhere;
    what a log statement dereferences is modelled where it may be null, except that the
    debug log of [deferredDeleteMessage] reads the metadata of the message, which is null
    from the creation of a message until the decoder hands over what it has decoded.

    ** Files

    - [Prelude]: outcomes, the monad [M] with its frame rules, machine integers,
      big endian numbers, lists, tactics and hints.
    - [Base64]: [filters/common/base64.h].
    - [Envoy]: buffers and header maps of Envoy as classes of operations with
      laws, with a concrete instance.
    - [Metadata]: [codec/codec.h] (data) and [codec_impl.cc]: [MetadataImpl].
    - [Codec]: [class Codec] as a class of operations, and [CodecContract], what a
      codec promises to the decoder: a pure framing of the byte stream that
      [decode] implements at any point of any segmentation.
    - [Decoder]: [decoder.cc] and the loop that drives it, over a [CodecOps] and
      abstract callbacks; its theorem is proved against [CodecContract].
    - [Trpc]: [application_protocols/trpc], with its [CodecContract].
    - [Brpc]: [application_protocols/brpc].
    - [Dubbo], [DubboSpec], [DubboBehaviour]: [application_protocols/dubbo]: the
      model, its framing, and the rest of its behaviour.
    - [LocalRateLimit]: [filters/local_ratelimit], also under concurrent threads.
    - [Route]: [route/route_matcher_impl.cc], [config_impl.cc],
      [hash_policy_impl.cc].
    - [RequestId]: [request_id/config.cc].
    - [Network]: the connections of Envoy.
    - [ConnManager]: [conn_manager.cc], [active_message.cc], [stream.cc],
      [heartbeat_response.cc], [app_exception.h], [filters/filter.h]; the state of
      the C++ objects is the record [CM], messages have identities, filters are
      programs over their callbacks.
    - [ConnFrames], [ConnInvariant], [ConnBehaviour]: frame rules, the lifetime
      invariant over all sequences of events, and what each operation does.
    - [UpstreamHandler]: [upstream_handler.cc], [upstream_handler_impl.cc] and
      [upstream_response.cc]: multiplexed upstream connections.
    - [Thrift]: [application_protocols/thrift]: the codec and its state machine, over
      the interfaces [Protocol] and [Transport].  [ThriftSpec] has the laws of a
      protocol, the machine on byte strings and the shape of its stack;
      [ThriftBehaviour] the bound on its steps, [ThriftSegments] and [ThriftPieces]
      messages that arrive in pieces, [ThriftGrammar] the grammar of messages,
      [ThriftDecode] the codec; [ThriftBinary] has instances that find the binary protocol
      and the framed transport on the wire, [ThriftWitness] the witnesses.
    - [Tracing]: [tracing/tracer_impl.cc].
    - [UpstreamRequest]: [filters/router/upstream_request.cc] and [router.h]: requests
      over the pool or over a multiplexed connection.  [RequestOwner] is the interface
      between a request and the object that owns it; it has two instances.
    - [Router]: [filters/router/router_impl.cc], the first owner.  [RouterTracing] has
      the decision to trace, [RouterAccount] the account of connections over all
      sequences of events, [RouterOutcome] what becomes of a request, [RouterWitness]
      the witnesses.
    - [HandlerRouter]: the functions that [UpstreamHandler] calls, which are those of
      routers: responses of multiplexed connections from the handler to the router.
    - [ShadowWriter]: [filters/router/shadow_writer_impl.cc], mirrored requests, the
      second owner; [ShadowBehaviour] its theorems.
    - [Rds]: [route/rds_impl.cc], [route_config_update_receiver_impl.cc] and
      [config_impl.cc]: the subscription to the control plane, the configurations of
      the worker threads, the providers and their manager; [RdsBehaviour] its theorems.
    - [GlobalRateLimit]: [filters/global_ratelimit].
    - [IstioStats]: [filters/metadata_exchange] and [filters/istio_stats], on top of
      [Base64].
    - [Listener]: [config.cc] and [tracing/tracer_manager_impl.cc]: the configurations of
      the listeners, which share the providers of [Rds] and the tracers;
      [ListenerBehaviour] its theorems, over all sequences of listeners and updates.
    - [Chain]: the factories of the filters ([config.cc of each filter]) and the filters that
      they create as programs over the callbacks of [ConnManager], with the routes of [Rds]:
      an instance of [ProxyConfig].  [ChainBehaviour] follows a request through it,
      [ChainEvents] one that waits for its connection, [ChainResponse] a response;
      [ChainWitness] has the witnesses.

    ** What the theorems show

    - Framing.  [decoder_segmentation_independent] says that the decoder delivers
      the messages of the framing of the stream, however it is cut into reads;
      [trpc_decode_refines_framing] and [dubbo_decode_refines_framing] that the codecs
      implement such a framing.  The
      bRPC codec does not: [brpc_partial_message_panics].
    - Thrift: a message of the grammar is copied byte for byte and its header reported
      ([thrift_decode_message]), however it is cut into reads ([thrift_message_in_pieces]),
      also by a codec that has yet to find out the format; the grammar is that of formats
      like the binary one, whose items do not depend on each other, so it does not cover
      the compact protocol.  For any protocol that keeps [ProtocolLaws] it makes no
      difference to wait for bytes ([thrift_run_segmented]), the machine ends on any input
      ([thrift_run_terminates]) and no assertion fails ([thrift_decode_safe]).
    - Round trips and rewriting: fixed headers, Base64, heartbeats, trace reasons,
      and the mutation of the headers and attachments of a message
      ([trpc_encode_mutation], [dubbo_encode_mutation]).
    - The connection manager: [conn_manager_invariant] and
      [messages_outlive_events] are about every reachable state, for every
      configuration of filters; the theorems of [ConnBehaviour] about the branches
      of the operations: the filters are called in their order until one ends the chain
      ([filter_chain_order]), every outcome of a response ([upstream_response_outcome]),
      and what a stream does with whatever arrives ([stream_forwards_messages]).
    - From end to end: with metadata exchange, statistics, the global rate limiter and the
      router in the chain, a request that they let pass is written once to its upstream,
      with what each of them adds ([request_sent_once]); one that is refused is answered
      once and deleted ([request_refused_once]); one that waits for a connection is sent or
      answered when the pool calls ([waiting_request_settled]); a response is written once to the client
      ([response_forwarded_once]).
    - Multiplexing: a response goes to the client and to the router of its request, once
      ([handler_delivers_responses]); this needs the router to be alive, since nothing
      takes its callback off the handler, and for a response in more than one read it needs
      the bit that [upstream_response.h] does not initialise to be clear.  The callbacks
      that wait for a connection are told of it in their order ([handler_pool_notifies]).
    - The router: a request is written once or answered once
      ([router_request_sent], [router_request_refused]); over every sequence of events
      the connections it gets are given back ([router_connections_settled]); the
      decision to trace is made once ([router_trace_propagated]).  Mirrored responses
      are thrown away ([shadow_response_discarded]).
    - Rate limits: the bound of a bucket under any interleaving of threads,
      including weak compare-and-swaps that fail and loads of old values; the decision
      of the global limiter for rules with conditions ([global_rate_limit_decision]; a rule
      without asks nobody, [rl_without_conditions]).
    - Routes: the first match, and the share of each weighted cluster.  An update is
      applied as a whole or refused ([rds_update_outcome]), the worker threads follow the
      accepted ones in order ([rds_threads_follow]), and the conversion of a configuration
      loses the fractions of mirrors only ([rds_conversion_roundtrip]).  Every listener
      routes by a provider that is alive ([listener_routes_served]), and listeners that
      name a tracing provider share tracers by its configuration ([listener_tracers_shared];
      without one the bootstrap configuration counts, [listener_default_tracer]).
    - Statistics: the proxies at the two ends of a request report it with the same source
      and destination ([proxies_report_alike]).
    - Errors: inputs that stop the process, loop for ever or throw what nobody
      catches are stated as theorems of their own.

    ** Parameters

    Code outside the repository is an argument of the definitions that use it:
    Envoy's buffers and header maps ([Envoy], laws [EnvoyLaws]), connections
    ([NetworkOps], [NetworkLaws]), header matching, weighted choice and runtime
    ([HeaderMatching], [RouteEnv], [RouteEnvLaws]), protobuf classes ([TrpcPb],
    [BrpcPb], with parse after print as law), the Hessian2 library ([Hessian2],
    [Hessian2Laws]), Thrift protocols and transports ([ThriftProtocol] with
    [ProtocolLaws] and [WireProtocol], [ThriftTransport] with [TransportLaws] and
    [WireTransport]), connection pools and clusters ([RequestEnv]), the callbacks of
    the message as the router sees them with the runtime and the random generators
    ([RouterEnv]), tracing drivers ([TracingDriver], [TracingDriverLaws]), the hash
    of a route configuration and the clock ([RdsEnv]), the rate limit service
    ([RateLimitEnv]), the node metadata of Istio ([IstioEnv], [IstioLaws]), Envoy's
    registry of factories ([ConfigEnv]), the configuration as a connection sees it
    ([ProxyConfig], which [chain_proxy] instantiates) and the rest of it for the composed
    chain ([ChainEnv]).  Each class with laws
    has a concrete instance that satisfies them, with which the witnesses compute.

    ** Fuel

    The loops that are not structural take fuel, and running out of it is a value
    of its own, never a success.  The loop of the state machine of the Dubbo and
    bRPC codecs has 3 rounds: a round either ends it or goes to the next of two
    states.  The Thrift machine has no bound that does not depend on the input: its theorems
    ask for more fuel than [enough_fuel], which grows with the bytes of the buffer.
    [decode_loop] needs one round for each message and one more, which its theorem
    states; [resetAllMessages] as many as there are messages
    ([reset_all_messages]).  [resetStream] of a shadow router is entered at most twice
    ([closed_event_depth]).  That the dispatch loop of the source may not end is
    [trpc_zero_size_frame_loops]: every fuel runs out.

    ** Not modelled

    - The declarations of [application_protocols/thrift] that the codec does not use:
      protocol upgrades, spans and header transports.
    - In the composed chain: the local rate limiter, which shares its buckets between
      messages; a pool that reports a connection error while it is asked, whose
      [continueDecoding] enters the chain again; and what the upstream connection reports
      later, for which the router has theorems of its own ([RouterOutcome],
      [RouterAccount]) with its calls recorded.  The end-to-end theorems are about requests
      and responses without multiplexing, not about streams.
    - The init managers of Envoy around a subscription, of which it is recorded whether
      the subscription is ready, and the symbol table of the statistics.
    - The registration of factories under names, which macros of Envoy do, and the
      factories of codecs.  The factories of [Listener] are names that the registry
      resolves; those of [Chain] are the filters they create.
    - [filters/metadata_exchange/base64.h], a second copy of [filters/common/base64.h] that
      no file includes; the span that does nothing ([tracing/null_span_impl.h]).
    - [onDestroy] of the filters of a message that is destroyed: it is recorded that it is
      called, once ([destroyed]), and not run on the filter; the router's is in [Router].
    - Calls from inside: the operations of a router record their calls, which [ChainEvents]
      and [HandlerRouter] carry out after the operation.  The calls that they
      carry out are the last things the operations do, or are not looked at by the rest.
    - What an access log writes; that an entry is written is one of the recorded calls.
    - Watermark callbacks of the connection manager: they switch reading on and
      off in the socket. *)

From stdpp Require Export base strings pretty numbers gmap sorting.
From stdpp Require Export list.

#[global] Open Scope Z_scope.

(** ** Outcomes of C++ code

    A function of the source either returns, throws one of the exceptions the
    sources throw or let escape, or stops the process: [PANIC], a failed
    [ASSERT] (debug builds) and undefined behaviour are all [Panic]. *)

Inductive exn : Type :=
| EnvoyException (what : string)
| DownstreamConnectionCloseException (what : string)
| BadAnyCast.

Inductive outcome (A : Type) : Type :=
| Return (a : A)
| Throw (e : exn)
| Panic (why : string).
Arguments Return {A} _.
Arguments Throw {A} _.
Arguments Panic {A} _.

#[global] Instance exn_eq_dec : EqDecision exn.
Proof. solve_decision. Defined.

#[global] Instance outcome_ret : MRet outcome := fun A a => Return a.
#[global] Instance outcome_bind : MBind outcome := fun A B f o =>
  match o with Return a => f a | Throw e => Throw e | Panic w => Panic w end.
#[global] Instance outcome_fmap : FMap outcome := fun A B f o =>
  match o with Return a => Return (f a) | Throw e => Throw e | Panic w => Panic w end.

(** [ASSERT(b)]. *)
Definition assert_that (b : bool) (why : string) : outcome unit :=
  if b then Return tt else Panic why.

(** ** State passing with exceptions

    [M S A] is a C++ member function over the state [S]: the state reached so
    far survives a [throw], as it does in the source. *)

Definition M (S A : Type) : Type := S → outcome A * S.

Section monad.
Context {S : Type}.

#[global] Instance M_ret : MRet (M S) := fun A a s => (Return a, s).
#[global] Instance M_bind : MBind (M S) := fun A B f m s =>
  match m s with
  | (Return a, s') => f a s'
  | (Throw e, s') => (Throw e, s')
  | (Panic w, s') => (Panic w, s')
  end.

Definition gets {A} (f : S → A) : M S A := fun s => (Return (f s), s).
Definition modify (f : S → S) : M S unit := fun s => (Return tt, f s).
Definition throw {A} (e : exn) : M S A := fun s => (Throw e, s).
Definition panic {A} (w : string) : M S A := fun s => (Panic w, s).
Definition lift {A} (o : outcome A) : M S A := fun s => (o, s).
Definition ASSERT (b : bool) (w : string) : M S unit := lift (assert_that b w).

(** [try { m } catch (e) { h e }]; a [Panic] is not an exception. *)
Definition try_catch {A} (m : M S A) (h : exn → M S A) : M S A := fun s =>
  match m s with
  | (Throw e, s') => h e s'
  | r => r
  end.

(** [catch (const EnvoyException&)]: [std::bad_any_cast] is none. *)
Definition catch_envoy {A} (m : M S A) (f : exn → M S A) : M S A :=
  try_catch m (λ e, match e with BadAnyCast => throw e | _ => f e end).

Lemma run_bind {A B} (m : M S A) (f : A → M S B) s :
  (m ≫= f) s =
    match m s with
    | (Return a, s') => f a s'
    | (Throw e, s') => (Throw e, s')
    | (Panic w, s') => (Panic w, s')
    end.
Proof. done. Qed.

Lemma bind_ret_l {A B} (a : A) (f : A → M S B) s : (mret a ≫= f) s = f a s.
Proof. done. Qed.

Lemma bind_assoc {A B C} (m : M S A) (f : A → M S B) (g : B → M S C) s :
  ((m ≫= f) ≫= g) s = (m ≫= (λ a, f a ≫= g)) s.
Proof. rewrite !run_bind. by destruct (m s) as [[] ?]. Qed.
End monad.

(** ** Frame rules

    [frames R m]: whatever [m] ends with, it takes a state to a related one.  For
    a preorder [R] this is closed under the constructs of the monad, so that the
    tactic [frames_auto] reduces a program to the primitive updates in it. *)

Section frames.
Context {S : Type} (R : relation S).

Definition frames {A} (m : M S A) : Prop := ∀ s, R s (m s).2.

Context {PO : PreOrder R}.

Lemma frames_ret {A} (a : A) : frames (mret a).
Proof. intros s. cbn. reflexivity. Qed.
Lemma frames_gets {A} (f : S → A) : frames (gets f).
Proof. intros s. cbn. reflexivity. Qed.
Lemma frames_lift {A} (o : outcome A) : frames (lift o).
Proof. intros s. cbn. reflexivity. Qed.
Lemma frames_throw {A} e : frames (A := A) (throw e).
Proof. intros s. cbn. reflexivity. Qed.
Lemma frames_panic {A} w : frames (A := A) (panic w).
Proof. intros s. cbn. reflexivity. Qed.
Lemma frames_ASSERT b w : frames (ASSERT b w).
Proof. intros s. cbn. reflexivity. Qed.
Lemma frames_modify f : (∀ s, R s (f s)) → frames (modify f).
Proof. intros Hf s. apply Hf. Qed.
Lemma frames_bind {A B} (m : M S A) (f : A → M S B) : frames m → (∀ a, frames (f a)) → frames (m ≫= f).
Proof.
  intros Hm Hf s. rewrite run_bind. specialize (Hm s).
  destruct (m s) as [[a|e|w] s']; cbn in *; [| done | done]. etrans; [exact Hm | apply Hf].
Qed.
Lemma frames_try {A} (m : M S A) h : frames m → (∀ e, frames (h e)) → frames (try_catch m h).
Proof.
  intros Hm Hh s. unfold try_catch. specialize (Hm s).
  destruct (m s) as [[a|e|w] s']; cbn in *; [done | | done]. etrans; [exact Hm | apply Hh].
Qed.
Lemma frames_catch {A} (m : M S A) f : frames m → (∀ e, frames (f e)) → frames (catch_envoy m f).
Proof. intros. apply frames_try; [done |]. intros []; auto using frames_throw. Qed.
End frames.
#[global] Instance frames_params : Params (@frames) 3 := {}.

Create HintDb frames.
#[export] Hint Resolve frames_ret frames_gets frames_lift frames_throw frames_panic frames_ASSERT : frames.
Ltac frames_step :=
  match goal with
  | |- frames _ (@mbind _ _ _ _ _ _) => simple apply frames_bind; [try exact _ | | intros]
  | |- frames _ (try_catch _ _) => simple apply frames_try; [try exact _ | | intros]
  | |- frames _ (catch_envoy _ _) => simple apply frames_catch; [try exact _ | | intros]
  | |- frames _ (match ?x with _ => _ end) => destruct x
  | |- frames _ _ => solve [eauto with frames typeclass_instances]
  end.
Ltac frames_auto := repeat frames_step.

(** ** Functional record update: [r <| field := v |>] and [r <| field ::= f |>].

    A record gets an [Eta] instance, its own reconstruction from its
    projections; the update of a projection is computed from it. *)

Class Eta (R : Type) := eta : R → R.
Class Upd {R T : Type} (p : R → T) := upd : (T → T) → R → R.
Arguments upd {R T} p {_} f r.

Ltac solve_upd :=
  match goal with
  | |- @Upd ?R ?T ?p =>
      let e := eval unfold eta in (@eta R _) in
      let e := eval hnf in e in
      let g := eval pattern p in e in
      lazymatch g with
      | ?h p =>
          let r := eval cbv beta in (fun f : T → T => h (fun x => f (p x))) in
          exact r
      end
  end.
#[global] Hint Extern 0 (Upd _) => solve_upd : typeclass_instances.

Declare Scope record_scope.
#[global] Open Scope record_scope.
Notation "r <| p ::= f |>" := (upd p f r)
  (at level 1, p at next level, f at level 200, left associativity) : record_scope.
Notation "r <| p := v |>" := (upd p (fun _ => v) r)
  (at level 1, p at next level, v at level 200, left associativity) : record_scope.

(** ** Machine integers, kept in [Z] with the wrap-around written out *)

Definition u8 (z : Z) : Z := z `mod` 2 ^ 8.
Definition u16 (z : Z) : Z := z `mod` 2 ^ 16.
Definition u32 (z : Z) : Z := z `mod` 2 ^ 32.
Definition u64 (z : Z) : Z := z `mod` 2 ^ 64.

(** Two's complement reading of an unsigned value. *)
Definition to_i16 (z : Z) : Z := let w := u16 z in if w <? 2 ^ 15 then w else w - 2 ^ 16.
Definition to_i32 (z : Z) : Z := let w := u32 z in if w <? 2 ^ 31 then w else w - 2 ^ 32.
Definition to_i64 (z : Z) : Z := let w := u64 z in if w <? 2 ^ 63 then w else w - 2 ^ 64.

Lemma u8_range z : 0 ≤ u8 z < 256.
Proof. unfold u8. pose proof (Z.mod_pos_bound z (2 ^ 8)). lia. Qed.
Lemma u32_range z : 0 ≤ u32 z < 2 ^ 32.
Proof. unfold u32. pose proof (Z.mod_pos_bound z (2 ^ 32)). lia. Qed.
Lemma u64_range z : 0 ≤ u64 z < 2 ^ 64.
Proof. unfold u64. pose proof (Z.mod_pos_bound z (2 ^ 64)). lia. Qed.
Lemma u8_small z : 0 ≤ z < 256 → u8 z = z.
Proof. intros. unfold u8. apply Z.mod_small. lia. Qed.
Lemma u16_small z : 0 ≤ z < 2 ^ 16 → u16 z = z.
Proof. intros. unfold u16. apply Z.mod_small. lia. Qed.
Lemma u32_small z : 0 ≤ z < 2 ^ 32 → u32 z = z.
Proof. intros. unfold u32. apply Z.mod_small. lia. Qed.
Lemma u64_small z : 0 ≤ z < 2 ^ 64 → u64 z = z.
Proof. intros. unfold u64. apply Z.mod_small. lia. Qed.
Lemma to_i64_u64 z : u64 (to_i64 z) = u64 z.
Proof.
  unfold to_i64. pose proof (u64_range z). destruct (Z.ltb_spec (u64 z) (2 ^ 63)).
  - by apply u64_small.
  - unfold u64 at 1. rewrite <- (Z_mod_plus_full _ 1).
    replace (u64 z - 2 ^ 64 + 1 * 2 ^ 64) with (u64 z) by lia. by apply Z.mod_small.
Qed.

(** ** Bytes: a byte is a [Z] below 256, a byte string a list of them *)

Abbreviation bytes := (list Z).
Definition is_byte (z : Z) : Prop := 0 ≤ z < 256.
Abbreviation is_bytes := (Forall is_byte).

#[global] Instance is_byte_dec z : Decision (is_byte z).
Proof. unfold is_byte. apply _. Defined.

(** Length as the [size_t] the source computes with. *)
Definition zlen {A} (l : list A) : Z := Z.of_nat (length l).

Lemma zlen_nonneg {A} (l : list A) : 0 ≤ zlen l.
Proof. unfold zlen. lia. Qed.
Lemma zlen_app {A} (l k : list A) : zlen (l ++ k) = zlen l + zlen k.
Proof. unfold zlen. rewrite length_app. lia. Qed.
Lemma zlen_cons {A} (x : A) l : zlen (x :: l) = zlen l + 1.
Proof. unfold zlen. cbn. lia. Qed.
Lemma zlen_nil {A} : zlen (@nil A) = 0.
Proof. done. Qed.
Lemma zlen_0_nil {A} (l : list A) : zlen l = 0 → l = [].
Proof. unfold zlen. destruct l; cbn; [done | lia]. Qed.

(** [take]/[drop] by a [Z] count, the way sizes appear in the source. *)
Definition ztake {A} (n : Z) (l : list A) : list A := take (Z.to_nat n) l.
Definition zdrop {A} (n : Z) (l : list A) : list A := drop (Z.to_nat n) l.

Lemma ztake_zdrop {A} n (l : list A) : ztake n l ++ zdrop n l = l.
Proof. apply take_drop. Qed.
Lemma zlen_ztake {A} n (l : list A) : 0 ≤ n ≤ zlen l → zlen (ztake n l) = n.
Proof. unfold zlen, ztake. rewrite length_take. lia. Qed.
Lemma zlen_zdrop {A} n (l : list A) : 0 ≤ n ≤ zlen l → zlen (zdrop n l) = zlen l - n.
Proof. unfold zlen, zdrop. rewrite length_drop. lia. Qed.
Lemma ztake_app {A} n (l k : list A) : 0 ≤ n ≤ zlen l → ztake n (l ++ k) = ztake n l.
Proof. unfold zlen, ztake. intros. rewrite take_app_le; [done | lia]. Qed.
Lemma zdrop_app {A} n (l k : list A) : 0 ≤ n ≤ zlen l → zdrop n (l ++ k) = zdrop n l ++ k.
Proof. unfold zlen, zdrop. intros. rewrite drop_app_le; [done | lia]. Qed.
Lemma ztake_app_exact {A} (l k : list A) : ztake (zlen l) (l ++ k) = l.
Proof. unfold zlen, ztake. rewrite Nat2Z.id. by rewrite take_app_length. Qed.
Lemma zdrop_app_exact {A} (l k : list A) : zdrop (zlen l) (l ++ k) = k.
Proof. unfold zlen, zdrop. rewrite Nat2Z.id. by rewrite drop_app_length. Qed.
Lemma zdrop_zdrop {A} m n (l : list A) : 0 ≤ m → 0 ≤ n → zdrop m (zdrop n l) = zdrop (n + m) l.
Proof. unfold zdrop. intros. rewrite drop_drop. f_equal. lia. Qed.
Lemma zdrop_0 {A} (l : list A) : zdrop 0 l = l.
Proof. done. Qed.
Lemma ztake_0 {A} (l : list A) : ztake 0 l = [].
Proof. done. Qed.
Lemma ztake_all {A} (l : list A) : ztake (zlen l) l = l.
Proof. unfold zlen, ztake. rewrite Nat2Z.id. by rewrite firstn_all. Qed.
Lemma zdrop_all {A} (l : list A) : zdrop (zlen l) l = [].
Proof. unfold zlen, zdrop. rewrite Nat2Z.id. by rewrite drop_all. Qed.
Lemma ztake_app_add {A} m n (l : list A) :
  0 ≤ m → 0 ≤ n → ztake m l ++ ztake n (zdrop m l) = ztake (m + n) l.
Proof.
  intros. unfold ztake, zdrop. rewrite take_take_drop. f_equal. lia.
Qed.
Lemma Forall_ztake {A} (P : A → Prop) n l : Forall P l → Forall P (ztake n l).
Proof. apply Forall_take. Qed.
Lemma Forall_zdrop {A} (P : A → Prop) n l : Forall P l → Forall P (zdrop n l).
Proof. apply Forall_drop. Qed.

(** Big-endian integers. *)
Fixpoint be_combine_acc (acc : Z) (l : bytes) : Z :=
  match l with [] => acc | b :: l => be_combine_acc (acc * 256 + b) l end.
Definition be_combine (l : bytes) : Z := be_combine_acc 0 l.

Fixpoint be_split (n : nat) (z : Z) : bytes :=
  match n with
  | O => []
  | S n => be_split n (z / 256) ++ [z `mod` 256]
  end.

Lemma be_combine_acc_app acc l k :
  be_combine_acc acc (l ++ k) = be_combine_acc (be_combine_acc acc l) k.
Proof. revert acc. induction l as [|b l IH]; intros acc; cbn; auto. Qed.

Lemma length_be_split n z : length (be_split n z) = n.
Proof. revert z. induction n; intros; cbn; [done |]. rewrite length_app, IHn. cbn. lia. Qed.
Lemma zlen_be_split n z : zlen (be_split n z) = Z.of_nat n.
Proof. unfold zlen. by rewrite length_be_split. Qed.

Lemma be_split_bytes n z : is_bytes (be_split n z).
Proof.
  revert z. induction n; intros; cbn; [constructor |].
  apply Forall_app. split; [done |]. repeat constructor; pose proof (Z.mod_pos_bound z 256); lia.
Qed.

Lemma be_combine_snoc l b : be_combine (l ++ [b]) = be_combine l * 256 + b.
Proof. unfold be_combine. by rewrite be_combine_acc_app. Qed.

Lemma be_combine_split n z : be_combine (be_split n z) = z `mod` 256 ^ Z.of_nat n.
Proof.
  revert z. induction n as [|n IH]; intros z; cbn [be_split].
  - cbn. by rewrite Z.mod_1_r.
  - rewrite be_combine_snoc, IH, Nat2Z.inj_succ, Z.pow_succ_r by lia.
    rewrite Z.rem_mul_r by lia. lia.
Qed.

Lemma be_combine_split_small n z :
  0 ≤ z < 256 ^ Z.of_nat n → be_combine (be_split n z) = z.
Proof. intros. rewrite be_combine_split. by apply Z.mod_small. Qed.

Lemma be_combine_bound l : is_bytes l → 0 ≤ be_combine l < 256 ^ zlen l.
Proof.
  induction l as [|b l IH] using rev_ind; intros Hl.
  - vm_compute. done.
  - apply Forall_app in Hl as [Hl Hb]. inversion Hb as [|? ? Hb' _]; subst.
    rewrite be_combine_snoc, zlen_app, Z.pow_add_r by (apply zlen_nonneg || done).
    specialize (IH Hl). unfold is_byte in Hb'. change (256 ^ zlen [b]) with 256. nia.
Qed.

Lemma be_split_combine l : is_bytes l → be_split (length l) (be_combine l) = l.
Proof.
  induction l as [|b l IH] using rev_ind; intros Hl; [done |].
  apply Forall_app in Hl as [Hl Hb]. inversion Hb as [|? ? Hb' _]; subst.
  rewrite length_app, Nat.add_comm, be_combine_snoc. cbn [length Nat.add be_split].
  unfold is_byte in Hb'. rewrite Z.add_comm, Z.div_add, Z.div_small by lia.
  rewrite Z.mod_add, Z.mod_small by lia. by rewrite Z.add_0_l, IH.
Qed.

(** The integer at a byte offset, as [peekBEInt] reads it. *)
Definition be_at (n : Z) (off : Z) (l : bytes) : Z := be_combine (ztake n (zdrop off l)).

Lemma be_at_app n off l k :
  0 ≤ n → 0 ≤ off → off + n ≤ zlen l → be_at n off (l ++ k) = be_at n off l.
Proof.
  intros. unfold be_at. rewrite zdrop_app by lia. rewrite ztake_app; [done |].
  rewrite zlen_zdrop; lia.
Qed.

Lemma be_at_bound n off l :
  is_bytes l → 0 ≤ n → 0 ≤ off → off + n ≤ zlen l → 0 ≤ be_at n off l < 256 ^ n.
Proof.
  intros Hl ???. unfold be_at.
  assert (zlen (ztake n (zdrop off l)) = n) as Hn.
  { apply zlen_ztake. rewrite zlen_zdrop; lia. }
  rewrite <- Hn at 3. apply be_combine_bound. by apply Forall_ztake, Forall_zdrop.
Qed.

(** ** Strings: the order [std::map] iterates in *)

Lemma ascii_compare_N a b : Ascii.compare a b = N.compare (Ascii.N_of_ascii a) (Ascii.N_of_ascii b).
Proof. done. Qed.

Lemma String_leb_trans a b c :
  is_true (String.leb a b) → is_true (String.leb b c) → is_true (String.leb a c).
Proof.
  revert b c. unfold is_true, String.leb.
  induction a as [|x a IH]; intros [|y b] [|z c]; cbn; try done.
  rewrite !ascii_compare_N.
  destruct (N.compare_spec (Ascii.N_of_ascii x) (Ascii.N_of_ascii y)),
    (N.compare_spec (Ascii.N_of_ascii y) (Ascii.N_of_ascii z)),
    (N.compare_spec (Ascii.N_of_ascii x) (Ascii.N_of_ascii z)); try done; try lia.
  apply IH.
Qed.

(** ** Pairs and lists *)

Lemma pair_fst {A B} (p : A * B) (a : A) : p.1 = a → p = (a, p.2).
Proof. by intros <-; destruct p. Qed.

Lemma StronglySorted_omap {A B} (R : relation A) (R' : relation B) (f : A → option B) l :
  (∀ x x' y y', R x x' → f x = Some y → f x' = Some y' → R' y y') →
  StronglySorted R l → StronglySorted R' (omap f l).
Proof.
  intros Hf. induction 1 as [|x l Hl IH Hx]; cbn; [constructor |].
  destruct (f x) as [y|] eqn:Ey; [| done]. constructor; [done |].
  apply Forall_forall. intros y' (x' & Hx' & Ey')%list_elem_of_omap.
  rewrite Forall_forall in Hx. eauto.
Qed.

(** ** Automation *)

Create HintDb mpp.
#[export] Hint Resolve zlen_nonneg be_split_bytes Forall_ztake Forall_zdrop : mpp.

(** Unfolds record updates and computes. *)
Ltac unfold_upd := unfold upd in *; cbn in *.

(** Runs the first steps of a monadic program whose results are known. *)
Ltac mstep :=
  repeat progress (rewrite ?run_bind; cbn [gets modify lift throw panic mret M_ret ASSERT assert_that];
                   cbv beta iota).

(** Case analysis on the next [if]/[match] of the goal or of a hypothesis,
    with comparisons turned into facts [lia] can use. *)
Ltac split_cmp :=
  match goal with
  | |- context [?a <? ?b] => destruct (Z.ltb_spec a b)
  | |- context [?a <=? ?b] => destruct (Z.leb_spec a b)
  | |- context [?a =? ?b] => destruct (Z.eqb_spec a b)
  | H : context [?a <? ?b] |- _ => destruct (Z.ltb_spec a b)
  | H : context [?a <=? ?b] |- _ => destruct (Z.leb_spec a b)
  | H : context [?a =? ?b] |- _ => destruct (Z.eqb_spec a b)
  end.
