(* ===== verification/Base64.v ===== *)
(** * Base64 of the peer metadata headers

    Model of [filters/common/base64.h] (the copy under
    [filters/metadata_exchange] is the same text).  Strings are byte lists;
    [std::string::back] on an empty string, an index past the input and a
    failed [ASSERT] are [Panic].

    The proofs go through two reference functions on 6-bit digits, [digits]
    (what encoding emits) and [octets] (what decoding has accumulated after a
    run of digits): the loops of the source are shown to compute them one
    character at a time, and the round trips are then statements about them. *)

From Stdlib Require Import ZifyNat.
From S2P Require Import Prelude.

(** [lia] with division and modulo by constants. *)
Ltac Zify.zify_post_hook ::= Z.to_euclidean_division_equations.

(** ** Tables *)

Definition CHAR_TABLE : bytes :=
  (λ c, Z.of_N (Ascii.N_of_ascii c)) <$>
    String.list_ascii_of_string
      "ABCDEFGHIJKLMNOPQRSTUVWXYZabcdefghijklmnopqrstuvwxyz0123456789+/".

Definition REVERSE_LOOKUP_TABLE : bytes :=
  replicate 43 64 ++ [62; 64; 64; 64; 63] ++
  [52; 53; 54; 55; 56; 57; 58; 59; 60; 61] ++ replicate 7 64 ++
  (Z.of_nat <$> seq 0 26) ++ replicate 6 64 ++ (Z.of_nat <$> seq 26 26) ++
  replicate 133 64.

Definition char_at (i : Z) : Z := nth (Z.to_nat i) CHAR_TABLE 0.
Definition reverse_at (c : Z) : Z := nth (Z.to_nat c) REVERSE_LOOKUP_TABLE 64.

Definition pad_char : Z := 61.

(** ** std::string helpers *)

(** [ret.back() |= v]. *)
Definition back_or (v : Z) (ret : bytes) : outcome bytes :=
  match reverse ret with
  | [] => Panic "back() of an empty string"
  | x :: r => Return (reverse r ++ [Z.lor x v])
  end.

(** ** Decoding *)

(** The result is the [bool] of the source with the updated [ret]. *)
Definition decodeBase (cur_char pos : Z) (ret : bytes) : outcome (bool * bytes) :=
  let c := reverse_at cur_char in
  if c =? 64 then Return (false, ret) else
  match pos `mod` 4 with
  | 0 => Return (true, ret ++ [u8 (Z.shiftl c 2)])
  | 1 => ret ← back_or (Z.shiftr c 4) ret; Return (true, ret ++ [u8 (Z.shiftl c 4)])
  | 2 => ret ← back_or (Z.shiftr c 2) ret; Return (true, ret ++ [u8 (Z.shiftl c 6)])
  | 3 => ret ← back_or c ret; Return (true, ret)
  | _ => Return (true, ret)
  end.

Definition decodeLast (cur_char pos : Z) (ret : bytes) : outcome (bool * bytes) :=
  let c := reverse_at cur_char in
  if c =? 64 then Return (false, ret) else
  match pos `mod` 4 with
  | 0 => Return (false, ret)
  | 1 => ret ← back_or (Z.shiftr c 4) ret; Return (Z.land c 15 =? 0, ret)
  | 2 => ret ← back_or (Z.shiftr c 2) ret; Return (Z.land c 3 =? 0, ret)
  | 3 => ret ← back_or c ret; Return (true, ret)
  | _ => Return (true, ret)
  end.

(** The loop [for (i = 0; i < last; ++i)], which stops early on a character
    outside the alphabet.  It reads one character of [input] per iteration,
    so the length of [input] bounds the iterations. *)
Fixpoint decode_loop (fuel : nat) (i last : Z) (input ret : bytes) : outcome (option bytes) :=
  if last <=? i then Return (Some ret) else
  match fuel with
  | O => Panic "input index out of range"
  | S fuel =>
      match input !! Z.to_nat i with
      | None => Panic "input index out of range"
      | Some ch =>
          '(ok, ret) ← decodeBase ch i ret;
          if (ok : bool) then decode_loop fuel (u64 (i + 1)) last input ret else Return None
      end
  end.

Definition decodeWithoutPadding (input : bytes) : outcome bytes :=
  if bool_decide (input = []) then Return [] else
  let n := zlen input in
  let ends_with_pad n := bool_decide (input !! Z.to_nat (n - 1) = Some pad_char) in
  let n := if ends_with_pad n
           then let n := n - 1 in if (0 <? n) && ends_with_pad n then n - 1 else n
           else n in
  let last := u64 (n - 1) in
  let max_length := u64 ((n + 3) / 4 * 3) in
  let max_length := if n `mod` 4 =? 3 then u64 (max_length - 1) else max_length in
  let max_length := if n `mod` 4 =? 2 then u64 (max_length - 2) else max_length in
  r ← decode_loop (length input) 0 last input [];
  match r with
  | None => Return []
  | Some ret =>
      match input !! Z.to_nat last with
      | None => Panic "input index out of range"
      | Some ch =>
          '(ok, ret) ← decodeLast ch last ret;
          if (ok : bool) then
            _ ← assert_that (zlen ret =? max_length) "ret.size() == max_length";
            Return ret
          else Return []
      end
  end.

(** ** Encoding *)

Definition encodeBase (cur_char pos next_c : Z) (ret : bytes) : Z * bytes :=
  match pos `mod` 3 with
  | 0 => (u8 (Z.shiftl (Z.land cur_char 3) 4), ret ++ [char_at (Z.shiftr cur_char 2)])
  | 1 => (u8 (Z.shiftl (Z.land cur_char 15) 2),
          ret ++ [char_at (Z.lor next_c (Z.shiftr cur_char 4))])
  | 2 => (0, ret ++ [char_at (Z.lor next_c (Z.shiftr cur_char 6))]
                 ++ [char_at (Z.land cur_char 63)])
  | _ => (next_c, ret)
  end.

Definition encodeLast (pos last_char : Z) (ret : bytes) (add_padding : bool) : bytes :=
  match pos `mod` 3 with
  | 1 => ret ++ [char_at last_char] ++ (if add_padding then [pad_char; pad_char] else [])
  | 2 => ret ++ [char_at last_char] ++ (if add_padding then [pad_char] else [])
  | _ => ret
  end.

Fixpoint encode_loop (input : bytes) (pos next_c : Z) (ret : bytes) : Z * Z * bytes :=
  match input with
  | [] => (pos, next_c, ret)
  | x :: input =>
      let '(next_c, ret) := encodeBase x pos next_c ret in
      encode_loop input (u64 (pos + 1)) next_c ret
  end.

Definition encode (input : bytes) (add_padding : bool) : bytes :=
  let '(pos, next_c, ret) := encode_loop input 0 0 [] in
  encodeLast pos next_c ret add_padding.

Example encode_man : encode [77; 97; 110; 33] true = [84; 87; 70; 117; 73; 81; 61; 61].
Proof. vm_compute. reflexivity. Qed.
Example decode_man : decodeWithoutPadding [84; 87; 70; 117; 73; 81; 61; 61] = Return [77; 97; 110; 33].
Proof. vm_compute. reflexivity. Qed.
Example decode_only_padding : decodeWithoutPadding [61; 61] = Return [].
Proof. vm_compute. reflexivity. Qed.

(** ** Reference functions on 6-bit digits *)

Definition digit (v : Z) : Prop := 0 ≤ v < 64.

(** The digits encoding emits for a byte string. *)
Fixpoint digits (xs : bytes) : bytes :=
  match xs with
  | a :: b :: c :: xs =>
      Z.shiftr a 2 :: Z.lor (Z.shiftl (Z.land a 3) 4) (Z.shiftr b 4)
        :: Z.lor (Z.shiftl (Z.land b 15) 2) (Z.shiftr c 6) :: Z.land c 63 :: digits xs
  | [a; b] => [Z.shiftr a 2; Z.lor (Z.shiftl (Z.land a 3) 4) (Z.shiftr b 4);
               Z.shiftl (Z.land b 15) 2]
  | [a] => [Z.shiftr a 2; Z.shiftl (Z.land a 3) 4]
  | [] => []
  end.

(** The bytes decoding has accumulated after a run of digits: the last byte
    may still be partial. *)
Fixpoint octets (vs : bytes) : bytes :=
  match vs with
  | v0 :: v1 :: v2 :: v3 :: vs =>
      Z.lor (u8 (Z.shiftl v0 2)) (Z.shiftr v1 4)
        :: Z.lor (u8 (Z.shiftl v1 4)) (Z.shiftr v2 2)
        :: Z.lor (u8 (Z.shiftl v2 6)) v3 :: octets vs
  | [v0; v1; v2] =>
      [Z.lor (u8 (Z.shiftl v0 2)) (Z.shiftr v1 4);
       Z.lor (u8 (Z.shiftl v1 4)) (Z.shiftr v2 2); u8 (Z.shiftl v2 6)]
  | [v0; v1] => [Z.lor (u8 (Z.shiftl v0 2)) (Z.shiftr v1 4); u8 (Z.shiftl v1 4)]
  | [v0] => [u8 (Z.shiftl v0 2)]
  | [] => []
  end.

(** The bytes of a complete digit string: a trailing partial byte is dropped,
    and its bits must be zero. *)
Definition complete (vs : bytes) : bytes := take (length vs * 3 / 4) (octets vs).

Definition canonical (vs : bytes) : bool :=
  match (length vs `mod` 4)%nat with
  | 0%nat => true
  | 2%nat => Z.land (List.last vs 0) 15 =? 0
  | 3%nat => Z.land (List.last vs 0) 3 =? 0
  | _ => false
  end.

Lemma list_ind3 {A} (P : list A → Prop) :
  P [] → (∀ a, P [a]) → (∀ a b, P [a; b]) →
  (∀ a b c l, P l → P (a :: b :: c :: l)) → ∀ l, P l.
Proof.
  intros H0 H1 H2 H3. fix IH 1. intros [|a [|b [|c l]]]; [done | done | done |].
  apply H3, IH.
Qed.

Lemma list_ind4 {A} (P : list A → Prop) :
  P [] → (∀ a, P [a]) → (∀ a b, P [a; b]) → (∀ a b c, P [a; b; c]) →
  (∀ a b c d l, P l → P (a :: b :: c :: d :: l)) → ∀ l, P l.
Proof.
  intros H0 H1 H2 H3 H4. fix IH 1. intros [|a [|b [|c [|d l]]]]; [done | done | done | done |].
  apply H4, IH.
Qed.

(** *** Bit facts, checked on all bytes *)

Definition upto (n : nat) : list Z := Z.of_nat <$> seq 0 n.

Lemma upto_forall n (p : Z → bool) :
  forallb p (upto n) = true → ∀ z, 0 ≤ z < Z.of_nat n → p z = true.
Proof.
  intros H z Hz. rewrite forallb_forall in H. apply H.
  unfold upto. apply list_elem_of_In, list_elem_of_fmap. exists (Z.to_nat z).
  split; [lia |]. apply elem_of_seq. lia.
Qed.

Lemma upto_forall2 n m (p : Z → Z → bool) :
  forallb (λ x, forallb (p x) (upto m)) (upto n) = true →
  ∀ x y, 0 ≤ x < Z.of_nat n → 0 ≤ y < Z.of_nat m → p x y = true.
Proof.
  intros H x y Hx Hy. apply (upto_forall m (p x)); [| done].
  apply (upto_forall n (λ x, forallb (p x) (upto m))); done.
Qed.

(** Byte 0 of a group. *)
Lemma bits_b0 a b : is_byte a → is_byte b →
  Z.lor (u8 (Z.shiftl (Z.shiftr a 2) 2))
        (Z.shiftr (Z.lor (Z.shiftl (Z.land a 3) 4) (Z.shiftr b 4)) 4) = a.
Proof.
  intros Ha Hb. apply Z.eqb_eq.
  apply (upto_forall2 256 256 (λ a b, Z.lor (u8 (Z.shiftl (Z.shiftr a 2) 2))
        (Z.shiftr (Z.lor (Z.shiftl (Z.land a 3) 4) (Z.shiftr b 4)) 4) =? a)); [| done..].
  vm_compute. reflexivity.
Qed.

Lemma bits_b1_hi a b : is_byte a → is_byte b →
  u8 (Z.shiftl (Z.lor (Z.shiftl (Z.land a 3) 4) (Z.shiftr b 4)) 4) = Z.shiftl (Z.shiftr b 4) 4.
Proof.
  intros Ha Hb. apply Z.eqb_eq.
  apply (upto_forall2 256 256 (λ a b, u8 (Z.shiftl (Z.lor (Z.shiftl (Z.land a 3) 4)
    (Z.shiftr b 4)) 4) =? Z.shiftl (Z.shiftr b 4) 4)); [| done..].
  vm_compute. reflexivity.
Qed.

Lemma bits_b1_lo b c : is_byte b → is_byte c →
  Z.lor (Z.shiftl (Z.shiftr b 4) 4)
        (Z.shiftr (Z.lor (Z.shiftl (Z.land b 15) 2) (Z.shiftr c 6)) 2) = b.
Proof.
  intros Ha Hb. apply Z.eqb_eq.
  apply (upto_forall2 256 256 (λ b c, Z.lor (Z.shiftl (Z.shiftr b 4) 4)
    (Z.shiftr (Z.lor (Z.shiftl (Z.land b 15) 2) (Z.shiftr c 6)) 2) =? b)); [| done..].
  vm_compute. reflexivity.
Qed.

Lemma bits_b2 b c : is_byte b → is_byte c →
  Z.lor (u8 (Z.shiftl (Z.lor (Z.shiftl (Z.land b 15) 2) (Z.shiftr c 6)) 6)) (Z.land c 63) = c.
Proof.
  intros Ha Hb. apply Z.eqb_eq.
  apply (upto_forall2 256 256 (λ b c, Z.lor (u8 (Z.shiftl (Z.lor (Z.shiftl (Z.land b 15) 2)
    (Z.shiftr c 6)) 6)) (Z.land c 63) =? c)); [| done..].
  vm_compute. reflexivity.
Qed.

Lemma digit_ranges a b : is_byte a → is_byte b →
  digit (Z.shiftr a 2) ∧ digit (Z.lor (Z.shiftl (Z.land a 3) 4) (Z.shiftr b 4)) ∧
  digit (Z.lor (Z.shiftl (Z.land a 15) 2) (Z.shiftr b 6)) ∧ digit (Z.land a 63).
Proof.
  intros Ha Hb. unfold digit.
  pose proof (upto_forall2 256 256 (λ a b,
    (0 <=? Z.shiftr a 2) && (Z.shiftr a 2 <? 64) &&
    ((0 <=? Z.lor (Z.shiftl (Z.land a 3) 4) (Z.shiftr b 4)) &&
     (Z.lor (Z.shiftl (Z.land a 3) 4) (Z.shiftr b 4) <? 64)) &&
    ((0 <=? Z.lor (Z.shiftl (Z.land a 15) 2) (Z.shiftr b 6)) &&
     (Z.lor (Z.shiftl (Z.land a 15) 2) (Z.shiftr b 6) <? 64)) &&
    ((0 <=? Z.land a 63) && (Z.land a 63 <? 64)))
    ltac:(vm_compute; reflexivity) a b Ha Hb) as H.
  cbv beta in H. rewrite !andb_true_iff, !Z.leb_le, !Z.ltb_lt in H. lia.
Qed.

(** The alphabet and its inverse. *)
Lemma reverse_char v : digit v → reverse_at (char_at v) = v ∧ char_at v ≠ pad_char.
Proof.
  intros Hv. pose proof (upto_forall 64 (λ v, (reverse_at (char_at v) =? v)
    && negb (char_at v =? pad_char)) ltac:(vm_compute; reflexivity) v Hv) as H.
  cbv beta in H. apply andb_true_iff in H as [H1 H2].
  apply Z.eqb_eq in H1. apply negb_true_iff, Z.eqb_neq in H2. done.
Qed.

Lemma char_reverse c : is_byte c → reverse_at c ≠ 64 → char_at (reverse_at c) = c ∧ digit (reverse_at c).
Proof.
  intros Hc Hn. pose proof (upto_forall 256 (λ c, (reverse_at c =? 64) ||
    ((char_at (reverse_at c) =? c) && (0 <=? reverse_at c) && (reverse_at c <? 64)))
    ltac:(vm_compute; reflexivity) c Hc) as H.
  cbv beta in H. apply orb_true_iff in H as [H | H]; [apply Z.eqb_eq in H; done |].
  rewrite !andb_true_iff, Z.eqb_eq, Z.leb_le, Z.ltb_lt in H. unfold digit. lia.
Qed.

(** ** Encoding computes [digits] *)

Definition padding (add_padding : bool) (xs : bytes) : bytes :=
  if add_padding then
    match (length xs `mod` 3)%nat with
    | 1%nat => [pad_char; pad_char]
    | 2%nat => [pad_char]
    | _ => []
    end
  else [].

Lemma next_c_small a : is_byte a →
  u8 (Z.shiftl (Z.land a 3) 4) = Z.shiftl (Z.land a 3) 4 ∧
  u8 (Z.shiftl (Z.land a 15) 2) = Z.shiftl (Z.land a 15) 2.
Proof.
  intros Ha. pose proof (upto_forall 256 (λ a,
    (u8 (Z.shiftl (Z.land a 3) 4) =? Z.shiftl (Z.land a 3) 4) &&
    (u8 (Z.shiftl (Z.land a 15) 2) =? Z.shiftl (Z.land a 15) 2))
    ltac:(vm_compute; reflexivity) a Ha) as H.
  cbv beta in H. rewrite andb_true_iff, !Z.eqb_eq in H. done.
Qed.

Lemma encodeBase_0 k x c ret :
  encodeBase x (3 * k) c ret =
    (u8 (Z.shiftl (Z.land x 3) 4), ret ++ [char_at (Z.shiftr x 2)]).
Proof. unfold encodeBase. by replace ((3 * k) `mod` 3) with 0 by lia. Qed.
Lemma encodeBase_1 k x c ret :
  encodeBase x (3 * k + 1) c ret =
    (u8 (Z.shiftl (Z.land x 15) 2), ret ++ [char_at (Z.lor c (Z.shiftr x 4))]).
Proof. unfold encodeBase. by replace ((3 * k + 1) `mod` 3) with 1 by lia. Qed.
Lemma encodeBase_2 k x c ret :
  encodeBase x (3 * k + 2) c ret =
    (0, ret ++ [char_at (Z.lor c (Z.shiftr x 6))] ++ [char_at (Z.land x 63)]).
Proof. unfold encodeBase. by replace ((3 * k + 2) `mod` 3) with 2 by lia. Qed.

Lemma encode_loop_spec xs k ret pad :
  is_bytes xs → 0 ≤ k → 3 * k + zlen xs < 2 ^ 64 →
  (let '(p, c, r) := encode_loop xs (3 * k) 0 ret in encodeLast p c r pad) =
    ret ++ (char_at <$> digits xs) ++ padding pad xs.
Proof.
  revert k ret. induction xs as [|a|a b|a b c xs IH] using list_ind3; intros k ret Hxs Hk Hlen;
    rewrite ?zlen_cons in Hlen.
  - cbn. unfold encodeLast. replace ((3 * k) `mod` 3) with 0 by lia.
    destruct pad; cbn; by rewrite app_nil_r.
  - inversion_clear Hxs as [|? ? Ha _]. cbn [encode_loop]. rewrite encodeBase_0.
    pose proof (zlen_nonneg (@nil Z)). rewrite u64_small by lia.
    unfold encodeLast. replace ((3 * k + 1) `mod` 3) with 1 by lia.
    destruct (next_c_small a Ha) as [-> _]. rewrite <- app_assoc. by destruct pad.
  - inversion_clear Hxs as [|? ? Ha Hb']. inversion_clear Hb' as [|? ? Hb _].
    cbn [encode_loop]. rewrite encodeBase_0. pose proof (zlen_nonneg (@nil Z)).
    rewrite (u64_small (3 * k + 1)) by lia. rewrite encodeBase_1, u64_small by lia.
    unfold encodeLast. replace ((3 * k + 1 + 1) `mod` 3) with 2 by lia.
    destruct (next_c_small a Ha) as [-> _]. destruct (next_c_small b Hb) as [_ ->].
    rewrite <- !app_assoc. by destruct pad.
  - inversion_clear Hxs as [|? ? Ha Hb']. inversion_clear Hb' as [|? ? Hb Hc'].
    inversion_clear Hc' as [|? ? Hc Hr].
    cbn [encode_loop]. rewrite encodeBase_0. pose proof (zlen_nonneg xs).
    rewrite (u64_small (3 * k + 1)) by lia. rewrite encodeBase_1.
    rewrite (u64_small (3 * k + 1 + 1)) by lia.
    replace (3 * k + 1 + 1) with (3 * k + 2) by lia. rewrite encodeBase_2.
    rewrite u64_small by lia. replace (3 * k + 2 + 1) with (3 * (k + 1)) by lia.
    rewrite IH by (done || lia).
    destruct (next_c_small a Ha) as [-> _]. destruct (next_c_small b Hb) as [_ ->].
    replace (padding pad (a :: b :: c :: xs)) with (padding pad xs).
    2: { unfold padding. cbn [length].
         by replace (S (S (S (length xs))) `mod` 3)%nat with (length xs `mod` 3)%nat by lia. }
    cbn [digits fmap list_fmap]. rewrite <- !app_assoc. done.
Qed.

Lemma encode_digits xs pad :
  is_bytes xs → zlen xs < 2 ^ 64 → encode xs pad = (char_at <$> digits xs) ++ padding pad xs.
Proof. intros. apply (encode_loop_spec xs 0 [] pad); [done | lia..]. Qed.

(** ** Decoding computes [octets] *)

Lemma split4 {A} (vs : list A) :
  ∃ al sh, vs = al ++ sh ∧ (length al `mod` 4 = 0)%nat ∧ (length sh < 4)%nat.
Proof.
  induction vs as [|a|a b|a b c|a b c d vs IH] using list_ind4.
  - exists [], []. split_and!; cbn; [done | done | lia].
  - exists [], [a]. split_and!; cbn; [done | done | lia].
  - exists [], [a; b]. split_and!; cbn; [done | done | lia].
  - exists [], [a; b; c]. split_and!; cbn; [done | done | lia].
  - destruct IH as (al & sh & -> & Hal & Hsh). exists (a :: b :: c :: d :: al), sh.
    split_and!; [done | cbn [length]; lia | done].
Qed.

Lemma octets_app al ws :
  (length al `mod` 4 = 0)%nat → octets (al ++ ws) = octets al ++ octets ws.
Proof.
  induction al as [|a|a b|a b c|a b c d al IH] using list_ind4; intros H; try (cbn in H; done).
  cbn [length] in H. cbn [app octets]. rewrite IH by lia. done.
Qed.

Lemma back_or_snoc v l x : back_or v (l ++ [x]) = Return (l ++ [Z.lor x v]).
Proof. unfold back_or. rewrite reverse_snoc. by rewrite reverse_involutive. Qed.

(** One character of the alphabet extends the accumulated bytes by one digit. *)
Lemma decodeBase_step ch i vs :
  reverse_at ch ≠ 64 → i = zlen vs →
  decodeBase ch i (octets vs) = Return (true, octets (vs ++ [reverse_at ch])).
Proof.
  intros Hch ->. destruct (split4 vs) as (al & sh & -> & Hal & Hsh).
  unfold decodeBase. rewrite (proj2 (Z.eqb_neq _ _) Hch).
  rewrite <- app_assoc, !octets_app by done. rewrite zlen_app. unfold zlen.
  assert (∃ q, length al = (4 * q)%nat) as [q Hq] by (exists (length al / 4)%nat; lia).
  rewrite Hq. destruct sh as [|s0 [|s1 [|s2 [|]]]]; cbn [length] in *; [| | | |lia].
  - replace ((Z.of_nat (4 * q) + Z.of_nat 0) `mod` 4) with 0 by lia. cbn. by rewrite app_nil_r.
  - replace ((Z.of_nat (4 * q) + Z.of_nat 1) `mod` 4) with 1 by lia.
    cbn [octets app]. rewrite back_or_snoc. cbn. by rewrite <- app_assoc.
  - replace ((Z.of_nat (4 * q) + Z.of_nat 2) `mod` 4) with 2 by lia. cbn [octets app].
    rewrite (app_assoc (octets al) [_] [_] : octets al ++ [_; _] = _), back_or_snoc.
    cbn. by rewrite <- !app_assoc.
  - replace ((Z.of_nat (4 * q) + Z.of_nat 3) `mod` 4) with 3 by lia. cbn [octets app].
    rewrite (app_assoc (octets al) [_; _] [_] : octets al ++ [_; _; _] = _), back_or_snoc.
    cbn. by rewrite <- !app_assoc.
Qed.

Definition valid (ch : Z) : bool := negb (reverse_at ch =? 64).
Abbreviation rev_digits := (fmap (M:=list) reverse_at).

Lemma decodeBase_invalid ch i ret :
  valid ch = false → decodeBase ch i ret = Return (false, ret).
Proof. unfold valid, decodeBase. intros H. apply negb_false_iff in H. by rewrite H. Qed.

Lemma zlen_fmap {A B} (f : A → B) l : zlen (f <$> l) = zlen l.
Proof. unfold zlen. by rewrite length_fmap. Qed.

Lemma ztake_succ {A} i (l : list A) x :
  0 ≤ i → l !! Z.to_nat i = Some x → ztake (i + 1) l = ztake i l ++ [x].
Proof.
  intros Hi Hx. unfold ztake. replace (Z.to_nat (i + 1)) with (S (Z.to_nat i)) by lia.
  by apply take_S_r.
Qed.

Lemma lookup_z {A} (l : list A) i : 0 ≤ i < zlen l → ∃ x, l !! Z.to_nat i = Some x.
Proof. intros. apply lookup_lt_is_Some. unfold zlen in *. lia. Qed.

Lemma b64_loop_spec fuel i last input :
  0 ≤ i ≤ last → last ≤ zlen input → zlen input < 2 ^ 64 → last - i ≤ Z.of_nat fuel →
  forallb valid (ztake i input) = true →
  decode_loop fuel i last input (octets (rev_digits (ztake i input))) =
    Return (if forallb valid (ztake last input)
            then Some (octets (rev_digits (ztake last input))) else None).
Proof.
  revert i. induction fuel as [|fuel IH]; intros i Hi Hlast Hlen Hfuel Hvalid; cbn [decode_loop].
  - replace i with last in * by lia. rewrite (proj2 (Z.leb_le last last)) by lia. by rewrite Hvalid.
  - destruct (Z.leb_spec last i).
    { replace i with last in * by lia. by rewrite Hvalid. }
    destruct (lookup_z input i) as [ch Hch]; [lia |]. rewrite Hch.
    pose proof (ztake_succ i input ch ltac:(lia) Hch) as Htake.
    destruct (valid ch) eqn:Ech.
    + rewrite decodeBase_step.
      * cbn. rewrite u64_small by lia.
        replace (rev_digits (ztake i input) ++ [reverse_at ch])
          with (rev_digits (ztake (i + 1) input)) by by rewrite Htake, fmap_app.
        apply IH; [lia.. |]. rewrite Htake, forallb_app, Hvalid. cbn. by rewrite Ech.
      * unfold valid in Ech. by apply negb_true_iff, Z.eqb_neq in Ech.
      * rewrite zlen_fmap, zlen_ztake; lia.
    + rewrite decodeBase_invalid by done. cbn.
      destruct (forallb valid (ztake last input)) eqn:E; [| done].
      exfalso. rewrite <- (ztake_zdrop (i + 1) (ztake last input)), forallb_app in E.
      apply andb_true_iff in E as [E _].
      replace (ztake (i + 1) (ztake last input)) with (ztake (i + 1) input) in E.
      2: { unfold ztake. rewrite take_take. f_equal. lia. }
      rewrite Htake, forallb_app in E. cbn in E. rewrite Ech in E. by rewrite andb_false_r in E.
Qed.

Lemma length_octets vs : length (octets vs) = ((length vs * 3 + 3) / 4)%nat.
Proof.
  induction vs as [|a|a b|a b c|a b c d vs IH] using list_ind4; [done.. |].
  cbn [octets length]. rewrite IH. lia.
Qed.

Lemma last_snoc {A} (l : list A) x d : List.last (l ++ [x]) d = x.
Proof. apply List.last_last. Qed.

(** The last character: accepted exactly on canonical digit strings. *)
Lemma decodeLast_spec ch i vs :
  reverse_at ch ≠ 64 → i = zlen vs →
  ∃ ret, decodeLast ch i (octets vs) = Return (canonical (vs ++ [reverse_at ch]), ret) ∧
    (canonical (vs ++ [reverse_at ch]) = true → ret = complete (vs ++ [reverse_at ch])).
Proof.
  intros Hch ->. unfold canonical. rewrite last_snoc, length_app. cbn [length].
  unfold complete. rewrite length_app. cbn [length].
  destruct (split4 vs) as (al & sh & -> & Hal & Hsh).
  unfold decodeLast. rewrite (proj2 (Z.eqb_neq _ _) Hch).
  rewrite <- (app_assoc al), !octets_app, length_app by done. rewrite zlen_app. unfold zlen.
  assert (∃ q, length al = (4 * q)%nat) as [q Hq] by (exists (length al / 4)%nat; lia).
  assert (length (octets al) = (3 * q)%nat) as Hoct by (rewrite length_octets; lia).
  rewrite Hq. destruct sh as [|s0 [|s1 [|s2 [|]]]]; cbn [length] in *; [| | | |lia].
  - replace ((Z.of_nat (4 * q) + Z.of_nat 0) `mod` 4) with 0 by lia.
    replace ((4 * q + 0 + 1) `mod` 4)%nat with 1%nat by lia. eexists; split; [reflexivity | done].
  - replace ((Z.of_nat (4 * q) + Z.of_nat 1) `mod` 4) with 1 by lia.
    replace ((4 * q + 1 + 1) `mod` 4)%nat with 2%nat by lia.
    replace ((4 * q + 1 + 1) * 3 / 4)%nat with (length (octets al) + 1)%nat by lia.
    cbn [octets app]. rewrite back_or_snoc, take_app_add. eexists; split; [reflexivity | done].
  - replace ((Z.of_nat (4 * q) + Z.of_nat 2) `mod` 4) with 2 by lia.
    replace ((4 * q + 2 + 1) `mod` 4)%nat with 3%nat by lia.
    replace ((4 * q + 2 + 1) * 3 / 4)%nat with (length (octets al) + 2)%nat by lia.
    cbn [octets app]. rewrite (app_assoc (octets al) [_] [_] : octets al ++ [_; _] = _), back_or_snoc.
    rewrite take_app_add. eexists; split; [reflexivity |]. by rewrite <- app_assoc.
  - replace ((Z.of_nat (4 * q) + Z.of_nat 3) `mod` 4) with 3 by lia.
    replace ((4 * q + 3 + 1) `mod` 4)%nat with 0%nat by lia.
    replace ((4 * q + 3 + 1) * 3 / 4)%nat with (length (octets al) + 3)%nat by lia.
    cbn [octets app]. rewrite (app_assoc (octets al) [_; _] [_] : octets al ++ [_; _; _] = _), back_or_snoc.
    rewrite take_app_add. eexists; split; [reflexivity |]. by rewrite <- app_assoc.
Qed.

(** The input without its trailing padding: at most two [=]. *)
Definition core_length (input : bytes) : Z :=
  let n := zlen input in
  let ends_with_pad n := bool_decide (input !! Z.to_nat (n - 1) = Some pad_char) in
  if ends_with_pad n
  then let n := n - 1 in if (0 <? n) && ends_with_pad n then n - 1 else n
  else n.
Definition core (input : bytes) : bytes := ztake (core_length input) input.

(** Reference decoder: the bytes of the digits of the core when they are a
    canonical digit string, nothing otherwise. *)
Definition decode_ref (input : bytes) : bytes :=
  if bool_decide (core input ≠ []) && forallb valid (core input)
     && canonical (rev_digits (core input))
  then complete (rev_digits (core input)) else [].

Lemma core_length_range input : 0 ≤ core_length input ≤ zlen input ∨ input = [].
Proof.
  destruct input as [|x input]; [by right | left].
  unfold core_length. pose proof (zlen_nonneg input). rewrite zlen_cons.
  repeat case_bool_decide; cbn; try lia; split_cmp; cbn; try lia.
Qed.

Lemma pad_invalid : valid pad_char = false.
Proof. reflexivity. Qed.

(** A string of padding only has an empty core and begins with [=]. *)
Lemma core_empty_head input :
  input ≠ [] → core_length input = 0 → input !! 0%nat = Some pad_char.
Proof.
  intros Hne. unfold core_length. destruct input as [|x [|y l]]; [done | |]; rewrite ?zlen_cons.
  - change (zlen (@nil Z)) with 0. cbn. case_bool_decide; [by intros _ | lia].
  - pose proof (zlen_nonneg l). case_bool_decide; [| lia].
    destruct (0 <? _) eqn:E; cbn [andb]; [| apply Z.ltb_ge in E; lia].
    case_bool_decide as H2; [| lia]. intros H3. replace (zlen l) with 0 in * by lia.
    by cbn in H2.
Qed.

(** On every input the source's decoder returns, and returns the reference
    result: no index leaves the input, [back()] is never called on an empty
    string and the final [ASSERT] holds. *)
Lemma decode_computes_ref input :
  zlen input < 2 ^ 63 → decodeWithoutPadding input = Return (decode_ref input).
Proof.
  intros Hlen. unfold decodeWithoutPadding. fold (core_length input).
  case_bool_decide as Hnil; [by subst |].
  destruct (core_length_range input) as [Hn | ?]; [| done].
  set (n := core_length input) in *. unfold decode_ref, core. fold n.
  destruct (decide (n = 0)) as [H0 | H0].
  { pose proof (core_empty_head input Hnil H0) as Hhd. rewrite H0. rewrite ztake_0.
    rewrite bool_decide_eq_false_2 by by intros []. cbn [andb].
    destruct input as [|x input]; [done |]. cbn in Hhd. injection Hhd as ->.
    reflexivity. }
  rewrite (u64_small (n - 1)) by lia.
  pose proof (b64_loop_spec (length input) 0 (n - 1) input) as Hloop.
  rewrite ztake_0 in Hloop. cbn [octets fmap list_fmap] in Hloop.
  rewrite Hloop by (done || unfold zlen in *; lia). cbn [mbind outcome_bind].
  destruct (lookup_z input (n - 1)) as [ch Hch]; [lia |].
  assert (ztake n input = ztake (n - 1) input ++ [ch]) as Htake
    by (rewrite <- (ztake_succ (n - 1)); [f_equal; lia | lia | done]).
  rewrite Htake, forallb_app. cbn [forallb]. rewrite andb_true_r.
  rewrite bool_decide_eq_true_2 by (intros [_ ?]%app_eq_nil; done). cbn [andb].
  destruct (forallb valid (ztake (n - 1) input)) eqn:Eall; cbn [andb]; [| done].
  rewrite Hch. destruct (valid ch) eqn:Ech; cbn [andb].
  2: { unfold valid in Ech. apply negb_false_iff in Ech. unfold decodeLast. by rewrite Ech. }
  destruct (decodeLast_spec ch (n - 1) (rev_digits (ztake (n - 1) input))) as (ret & -> & Hret).
  { unfold valid in Ech. by apply negb_true_iff, Z.eqb_neq in Ech. }
  { rewrite zlen_fmap, zlen_ztake; lia. }
  cbn [mbind outcome_bind]. rewrite fmap_app. cbn [fmap list_fmap].
  set (vs := rev_digits (ztake (n - 1) input) ++ [reverse_at ch]) in *.
  destruct (canonical vs) eqn:Ecan; [| done]. rewrite Hret by done.
  assert (zlen vs = n) as Hvs.
  { subst vs. rewrite zlen_app, zlen_fmap, zlen_ztake by lia. rewrite zlen_cons, zlen_nil. lia. }
  assert (zlen (complete vs) = n * 3 / 4) as ->.
  { unfold complete, zlen in *. rewrite length_take, length_octets. lia. }
  unfold canonical in Ecan.
  assert (n `mod` 4 = 0 ∨ n `mod` 4 = 2 ∨ n `mod` 4 = 3) as Hmod.
  { destruct (length vs `mod` 4)%nat as [|[|[|[|]]]] eqn:E; try done; unfold zlen in Hvs; lia. }
  rewrite (u64_small ((n + 3) / 4 * 3)) by lia.
  destruct Hmod as [Em | [Em | Em]]; rewrite Em; cbn [Z.eqb Pos.eqb];
    rewrite ?u64_small by lia; unfold assert_that;
    (rewrite (proj2 (Z.eqb_eq _ _)); [done | lia]).
Qed.

(** ** Round trips *)

Ltac forall_digits := repeat first [apply Forall_nil_2 | apply Forall_cons_2; [assumption |]].

Lemma digits_digit xs : is_bytes xs → Forall digit (digits xs).
Proof.
  assert (is_byte 0) as H0 by (unfold is_byte; lia).
  induction xs as [|a|a b|a b c xs IH] using list_ind3; intros Hxs; cbn [digits].
  - constructor.
  - inversion_clear Hxs as [|? ? Ha _]. pose proof (digit_ranges a 0 Ha H0) as (H1 & H2 & _).
    cbn in H2. rewrite Z.lor_0_r in H2. by forall_digits.
  - inversion_clear Hxs as [|? ? Ha Hb']. inversion_clear Hb' as [|? ? Hb _].
    pose proof (digit_ranges a b Ha Hb) as (H1 & H2 & _).
    pose proof (digit_ranges b 0 Hb H0) as (_ & _ & H3 & _).
    cbn in H3. rewrite Z.lor_0_r in H3. by forall_digits.
  - inversion_clear Hxs as [|? ? Ha Hb']. inversion_clear Hb' as [|? ? Hb Hc'].
    inversion_clear Hc' as [|? ? Hc Hr].
    pose proof (digit_ranges a b Ha Hb) as (H1 & H2 & _).
    pose proof (digit_ranges b c Hb Hc) as (_ & _ & H3 & _).
    pose proof (digit_ranges c 0 Hc H0) as (_ & _ & _ & H4). by forall_digits; auto.
Qed.

Lemma complete_group a b c d vs :
  complete (a :: b :: c :: d :: vs) =
    Z.lor (u8 (Z.shiftl a 2)) (Z.shiftr b 4) :: Z.lor (u8 (Z.shiftl b 4)) (Z.shiftr c 2)
      :: Z.lor (u8 (Z.shiftl c 6)) d :: complete vs.
Proof.
  unfold complete. cbn [length octets].
  replace (S (S (S (S (length vs)))) * 3 / 4)%nat with (S (S (S (length vs * 3 / 4))))%nat by lia.
  done.
Qed.

Lemma complete_digits xs : is_bytes xs → complete (digits xs) = xs.
Proof.
  assert (is_byte 0) as H0 by (unfold is_byte; lia).
  induction xs as [|a|a b|a b c xs IH] using list_ind3; intros Hxs; cbn [digits].
  - done.
  - inversion_clear Hxs as [|? ? Ha _]. pose proof (bits_b0 a 0 Ha H0) as H1.
    rewrite Z.lor_0_r in H1. unfold complete. cbn [length octets]. cbn -[u8 Z.lor Z.shiftl Z.shiftr Z.land].
    by rewrite H1.
  - inversion_clear Hxs as [|? ? Ha Hb']. inversion_clear Hb' as [|? ? Hb _].
    pose proof (bits_b1_lo b 0 Hb H0) as H1. rewrite Z.lor_0_r in H1.
    unfold complete. cbn -[u8 Z.lor Z.shiftl Z.shiftr Z.land].
    by rewrite bits_b0, bits_b1_hi, H1.
  - inversion_clear Hxs as [|? ? Ha Hb']. inversion_clear Hb' as [|? ? Hb Hc'].
    inversion_clear Hc' as [|? ? Hc Hr].
    by rewrite complete_group, bits_b0, bits_b1_hi, bits_b1_lo, bits_b2, IH.
Qed.

Lemma canonical_group a b c d v vs : canonical (a :: b :: c :: d :: v :: vs) = canonical (v :: vs).
Proof.
  unfold canonical. cbn [length].
  by replace (S (S (S (S (S (length vs))))) `mod` 4)%nat with (S (length vs) `mod` 4)%nat by lia.
Qed.

Lemma canonical_digits xs : is_bytes xs → canonical (digits xs) = true.
Proof.
  induction xs as [|a|a b|a b c xs IH] using list_ind3; intros Hxs; cbn [digits].
  - done.
  - inversion_clear Hxs as [|? ? Ha _].
    apply (upto_forall 256 (λ a, Z.land (Z.shiftl (Z.land a 3) 4) 15 =? 0)); [by vm_compute | done].
  - inversion_clear Hxs as [|? ? _ Hb']. inversion_clear Hb' as [|? ? Hb _].
    apply (upto_forall 256 (λ a, Z.land (Z.shiftl (Z.land a 15) 2) 3 =? 0)); [by vm_compute | done].
  - inversion_clear Hxs as [|? ? _ Hb']. inversion_clear Hb' as [|? ? _ Hc'].
    inversion_clear Hc' as [|? ? _ Hr].
    destruct (digits xs) eqn:E; [done |]. rewrite canonical_group. by apply IH.
Qed.

Lemma digits_nil_inv xs : digits xs = [] → xs = [].
Proof. by destruct xs as [|a [|b [|c xs]]]. Qed.

Lemma length_digits xs : (length (digits xs) ≤ 2 * length xs)%nat.
Proof.
  induction xs as [|a|a b|a b c xs IH] using list_ind3; cbn [digits length]; lia.
Qed.

Lemma rev_char_digits vs : Forall digit vs → rev_digits (char_at <$> vs) = vs.
Proof. induction 1 as [|v vs Hv _ IH]; cbn [fmap list_fmap]; [done |].
  by rewrite IH, (proj1 (reverse_char v Hv)). Qed.

Lemma valid_char_digits vs : Forall digit vs → forallb valid (char_at <$> vs) = true.
Proof.
  induction 1 as [|v vs Hv _ IH]; cbn [fmap list_fmap forallb]; [done |]. rewrite IH, andb_true_r.
  unfold valid. rewrite (proj1 (reverse_char v Hv)). apply negb_true_iff, Z.eqb_neq.
  unfold digit in Hv. lia.
Qed.

(** Stripping removes exactly the padding that encoding added. *)
Lemma core_app cs pads :
  Forall (λ c, c ≠ pad_char) cs → cs ≠ [] → pads = [] ∨ pads = [pad_char] ∨ pads = [pad_char; pad_char] →
  core (cs ++ pads) = cs.
Proof.
  intros Hcs Hne Hpads. unfold core.
  enough (core_length (cs ++ pads) = zlen cs) as -> by apply ztake_app_exact.
  destruct (decide (zlen cs = 0)) as [H0 | H0]; [by apply zlen_0_nil in H0 |].
  pose proof (zlen_nonneg cs).
  assert (∀ k, bool_decide ((cs ++ k) !! Z.to_nat (zlen cs - 1) = Some pad_char) = false) as Hlast.
  { intros k. apply bool_decide_eq_false_2. rewrite lookup_app_l by (unfold zlen in *; lia).
    intros Hl. by eapply Forall_lookup_1 in Hl; [| done]. }
  assert (∀ j p k, 0 ≤ j → k !! Z.to_nat j = Some p →
    (cs ++ k) !! Z.to_nat (zlen cs + j) = Some p) as Hpad.
  { intros j p k Hj Hk. rewrite lookup_app_r by (unfold zlen; lia). rewrite <- Hk. f_equal.
    unfold zlen. lia. }
  unfold core_length. destruct Hpads as [-> | [-> | ->]]; rewrite zlen_app.
  - change (zlen (@nil Z)) with 0. rewrite Z.add_0_r. by rewrite Hlast.
  - change (zlen [pad_char]) with 1. replace (zlen cs + 1 - 1) with (zlen cs + 0) by lia.
    rewrite (bool_decide_eq_true_2 _ (Hpad 0 pad_char [pad_char] ltac:(lia) eq_refl)).
    rewrite Z.add_0_r, Hlast, andb_false_r. done.
  - change (zlen [pad_char; pad_char]) with 2. replace (zlen cs + 2 - 1) with (zlen cs + 1) by lia.
    rewrite (bool_decide_eq_true_2 _ (Hpad 1 pad_char [pad_char; pad_char] ltac:(lia) eq_refl)).
    replace (zlen cs + 1 - 1) with (zlen cs + 0) by lia.
    rewrite (bool_decide_eq_true_2 _ (Hpad 0 pad_char [pad_char; pad_char] ltac:(lia) eq_refl)).
    rewrite (proj2 (Z.ltb_lt _ _)) by lia. cbn. lia.
Qed.

(** Splitting the bytes of a group gives its digits back. *)
Lemma bits_ab a b : digit a → digit b →
  Z.shiftr (Z.lor (u8 (Z.shiftl a 2)) (Z.shiftr b 4)) 2 = a ∧
  Z.shiftl (Z.land (Z.lor (u8 (Z.shiftl a 2)) (Z.shiftr b 4)) 3) 4 = Z.shiftl (Z.shiftr b 4) 4.
Proof.
  intros Ha Hb. pose proof (upto_forall2 64 64 (λ a b,
    (Z.shiftr (Z.lor (u8 (Z.shiftl a 2)) (Z.shiftr b 4)) 2 =? a) &&
    (Z.shiftl (Z.land (Z.lor (u8 (Z.shiftl a 2)) (Z.shiftr b 4)) 3) 4 =? Z.shiftl (Z.shiftr b 4) 4))
    ltac:(vm_compute; reflexivity) a b Ha Hb) as H.
  cbv beta in H. by rewrite andb_true_iff, !Z.eqb_eq in H.
Qed.

Lemma bits_bc b c : digit b → digit c →
  Z.shiftr (Z.lor (u8 (Z.shiftl b 4)) (Z.shiftr c 2)) 4 = Z.land b 15 ∧
  Z.shiftl (Z.land (Z.lor (u8 (Z.shiftl b 4)) (Z.shiftr c 2)) 15) 2 = Z.shiftl (Z.shiftr c 2) 2.
Proof.
  intros Hb Hc. pose proof (upto_forall2 64 64 (λ b c,
    (Z.shiftr (Z.lor (u8 (Z.shiftl b 4)) (Z.shiftr c 2)) 4 =? Z.land b 15) &&
    (Z.shiftl (Z.land (Z.lor (u8 (Z.shiftl b 4)) (Z.shiftr c 2)) 15) 2 =? Z.shiftl (Z.shiftr c 2) 2))
    ltac:(vm_compute; reflexivity) b c Hb Hc) as H.
  cbv beta in H. by rewrite andb_true_iff, !Z.eqb_eq in H.
Qed.

Lemma bits_cd c d : digit c → digit d →
  Z.shiftr (Z.lor (u8 (Z.shiftl c 6)) d) 6 = Z.land c 3 ∧
  Z.land (Z.lor (u8 (Z.shiftl c 6)) d) 63 = d.
Proof.
  intros Hc Hd. pose proof (upto_forall2 64 64 (λ c d,
    (Z.shiftr (Z.lor (u8 (Z.shiftl c 6)) d) 6 =? Z.land c 3) &&
    (Z.land (Z.lor (u8 (Z.shiftl c 6)) d) 63 =? d)) ltac:(vm_compute; reflexivity) c d Hc Hd) as H.
  cbv beta in H. by rewrite andb_true_iff, !Z.eqb_eq in H.
Qed.

Lemma bits_join v : digit v →
  Z.lor (Z.shiftl (Z.shiftr v 4) 4) (Z.land v 15) = v ∧
  Z.lor (Z.shiftl (Z.shiftr v 2) 2) (Z.land v 3) = v.
Proof.
  intros Hv. pose proof (upto_forall 64 (λ v,
    (Z.lor (Z.shiftl (Z.shiftr v 4) 4) (Z.land v 15) =? v) &&
    (Z.lor (Z.shiftl (Z.shiftr v 2) 2) (Z.land v 3) =? v)) ltac:(vm_compute; reflexivity) v Hv) as H.
  cbv beta in H. by rewrite andb_true_iff, !Z.eqb_eq in H.
Qed.

Lemma digits_complete vs : Forall digit vs → canonical vs = true → digits (complete vs) = vs.
Proof.
  induction vs as [|a|a b|a b c|a b c d vs IH] using list_ind4; intros Hvs Hcan;
    rewrite ?Forall_cons in Hvs.
  - done.
  - done.
  - destruct Hvs as (Ha & Hb & _). apply Z.eqb_eq in Hcan. cbn [List.last] in Hcan.
    change (complete [a; b]) with [Z.lor (u8 (Z.shiftl a 2)) (Z.shiftr b 4)]. cbn [digits].
    destruct (bits_ab a b Ha Hb) as [-> ->]. destruct (bits_join b Hb) as [Hj _].
    by rewrite Hcan, Z.lor_0_r in Hj; rewrite Hj.
  - destruct Hvs as (Ha & Hb & Hc & _). apply Z.eqb_eq in Hcan. cbn [List.last] in Hcan.
    change (complete [a; b; c]) with
      [Z.lor (u8 (Z.shiftl a 2)) (Z.shiftr b 4); Z.lor (u8 (Z.shiftl b 4)) (Z.shiftr c 2)].
    cbn [digits]. destruct (bits_ab a b Ha Hb) as [-> ->], (bits_bc b c Hb Hc) as [-> ->].
    destruct (bits_join b Hb) as [-> _], (bits_join c Hc) as [_ Hj].
    by rewrite Hcan, Z.lor_0_r in Hj; rewrite Hj.
  - destruct Hvs as (Ha & Hb & Hc & Hd & Hvs). rewrite complete_group. cbn [digits].
    destruct (bits_ab a b Ha Hb) as [-> ->], (bits_bc b c Hb Hc) as [-> ->],
      (bits_cd c d Hc Hd) as [-> ->].
    destruct (bits_join b Hb) as [-> _], (bits_join c Hc) as [_ ->]. rewrite IH; [done | done |].
    destruct vs; [done |]. by rewrite canonical_group in Hcan.
Qed.

Lemma octet_bytes a b : digit a → digit b →
  is_byte (Z.lor (u8 (Z.shiftl a 2)) (Z.shiftr b 4)) ∧
  is_byte (Z.lor (u8 (Z.shiftl a 4)) (Z.shiftr b 2)) ∧ is_byte (Z.lor (u8 (Z.shiftl a 6)) b).
Proof.
  set (inb := λ z, (0 <=? z) && (z <? 256)).
  assert (∀ z, inb z = true → is_byte z) as Hinb.
  { intros z. unfold inb, is_byte. rewrite andb_true_iff, Z.leb_le, Z.ltb_lt. lia. }
  intros Ha Hb. pose proof (upto_forall2 64 64 (λ a b,
    inb (Z.lor (u8 (Z.shiftl a 2)) (Z.shiftr b 4)) &&
    inb (Z.lor (u8 (Z.shiftl a 4)) (Z.shiftr b 2)) &&
    inb (Z.lor (u8 (Z.shiftl a 6)) b)) ltac:(vm_compute; reflexivity) a b Ha Hb) as H.
  cbv beta in H. rewrite !andb_true_iff in H. split_and!; apply Hinb; apply H.
Qed.

Lemma octets_bytes vs : Forall digit vs → is_bytes (octets vs).
Proof.
  induction vs as [|a|a b|a b c|a b c d vs IH] using list_ind4; rewrite ?Forall_cons;
    cbn [octets]; [constructor | intros (Ha & _) | intros (Ha & Hb & _) |
                   intros (Ha & Hb & Hc & _) | intros (Ha & Hb & Hc & Hd & Hvs)];
    repeat match goal with
    | H1 : digit ?x, H2 : digit ?y |- _ =>
        lazymatch goal with
        | _ : is_byte (Z.lor (u8 (Z.shiftl x 2)) (Z.shiftr y 4)) |- _ => fail
        | _ => pose proof (octet_bytes x y H1 H2) as (? & ? & ?)
        end
    end; rewrite ?Forall_cons; split_and?; auto using u8_range, Forall_nil_2; apply u8_range.
Qed.

(** ** Properties *)

Lemma decode_encode (input : bytes) (add_padding : bool)
    (Hbytes : is_bytes input) (Hlen : zlen input < 2 ^ 61) :
  decodeWithoutPadding (encode input add_padding) = Return input.
Proof.
  rewrite encode_digits by (done || lia). rewrite decode_computes_ref.
  2: { pose proof (length_digits input). unfold zlen in *. rewrite length_app, length_fmap.
       enough (length (padding add_padding input) ≤ 2)%nat by lia.
       unfold padding. destruct add_padding; [| cbn; lia].
       destruct (length input `mod` 3)%nat as [|[|[|]]]; cbn; lia. }
  destruct (decide (input = [])) as [-> | Hne]; [by destruct add_padding |].
  pose proof (digits_digit _ Hbytes) as Hd. unfold decode_ref.
  rewrite core_app; [| | |].
  - rewrite rev_char_digits, valid_char_digits, canonical_digits, complete_digits by done.
    rewrite bool_decide_eq_true_2; [done |].
    intros ?%fmap_nil_inv%digits_nil_inv. done.
  - apply Forall_fmap. eapply Forall_impl; [done |]. intros v Hv. apply (reverse_char v Hv).
  - intros ?%fmap_nil_inv%digits_nil_inv. done.
  - unfold padding. destruct add_padding; [| by left].
    destruct (length input `mod` 3)%nat as [|[|[|]]]; auto.
Qed.

(** C14: decoding an encoded byte string gives it back, with and without
    padding. *)
Theorem base64_roundtrip (input : bytes) (add_padding : bool)
    (Hbytes : is_bytes input) (Hlen : zlen input < 2 ^ 61) :
  decodeWithoutPadding (encode input add_padding) = Return input.
Proof. by apply decode_encode. Qed.

(** decoding is strict: a non-empty result is bytes whose encoding without
    padding is the input less its trailing padding, so two inputs that differ
    before the padding never decode to the same bytes. *)
Theorem base64_decode_canonical (input output : bytes)
    (Hbytes : is_bytes input) (Hlen : zlen input < 2 ^ 63)
    (Hdec : decodeWithoutPadding input = Return output) (Hne : output ≠ []) :
  is_bytes output ∧ encode output false = core input.
Proof.
  rewrite decode_computes_ref in Hdec by done. injection Hdec as <-.
  unfold decode_ref in *.
  destruct (bool_decide (core input ≠ []) && forallb valid (core input)) eqn:E1; [| done].
  destruct (canonical (rev_digits (core input))) eqn:E2; [| done]. cbn [andb] in *.
  apply andb_true_iff in E1 as [_ E1].
  assert (is_bytes (core input)) as Hcore by by apply Forall_ztake.
  assert (Forall digit (rev_digits (core input)) ∧ char_at <$> rev_digits (core input) = core input) as [Hd Hc].
  { clear -Hcore E1. induction Hcore as [|c l Hc _ IH]; [done |].
    cbn [forallb] in E1. apply andb_true_iff in E1 as [Ec El]. destruct (IH El) as [IH1 IH2].
    unfold valid in Ec. apply negb_true_iff, Z.eqb_neq in Ec.
    destruct (char_reverse c Hc Ec) as [H1 H2]. cbn [fmap list_fmap].
    split; [by apply Forall_cons_2 | by rewrite H1, IH2]. }
  assert (is_bytes (complete (rev_digits (core input)))) as Hout
    by (apply Forall_take, octets_bytes; done).
  split; [done |]. rewrite encode_digits; [| done |].
  - rewrite digits_complete by done. unfold padding. by rewrite app_nil_r.
  - unfold complete, zlen. rewrite length_take, length_octets, length_fmap.
    assert (zlen (core input) ≤ zlen input).
    { unfold core, zlen, ztake. rewrite length_take. lia. }
    unfold zlen in *. lia.
Qed.

(** [decodeWithoutPadding] is total: on every input it returns, without
    touching a character outside the string or the buffer and without failing
    its assertion on the result's size, what the reference decoder computes. *)
Theorem base64_decode_total (input : bytes) (Hlen : zlen input < 2 ^ 63) :
  decodeWithoutPadding input = Return (decode_ref input).
Proof. by apply decode_computes_ref. Qed.

(** ** Witnesses *)

Definition w_plain : bytes := [77; 97; 110; 255].
Definition w_coded : bytes := [84; 87; 70; 117; 47; 119; 61; 61].

Lemma base64_roundtrip_witness : decodeWithoutPadding (encode w_plain true) = Return w_plain.
Proof.
  apply (base64_roundtrip w_plain true); [| vm_compute; reflexivity].
  by apply (bool_decide_unpack (Forall is_byte w_plain)).
Defined.

Lemma base64_decode_canonical_witness : is_bytes w_plain ∧ encode w_plain false = core w_coded.
Proof.
  apply (base64_decode_canonical w_coded w_plain); [| vm_compute; reflexivity | vm_compute; reflexivity | done].
  by apply (bool_decide_unpack (Forall is_byte w_coded)).
Defined.

Lemma base64_decode_total_witness : decodeWithoutPadding w_coded = Return (decode_ref w_coded).
Proof. apply (base64_decode_total w_coded). vm_compute. reflexivity. Defined.
