(* ===== verification/Envoy.v ===== *)
(** * Interfaces of the Envoy code the proxy calls

    The sources of Envoy are not part of the repository.  What the proxy uses
    of them enters the model as the operations of the classes below; what it
    relies on is the documented behaviour, stated as laws.  The instances at
    the end are small concrete implementations: they show the laws can hold
    and let the witnesses compute. *)

From S2P Require Import Prelude.

(** ** Buffer::Instance

    A byte FIFO.  [contents] is [toString()].  [buf_move dst src n] is
    [dst.move(src, n)] and returns both buffers; [buf_peek n off] is
    [peekBEInt<T>(off)] for an unsigned [T] of [n] bytes ([peekInt<uint8_t>]
    for [n = 1]); signed reads are [to_i32]/[to_i64] of it. *)

Class BufferOps := {
  buffer : Type;
  contents : buffer → bytes;
  buf_new : buffer;
  buf_length : buffer → Z;
  buf_add : buffer → bytes → buffer;
  buf_drain : buffer → Z → buffer;
  buf_move : buffer → buffer → Z → buffer * buffer;
  buf_copyOut : buffer → Z → Z → bytes;
  buf_peek : Z → Z → buffer → outcome Z
}.

Class BufferLaws (B : BufferOps) : Prop := {
  contents_bytes b : is_bytes (contents b);
  buf_new_spec : contents buf_new = [];
  buf_length_spec b : buf_length b = zlen (contents b);
  buf_add_spec b d : is_bytes d → contents (buf_add b d) = contents b ++ d;
  buf_drain_spec b n : 0 ≤ n ≤ zlen (contents b) → contents (buf_drain b n) = zdrop n (contents b);
  buf_move_dst dst src n : 0 ≤ n ≤ zlen (contents src) →
    contents (fst (buf_move dst src n)) = contents dst ++ ztake n (contents src);
  buf_move_src dst src n : 0 ≤ n ≤ zlen (contents src) →
    contents (snd (buf_move dst src n)) = zdrop n (contents src);
  buf_copyOut_spec b off n : 0 ≤ off → 0 ≤ n → off + n ≤ zlen (contents b) →
    buf_copyOut b off n = ztake n (zdrop off (contents b));
  buf_peek_spec n off b : 0 ≤ n → 0 ≤ off →
    buf_peek n off b = if off + n <=? zlen (contents b) then Return (be_at n off (contents b))
                       else Throw (EnvoyException "buffer underflow")
}.

Section buffer.
Context {B : BufferOps}.

(** [writeBEInt<T>] for an unsigned [T] of [n] bytes, and [writeByte]. *)
Definition buf_writeBEInt (n : nat) (b : buffer) (v : Z) : buffer := buf_add b (be_split n v).
Definition buf_writeByte (b : buffer) (v : Z) : buffer := buf_add b [u8 v].

(** [dst.move(src)]: all of [src]. *)
Definition buf_move_all (dst src : buffer) : buffer * buffer := buf_move dst src (buf_length src).

(** Asking for more bytes than a buffer has fails an assertion of Envoy in
    [copyOut], [drain] and [move]. *)
Definition copyOut (b : buffer) (off n : Z) : outcome bytes :=
  if off + n <=? buf_length b then Return (buf_copyOut b off n) else Panic "copyOut".
Definition drain (b : buffer) (n : Z) : outcome buffer :=
  if n <=? buf_length b then Return (buf_drain b n) else Panic "drain".
Definition move (dst src : buffer) (n : Z) : outcome (buffer * buffer) :=
  if n <=? buf_length src then Return (buf_move dst src n) else Panic "move".

Context {L : BufferLaws B}.

Lemma copyOut_ok b off n : 0 ≤ off → 0 ≤ n → off + n ≤ zlen (contents b) →
  copyOut b off n = Return (ztake n (zdrop off (contents b))).
Proof.
  intros. unfold copyOut. rewrite buf_length_spec, (proj2 (Z.leb_le _ _)) by done.
  by rewrite buf_copyOut_spec.
Qed.
Lemma copyOut_panic b off n : zlen (contents b) < off + n → copyOut b off n = Panic "copyOut".
Proof. intros. unfold copyOut. rewrite buf_length_spec, (proj2 (Z.leb_gt _ _)) by done. done. Qed.
Lemma drain_ok b n : 0 ≤ n ≤ zlen (contents b) →
  ∃ b', drain b n = Return b' ∧ contents b' = zdrop n (contents b).
Proof.
  intros. exists (buf_drain b n). unfold drain.
  rewrite buf_length_spec, (proj2 (Z.leb_le _ _)), buf_drain_spec by lia. done.
Qed.
Lemma move_ok dst src n : 0 ≤ n ≤ zlen (contents src) →
  ∃ dst' src', move dst src n = Return (dst', src') ∧
    contents dst' = contents dst ++ ztake n (contents src) ∧ contents src' = zdrop n (contents src).
Proof.
  intros. exists (fst (buf_move dst src n)), (snd (buf_move dst src n)). unfold move.
  rewrite buf_length_spec, (proj2 (Z.leb_le _ _)), buf_move_dst, buf_move_src by lia.
  by destruct (buf_move dst src n).
Qed.

Lemma buf_move_all_dst dst src :
  contents (fst (buf_move_all dst src)) = contents dst ++ contents src.
Proof.
  unfold buf_move_all. rewrite buf_length_spec, buf_move_dst, ztake_all; [done |].
  pose proof (zlen_nonneg (contents src)). lia.
Qed.
Lemma buf_move_all_src dst src : contents (snd (buf_move_all dst src)) = [].
Proof.
  unfold buf_move_all. rewrite buf_length_spec, buf_move_src, zdrop_all; [done |].
  pose proof (zlen_nonneg (contents src)). lia.
Qed.
Lemma buf_writeBEInt_spec n b v : contents (buf_writeBEInt n b v) = contents b ++ be_split n v.
Proof. apply buf_add_spec, be_split_bytes. Qed.
Lemma buf_writeByte_spec b v : contents (buf_writeByte b v) = contents b ++ [u8 v].
Proof. apply buf_add_spec. repeat constructor; apply u8_range. Qed.
Lemma buf_peek_ok n off b : 0 ≤ n → 0 ≤ off → off + n ≤ zlen (contents b) →
  buf_peek n off b = Return (be_at n off (contents b)).
Proof. intros. rewrite buf_peek_spec by done. by rewrite (proj2 (Z.leb_le _ _)). Qed.
End buffer.

(** ** Http::HeaderMap and Http::LowerCaseString *)

Class HeaderOps := {
  headers : Type;
  hdr_create : headers;
  hdr_remove : headers → string → headers;
  hdr_addCopy : headers → string → string → headers;
  hdr_get : headers → string → list string;
  LowerCaseString : string → string
}.

Class HeaderLaws (H : HeaderOps) : Prop := {
  hdr_get_create k : hdr_get hdr_create k = [];
  hdr_get_remove h k k' : hdr_get (hdr_remove h k) k' = if decide (k = k') then [] else hdr_get h k';
  hdr_get_addCopy h k v k' :
    hdr_get (hdr_addCopy h k v) k' = if decide (k = k') then hdr_get h k' ++ [v] else hdr_get h k'
}.

(** ** The environment of the proxy

    [any_other] stands for the value types a codec stores in a [std::any]
    besides [std::string], [bool] and [uint32_t]. *)

Class Envoy := {
  envoy_buffer :: BufferOps;
  envoy_headers :: HeaderOps;
  any_other : Type
}.

Class EnvoyLaws (E : Envoy) : Prop := {
  envoy_buffer_laws :: BufferLaws envoy_buffer;
  envoy_header_laws :: HeaderLaws envoy_headers
}.

(** ** Concrete instances *)

Definition list_buffer : BufferOps := {|
  buffer := bytes;
  contents b := u8 <$> b;
  buf_new := [];
  buf_length b := zlen b;
  buf_add b d := b ++ d;
  buf_drain b n := zdrop n b;
  buf_move dst src n := (dst ++ ztake n src, zdrop n src);
  buf_copyOut b off n := ztake n (zdrop off (u8 <$> b));
  buf_peek n off b :=
    if off + n <=? zlen b then Return (be_at n off (u8 <$> b))
    else Throw (EnvoyException "buffer underflow")
|}.

Lemma u8_bytes d : is_bytes d → u8 <$> d = d.
Proof. induction 1 as [|x d Hx _ IH]; cbn; [done |]. by rewrite IH, u8_small. Qed.

Lemma list_buffer_laws : BufferLaws list_buffer.
Proof.
  assert (∀ b : bytes, zlen (u8 <$> b) = zlen b) as Hl by (intros; unfold zlen; by rewrite length_fmap).
  split; cbn; intros; rewrite ?Hl in *; try done.
  - apply Forall_fmap, Forall_true. intros. apply u8_range.
  - by rewrite fmap_app, (u8_bytes d).
  - unfold zdrop. by rewrite fmap_drop.
  - unfold ztake. by rewrite fmap_app, fmap_take.
  - unfold zdrop. by rewrite fmap_drop.
Qed.

Definition lower_ascii (c : Ascii.ascii) : Ascii.ascii :=
  let n := Ascii.N_of_ascii c in
  if ((65 <=? n) && (n <=? 90))%N then Ascii.ascii_of_N (n + 32) else c.
Fixpoint lower_string (s : string) : string :=
  match s with
  | EmptyString => EmptyString
  | String c s => String (lower_ascii c) (lower_string s)
  end.

Definition list_headers : HeaderOps := {|
  headers := list (string * string);
  hdr_create := [];
  hdr_remove h k := filter (λ e, e.1 ≠ k) h;
  hdr_addCopy h k v := h ++ [(k, v)];
  hdr_get h k := (filter (λ e, e.1 = k) h).*2;
  LowerCaseString := lower_string
|}.

Lemma list_headers_laws : HeaderLaws list_headers.
Proof.
  split.
  - done.
  - intros h k k'. change (list (string * string)) in h. cbn.
    case_decide as Hk; [subst k' |].
    + rewrite list_filter_filter. induction h as [|[k1 v1] h IH]; [done |].
      rewrite filter_cons_False by tauto. done.
    + rewrite list_filter_filter. f_equal. apply list_filter_iff. intros [k1 v1]. cbn.
      intuition congruence.
  - intros h k v k'. change (list (string * string)) in h. cbn.
    rewrite filter_app, fmap_app. case_decide.
    + subst. by rewrite filter_cons_True.
    + rewrite filter_cons_False, filter_nil by done. by rewrite app_nil_r.
Qed.

Definition list_envoy (any_other : Type) : Envoy :=
  {| envoy_buffer := list_buffer; envoy_headers := list_headers; any_other := any_other |}.

Lemma list_envoy_laws any_other : EnvoyLaws (list_envoy any_other).
Proof. split; [apply list_buffer_laws | apply list_headers_laws]. Qed.
