(* ===== verification/Metadata.v ===== *)
(** * Message metadata

    Model of [codec/codec.h] (the enumerations, [Error], [Mutation]) and of
    [MetadataImpl] ([codec_impl.h], [codec_impl.cc]): the properties decoded
    from a message, with the two HTTP header maps kept beside them for route
    matching and access logs.

    [std::map<std::string, std::any>] is a [gmap string any]; iteration visits
    the keys in their order, as [std::map] does.  [any_cast] to the wrong type
    throws [std::bad_any_cast], which is not an [EnvoyException]. *)

From S2P Require Import Prelude Envoy.

(** ** Enumerations of codec.h *)

Inductive MessageType : Type :=
| MessageType_Request
| MessageType_Response
| MessageType_Oneway
| MessageType_Stream_Init
| MessageType_Stream_Data
| MessageType_Stream_Close_One_Way
| MessageType_Stream_Close_Two_Way
| MessageType_Heartbeat
| MessageType_Error.

Inductive ResponseStatus : Type := ResponseStatus_Ok | ResponseStatus_Error.

Inductive DecodeStatus : Type := DecodeStatus_WaitForData | DecodeStatus_Done.

Inductive ErrorType : Type :=
| ErrorType_RouteNotFound
| ErrorType_ClusterNotFound
| ErrorType_NoHealthyUpstream
| ErrorType_BadResponse
| ErrorType_Unspecified
| ErrorType_OverLimit.

Record Error : Type := { error_type : ErrorType; error_message : string }.

Abbreviation Mutation := (gmap string string).

#[global] Instance MessageType_eq_dec : EqDecision MessageType.
Proof. solve_decision. Defined.
#[global] Instance ResponseStatus_eq_dec : EqDecision ResponseStatus.
Proof. solve_decision. Defined.
#[global] Instance DecodeStatus_eq_dec : EqDecision DecodeStatus.
Proof. solve_decision. Defined.
#[global] Instance ErrorType_eq_dec : EqDecision ErrorType.
Proof. solve_decision. Defined.

(** ReservedHeaders *)
Definition RealServerAddress : string := "x-meta-protocol-real-server-address".
Definition ApplicationProtocol : string := "x-meta-protocol-application-protocol".
Definition RequestUUID : string := "x-request-id".
Definition ClientTraceId : string := "x-client-trace-id".
Definition EnvoyForceTrace : string := "x-envoy-force-trace".

Section metadata.
Context {E : Envoy}.

Inductive any : Type :=
| AnyString (s : string)
| AnyBool (b : bool)
| AnyUint32 (z : Z)
| AnyOther (x : any_other).

Record MetadataImpl : Type := {
  properties_ : gmap string any;
  origin_message_ : buffer;
  message_type_ : MessageType;
  response_status_ : ResponseStatus;
  request_id_ : Z;
  stream_id_ : Z;
  header_size_ : Z;
  body_size_ : Z;
  operation_name_ : string;
  (** identity of the shared [StreamInfo] object, once set *)
  stream_info_ : option Z;
  headers_ : headers;
  response_headers_ : headers
}.

#[global] Instance MetadataImpl_eta : Eta MetadataImpl := fun m =>
  {| properties_ := properties_ m; origin_message_ := origin_message_ m;
     message_type_ := message_type_ m; response_status_ := response_status_ m;
     request_id_ := request_id_ m; stream_id_ := stream_id_ m;
     header_size_ := header_size_ m; body_size_ := body_size_ m;
     operation_name_ := operation_name_ m; stream_info_ := stream_info_ m;
     headers_ := headers_ m; response_headers_ := response_headers_ m |}.

(** The constructor with its default member initializers. *)
Definition new_MetadataImpl : MetadataImpl :=
  {| properties_ := ∅; origin_message_ := buf_new;
     message_type_ := MessageType_Request; response_status_ := ResponseStatus_Ok;
     request_id_ := 0; stream_id_ := 0; header_size_ := 0; body_size_ := 0;
     operation_name_ := ""; stream_info_ := None;
     headers_ := hdr_create; response_headers_ := hdr_create |}.

(** *** Accessors of codec_impl.h *)
Definition setMessageType (t : MessageType) (m : MetadataImpl) := m <| message_type_ := t |>.
Definition setResponseStatus (s : ResponseStatus) (m : MetadataImpl) := m <| response_status_ := s |>.
Definition setRequestId (i : Z) (m : MetadataImpl) := m <| request_id_ := u64 i |>.
Definition setStreamId (i : Z) (m : MetadataImpl) := m <| stream_id_ := u64 i |>.
Definition setHeaderSize (n : Z) (m : MetadataImpl) := m <| header_size_ := u64 n |>.
Definition setBodySize (n : Z) (m : MetadataImpl) := m <| body_size_ := u64 n |>.
Definition getMessageSize (m : MetadataImpl) : Z := u64 (header_size_ m + body_size_ m).
Definition setOperationName (s : string) (m : MetadataImpl) := m <| operation_name_ := s |>.
Definition setStreamInfo (i : Z) (m : MetadataImpl) := m <| stream_info_ := Some i |>.

(** *** Properties *)
Definition put (key : string) (value : any) (m : MetadataImpl) : MetadataImpl :=
  m <| properties_ ::= <[key := value]> |>.

Definition getByKey (key : string) (m : MetadataImpl) : option any := properties_ m !! key.

Definition putString (key value : string) (m : MetadataImpl) : MetadataImpl :=
  let m := put key (AnyString value) m in
  let lowcase_key := LowerCaseString key in
  let m := m <| headers_ ::= λ h, hdr_remove h lowcase_key |> in
  let m := m <| headers_ ::= λ h, hdr_addCopy h lowcase_key value |> in
  let m := m <| response_headers_ ::= λ h, hdr_remove h lowcase_key |> in
  m <| response_headers_ ::= λ h, hdr_addCopy h lowcase_key value |>.

Definition removeString (key : string) (m : MetadataImpl) : MetadataImpl :=
  let m := m <| properties_ ::= delete key |> in
  let lowcase_key := LowerCaseString key in
  let m := m <| headers_ ::= λ h, hdr_remove h lowcase_key |> in
  m <| response_headers_ ::= λ h, hdr_remove h lowcase_key |>.

Definition getString (key : string) (m : MetadataImpl) : outcome string :=
  match getByKey key m with
  | Some (AnyString s) => Return s
  | Some _ => Throw BadAnyCast
  | None => Return ""
  end.

Definition getBool (key : string) (m : MetadataImpl) : outcome bool :=
  match getByKey key m with
  | Some (AnyBool b) => Return b
  | Some _ => Throw BadAnyCast
  | None => Return false
  end.

Definition getUint32 (key : string) (m : MetadataImpl) : outcome Z :=
  match getByKey key m with
  | Some (AnyUint32 z) => Return z
  | Some _ => Throw BadAnyCast
  | None => Return 0
  end.

(** The entries of a [std::map] in iteration order. *)
Definition key_le {A} (x y : string * A) : Prop := is_true (String.leb x.1 y.1).
#[global] Instance key_le_dec {A} (x y : string * A) : Decision (key_le x y).
Proof. unfold key_le. apply _. Defined.
Definition in_key_order {A} (m : gmap string A) : list (string * A) :=
  merge_sort key_le (map_to_list m).

Definition clone (m : MetadataImpl) : MetadataImpl :=
  let copy := new_MetadataImpl in
  let copy := copy <| origin_message_ ::= λ b, buf_add b (contents (origin_message_ m)) |> in
  let copy := setMessageType (message_type_ m) copy in
  let copy := setResponseStatus (response_status_ m) copy in
  let copy := setBodySize (body_size_ m) copy in
  let copy := setHeaderSize (header_size_ m) copy in
  let copy := setRequestId (request_id_ m) copy in
  let copy := setStreamId (stream_id_ m) copy in
  foldl (λ copy kv, put kv.1 kv.2 copy) copy (in_key_order (properties_ m)).

(** *** Tracing::TraceContext *)

(** [forEach(callback)]: the callback returns whether to go on. *)
Fixpoint forEach_loop {S} (callback : string → string → S → bool * S)
    (l : list (string * any)) (s : S) : S :=
  match l with
  | [] => s
  | (key, AnyString value) :: l =>
      let '(continue, s) := callback key value s in
      if (continue : bool) then forEach_loop callback l s else s
  | _ :: l => forEach_loop callback l s
  end.
Definition forEach {S} (callback : string → string → S → bool * S) (m : MetadataImpl) (s : S) : S :=
  forEach_loop callback (in_key_order (properties_ m)) s.

Definition getStringPointer (key : string) (m : MetadataImpl) : option string :=
  match getByKey key m with
  | Some (AnyString s) => Some s
  | _ => None
  end.

(** [TraceContext::get], [set] and [remove]. *)
Definition trace_get (key : string) (m : MetadataImpl) : option string :=
  match getStringPointer key m with
  | Some val => if bool_decide (val = "") then None else Some val
  | None => None
  end.
Definition trace_set (key val : string) (m : MetadataImpl) : MetadataImpl := putString key val m.
Definition trace_remove (key : string) (m : MetadataImpl) : MetadataImpl := removeString key m.
End metadata.

(** ** Lemmas *)

Section lemmas.
Context {E : Envoy}.

Lemma properties_putString k v m : properties_ (putString k v m) = <[k := AnyString v]> (properties_ m).
Proof. done. Qed.

Lemma getString_putString k v m : getString k (putString k v m) = Return v.
Proof. unfold getString, getByKey. by rewrite properties_putString, lookup_insert_eq. Qed.

Lemma getByKey_putString_ne k k' v m : k ≠ k' → getByKey k' (putString k v m) = getByKey k' m.
Proof. intros. unfold getByKey. by rewrite properties_putString, lookup_insert_ne. Qed.

(** Iteration visits every entry once, in key order. *)
Lemma in_key_order_perm {A} (m : gmap string A) : in_key_order m ≡ₚ map_to_list m.
Proof. apply merge_sort_Permutation. Qed.

Lemma in_key_order_sorted {A} (m : gmap string A) : Sorted key_le (in_key_order m).
Proof.
  apply Sorted_merge_sort. intros [k1 v1] [k2 v2]. unfold key_le. cbn.
  destruct (String.leb_total k1 k2) as [-> | ->]; auto.
Qed.

Lemma foldl_put_properties (l : list (string * any)) m :
  NoDup l.*1 →
  properties_ (foldl (λ copy kv, put kv.1 kv.2 copy) m l) = list_to_map l ∪ properties_ m.
Proof.
  revert m. induction l as [|[k v] l IH]; intros m; cbn; [by rewrite (left_id_L ∅ (∪)) |].
  rewrite NoDup_cons. intros [Hk Hl]. rewrite IH by done. cbn.
  rewrite <- insert_union_l, <- insert_union_r; [done |]. by apply not_elem_of_list_to_map_1.
Qed.

Lemma foldl_put_other {A} (f : MetadataImpl → A) (l : list (string * any)) m :
  (∀ k v m, f (put k v m) = f m) → f (foldl (λ copy kv, put kv.1 kv.2 copy) m l) = f m.
Proof. intros Hf. revert m. induction l as [|[k v] l IH]; intros m; cbn; [done |]. by rewrite IH. Qed.

Lemma in_key_order_NoDup {A} (m : gmap string A) : NoDup (in_key_order m).*1.
Proof. rewrite in_key_order_perm. apply NoDup_fst_map_to_list. Qed.

Lemma in_key_order_list_to_map {A} (m : gmap string A) : list_to_map (in_key_order m) = m.
Proof.
  rewrite <- (list_to_map_to_list m) at 2. apply list_to_map_proper; [apply in_key_order_NoDup |].
  apply in_key_order_perm.
Qed.

(** [headers_] and [response_headers_] agree with the string properties on
    the keys [K]: one value per present key, none otherwise. *)
Definition header_value (k : string) (m : MetadataImpl) : list string :=
  match getStringPointer k m with Some v => [v] | None => [] end.
Definition coherent (K : gset string) (m : MetadataImpl) : Prop :=
  ∀ k, k ∈ K → hdr_get (headers_ m) (LowerCaseString k) = header_value k m ∧
               hdr_get (response_headers_ m) (LowerCaseString k) = header_value k m.

Definition case_distinct (K : gset string) : Prop :=
  ∀ k k', k ∈ K → k' ∈ K → LowerCaseString k = LowerCaseString k' → k = k'.

Context {L : EnvoyLaws E}.

Lemma coherent_new K : coherent K new_MetadataImpl.
Proof. intros k _. cbn. by rewrite !hdr_get_create. Qed.

Lemma coherent_putString K k v m :
  case_distinct K → k ∈ K → coherent K m → coherent K (putString k v m).
Proof.
  intros HK Hk Hm k' Hk'. unfold putString. cbn. unfold upd. cbn.
  rewrite !hdr_get_addCopy, !hdr_get_remove. destruct (Hm k' Hk') as [H1 H2].
  unfold header_value, getStringPointer, getByKey. cbn. destruct (decide (k = k')) as [-> | Hne].
  - by rewrite !decide_True, lookup_insert_eq.
  - assert (LowerCaseString k ≠ LowerCaseString k') by (intros ?; by apply Hne, HK).
    by rewrite !decide_False, lookup_insert_ne, H1, H2.
Qed.

Lemma coherent_removeString K k m :
  case_distinct K → k ∈ K → coherent K m → coherent K (removeString k m).
Proof.
  intros HK Hk Hm k' Hk'. unfold removeString. cbn. unfold upd. cbn.
  rewrite !hdr_get_remove. destruct (Hm k' Hk') as [H1 H2].
  unfold header_value, getStringPointer, getByKey. cbn. destruct (decide (k = k')) as [-> | Hne].
  - by rewrite !decide_True, lookup_delete_eq.
  - assert (LowerCaseString k ≠ LowerCaseString k') by (intros ?; by apply Hne, HK).
    by rewrite !decide_False, lookup_delete_ne, H1, H2.
Qed.
End lemmas.

(** ** Properties *)

Section properties.
Context {E : Envoy}.

(** The string operations a codec, a filter or a tracer performs. *)
Inductive string_op : Type :=
| PutString (key value : string)
| RemoveString (key : string).

Definition op_key (o : string_op) : string :=
  match o with PutString k _ => k | RemoveString k => k end.
Definition run_op (m : MetadataImpl) (o : string_op) : MetadataImpl :=
  match o with PutString k v => putString k v m | RemoveString k => removeString k m end.

(** after any sequence of [putString] and [removeString] calls on keys
    that differ in more than case, both header maps hold, under each
    lower-cased key, exactly the value the property map holds: route matching
    and access logs see the current properties. *)
Theorem metadata_headers_coherent {L : EnvoyLaws E} (K : gset string) (ops : list string_op)
    (HK : case_distinct K) (Hops : Forall (λ o, op_key o ∈ K) ops) :
  coherent K (foldl run_op new_MetadataImpl ops).
Proof.
  generalize (coherent_new K). generalize new_MetadataImpl.
  induction Hops as [|o ops Ho _ IH]; intros m Hm; cbn; [done |].
  apply IH. destruct o; [by apply coherent_putString | by apply coherent_removeString].
Qed.

(** a clone (the copy mirrored requests are sent from) has the message
    bytes, the sizes, ids, type, status and every property of the original,
    and neither its header maps nor its operation name nor stream info. *)
Theorem metadata_clone_spec {L : EnvoyLaws E} (m : MetadataImpl)
    (Hids : request_id_ m = u64 (request_id_ m) ∧ stream_id_ m = u64 (stream_id_ m))
    (Hsizes : header_size_ m = u64 (header_size_ m) ∧ body_size_ m = u64 (body_size_ m)) :
  let c := clone m in
  contents (origin_message_ c) = contents (origin_message_ m) ∧
  properties_ c = properties_ m ∧
  message_type_ c = message_type_ m ∧ response_status_ c = response_status_ m ∧
  request_id_ c = request_id_ m ∧ stream_id_ c = stream_id_ m ∧
  getMessageSize c = getMessageSize m ∧
  (∀ k, hdr_get (headers_ c) k = []) ∧ operation_name_ c = "" ∧ stream_info_ c = None.
Proof.
  destruct Hids as [Hr Hs], Hsizes as [Hh Hb]. cbv zeta. unfold clone, getMessageSize.
  rewrite foldl_put_properties by apply in_key_order_NoDup.
  rewrite !(foldl_put_other origin_message_), !(foldl_put_other message_type_),
    !(foldl_put_other response_status_), !(foldl_put_other request_id_),
    !(foldl_put_other stream_id_), !(foldl_put_other header_size_),
    !(foldl_put_other body_size_), !(foldl_put_other operation_name_),
    !(foldl_put_other stream_info_) by done.
  split_and!; try done.
  - cbn. rewrite buf_add_spec by apply contents_bytes. by rewrite buf_new_spec.
  - cbn. rewrite in_key_order_list_to_map. apply (right_id_L ∅ (∪)).
  - cbn. by rewrite <- Hh, <- Hb.
  - intros k. rewrite (foldl_put_other headers_) by done. cbn. apply hdr_get_create.
Qed.

(** Gathers what a traversal visits. *)
Definition collect (k v : string) (acc : list (string * string)) : bool * list (string * string) :=
  (true, acc ++ [(k, v)]).

Definition string_entry (e : string * any) : option (string * string) :=
  match e with (k, AnyString v) => Some (k, v) | _ => None end.

Lemma forEach_loop_collect l acc : forEach_loop collect l acc = acc ++ omap string_entry l.
Proof.
  revert acc. induction l as [|[k [v| | |]] l IH]; intros acc; cbn; rewrite ?IH.
  1: by rewrite app_nil_r. 2-4: done. by rewrite <- app_assoc.
Qed.

(** [forEach] visits the string properties, each once, in key order. *)
Theorem metadata_forEach_in_order (m : MetadataImpl) :
  let visited := forEach collect m [] in
  Sorted key_le visited ∧ NoDup visited.*1 ∧
  ∀ k v, (k, v) ∈ visited ↔ properties_ m !! k = Some (AnyString v).
Proof.
  cbv zeta. unfold forEach. rewrite forEach_loop_collect. cbn [app].
  pose proof (in_key_order_sorted (properties_ m)) as Hsort.
  pose proof (in_key_order_NoDup (properties_ m)) as Hnd.
  assert (∀ k v, (k, v) ∈ in_key_order (properties_ m) ↔ properties_ m !! k = Some v) as Hin.
  { intros k v. rewrite in_key_order_perm. apply elem_of_map_to_list. }
  generalize dependent (in_key_order (properties_ m)). intros l Hsort Hnd Hin.
  split_and!.
  - apply StronglySorted_Sorted, (StronglySorted_omap key_le).
    + intros [k []] [k' []] y y' HR Hy Hy'; cbn in *; by simplify_eq.
    + apply Sorted_StronglySorted; [| done].
      intros [a1 a2] [b1 b2] [c1 c2]. unfold key_le. cbn. apply String_leb_trans.
  - clear -Hnd. induction l as [|[k v] l IH]; cbn; [constructor |].
    apply NoDup_cons in Hnd as [Hk Hnd]. destruct v; cbn; auto.
    apply NoDup_cons. split; [| by apply IH]. intros Hin. apply Hk.
    apply list_elem_of_fmap in Hin as ([k' v] & -> & ([k2 []] & Hin & Heq)%list_elem_of_omap);
      cbn in Heq; simplify_eq. apply list_elem_of_fmap. by exists (k', AnyString v).
  - intros k v. rewrite list_elem_of_omap. split.
    + intros ([k2 []] & Hl & Heq); cbn in Heq; simplify_eq. by apply Hin.
    + intros Hl. exists (k, AnyString v). split; [by apply Hin | done].
Qed.
End properties.

(** ** Witnesses *)

Section witnesses.
Definition md_E : Envoy := list_envoy Empty_set.
Definition md_L : EnvoyLaws md_E := list_envoy_laws Empty_set.
Existing Instance md_L.

Lemma metadata_headers_coherent_witness :
  coherent (E := md_E) {["A"; "B"]}
    (foldl run_op new_MetadataImpl [PutString "A" "1"; PutString "B" "2"; RemoveString "A"]).
Proof.
  apply (metadata_headers_coherent (E := md_E) {["A"; "B"]}).
  - intros k k' Hk Hk'. rewrite elem_of_union, !elem_of_singleton in Hk, Hk'.
    destruct Hk as [-> | ->], Hk' as [-> | ->]; vm_compute; done.
  - repeat apply Forall_cons_2; cbn; try set_solver.
Defined.

Lemma metadata_clone_spec_witness :
  properties_ (clone (E := md_E) (putString "A" "1" new_MetadataImpl)) =
  properties_ (putString (E := md_E) "A" "1" new_MetadataImpl).
Proof.
  apply (metadata_clone_spec (E := md_E) (putString "A" "1" new_MetadataImpl)); split; reflexivity.
Defined.
End witnesses.
