(* ===== verification/Codec.v ===== *)
(** * The codec interface and its framing contract

    Model of [class Codec] ([codec/codec.h]).  A codec keeps state between two
    calls of [decode]: the bytes of a message it has already taken from the
    buffer, and how far it has got.  The interface is a class of operations;
    what a codec promises to the decoder of the framework is [CodecContract]:
    a pure framing function on the byte stream, which [decode] implements no
    matter how the stream is cut into reads. *)

From S2P Require Import Prelude Envoy Metadata.

Class CodecOps (E : Envoy) := {
  codec_state : Type;
  codec_init : codec_state;
  (** [decode(buffer, metadata)]: all three objects are updated. *)
  codec_decode : M (codec_state * buffer * MetadataImpl) DecodeStatus;
  (** [encode(metadata, mutation, buffer)]; the metadata is not changed, the
      objects it points to are part of the codec state where a codec does. *)
  codec_encode : MetadataImpl → Mutation → M (codec_state * buffer) unit;
  (** [onError(metadata, error, buffer)] *)
  codec_onError : MetadataImpl → Error → M (codec_state * buffer) unit
}.

Section codec.
Context {E : Envoy}.

(** What can be told of a decoded message: its metadata, with the bytes of the
    message in place of the buffer object that holds them. *)
Definition view (m : MetadataImpl) : MetadataImpl * bytes :=
  (m <| origin_message_ := buf_new |>, contents (origin_message_ m)).

(** The metadata [DecoderStateMachine] hands to a codec. *)
Definition fresh_metadata (t : MessageType) : MetadataImpl := setMessageType t new_MetadataImpl.

(** The two types decoders are constructed with. *)
Definition decoder_type (t : MessageType) : Prop := t = MessageType_Request ∨ t = MessageType_Response.

(** Result of framing a byte stream: more bytes are needed; a message of [n]
    bytes; a protocol error; a crash. *)
Inductive framing : Type :=
| FWait
| FDone (n : Z) (v : MetadataImpl * bytes)
| FThrow (e : exn)
| FPanic (w : string).

(** [frame t bs] frames the first message of [bs].  [codec_rep t c l s] says
    that the codec [c] has taken the bytes [l] of the current message and that
    what it remembers is right for the stream [s], which begins with them.  Once
    the first message is decided, later bytes do not change it (up to the
    [BufferLimit] of a connection, [UINT32_MAX]). *)
Class CodecContract (C : CodecOps E) := {
  frame : MessageType → bytes → framing;
  codec_rep : MessageType → codec_state → bytes → bytes → Prop;
  codec_rep_init t s : decoder_type t → codec_rep t codec_init [] s;
  codec_rep_type t c l s : codec_rep t c l s → decoder_type t;
  codec_rep_app t c l s k : codec_rep t c l s → codec_rep t c l (s ++ k);
  frame_size t bs n v : frame t bs = FDone n v → 0 ≤ n ≤ zlen bs;
  frame_app t bs k : zlen (bs ++ k) < 2 ^ 32 → frame t bs ≠ FWait → frame t (bs ++ k) = frame t bs;
  frame_nil t : decoder_type t → frame t [] = FWait;
  codec_decode_spec t c l b : codec_rep t c l (l ++ contents b) →
    match frame t (l ++ contents b) with
    | FWait => ∃ c' b' m' l',
        codec_decode (c, b, fresh_metadata t) = (Return DecodeStatus_WaitForData, (c', b', m')) ∧
        codec_rep t c' l' (l' ++ contents b') ∧ l' ++ contents b' = l ++ contents b
    | FDone n v => ∃ c' b' m',
        codec_decode (c, b, fresh_metadata t) = (Return DecodeStatus_Done, (c', b', m')) ∧
        (∀ s, codec_rep t c' [] s) ∧ contents b' = zdrop n (l ++ contents b) ∧ view m' = v
    | FThrow e => ∃ c' b' m',
        codec_decode (c, b, fresh_metadata t) = (Throw e, (c', b', m'))
    | FPanic w => ∃ c' b' m',
        codec_decode (c, b, fresh_metadata t) = (Panic w, (c', b', m'))
    end
}.

(** ** The messages of a byte stream *)

(** What is left after the complete messages of a stream. *)
Inductive tail : Type :=
| TRest (bs : bytes)
| TThrow (e : exn)
| TPanic (w : string).

Section parse_all.
Context {C : CodecOps E} {K : CodecContract C} (t : MessageType).

(** [None]: the fuel ran out. *)
Fixpoint parse_all (fuel : nat) (bs : bytes) : option (list (MetadataImpl * bytes) * tail) :=
  match fuel with
  | O => None
  | S fuel =>
      match frame t bs with
      | FWait => Some ([], TRest bs)
      | FThrow e => Some ([], TThrow e)
      | FPanic w => Some ([], TPanic w)
      | FDone n v => prod_map (cons v) id <$> parse_all fuel (zdrop n bs)
      end
  end.

Lemma parse_all_mono fuel fuel' bs r :
  (fuel ≤ fuel')%nat → parse_all fuel bs = Some r → parse_all fuel' bs = Some r.
Proof.
  revert fuel' bs r. induction fuel as [|fuel IH]; intros [|fuel'] bs r Hle; cbn; try done; [lia |].
  destruct (frame t bs) as [|n v|e|w]; try done.
  intros ([vs tl] & Hp & ->)%fmap_Some. erewrite IH; [done | lia | done].
Qed.

Lemma parse_all_rest_length fuel bs vs rest :
  parse_all fuel bs = Some (vs, TRest rest) → (length rest ≤ length bs)%nat.
Proof.
  revert bs vs. induction fuel as [|fuel IH]; intros bs vs; cbn; [done |].
  destruct (frame t bs) as [|n v|e|w] eqn:Hfr; try done.
  - by intros [= <- <-].
  - intros ([vs1 tl1] & Hp & [= -> <-])%fmap_Some. apply IH in Hp.
    unfold zdrop in Hp. rewrite length_drop in Hp. lia.
Qed.

(** Cutting a stream: the messages of the first part come first, and parsing
    resumes on what was left of it; an error stays an error. *)
Lemma parse_all_cut fuel bs k vs tl :
  zlen (bs ++ k) < 2 ^ 32 →
  parse_all fuel (bs ++ k) = Some (vs, tl) →
  ∃ vs1 tl1, parse_all fuel bs = Some (vs1, tl1) ∧
    match tl1 with
    | TRest rest => ∃ vs2, parse_all fuel (rest ++ k) = Some (vs2, tl) ∧ vs = vs1 ++ vs2
    | _ => vs = vs1 ∧ tl = tl1
    end.
Proof.
  revert bs vs. induction fuel as [|fuel IH]; intros bs vs Hlen; cbn [parse_all]; [done |].
  destruct (frame t bs) as [|n v|e|w] eqn:Hfr.
  - intros Hp. exists [], (TRest bs). split; [done |]. by exists vs.
  - rewrite frame_app, Hfr by (done || by rewrite Hfr). pose proof (frame_size _ _ _ _ Hfr).
    intros ([vs' tl'] & Hp & [= -> ->])%fmap_Some. rewrite zdrop_app in Hp by done.
    apply IH in Hp as (vs1 & tl1 & -> & Htl);
      [| rewrite zlen_app in *; rewrite zlen_zdrop by done; lia].
    exists (v :: vs1), tl1. split; [done |]. destruct tl1 as [rest|e|w].
    + destruct Htl as (vs2 & Hp2 & ->). exists vs2. split; [| done].
      apply (parse_all_mono fuel (S fuel)); [lia | done].
    + by destruct Htl as [-> ->].
    + by destruct Htl as [-> ->].
  - rewrite frame_app, Hfr by (done || by rewrite Hfr). intros [= <- <-]. by exists [], (TThrow e).
  - rewrite frame_app, Hfr by (done || by rewrite Hfr). intros [= <- <-]. by exists [], (TPanic w).
Qed.

Lemma parse_all_rest fuel bs vs rest :
  parse_all fuel bs = Some (vs, TRest rest) → frame t rest = FWait.
Proof.
  revert bs vs. induction fuel as [|fuel IH]; intros bs vs; cbn; [done |].
  destruct (frame t bs) as [|n v|e|w] eqn:Hfr; try done.
  - by intros [= <- <-].
  - intros ([vs1 tl1] & Hp & [= -> <-])%fmap_Some. eauto.
Qed.
End parse_all.
End codec.
