(* ===== verification/Decoder.v ===== *)
(** * The message decoder

    Model of [decoder.h]/[decoder.cc]: [DecoderStateMachine], [DecoderBase],
    [Decoder<T>], and of the loop with which [ConnectionManager::dispatch] and
    [ActiveResponseDecoder::onData] drive it.

    The decoder, the codec it refers to and the buffer it reads are kept in one
    [Host] with the world of its callbacks, since the callbacks may reach all of
    them.  [state_machine_ = None] is the null pointer. *)

From S2P Require Import Prelude Envoy Metadata Codec.

Inductive ProtocolState : Type :=
| ProtocolState_WaitForData
| ProtocolState_OnDecodeStreamData
| ProtocolState_Done.

#[global] Instance ProtocolState_eq_dec : EqDecision ProtocolState.
Proof. solve_decision. Defined.

(** [decoder_event_handler.h]: what a filter tells the chain. *)
Inductive FilterStatus : Type :=
| FilterStatus_ContinueIteration
| FilterStatus_PauseIteration
| FilterStatus_AbortIteration
| FilterStatus_Retry.
#[global] Instance FilterStatus_eq_dec : EqDecision FilterStatus.
Proof. solve_decision. Defined.

Section state.
Context {E : Envoy} {C : CodecOps E}.

(** The shared metadata and mutation of an [ActiveStream] are the ones given to
    its handler. *)
Record ActiveStream (H : Type) : Type := {
  as_handler : H;
  as_metadata : MetadataImpl;
  as_mutation : Mutation
}.

Record DecoderBase (H : Type) : Type := {
  stream_ : option (ActiveStream H);
  state_machine_ : option ProtocolState;
  messageType_ : MessageType;
  decode_started_ : bool
}.
#[global] Instance DecoderBase_eta H : Eta (DecoderBase H) := fun d =>
  {| stream_ := stream_ H d; state_machine_ := state_machine_ H d;
     messageType_ := messageType_ H d; decode_started_ := decode_started_ H d |}.

Definition new_DecoderBase H (t : MessageType) : DecoderBase H :=
  {| stream_ := None; state_machine_ := None; messageType_ := t; decode_started_ := false |}.

Record Host (H W : Type) : Type := {
  h_decoder : DecoderBase H;
  h_codec : codec_state;
  h_buffer : buffer;
  h_world : W
}.
#[global] Instance Host_eta H W : Eta (Host H W) := fun h =>
  {| h_decoder := h_decoder H W h; h_codec := h_codec H W h;
     h_buffer := h_buffer H W h; h_world := h_world H W h |}.

(** [DecoderCallbacksBase] and [MessageHandler]. *)
Class DecoderCallbacks (H W : Type) := {
  newMessageHandler : M (Host H W) H;
  handler_onMessageDecoded : H → MetadataImpl → Mutation → M (Host H W) unit;
  onHeartbeat : MetadataImpl → M (Host H W) bool
}.
End state.
Arguments as_handler {E H} _.
Arguments as_metadata {E H} _.
Arguments as_mutation {E H} _.
Arguments stream_ {E H} _.
Arguments state_machine_ {E H} _.
Arguments messageType_ {E H} _.
Arguments decode_started_ {E H} _.
Arguments new_DecoderBase {E H} _.
Arguments h_decoder {E C H W} _.
Arguments h_codec {E C H W} _.
Arguments h_buffer {E C H W} _.
Arguments h_world {E C H W} _.

Section decoder.
Context {E : Envoy} {C : CodecOps E} {H W : Type} {D : DecoderCallbacks H W}.
Abbreviation host := (Host H W).

Definition on_decoder (f : DecoderBase H → DecoderBase H) : M host unit :=
  modify (λ h, h <| h_decoder ::= f |>).

(** [codec_.decode(buffer, *metadata)] *)
Definition decode_with_codec (metadata : MetadataImpl) : M host (DecodeStatus * MetadataImpl) := λ h,
  match codec_decode (h_codec h, h_buffer h, metadata) with
  | (o, (c, b, m)) =>
      ((λ st, (st, m)) <$> o, h <| h_codec := c |> <| h_buffer := b |>)
  end.

(** [Decoder<T>::newStream] *)
Definition newStream (metadata : MetadataImpl) (mutation : Mutation) : M host (ActiveStream H) :=
  d ← gets h_decoder;
  _ ← ASSERT (bool_decide (stream_ d = None)) "!stream_";
  handler ← newMessageHandler;
  let s := {| as_handler := handler; as_metadata := metadata; as_mutation := mutation |} in
  _ ← on_decoder (λ d, d <| stream_ := Some s |>);
  mret s.

Definition onStreamDecoded (s : ActiveStream H) : M host unit :=
  handler_onMessageDecoded (as_handler s) (as_metadata s) (as_mutation s).

(** [DecoderStateMachine::onDecodeStream] *)
Definition onDecodeStream : M host ProtocolState :=
  d ← gets h_decoder;
  '(decodeStatus, metadata) ← decode_with_codec (fresh_metadata (messageType_ d));
  if decide (decodeStatus = DecodeStatus_WaitForData) then mret ProtocolState_WaitForData
  else if decide (message_type_ metadata = MessageType_Heartbeat) then
    (waitForResponse ← onHeartbeat metadata;
     mret (if (waitForResponse : bool) then ProtocolState_WaitForData else ProtocolState_Done))
  else
    (s ← newStream metadata ∅;
     _ ← onStreamDecoded s;
     mret ProtocolState_Done).

(** [DecoderStateMachine::run]; the machine may have been destroyed by a
    callback, in which case [state_ = ...] writes to freed memory. *)
Definition run : M host ProtocolState :=
  d ← gets h_decoder;
  _ ← ASSERT (bool_decide (state_machine_ d ≠ Some ProtocolState_Done)) "state_ != Done";
  state ← onDecodeStream;
  d ← gets h_decoder;
  _ ← lift (match state_machine_ d with Some _ => Return tt | None => Panic "use after free" end);
  _ ← on_decoder (λ d, d <| state_machine_ := Some state |>);
  mret state.

Definition start : M host unit :=
  on_decoder (λ d, d <| state_machine_ := Some ProtocolState_OnDecodeStreamData |>
                     <| decode_started_ := true |>).

Definition complete : M host unit :=
  on_decoder (λ d, d <| state_machine_ := None |> <| stream_ := None |> <| decode_started_ := false |>).

Definition reset : M host unit := complete.

(** [DecoderBase::onData]; the result is [buffer_underflow]. *)
Definition onData : M host bool :=
  d ← gets h_decoder;
  _ ← (if decode_started_ d then mret tt else start);
  d ← gets h_decoder;
  _ ← ASSERT (bool_decide (state_machine_ d ≠ None)) "state_machine_ != nullptr";
  state ← run;
  match state with
  | ProtocolState_WaitForData => mret true
  | _ =>
      _ ← ASSERT (bool_decide (state = ProtocolState_Done)) "state == Done";
      _ ← complete;
      n ← gets (λ h, buf_length (h_buffer h));
      mret (n =? 0)
  end.

(** [while (!underflow) decoder_->onData(buffer, underflow)] *)
Fixpoint decode_loop (fuel : nat) : M host unit :=
  match fuel with
  | O => panic "out of fuel"
  | S fuel => underflow ← onData; if (underflow : bool) then mret tt else decode_loop fuel
  end.
End decoder.

(** ** Frame rule

    A decoder changes its own members and the world of the callbacks only through
    the callbacks. *)

Section decoder_frames.
Context {E : Envoy} {C : CodecOps E} {H W : Type} (R : relation W) {PO : PreOrder R}.

Definition world_related (h h' : Host H W) : Prop := R (h_world h) (h_world h').
#[global] Instance world_related_preorder : PreOrder world_related.
Proof. split; [intros h; unfold world_related; done | intros h1 h2 h3 ??; unfold world_related in *; by etrans]. Qed.

Lemma frames_on_decoder f : frames world_related (on_decoder f).
Proof. intros h. unfold world_related. cbn. reflexivity. Qed.
Lemma frames_decode_with_codec m : frames world_related (decode_with_codec m).
Proof.
  intros h. unfold world_related, decode_with_codec.
  destruct (codec_decode _) as [o [[c b] m']]. cbn. reflexivity.
Qed.

Context {D : DecoderCallbacks H W}
  (Hnew : frames world_related newMessageHandler)
  (Hdec : ∀ hd m mu, frames world_related (handler_onMessageDecoded hd m mu))
  (Hhb : ∀ m, frames world_related (onHeartbeat m)).

Lemma frames_onData : frames world_related onData.
Proof using All.
  pose proof frames_on_decoder. pose proof frames_decode_with_codec.
  unfold onData, run, onDecodeStream, newStream, onStreamDecoded, start, complete.
  frames_auto.
Qed.
Lemma frames_decode_loop fuel : frames world_related (decode_loop fuel).
Proof using All.
  induction fuel as [|fuel IH]; cbn [decode_loop]; [by frames_auto |].
  pose proof frames_onData. frames_auto.
Qed.
End decoder_frames.

(** ** The decoder against the framing contract *)

Section correctness.
Context {E : Envoy} {C : CodecOps E} {K : CodecContract C} {H W : Type}.

(** [h] becomes [h'] and [vs] are delivered: the decoder and the buffer are left
    alone and the codec is at the same point of the stream. *)
Definition quiet (log : W → list (MetadataImpl * bytes)) (vs : list (MetadataImpl * bytes))
    (h h' : Host H W) : Prop :=
  h_decoder h' = h_decoder h ∧ h_buffer h' = h_buffer h ∧
  (∀ t l s, codec_rep t (h_codec h) l s → codec_rep t (h_codec h') l s) ∧
  log (h_world h') = log (h_world h) ++ vs.

(** Callbacks that record each message once, keep their hands off the decoder,
    and do not wait after a heartbeat (as [ConnectionManager] does). *)
Class CallbacksLaws (D : DecoderCallbacks H W) (log : W → list (MetadataImpl * bytes)) : Prop := {
  new_handler_spec md (h : Host H W) : ∃ hd h1,
    newMessageHandler h = (Return hd, h1) ∧ quiet log [] h h1 ∧
    ∀ h2, h_world h2 = h_world h1 →
      ∃ h3, handler_onMessageDecoded hd md ∅ h2 = (Return tt, h3) ∧ quiet log [view md] h2 h3;
  heartbeat_spec md (h : Host H W) : ∃ h',
    onHeartbeat md h = (Return false, h') ∧ quiet log [view md] h h'
}.

Context {D : DecoderCallbacks H W} (log : W → list (MetadataImpl * bytes))
  {L : EnvoyLaws E} {CL : CallbacksLaws D log}.

Definition pending (h : Host H W) (l : bytes) : bytes := l ++ contents (h_buffer h).

(** Between two calls of [onData]: [l] are the bytes of the current message the
    codec holds. *)
Definition ready (t : MessageType) (h : Host H W) (l : bytes) : Prop :=
  codec_rep t (h_codec h) l (pending h l) ∧ messageType_ (h_decoder h) = t ∧ stream_ (h_decoder h) = None ∧
  (decode_started_ (h_decoder h) = true → ∃ s, state_machine_ (h_decoder h) = Some s ∧ s ≠ ProtocolState_Done).

(** *** One message *)

Lemma onDecodeStream_wait t h l :
  codec_rep t (h_codec h) l (pending h l) → messageType_ (h_decoder h) = t → frame t (pending h l) = FWait →
  ∃ h' l', onDecodeStream h = (Return ProtocolState_WaitForData, h') ∧
    h_decoder h' = h_decoder h ∧ codec_rep t (h_codec h') l' (pending h' l') ∧ pending h' l' = pending h l ∧
    h_world h' = h_world h.
Proof.
  intros Hrep Ht Hf. pose proof (codec_decode_spec t (h_codec h) l (h_buffer h) Hrep) as Hs.
  unfold pending in *. rewrite Hf in Hs. destruct Hs as (c' & b' & m' & l' & Hd & Hr & Heq).
  exists (h <| h_codec := c' |> <| h_buffer := b' |>), l'. split_and!; try done.
  unfold onDecodeStream. mstep.
  unfold decode_with_codec. rewrite Ht, Hd. done.
Qed.

Lemma onDecodeStream_done t h l n v :
  codec_rep t (h_codec h) l (pending h l) → messageType_ (h_decoder h) = t → stream_ (h_decoder h) = None →
  frame t (pending h l) = FDone n v →
  ∃ h' so, onDecodeStream h = (Return ProtocolState_Done, h') ∧
    h_decoder h' = (h_decoder h) <| stream_ := so |> ∧ (∀ s, codec_rep t (h_codec h') [] s) ∧
    contents (h_buffer h') = zdrop n (pending h l) ∧ log (h_world h') = log (h_world h) ++ [v].
Proof.
  intros Hrep Ht Hs Hf. pose proof (codec_decode_spec t (h_codec h) l (h_buffer h) Hrep) as Hsp.
  unfold pending in *. rewrite Hf in Hsp. destruct Hsp as (c' & b' & m' & Hd & Hr & Hb & Hv).
  set (h0 := h <| h_codec := c' |> <| h_buffer := b' |>).
  assert (decode_with_codec (fresh_metadata t) h = (Return (DecodeStatus_Done, m'), h0)) as Hdec.
  { unfold decode_with_codec. by rewrite Hd. }
  destruct (decide (message_type_ m' = MessageType_Heartbeat)) as [Hhb | Hhb].
  - destruct (heartbeat_spec m' h0) as (h' & Hon & Hdd & Hbb & Hcc & Hll).
    exists h', None. split_and!.
    + unfold onDecodeStream. mstep. rewrite Ht, Hdec. cbv beta iota.
      rewrite decide_False, decide_True by done. mstep. by rewrite Hon.
    + rewrite Hdd. unfold h0. destruct h as [[? ? ? ?] ? ? ?]. cbn in *. by subst.
    + intros s. by apply Hcc.
    + by rewrite Hbb.
    + by rewrite Hll, Hv.
  - destruct (new_handler_spec m' h0) as (hd & h1 & Hnew & (Hd1 & Hb1 & Hc1 & Hl1) & Hdel).
    set (s := {| as_handler := hd; as_metadata := m'; as_mutation := ∅ |}).
    set (h2 := h1 <| h_decoder ::= λ d, d <| stream_ := Some s |> |>).
    destruct (Hdel h2) as (h3 & Hon & Hd3 & Hb3 & Hc3 & Hl3); [done |].
    exists h3, (Some s). split_and!.
    + unfold onDecodeStream. mstep. rewrite Ht, Hdec. cbv beta iota.
      rewrite !decide_False by done. mstep.
      assert (newStream m' ∅ h0 = (Return s, h2)) as ->.
      { unfold newStream. mstep. rewrite bool_decide_true by done. mstep. rewrite Hnew. done. }
      mstep. unfold onStreamDecoded, s. cbn [as_handler as_metadata as_mutation]. by rewrite Hon.
    + rewrite Hd3. unfold h2, upd. cbn. by rewrite Hd1.
    + intros s'. by apply Hc3, Hc1.
    + rewrite Hb3. unfold h2, upd. cbn. by rewrite Hb1.
    + rewrite Hl3, Hv. unfold h2, upd. cbn. by rewrite Hl1, app_nil_r.
Qed.

(** The outcome of a framing that stops the decoder. *)
Definition stopped {A} (f : framing) : option (outcome A) :=
  match f with FThrow e => Some (Throw e) | FPanic w => Some (Panic w) | _ => None end.

Lemma onDecodeStream_stop t h l o :
  codec_rep t (h_codec h) l (pending h l) → messageType_ (h_decoder h) = t →
  stopped (frame t (pending h l)) = Some o →
  ∃ h', onDecodeStream h = (o, h') ∧ h_world h' = h_world h.
Proof.
  intros Hrep <- Ho. pose proof (codec_decode_spec _ (h_codec h) l (h_buffer h) Hrep) as Hs.
  unfold pending in *. destruct (frame _ _) as [|n v|e|w]; cbn in Ho; simplify_eq;
    destruct Hs as (c' & b' & m' & Hd);
    (exists (h <| h_codec := c' |> <| h_buffer := b' |>); split; [| done];
     unfold onDecodeStream; mstep; unfold decode_with_codec; rewrite Hd; done).
Qed.

(** *** One call of [onData] *)

(** [onData] after [start]. *)
Lemma onData_started h :
  (decode_started_ (h_decoder h) = true → ∃ s, state_machine_ (h_decoder h) = Some s ∧ s ≠ ProtocolState_Done) →
  ∃ h0 s0, h0 = h <| h_decoder ::= λ d, d <| state_machine_ := Some s0 |> <| decode_started_ := true |> |> ∧
    onData h = (state ← run;
                match state with
                | ProtocolState_WaitForData => mret true
                | _ =>
                    _ ← ASSERT (bool_decide (state = ProtocolState_Done)) "state == Done";
                    _ ← complete;
                    n ← gets (λ h, buf_length (h_buffer h));
                    mret (n =? 0)
                end) h0 ∧ s0 ≠ ProtocolState_Done.
Proof.
  intros Hst. destruct (decode_started_ (h_decoder h)) eqn:Hds.
  - destruct (Hst eq_refl) as (s0 & Hs0 & Hne).
    exists h, s0. split_and!; [| | done].
    + destruct h as [[? ? ? ?] ? ? ?]. cbn in *. by subst.
    + unfold onData. rewrite run_bind. cbn [gets]. cbv beta iota. rewrite Hds.
      rewrite run_bind. cbn [mret M_ret]. cbv beta iota. rewrite run_bind. cbn [gets]. cbv beta iota.
      rewrite run_bind, bool_decide_true by (by rewrite Hs0). done.
  - eexists _, ProtocolState_OnDecodeStreamData. split_and!; [done | | done].
    unfold onData. rewrite run_bind. cbn [gets]. cbv beta iota. by rewrite Hds.
Qed.

Lemma run_state h s0 :
  state_machine_ (h_decoder h) = Some s0 → s0 ≠ ProtocolState_Done →
  (∀ st h', onDecodeStream h = (Return st, h') → is_Some (state_machine_ (h_decoder h'))) →
  run h = match onDecodeStream h with
          | (Return st, h') => (Return st, h' <| h_decoder ::= λ d, d <| state_machine_ := Some st |> |>)
          | (Throw e, h') => (Throw e, h')
          | (Panic w, h') => (Panic w, h')
          end.
Proof.
  intros Hs Hne Hk. unfold run. rewrite run_bind. cbn [gets]. cbv beta iota.
  rewrite run_bind, bool_decide_true by (rewrite Hs; congruence). cbn [ASSERT lift assert_that].
  cbv beta iota. rewrite run_bind.
  destruct (onDecodeStream h) as [[st|e|w] h'] eqn:Ho; try done.
  destruct (Hk _ _ eq_refl) as [s' Hs']. mstep. by rewrite Hs'.
Qed.

Lemma onData_wait t h l :
  ready t h l → frame t (pending h l) = FWait →
  ∃ h' l', onData h = (Return true, h') ∧ ready t h' l' ∧ pending h' l' = pending h l ∧
    h_world h' = h_world h.
Proof.
  intros (Hrep & Ht & Hs & Hst) Hf. destruct (onData_started h Hst) as (h0 & s0 & Hh0 & -> & Hne).
  assert (∃ h' l', onDecodeStream h0 = (Return ProtocolState_WaitForData, h') ∧
    h_decoder h' = h_decoder h0 ∧ codec_rep t (h_codec h') l' (pending h' l') ∧ pending h' l' = pending h0 l ∧
    h_world h' = h_world h0) as (h' & l' & Ho & Hd & Hr & Hp & Hw)
    by (apply onDecodeStream_wait; by subst h0).
  exists (h' <| h_decoder ::= λ d, d <| state_machine_ := Some ProtocolState_WaitForData |> |>), l'.
  rewrite run_bind, (run_state h0 s0); subst h0; try done.
  - rewrite Ho. split_and!; [done | | done | done].
    split_and!; unfold upd; cbn; rewrite ?Hd; try done. intros _. by eexists.
  - intros st h1. rewrite Ho. intros [= <- <-]. rewrite Hd. by eexists.
Qed.

Lemma onData_done t h l n v :
  ready t h l → frame t (pending h l) = FDone n v →
  ∃ h', onData h = (Return (buf_length (h_buffer h') =? 0), h') ∧ ready t h' [] ∧
    pending h' [] = zdrop n (pending h l) ∧ log (h_world h') = log (h_world h) ++ [v].
Proof.
  intros (Hrep & Ht & Hs & Hst) Hf. destruct (onData_started h Hst) as (h0 & s0 & Hh0 & -> & Hne).
  assert (∃ h' so, onDecodeStream h0 = (Return ProtocolState_Done, h') ∧
    h_decoder h' = (h_decoder h0) <| stream_ := so |> ∧ (∀ s, codec_rep t (h_codec h') [] s) ∧
    contents (h_buffer h') = zdrop n (pending h0 l) ∧ log (h_world h') = log (h_world h0) ++ [v])
    as (h' & so & Ho & Hd & Hr & Hp & Hw) by (apply onDecodeStream_done; by subst h0).
  exists (h' <| h_decoder ::= λ d, d <| state_machine_ := None |> <| stream_ := None |> <| decode_started_ := false |> |>).
  rewrite run_bind, (run_state h0 s0); subst h0; try done.
  - rewrite Ho. split_and!; [done | | done | done].
    split_and!; unfold upd; cbn; by rewrite ?Hd.
  - intros st h1. rewrite Ho. intros [= <- <-]. rewrite Hd. by eexists.
Qed.

Lemma onData_stop t h l o :
  ready t h l → stopped (frame t (pending h l)) = Some o →
  ∃ h', onData h = (o, h') ∧ h_world h' = h_world h.
Proof.
  intros (Hrep & Ht & Hs & Hst) Hf. destruct (onData_started h Hst) as (h0 & s0 & Hh0 & -> & Hne).
  set (o' := match o with Throw e => Throw e | Panic w => Panic w | Return _ => Panic "" end
             : outcome ProtocolState).
  assert (∃ h', onDecodeStream h0 = (o', h') ∧ h_world h' = h_world h0) as (h' & Ho & Hw).
  { apply (onDecodeStream_stop t h0 l); subst h0; try done.
    change (pending _ l) with (pending h l). unfold o'.
    by destruct (frame t (pending h l)); cbn in Hf |- *; simplify_eq. }
  exists h'. rewrite run_bind, (run_state h0 s0); subst h0; try done; rewrite Ho; unfold o';
    by destruct (frame t (pending h l)); cbn in Hf; simplify_eq.
Qed.
(** *** The loop *)

Definition tail_outcome (tl : tail) : outcome unit :=
  match tl with TRest _ => Return tt | TThrow e => Throw e | TPanic w => Panic w end.

(** The loop delivers the messages of the stream in order and stops as the
    stream does: on a message that is not complete, or on an error. *)
Lemma decode_loop_spec t fuel h l vs tl :
  ready t h l → parse_all t fuel (pending h l) = Some (vs, tl) →
  ∃ h', decode_loop fuel h = (tail_outcome tl, h') ∧ log (h_world h') = log (h_world h) ++ vs ∧
    match tl with TRest rest => ∃ l', ready t h' l' ∧ pending h' l' = rest | _ => True end.
Proof.
  revert h l vs. induction fuel as [|fuel IH]; intros h l vs Hrdy; cbn [parse_all]; [done |].
  cbn [decode_loop]. rewrite run_bind. destruct (frame t (pending h l)) as [|n v|e|w] eqn:Hf.
  - intros [= <- <-]. destruct (onData_wait t h l Hrdy Hf) as (h' & l' & -> & Hr & Hp & Hw).
    exists h'. rewrite Hw, app_nil_r. eauto 6.
  - intros ([vs1 tl1] & Hp & [= -> ->])%fmap_Some.
    destruct (onData_done t h l n v Hrdy Hf) as (h' & -> & Hr & Hpe & Hl). cbv beta iota.
    rewrite <- Hpe in Hp. destruct (Z.eqb_spec (buf_length (h_buffer h')) 0) as [Hz | Hz].
    + rewrite buf_length_spec in Hz. apply zlen_0_nil in Hz.
      assert (pending h' [] = []) as Hnil by done. rewrite Hnil in Hp.
      destruct fuel as [|fuel']; cbn in Hp; [done |].
      rewrite frame_nil in Hp by (destruct Hrdy; eauto using codec_rep_type).
      injection Hp as <- <-. exists h'. split_and!; [done | done |]. by exists [].
    + destruct (IH h' [] vs1 Hr Hp) as (h2 & -> & Hl2 & Htl).
      exists h2. split_and!; [done | | done]. by rewrite Hl2, Hl, <- app_assoc.
  - intros [= <- <-]. destruct (onData_stop t h l (Throw e) Hrdy) as (h' & -> & Hw); [by rewrite Hf |].
    exists h'. by rewrite Hw, app_nil_r.
  - intros [= <- <-]. destruct (onData_stop t h l (Panic w) Hrdy) as (h' & -> & Hw); [by rewrite Hf |].
    exists h'. by rewrite Hw, app_nil_r.
Qed.

(** A message of no bytes is decoded again and again. *)
Lemma decode_loop_no_progress t fuel h l v :
  ready t h l → frame t (pending h l) = FDone 0 v → pending h l ≠ [] →
  (decode_loop fuel h).1 = Panic "out of fuel".
Proof.
  revert h l. induction fuel as [|fuel IH]; intros h l Hrdy Hf Hne; [done |].
  cbn [decode_loop]. rewrite run_bind.
  destruct (onData_done t h l 0 v Hrdy Hf) as (h' & -> & Hr & Hpe & _). cbv beta iota.
  rewrite zdrop_0 in Hpe. destruct (Z.eqb_spec (buf_length (h_buffer h')) 0) as [Hz | Hz].
  - rewrite buf_length_spec in Hz. apply zlen_0_nil in Hz. destruct Hne. by rewrite <- Hpe.
  - apply (IH h' []); [done | by rewrite Hpe | by rewrite Hpe].
Qed.

(** One read of the connection: the bytes go to the end of the buffer, then the
    loop runs. *)
Definition feed (fuel : nat) (data : buffer) : M (Host H W) unit :=
  _ ← modify (λ h, h <| h_buffer := fst (buf_move_all (h_buffer h) data) |>);
  decode_loop fuel.
Definition feed_all (fuel : nat) (chunks : list buffer) : M (Host H W) unit :=
  foldr (λ data k, _ ← feed fuel data; k) (mret tt) chunks.

Lemma feed_all_spec t fuel chunks h l vs tl :
  ready t h l → frame t (pending h l) = FWait →
  zlen (pending h l ++ concat (contents <$> chunks)) < 2 ^ 32 →
  parse_all t fuel (pending h l ++ concat (contents <$> chunks)) = Some (vs, tl) →
  ∃ h', feed_all fuel chunks h = (tail_outcome tl, h') ∧ log (h_world h') = log (h_world h) ++ vs ∧
    match tl with TRest rest => ∃ l', ready t h' l' ∧ pending h' l' = rest | _ => True end.
Proof.
  revert h l vs. induction chunks as [|c chunks IH]; intros h l vs Hrdy Hw Hlen Hp.
  - cbn [concat fmap list_fmap] in *. rewrite app_nil_r in *.
    destruct fuel as [|fuel]; cbn [parse_all] in Hp; [done |]. rewrite Hw in Hp. injection Hp as <- <-.
    exists h. rewrite app_nil_r. eauto.
  - cbn [fmap list_fmap concat] in *. rewrite (assoc_L (++)) in Hlen, Hp.
    set (h0 := h <| h_buffer := fst (buf_move_all (h_buffer h) c) |>).
    assert (pending h0 l = pending h l ++ contents c) as Hp0.
    { unfold pending, h0, upd. cbn. by rewrite buf_move_all_dst, (assoc_L (++)). }
    rewrite <- Hp0 in *. apply parse_all_cut in Hp as (vs1 & tl1 & Hm & Htl1); [| done].
    assert (ready t h0 l) as Hrdy0.
    { destruct Hrdy as (? & ? & ? & ?). split_and!; try done. rewrite Hp0. by apply codec_rep_app. }
    destruct (decode_loop_spec t fuel h0 l vs1 tl1 Hrdy0 Hm) as (h1 & Hrun & Hl1 & Htl).
    change (feed_all fuel (c :: chunks) h) with ((_ ← feed fuel c; feed_all fuel chunks) h).
    rewrite run_bind. unfold feed. rewrite run_bind. cbn [modify]. cbv beta iota. fold h0. rewrite Hrun.
    destruct tl1 as [rest|e|w]; cbn [tail_outcome]; [| destruct Htl1 as [-> ->]; by exists h1..].
    destruct Htl as (l1 & Hr1 & Hp1), Htl1 as (vs2 & Hp2 & ->).
    pose proof (parse_all_rest_length _ _ _ _ _ Hm) as Hrl.
    pose proof (parse_all_rest _ _ _ _ _ Hm) as Hrw. rewrite <- Hp1 in *.
    destruct (IH h1 l1 vs2 Hr1 Hrw) as (h2 & -> & Hl2 & Ht2); [| done |].
    { rewrite zlen_app in *. assert (zlen (pending h1 l1) ≤ zlen (pending h0 l)) by (unfold zlen; lia). lia. }
    exists h2. split_and!; [done | | done]. by rewrite Hl2, Hl1, <- app_assoc.
Qed.
End correctness.

(** ** Recording callbacks

    The least callbacks that satisfy the laws: the world is the list of the
    messages delivered so far. *)

Section recorder.
Context {E : Envoy} {C : CodecOps E}.

#[global] Instance recorder : DecoderCallbacks unit (list (MetadataImpl * bytes)) := {
  newMessageHandler := mret tt;
  handler_onMessageDecoded _ md _ := modify (λ h, h <| h_world ::= λ w, w ++ [view md] |>);
  onHeartbeat md := _ ← modify (λ h, h <| h_world ::= λ w, w ++ [view md] |>); mret false
}.

#[global] Instance recorder_laws {K : CodecContract C} : CallbacksLaws recorder id.
Proof.
  split.
  - intros md h. exists tt, h. split_and!; [done | | ].
    + unfold quiet. rewrite app_nil_r. by split_and!.
    + intros h2 _. eexists. split; [done |]. by split_and!.
  - intros md h. eexists. split; [done |]. by split_and!.
Qed.

Definition recording_host (t : MessageType) : Host unit (list (MetadataImpl * bytes)) :=
  {| h_decoder := new_DecoderBase t; h_codec := codec_init; h_buffer := buf_new; h_world := [] |}.
End recorder.

(** ** Properties *)

Section properties.
Context {E : Envoy} {C : CodecOps E} {K : CodecContract C} {H W : Type} {D : DecoderCallbacks H W}.

(** C1: however a byte stream is cut into reads, the decoder delivers the same
    messages: those of the pure framing of the whole stream, each once and in
    order.  It stops with what the framing ends on: it waits for the rest of
    an incomplete message, or raises the protocol error after the messages
    before it.  No assertion of the decoder fails, and the loop ends whenever
    the framing of the stream does, for every codec that keeps the contract. *)
Theorem decoder_segmentation_independent {L : EnvoyLaws E} (log : W → list (MetadataImpl * bytes))
    {CL : CallbacksLaws D log} (t : MessageType) (w : W) (chunks : list buffer) (fuel : nat)
    (vs : list (MetadataImpl * bytes)) (tl : tail)
    (Ht : decoder_type t)
    (Hlen : zlen (concat (contents <$> chunks)) < 2 ^ 32)
    (Hparse : parse_all t fuel (concat (contents <$> chunks)) = Some (vs, tl)) :
  let h := {| h_decoder := new_DecoderBase t; h_codec := codec_init; h_buffer := buf_new; h_world := w |} in
  ∃ h', feed_all fuel chunks h = (tail_outcome tl, h') ∧ log (h_world h') = log w ++ vs.
Proof.
  cbv zeta. set (h := {| h_decoder := _; h_codec := _; h_buffer := _; h_world := w |}).
  assert (pending h [] = []) as Hp by apply buf_new_spec.
  destruct (feed_all_spec log t fuel chunks h [] vs tl) as (h' & Hf & Hl & _); rewrite ?Hp in *; try done.
  - split_and!; try done. by apply codec_rep_init.
  - by apply frame_nil.
  - by exists h'.
Qed.
End properties.
