(* ===== verification/Trpc.v ===== *)
(** * The tRPC codec

    Model of [application_protocols/trpc]: the fixed frame header
    ([protocol.h], [protocol.cc]), the framing state machine [CodecChecker]
    ([codec_checker.h], [codec_checker.cc]) and [TrpcCodec]
    ([trpc_codec.h], [trpc_codec.cc]).

    The protobuf classes are generated from [trpc.proto]: their fields are the
    records below, and parsing and printing them is a parameter, [TrpcPb].
    [fixed_header_] and [origin_msg_] are unique pointers, [None] when null;
    dereferencing null is undefined. *)

From S2P Require Import Prelude Envoy Metadata Codec Decoder.

(** ** trpc.proto *)

Definition TRPC_MAGIC_VALUE : Z := 0x930.
Definition TRPC_UNARY_FRAME : Z := 0.
Definition TRPC_STREAM_FRAME : Z := 1.
Definition TRPC_UNARY : Z := 0.
Definition TRPC_STREAM_FRAME_INIT : Z := 1.
Definition TRPC_STREAM_FRAME_DATA : Z := 2.
Definition TRPC_STREAM_FRAME_FEEDBACK : Z := 3.
Definition TRPC_STREAM_FRAME_CLOSE : Z := 4.
Definition TRPC_STREAM_CLOSE : Z := 0.
Definition TRPC_SERVER_NOSERVICE_ERR : Z := 11.
Definition TRPC_SERVER_SYSTEM_ERR : Z := 31.

Record RequestProtocol : Type := {
  req_version : Z; req_call_type : Z; req_request_id : Z; req_timeout : Z;
  req_caller : string; req_callee : string; req_func : string; req_message_type : Z;
  req_trans_info : gmap string string;
  req_content_type : Z; req_content_encoding : Z; req_attachment_size : Z
}.
#[global] Instance RequestProtocol_eta : Eta RequestProtocol := fun m =>
  {| req_version := req_version m; req_call_type := req_call_type m; req_request_id := req_request_id m;
     req_timeout := req_timeout m; req_caller := req_caller m; req_callee := req_callee m;
     req_func := req_func m; req_message_type := req_message_type m; req_trans_info := req_trans_info m;
     req_content_type := req_content_type m; req_content_encoding := req_content_encoding m;
     req_attachment_size := req_attachment_size m |}.

Record ResponseProtocol : Type := {
  rsp_version : Z; rsp_call_type : Z; rsp_request_id : Z; rsp_ret : Z; rsp_func_ret : Z;
  rsp_error_msg : string; rsp_message_type : Z; rsp_trans_info : gmap string string;
  rsp_content_type : Z; rsp_content_encoding : Z; rsp_attachment_size : Z
}.
#[global] Instance ResponseProtocol_eta : Eta ResponseProtocol := fun m =>
  {| rsp_version := rsp_version m; rsp_call_type := rsp_call_type m; rsp_request_id := rsp_request_id m;
     rsp_ret := rsp_ret m; rsp_func_ret := rsp_func_ret m; rsp_error_msg := rsp_error_msg m;
     rsp_message_type := rsp_message_type m; rsp_trans_info := rsp_trans_info m;
     rsp_content_type := rsp_content_type m; rsp_content_encoding := rsp_content_encoding m;
     rsp_attachment_size := rsp_attachment_size m |}.

Record TrpcStreamInitMeta : Type := {
  init_caller : string; init_callee : string; init_func : string; init_message_type : Z;
  init_trans_info : gmap string string;
  init_ret : Z; init_error_msg : string;
  init_window_size : Z; init_content_type : Z; init_content_encoding : Z
}.
#[global] Instance TrpcStreamInitMeta_eta : Eta TrpcStreamInitMeta := fun m =>
  {| init_caller := init_caller m; init_callee := init_callee m; init_func := init_func m;
     init_message_type := init_message_type m; init_trans_info := init_trans_info m;
     init_ret := init_ret m; init_error_msg := init_error_msg m; init_window_size := init_window_size m;
     init_content_type := init_content_type m; init_content_encoding := init_content_encoding m |}.

Record TrpcStreamCloseMeta : Type := {
  close_type : Z; close_ret : Z; close_msg : string; close_message_type : Z;
  close_trans_info : gmap string string; close_func_ret : Z
}.

Definition default_RequestProtocol : RequestProtocol :=
  {| req_version := 0; req_call_type := 0; req_request_id := 0; req_timeout := 0; req_caller := "";
     req_callee := ""; req_func := ""; req_message_type := 0; req_trans_info := ∅;
     req_content_type := 0; req_content_encoding := 0; req_attachment_size := 0 |}.
Definition default_ResponseProtocol : ResponseProtocol :=
  {| rsp_version := 0; rsp_call_type := 0; rsp_request_id := 0; rsp_ret := 0; rsp_func_ret := 0;
     rsp_error_msg := ""; rsp_message_type := 0; rsp_trans_info := ∅; rsp_content_type := 0;
     rsp_content_encoding := 0; rsp_attachment_size := 0 |}.
Definition default_TrpcStreamInitMeta : TrpcStreamInitMeta :=
  {| init_caller := ""; init_callee := ""; init_func := ""; init_message_type := 0;
     init_trans_info := ∅; init_ret := 0; init_error_msg := ""; init_window_size := 0;
     init_content_type := 0; init_content_encoding := 0 |}.
Definition default_TrpcStreamCloseMeta : TrpcStreamCloseMeta :=
  {| close_type := 0; close_ret := 0; close_msg := ""; close_message_type := 0;
     close_trans_info := ∅; close_func_ret := 0 |}.

(** A protobuf class: [ParseFromString] clears the message and says whether the
    bytes are well formed; [SerializeAsString]; [ByteSizeLong]. *)
Class Protobuf (T : Type) := {
  ParseFromString : bytes → bool * T;
  SerializeAsString : T → bytes;
  ByteSizeLong : T → Z
}.
Class ProtobufLaws (T : Type) {P : Protobuf T} : Prop := {
  SerializeAsString_bytes m : is_bytes (SerializeAsString m);
  ByteSizeLong_spec m : ByteSizeLong m = zlen (SerializeAsString m);
  Parse_Serialize m : ParseFromString (SerializeAsString m) = (true, m)
}.

Class TrpcPb := {
  pb_req :: Protobuf RequestProtocol;
  pb_rsp :: Protobuf ResponseProtocol;
  pb_init :: Protobuf TrpcStreamInitMeta;
  pb_close :: Protobuf TrpcStreamCloseMeta;
  (** iteration order of a protobuf map *)
  pb_map_entries : gmap string string → list (string * string)
}.
Class TrpcPbLaws (P : TrpcPb) : Prop := {
  pb_req_laws :: ProtobufLaws RequestProtocol;
  pb_rsp_laws :: ProtobufLaws ResponseProtocol;
  pb_init_laws :: ProtobufLaws TrpcStreamInitMeta;
  pb_map_entries_perm m : pb_map_entries m ≡ₚ map_to_list m
}.

(** ** TrpcFixedHeader *)

Definition TRPC_PROTO_PREFIX_SPACE : Z := 16.
Definition TRPC_PROTO_MAGIC_SPACE : Z := 2.
Definition TRPC_PROTO_DATAFRAME_TYPE_SPACE : Z := 1.
Definition TRPC_PROTO_DATAFRAME_STATE_SPACE : Z := 1.
Definition TRPC_PROTO_DATAFRAME_SIZE_SPACE : Z := 4.
Definition TRPC_PROTO_HEADER_SIZE_SPACE : Z := 2.
Definition TRPC_PROTO_STREAM_ID_SPACE : Z := 4.
Definition TRPC_PROTO_REVERSED_SPACE : Z := 2.

Ltac unfold_spaces :=
  unfold TRPC_PROTO_PREFIX_SPACE, TRPC_PROTO_MAGIC_SPACE, TRPC_PROTO_DATAFRAME_TYPE_SPACE,
    TRPC_PROTO_DATAFRAME_STATE_SPACE, TRPC_PROTO_DATAFRAME_SIZE_SPACE, TRPC_PROTO_HEADER_SIZE_SPACE,
    TRPC_PROTO_STREAM_ID_SPACE, TRPC_PROTO_REVERSED_SPACE in *.

Record TrpcFixedHeader : Type := {
  magic_value : Z;
  data_frame_type : Z;
  stream_frame_type : Z;
  data_frame_size : Z;
  pb_header_size : Z;
  stream_id : Z;
  reserved : bytes
}.
#[global] Instance TrpcFixedHeader_eta : Eta TrpcFixedHeader := fun h =>
  {| magic_value := magic_value h; data_frame_type := data_frame_type h;
     stream_frame_type := stream_frame_type h; data_frame_size := data_frame_size h;
     pb_header_size := pb_header_size h; stream_id := stream_id h; reserved := reserved h |}.

Definition new_TrpcFixedHeader : TrpcFixedHeader :=
  {| magic_value := TRPC_MAGIC_VALUE; data_frame_type := 0; stream_frame_type := 0;
     data_frame_size := 0; pb_header_size := 0; stream_id := 0; reserved := [0; 0] |}.

Definition getHeaderSize (h : TrpcFixedHeader) : Z := u32 (pb_header_size h + TRPC_PROTO_PREFIX_SPACE).
Definition getPayloadSize (h : TrpcFixedHeader) : Z := u32 (data_frame_size h - getHeaderSize h).

Section fixed_header.
Context {E : Envoy}.

(** [getIntFromInstance]: reads a field at [pos]. *)
Definition getInt (n : Z) (set : Z → TrpcFixedHeader → TrpcFixedHeader) (pos : Z) :
    M (TrpcFixedHeader * buffer) unit := λ '(h, b),
  match buf_peek n pos b with
  | Return v => (Return tt, (set v h, b))
  | Throw e => (Throw e, (h, b))
  | Panic w => (Panic w, (h, b))
  end.

(** [TrpcFixedHeader::decode(buff, drain)] *)
Definition TrpcFixedHeader_decode (drain_ : bool) : M (TrpcFixedHeader * buffer) bool :=
  len ← gets (λ s, buf_length s.2);
  if len <? TRPC_PROTO_PREFIX_SPACE then mret false
  else
    let pos := 0 in
    _ ← getInt 2 (λ v h, h <| magic_value := v |>) pos;
    magic ← gets (λ s, magic_value s.1);
    if negb (magic =? TRPC_MAGIC_VALUE) then mret false
    else
      let pos := pos + TRPC_PROTO_MAGIC_SPACE in
      _ ← getInt 1 (λ v h, h <| data_frame_type := v |>) pos;
      let pos := pos + TRPC_PROTO_DATAFRAME_TYPE_SPACE in
      _ ← getInt 1 (λ v h, h <| stream_frame_type := v |>) pos;
      let pos := pos + TRPC_PROTO_DATAFRAME_STATE_SPACE in
      _ ← getInt 4 (λ v h, h <| data_frame_size := v |>) pos;
      let pos := pos + TRPC_PROTO_DATAFRAME_SIZE_SPACE in
      _ ← getInt 2 (λ v h, h <| pb_header_size := v |>) pos;
      let pos := pos + TRPC_PROTO_HEADER_SIZE_SPACE in
      _ ← getInt 4 (λ v h, h <| stream_id := v |>) pos;
      let pos := pos + TRPC_PROTO_STREAM_ID_SPACE in
      r ← (λ '(h, b), (copyOut b pos 2, (h, b)));
      _ ← modify (λ '(h, b), (h <| reserved := r |>, b));
      let pos := pos + TRPC_PROTO_REVERSED_SPACE in
      if drain_ then
        b ← (λ '(h, b), (drain b pos, (h, b)));
        _ ← modify (λ '(h, _), (h, b));
        mret true
      else mret true.

(** [TrpcFixedHeader::encode(buffer)] *)
Definition TrpcFixedHeader_encode (h : TrpcFixedHeader) (b : buffer) : buffer :=
  let b := buf_writeBEInt 2 b (magic_value h) in
  let b := buf_writeBEInt 1 b (data_frame_type h) in
  let b := buf_writeBEInt 1 b (stream_frame_type h) in
  let b := buf_writeBEInt 4 b (data_frame_size h) in
  let b := buf_writeBEInt 2 b (pb_header_size h) in
  let b := buf_writeBEInt 4 b (stream_id h) in
  buf_add b (reserved h).
End fixed_header.

(** The values the fields can hold. *)
Definition fixed_header_ok (h : TrpcFixedHeader) : Prop :=
  magic_value h = TRPC_MAGIC_VALUE ∧ 0 ≤ data_frame_type h < 2 ^ 8 ∧ 0 ≤ stream_frame_type h < 2 ^ 8 ∧
  0 ≤ data_frame_size h < 2 ^ 32 ∧ 0 ≤ pb_header_size h < 2 ^ 16 ∧ 0 ≤ stream_id h < 2 ^ 32 ∧
  is_bytes (reserved h) ∧ length (reserved h) = 2%nat.

(** The sixteen bytes of a header, and a header read from a byte string. *)
Definition header_bytes (h : TrpcFixedHeader) : bytes :=
  be_split 2 (magic_value h) ++ be_split 1 (data_frame_type h) ++ be_split 1 (stream_frame_type h) ++
  be_split 4 (data_frame_size h) ++ be_split 2 (pb_header_size h) ++ be_split 4 (stream_id h) ++ reserved h.
Definition header_at (bs : bytes) : TrpcFixedHeader :=
  {| magic_value := be_at 2 0 bs; data_frame_type := be_at 1 2 bs; stream_frame_type := be_at 1 3 bs;
     data_frame_size := u32 (be_at 4 4 bs); pb_header_size := u16 (be_at 2 8 bs); stream_id := be_at 4 10 bs;
     reserved := ztake 2 (zdrop 14 bs) |}.

Lemma zlen_header_bytes h : length (reserved h) = 2%nat → zlen (header_bytes h) = 16.
Proof. intros Hr. unfold header_bytes. rewrite !zlen_app, !zlen_be_split. unfold zlen. rewrite Hr. done. Qed.

Lemma header_at_bytes h k : fixed_header_ok h → header_at (header_bytes h ++ k) = h.
Proof.
  intros (Hm & H1 & H2 & H3 & H4 & H5 & Hr & Hl). destruct h as [m dt st sz ph sid r]. cbn in Hm. subst m.
  destruct r as [|r0 [|r1 [|]]]; try done. unfold header_at, header_bytes.
  cbn [magic_value data_frame_type stream_frame_type data_frame_size pb_header_size stream_id] in *.
  f_equal; cbv -[Z.mul Z.add Z.div Z.modulo Z.pow Z.le Z.lt] in *; try reflexivity;
    clear -H1 H2 H3 H4 H5; Z.to_euclidean_division_equations; lia.
Qed.

(** ** Protocol<T>: a whole message *)

(** [mutable_trans_info()] *)
Class HasTransInfo (T : Type) := { trans_info : T → gmap string string; set_trans_info : gmap string string → T → T }.
#[global] Instance req_has_trans_info : HasTransInfo RequestProtocol :=
  { trans_info := req_trans_info; set_trans_info i m := m <| req_trans_info := i |> }.
#[global] Instance rsp_has_trans_info : HasTransInfo ResponseProtocol :=
  { trans_info := rsp_trans_info; set_trans_info i m := m <| rsp_trans_info := i |> }.

Section protocol.
Context {E : Envoy} {T : Type} {PB : Protobuf T}.

Record Protocol : Type := {
  p_fixed_header_ : TrpcFixedHeader;
  protocol_header_ : T;
  body_ : buffer
}.
#[global] Instance Protocol_eta : Eta Protocol := fun p =>
  {| p_fixed_header_ := p_fixed_header_ p; protocol_header_ := protocol_header_ p; body_ := body_ p |}.
Definition new_Protocol (header : T) : Protocol :=
  {| p_fixed_header_ := new_TrpcFixedHeader; protocol_header_ := header; body_ := buf_new |}.

Definition on_protocol (f : Protocol → Protocol) : M (Protocol * buffer) unit :=
  modify (λ '(p, b), (f p, b)).

(** [fixed_header_.decode(buff, true)] *)
Definition Protocol_decodeFixed : M (Protocol * buffer) bool := λ '(p, b),
  match TrpcFixedHeader_decode true (p_fixed_header_ p, b) with
  | (o, (h, b)) => (o, (p <| p_fixed_header_ := h |>, b))
  end.

(** Reads the protobuf header at [off], drains its size and parses it. *)
Definition Protocol_parseHeader (off : Z) : M (Protocol * buffer) bool :=
  '(p, b) ← gets id;
  let size := pb_header_size (p_fixed_header_ p) in
  header_raw ← lift (copyOut b off size);
  b ← lift (drain b size);
  _ ← modify (λ '(p, _), (p, b));
  let '(ok, m) := ParseFromString header_raw in
  _ ← on_protocol (λ p, p <| protocol_header_ := m |>);
  mret ok.

(** [Protocol::decode] *)
Definition Protocol_decode : M (Protocol * buffer) bool :=
  ptr_size ← gets (λ s, buf_length s.2);
  ok ← Protocol_decodeFixed;
  if negb ok then mret false
  else
    p ← gets fst;
    if ptr_size <? data_frame_size (p_fixed_header_ p) then mret false
    else
      ok ← Protocol_parseHeader TRPC_PROTO_PREFIX_SPACE;
      if negb ok then mret false
      else
        '(p, b) ← gets id;
        '(body, b) ← lift (move (body_ p) b (getPayloadSize (p_fixed_header_ p)));
        _ ← modify (λ '(p, _), (p <| body_ := body |>, b));
        mret true.

(** The sizes of the frame for a payload of [n] bytes. *)
Definition set_sizes (header : T) (n : Z) (h : TrpcFixedHeader) : TrpcFixedHeader :=
  let h := h <| pb_header_size := u16 (ByteSizeLong header) |> in
  h <| data_frame_size := u32 (getHeaderSize h + n) |>.

(** [Protocol::encode] *)
Definition Protocol_encode (p : Protocol) (b : buffer) : Protocol * buffer :=
  let h := (p_fixed_header_ p) <| magic_value := TRPC_MAGIC_VALUE |> in
  let h := set_sizes (protocol_header_ p) (buf_length (body_ p)) h in
  let b := TrpcFixedHeader_encode h b in
  let b := buf_add b (SerializeAsString (protocol_header_ p)) in
  let b := if 0 <? buf_length (body_ p) then buf_add b (contents (body_ p)) else b in
  (p <| p_fixed_header_ := h |>, b).

(** [Protocol::mutateHeader] *)
Definition mutateHeader {I : HasTransInfo T} (mutation : Mutation) : M (Protocol * buffer) bool :=
  ptr_size ← gets (λ s, buf_length s.2);
  ok ← Protocol_decodeFixed;
  if negb ok then mret false
  else
    p ← gets fst;
    if ptr_size <? data_frame_size (p_fixed_header_ p) then mret false
    else
      ok ← Protocol_parseHeader 0;
      if negb ok then mret false
      else
        '(p, b) ← gets id;
        '(body, b) ← lift (move buf_new b (getPayloadSize (p_fixed_header_ p)));
        let info := foldl (λ i kv, <[kv.1 := kv.2]> i) (trans_info (protocol_header_ p)) (in_key_order mutation) in
        let header := set_trans_info info (protocol_header_ p) in
        let h := set_sizes header (buf_length body) (p_fixed_header_ p) in
        let b := TrpcFixedHeader_encode h b in
        let b := buf_add b (SerializeAsString header) in
        let b := buf_add b (contents body) in
        _ ← modify (λ _, (p <| p_fixed_header_ := h |> <| protocol_header_ := header |>, b));
        mret true.
End protocol.
Arguments Protocol {E} T.

(** ** CodecChecker and TrpcCodec

    [TrpcCodec] is the object [CodecChecker] calls back, so they share one
    state. *)

Inductive DecodeStage : Type :=
| kDecodeFixedHeader
| kDecodeUnaryProtocolHeader
| KDecodeStreamFrame
| kDecodePayload
| kDecodeDone
| kWaitForData.
#[global] Instance DecodeStage_eq_dec : EqDecision DecodeStage.
Proof. solve_decision. Defined.

Record CodecChecker : Type := {
  decode_stage_ : DecodeStage;
  total_size_ : Z;
  protocol_header_size_ : Z
}.
#[global] Instance CodecChecker_eta : Eta CodecChecker := fun c =>
  {| decode_stage_ := decode_stage_ c; total_size_ := total_size_ c;
     protocol_header_size_ := protocol_header_size_ c |}.
Definition new_CodecChecker : CodecChecker :=
  {| decode_stage_ := kDecodeFixedHeader; total_size_ := 0; protocol_header_size_ := 0 |}.

Section codec.
Context {E : Envoy} {P : TrpcPb}.

Record TrpcCodec : Type := {
  decoder_base_ : CodecChecker;
  fixed_header_ : option TrpcFixedHeader;
  requestHeader_ : RequestProtocol;
  responseHeader_ : ResponseProtocol;
  streamInitMeta_ : TrpcStreamInitMeta;
  streamCloseMeta_ : TrpcStreamCloseMeta;
  origin_msg_ : option buffer;
  trpc_messageType_ : MessageType
}.
#[global] Instance TrpcCodec_eta : Eta TrpcCodec := fun c =>
  {| decoder_base_ := decoder_base_ c; fixed_header_ := fixed_header_ c;
     requestHeader_ := requestHeader_ c; responseHeader_ := responseHeader_ c;
     streamInitMeta_ := streamInitMeta_ c; streamCloseMeta_ := streamCloseMeta_ c;
     origin_msg_ := origin_msg_ c; trpc_messageType_ := trpc_messageType_ c |}.
Definition new_TrpcCodec : TrpcCodec :=
  {| decoder_base_ := new_CodecChecker; fixed_header_ := None;
     requestHeader_ := default_RequestProtocol; responseHeader_ := default_ResponseProtocol;
     streamInitMeta_ := default_TrpcStreamInitMeta; streamCloseMeta_ := default_TrpcStreamCloseMeta;
     origin_msg_ := None; trpc_messageType_ := MessageType_Request |}.

Abbreviation C := (TrpcCodec * buffer)%type.
Definition on_codec (f : TrpcCodec → TrpcCodec) : M C unit := modify (λ '(c, b), (f c, b)).
Definition deref {A} (o : option A) : outcome A :=
  match o with Some a => Return a | None => Panic "null pointer" end.

(** *** Callbacks *)
Definition onFixedHeaderDecoded (h : TrpcFixedHeader) : M C unit :=
  on_codec (λ c, c <| fixed_header_ := Some h |>).

Definition onUnaryHeader (header_raw : bytes) : M C bool :=
  fh ← gets (λ s, fixed_header_ s.1);
  fh ← lift (deref fh);
  _ ← ASSERT (stream_frame_type fh =? TRPC_UNARY) "stream_frame_type == TRPC_UNARY";
  t ← gets (λ s, trpc_messageType_ s.1);
  if decide (t = MessageType_Request) then
    let '(ok, m) := ParseFromString header_raw in
    _ ← on_codec (λ c, c <| requestHeader_ := m |>); mret ok
  else
    let '(ok, m) := ParseFromString header_raw in
    _ ← on_codec (λ c, c <| responseHeader_ := m |>); mret ok.

Definition onStreamFrame (header_raw : bytes) : M C bool :=
  fh ← gets (λ s, fixed_header_ s.1);
  fh ← lift (deref fh);
  let ft := stream_frame_type fh in
  _ ← ASSERT ((ft =? TRPC_STREAM_FRAME_INIT) || (ft =? TRPC_STREAM_FRAME_CLOSE) ||
              (ft =? TRPC_STREAM_FRAME_FEEDBACK) || (ft =? TRPC_STREAM_FRAME_DATA)) "stream_frame_type";
  if ft =? TRPC_STREAM_FRAME_INIT then
    let '(ok, m) := ParseFromString header_raw in
    _ ← on_codec (λ c, c <| streamInitMeta_ := m |>); mret ok
  else if ft =? TRPC_STREAM_FRAME_CLOSE then
    let '(ok, m) := ParseFromString header_raw in
    _ ← on_codec (λ c, c <| streamCloseMeta_ := m |>); mret ok
  else if (ft =? TRPC_STREAM_FRAME_DATA) || (ft =? TRPC_STREAM_FRAME_FEEDBACK) then mret true
  else panic "not reached".

Definition onCompleted (msg : buffer) : M C unit := on_codec (λ c, c <| origin_msg_ := Some msg |>).

(** *** Stages *)
Definition decodeFixedHeader : M C DecodeStage :=
  len ← gets (λ s, buf_length s.2);
  if len <? TRPC_PROTO_PREFIX_SPACE then mret kWaitForData
  else
    '(ok, h) ← (λ '(c, b),
      match TrpcFixedHeader_decode false (new_TrpcFixedHeader, b) with
      | (o, (h, b)) => ((λ ok, (ok, h)) <$> o, (c, b))
      end);
    if negb ok then throw (EnvoyException "protocol invalid")
    else
      _ ← on_codec (λ c, c <| decoder_base_ ::= λ k,
             k <| total_size_ := data_frame_size h |> <| protocol_header_size_ := pb_header_size h |> |>);
      _ ← onFixedHeaderDecoded h;
      mret (if stream_frame_type h =? TRPC_UNARY then kDecodeUnaryProtocolHeader else KDecodeStreamFrame).

Definition decodeUnaryProtocolHeader : M C DecodeStage :=
  k ← gets (λ s, decoder_base_ s.1);
  len ← gets (λ s, buf_length s.2);
  if len <? u32 (TRPC_PROTO_PREFIX_SPACE + protocol_header_size_ k) then mret kWaitForData
  else
    b ← gets snd;
    header_raw ← lift (copyOut b TRPC_PROTO_PREFIX_SPACE (protocol_header_size_ k));
    ok ← onUnaryHeader header_raw;
    if negb ok then throw (EnvoyException "parse header failed") else mret kDecodePayload.

Definition decodeStreamFrame : M C DecodeStage :=
  k ← gets (λ s, decoder_base_ s.1);
  len ← gets (λ s, buf_length s.2);
  if len <? total_size_ k then mret kWaitForData
  else
    let frame_size := u32 (total_size_ k - TRPC_PROTO_PREFIX_SPACE) in
    b ← gets snd;
    header_raw ← lift (copyOut b TRPC_PROTO_PREFIX_SPACE frame_size);
    ok ← onStreamFrame header_raw;
    if negb ok then throw (EnvoyException "parse header failed") else mret kDecodePayload.

Definition decodePayload : M C DecodeStage :=
  k ← gets (λ s, decoder_base_ s.1);
  len ← gets (λ s, buf_length s.2);
  if len <? total_size_ k then mret kWaitForData
  else
    b ← gets snd;
    '(msg, b) ← lift (move buf_new b (total_size_ k));
    _ ← modify (λ '(c, _), (c, b));
    _ ← onCompleted msg;
    mret kDecodeDone.

Definition handleState : M C DecodeStage :=
  k ← gets (λ s, decoder_base_ s.1);
  match decode_stage_ k with
  | kDecodeFixedHeader => decodeFixedHeader
  | kDecodeUnaryProtocolHeader => decodeUnaryProtocolHeader
  | KDecodeStreamFrame => decodeStreamFrame
  | kDecodePayload => decodePayload
  | _ => panic "not reached"
  end.

Definition checker_reset : M C unit := on_codec (λ c, c <| decoder_base_ := new_CodecChecker |>).

(** The loop of [CodecChecker::onData]; a message takes three stages, so four
    rounds are enough. *)
Fixpoint onData_loop (fuel : nat) : M C DecodeStage :=
  match fuel with
  | O => panic "out of fuel"
  | S fuel =>
      k ← gets (λ s, decoder_base_ s.1);
      if decide (decode_stage_ k = kDecodeDone) then
        _ ← checker_reset; mret kDecodeDone
      else
        state ← handleState;
        if decide (state = kWaitForData) then mret kWaitForData
        else
          _ ← on_codec (λ c, c <| decoder_base_ ::= λ k, k <| decode_stage_ := state |> |>);
          onData_loop fuel
  end.
Definition CodecChecker_onData : M C DecodeStage := onData_loop 4.

(** *** TrpcCodec *)

Definition put_trans_info (info : gmap string string) (m : MetadataImpl) : MetadataImpl :=
  foldl (λ m kv, putString kv.1 kv.2 m) m (pb_map_entries info).

Definition toMetadata (c : TrpcCodec) (fh : TrpcFixedHeader) (m : MetadataImpl) : MetadataImpl :=
  let m := setHeaderSize (getHeaderSize fh) m in
  let m := setBodySize (getPayloadSize fh) m in
  let ft := stream_frame_type fh in
  if ft =? TRPC_UNARY then
    if decide (trpc_messageType_ c = MessageType_Request) then
      let h := requestHeader_ c in
      let m := setRequestId (req_request_id h) m in
      let m := putString "caller" (req_caller h) m in
      let m := putString "callee" (req_callee h) m in
      let m := putString "func" (req_func h) m in
      let m := put "call_type" (AnyUint32 (req_call_type h)) m in
      let m := put "version" (AnyUint32 (req_version h)) m in
      let m := put "content_type" (AnyUint32 (req_content_type h)) m in
      let m := put "content_encoding" (AnyUint32 (req_content_encoding h)) m in
      put_trans_info (req_trans_info h) m
    else
      let h := responseHeader_ c in
      let m := setRequestId (rsp_request_id h) m in
      let m := putString "error_msg" (rsp_error_msg h) m in
      put_trans_info (rsp_trans_info h) m
  else if ft =? TRPC_STREAM_FRAME_INIT then
    let h := streamInitMeta_ c in
    let m := setMessageType MessageType_Stream_Init m in
    let m := setStreamId (stream_id fh) m in
    let m := putString "caller" (init_caller h) m in
    let m := putString "callee" (init_callee h) m in
    let m := putString "func" (init_func h) m in
    put_trans_info (init_trans_info h) m
  else if ft =? TRPC_STREAM_FRAME_DATA then
    setStreamId (stream_id fh) (setMessageType MessageType_Stream_Data m)
  else if ft =? TRPC_STREAM_FRAME_FEEDBACK then
    setStreamId (stream_id fh) (setMessageType MessageType_Stream_Data m)
  else if ft =? TRPC_STREAM_FRAME_CLOSE then
    let m := if close_type (streamCloseMeta_ c) =? TRPC_STREAM_CLOSE
             then setMessageType MessageType_Stream_Close_One_Way m
             else setMessageType MessageType_Stream_Close_Two_Way m in
    setStreamId (stream_id fh) m
  else m.

Definition TrpcCodec_decode : M (TrpcCodec * buffer * MetadataImpl) DecodeStatus := λ '(c, b, m),
  let c := c <| trpc_messageType_ := message_type_ m |> in
  if negb (bool_decide (message_type_ m = MessageType_Request ∨ message_type_ m = MessageType_Response))
  then (Panic "messageType_", (c, b, m))
  else
    match CodecChecker_onData (c, b) with
    | (Throw e, (c, b)) => (Throw e, (c, b, m))
    | (Panic w, (c, b)) => (Panic w, (c, b, m))
    | (Return kWaitForData, (c, b)) => (Return DecodeStatus_WaitForData, (c, b, m))
    | (Return state, (c, b)) =>
        if negb (bool_decide (state = kDecodeDone)) then (Panic "state == kDecodeDone", (c, b, m))
        else
          match fixed_header_ c, origin_msg_ c with
          | Some fh, Some msg =>
              let m := toMetadata c fh m in
              let '(dst, src) := buf_move_all (origin_message_ m) msg in
              (Return DecodeStatus_Done, (c <| origin_msg_ := Some src |>, b, m <| origin_message_ := dst |>))
          | _, _ => (Panic "null pointer", (c, b, m))
          end
    end.

(** [TrpcCodec::encode] *)
Definition TrpcCodec_encode (m : MetadataImpl) (mutation : Mutation) : M (TrpcCodec * buffer) unit := λ '(c, b),
  let finish {T} (what : string) (r : outcome bool * (Protocol T * buffer)) : outcome unit * (TrpcCodec * buffer) :=
    match r with
    | (Return true, (_, b)) => (Return tt, (c, b))
    | (Return false, (_, b)) => (Throw (EnvoyException what), (c, b))
    | (Throw e, (_, b)) => (Throw e, (c, b))
    | (Panic w, (_, b)) => (Panic w, (c, b))
    end in
  if decide (mutation = ∅) then (Return tt, (c, b))
  else if decide (message_type_ m = MessageType_Request) then
    finish "encode request failed" (mutateHeader mutation (new_Protocol default_RequestProtocol, b))
  else if decide (message_type_ m = MessageType_Response) then
    finish "encode response failed" (mutateHeader mutation (new_Protocol default_ResponseProtocol, b))
  else (Return tt, (c, b)).

(** [TrpcCodec::onError] *)
Definition errCode (t : ErrorType) : Z :=
  match t with ErrorType_RouteNotFound => TRPC_SERVER_NOSERVICE_ERR | _ => TRPC_SERVER_SYSTEM_ERR end.

Definition TrpcCodec_onError (m : MetadataImpl) (error : Error) : M (TrpcCodec * buffer) unit := λ '(c, b),
  let code := errCode (error_type error) in
  if decide (message_type_ m = MessageType_Stream_Init) then
    let fh := new_TrpcFixedHeader <| stream_id := u32 (stream_id_ m) |>
                <| data_frame_type := TRPC_STREAM_FRAME |> <| stream_frame_type := TRPC_STREAM_FRAME_INIT |> in
    let header := default_TrpcStreamInitMeta <| init_ret := code |> <| init_error_msg := error_message error |> in
    let '(_, b) := Protocol_encode ((new_Protocol header) <| p_fixed_header_ := fh |>) b in
    (Return tt, (c, b))
  else
    let fh := new_TrpcFixedHeader <| data_frame_type := TRPC_UNARY |> in
    let header := default_ResponseProtocol <| rsp_request_id := u32 (request_id_ m) |>
                    <| rsp_error_msg := error_message error |> <| rsp_ret := code |> <| rsp_func_ret := code |> in
    let '(_, b) := Protocol_encode ((new_Protocol header) <| p_fixed_header_ := fh |>) b in
    (Return tt, (c, b)).

Definition trpc_codec : CodecOps E := {|
  codec_state := TrpcCodec;
  codec_init := new_TrpcCodec;
  codec_decode := TrpcCodec_decode;
  codec_encode := TrpcCodec_encode;
  codec_onError := TrpcCodec_onError
|}.
End codec.

(** ** The framing of tRPC *)

Section framing.
Context {E : Envoy} {P : TrpcPb}.

Definition known_frame_type (ft : Z) : bool :=
  (ft =? TRPC_STREAM_FRAME_INIT) || (ft =? TRPC_STREAM_FRAME_CLOSE) ||
  (ft =? TRPC_STREAM_FRAME_FEEDBACK) || (ft =? TRPC_STREAM_FRAME_DATA).

(** The bytes the header of a message is parsed from. *)
Definition header_raw (fh : TrpcFixedHeader) (bs : bytes) : bytes :=
  if stream_frame_type fh =? TRPC_UNARY then ztake (pb_header_size fh) (zdrop 16 bs)
  else ztake (u32 (data_frame_size fh - 16)) (zdrop 16 bs).

(** Parses the header of a frame into a codec; [None] if it is malformed. *)
Definition parse_into (t : MessageType) (fh : TrpcFixedHeader) (raw : bytes) (c : TrpcCodec) : option TrpcCodec :=
  let keep {T} (r : bool * T) (f : T → TrpcCodec) : option TrpcCodec :=
    if r.1 then Some (f r.2) else None in
  let ft := stream_frame_type fh in
  if ft =? TRPC_UNARY then
    if decide (t = MessageType_Request)
    then keep (ParseFromString raw) (λ m, c <| requestHeader_ := m |>)
    else keep (ParseFromString raw) (λ m, c <| responseHeader_ := m |>)
  else if ft =? TRPC_STREAM_FRAME_INIT then keep (ParseFromString raw) (λ m, c <| streamInitMeta_ := m |>)
  else if ft =? TRPC_STREAM_FRAME_CLOSE then keep (ParseFromString raw) (λ m, c <| streamCloseMeta_ := m |>)
  else Some c.

(** A message of [data_frame_size] bytes whose header was parsed into [c]. *)
Definition frame_payload (t : MessageType) (fh : TrpcFixedHeader) (c : TrpcCodec) (bs : bytes) : framing :=
  if zlen bs <? data_frame_size fh then FWait
  else FDone (data_frame_size fh)
         ((toMetadata (c <| trpc_messageType_ := t |>) fh (fresh_metadata t)) <| origin_message_ := buf_new |>,
          ztake (data_frame_size fh) bs).

Definition frame_header (t : MessageType) (fh : TrpcFixedHeader) (bs : bytes) : framing :=
  match parse_into t fh (header_raw fh bs) new_TrpcCodec with
  | Some c => frame_payload t fh c bs
  | None => FThrow (EnvoyException "parse header failed")
  end.

Definition trpc_frame (t : MessageType) (bs : bytes) : framing :=
  if zlen bs <? 16 then FWait
  else
    let fh := header_at bs in
    if negb (magic_value fh =? TRPC_MAGIC_VALUE) then FThrow (EnvoyException "protocol invalid")
    else if stream_frame_type fh =? TRPC_UNARY then
      if zlen bs <? 16 + pb_header_size fh then FWait else frame_header t fh bs
    else if zlen bs <? data_frame_size fh then FWait
    else if zlen bs <? 16 + u32 (data_frame_size fh - 16) then FPanic "copyOut"
    else if negb (known_frame_type (stream_frame_type fh)) then FPanic "stream_frame_type"
    else frame_header t fh bs.

Lemma header_at_app bs k : 16 ≤ zlen bs → header_at (bs ++ k) = header_at bs.
Proof.
  intros. unfold header_at. rewrite !be_at_app by lia.
  rewrite zdrop_app, ztake_app; [done | rewrite zlen_zdrop; lia | lia].
Qed.

Lemma header_at_range bs :
  0 ≤ data_frame_size (header_at bs) < 2 ^ 32 ∧ 0 ≤ pb_header_size (header_at bs) < 2 ^ 16.
Proof. split; apply Z.mod_pos_bound; lia. Qed.

Lemma u32_sub16 n : 0 ≤ n < 2 ^ 32 → u32 (n - 16) = if n <? 16 then 2 ^ 32 + n - 16 else n - 16.
Proof.
  intros. destruct (Z.ltb_spec n 16); [| apply u32_small; lia].
  unfold u32. rewrite <- (Z_mod_plus_full _ 1).
  replace (n - 16 + 1 * 2 ^ 32) with (2 ^ 32 + n - 16) by lia. apply Z.mod_small. lia.
Qed.

Lemma frame_header_app t fh bs k :
  0 ≤ data_frame_size fh → (0 ≤ pb_header_size fh) →
  (if stream_frame_type fh =? TRPC_UNARY then 16 + pb_header_size fh ≤ zlen bs
   else 16 + u32 (data_frame_size fh - 16) ≤ zlen bs) →
  frame_header t fh bs ≠ FWait → frame_header t fh (bs ++ k) = frame_header t fh bs.
Proof.
  intros Hd Hp Hlen. unfold frame_header. pose proof (u32_range (data_frame_size fh - 16)).
  assert (header_raw fh (bs ++ k) = header_raw fh bs) as ->.
  { unfold header_raw. destruct (_ =? _);
      (rewrite zdrop_app, ztake_app; [done | rewrite zlen_zdrop; lia | lia]). }
  destruct (parse_into _ _ _ _); [| done]. unfold frame_payload.
  destruct (Z.ltb_spec (zlen bs) (data_frame_size fh)); [done |]. intros _.
  rewrite zlen_app. pose proof (zlen_nonneg k). destruct (Z.ltb_spec (zlen bs + zlen k) (data_frame_size fh)); [lia |].
  by rewrite ztake_app by lia.
Qed.

Lemma trpc_frame_app t bs k :
  zlen (bs ++ k) < 2 ^ 32 → trpc_frame t bs ≠ FWait → trpc_frame t (bs ++ k) = trpc_frame t bs.
Proof.
  unfold trpc_frame. rewrite zlen_app. pose proof (zlen_nonneg k). intros Hlen.
  destruct (Z.ltb_spec (zlen bs) 16) as [|Hge]; [done |].
  destruct (Z.ltb_spec (zlen bs + zlen k) 16); [lia |].
  rewrite header_at_app by done. destruct (header_at_range bs) as [Hs Hp]. cbv zeta.
  destruct (negb _); [done |]. destruct (stream_frame_type (header_at bs) =? TRPC_UNARY) eqn:Hft.
  - destruct (Z.ltb_spec (zlen bs) (16 + pb_header_size (header_at bs))); [done |].
    destruct (Z.ltb_spec (zlen bs + zlen k) (16 + pb_header_size (header_at bs))); [lia |].
    intros. apply frame_header_app; try done; [lia | lia | by rewrite Hft].
  - destruct (Z.ltb_spec (zlen bs) (data_frame_size (header_at bs))); [done |].
    destruct (Z.ltb_spec (zlen bs + zlen k) (data_frame_size (header_at bs))); [lia |].
    rewrite u32_sub16 by done. apply Z.eqb_neq in Hft.
    destruct (Z.ltb_spec (data_frame_size (header_at bs)) 16);
      repeat (split_cmp; try lia); try done.
    destruct (negb _); [done |]. intros.
    apply frame_header_app; try done; try lia.
    rewrite (proj2 (Z.eqb_neq _ _) Hft), u32_sub16 by done.
    destruct (Z.ltb_spec (data_frame_size (header_at bs)) 16); lia.
Qed.

Lemma trpc_frame_size t bs n v : trpc_frame t bs = FDone n v → 0 ≤ n ≤ zlen bs.
Proof.
  destruct (header_at_range bs) as [Hs Hp].
  assert (∀ fh c, frame_payload t fh c bs = FDone n v → n = data_frame_size fh ∧ n ≤ zlen bs) as Hpay.
  { intros fh c. unfold frame_payload. destruct (Z.ltb_spec (zlen bs) (data_frame_size fh)); [done |].
    by intros [= <- _]. }
  unfold trpc_frame, frame_header. intros Hf.
  repeat case_match; try discriminate; apply Hpay in Hf as [-> ?]; lia.
Qed.
End framing.

(** ** TrpcCodec against the framing *)

Section refinement.
Context {E : Envoy} {L : EnvoyLaws E} {P : TrpcPb}.

Lemma getInt_ok n set pos h b :
  0 ≤ n → 0 ≤ pos → pos + n ≤ zlen (contents b) →
  getInt n set pos (h, b) = (Return tt, (set (be_at n pos (contents b)) h, b)).
Proof. intros. unfold getInt. by rewrite buf_peek_ok. Qed.

(** Reading the fixed header of a buffer, in all cases. *)
Lemma TrpcFixedHeader_decode_short d h b :
  zlen (contents b) < 16 → TrpcFixedHeader_decode d (h, b) = (Return false, (h, b)).
Proof.
  intros. unfold TrpcFixedHeader_decode. rewrite run_bind. cbn [gets snd]. cbv beta iota.
  rewrite buf_length_spec. by rewrite (proj2 (Z.ltb_lt _ _)).
Qed.

Lemma TrpcFixedHeader_decode_ok d h b :
  16 ≤ zlen (contents b) → magic_value (header_at (contents b)) = TRPC_MAGIC_VALUE →
  ∃ b', TrpcFixedHeader_decode d (h, b) = (Return true, (header_at (contents b), b')) ∧
    (if d then contents b' = zdrop 16 (contents b) else b' = b).
Proof.
  intros Hlen Hm. unfold TrpcFixedHeader_decode. rewrite run_bind. cbn [gets snd]. cbv beta iota.
  rewrite buf_length_spec, (proj2 (Z.ltb_ge _ _)) by done. cbv zeta.
  unfold_spaces. cbn in Hm. do 2 (rewrite run_bind; rewrite ?getInt_ok by lia; cbn [gets fst]; cbv beta iota).
  cbn [magic_value upd]. unfold upd at 1. cbn [magic_value eta]. rewrite Hm, Z.eqb_refl. cbn [negb].
  do 5 (rewrite run_bind, getInt_ok by lia; cbv beta iota).
  rewrite run_bind, copyOut_ok by lia. cbv beta iota. rewrite run_bind. cbn [modify]. cbv beta iota.
  pose proof (contents_bytes b) as Hb.
  assert (∀ n off, 0 ≤ n → 0 ≤ off → off + n ≤ 16 → 0 ≤ be_at n off (contents b) < 256 ^ n) as Hbd.
  { intros. apply be_at_bound; try done; lia. }
  assert (header_at (contents b) =
    {| magic_value := TRPC_MAGIC_VALUE; data_frame_type := be_at 1 2 (contents b);
       stream_frame_type := be_at 1 3 (contents b); data_frame_size := be_at 4 4 (contents b);
       pb_header_size := be_at 2 8 (contents b); stream_id := be_at 4 10 (contents b);
       reserved := ztake 2 (zdrop 14 (contents b)) |}) as ->.
  { unfold header_at. rewrite Hm, u32_small, u16_small; [done | apply (Hbd 2 8); lia | apply (Hbd 4 4); lia]. }
  destruct d.
  - destruct (drain_ok b 16) as (b' & Hd & Hc); [lia |].
    exists b'. split; [| done]. rewrite run_bind. cbv beta iota.
    change (0 + 2 + 1 + 1 + 4 + 2 + 4 + 2) with 16. by rewrite Hd.
  - by exists b.
Qed.

Lemma TrpcFixedHeader_decode_bad d h b :
  16 ≤ zlen (contents b) → magic_value (header_at (contents b)) ≠ TRPC_MAGIC_VALUE →
  ∃ h', TrpcFixedHeader_decode d (h, b) = (Return false, (h', b)).
Proof.
  intros Hlen Hm. unfold TrpcFixedHeader_decode. rewrite run_bind. cbn [gets snd]. cbv beta iota.
  rewrite buf_length_spec, (proj2 (Z.ltb_ge _ _)) by done. cbv zeta.
  unfold_spaces. cbn in Hm. do 2 (rewrite run_bind; rewrite ?getInt_ok by lia; cbn [gets fst]; cbv beta iota).
  unfold upd at 1. cbn [magic_value eta]. rewrite (proj2 (Z.eqb_neq _ _) Hm). by eexists.
Qed.

(** The fixed header of [s] is decoded. *)
Definition header_seen (c : TrpcCodec) (s : bytes) : Prop :=
  16 ≤ zlen s ∧ magic_value (header_at s) = TRPC_MAGIC_VALUE ∧ fixed_header_ c = Some (header_at s) ∧
  total_size_ (decoder_base_ c) = data_frame_size (header_at s) ∧
  protocol_header_size_ (decoder_base_ c) = pb_header_size (header_at s).

(** The bytes of the protobuf header are there. *)
Definition header_complete (s : bytes) : Prop :=
  if stream_frame_type (header_at s) =? TRPC_UNARY then 16 + pb_header_size (header_at s) ≤ zlen s
  else data_frame_size (header_at s) ≤ zlen s ∧ 16 + u32 (data_frame_size (header_at s) - 16) ≤ zlen s ∧
       known_frame_type (stream_frame_type (header_at s)) = true.

(** [c] agrees with what was parsed from [s] on what [toMetadata] reads. *)
Definition same_headers (t : MessageType) (fh : TrpcFixedHeader) (c1 c2 : TrpcCodec) : Prop :=
  ∀ m, toMetadata (c1 <| trpc_messageType_ := t |>) fh m = toMetadata (c2 <| trpc_messageType_ := t |>) fh m.

Definition header_parsed (t : MessageType) (c : TrpcCodec) (s : bytes) : Prop :=
  header_complete s ∧
  ∃ c0, parse_into t (header_at s) (header_raw (header_at s) s) new_TrpcCodec = Some c0 ∧
        same_headers t (header_at s) c0 c.

Definition trpc_rep (t : MessageType) (c : TrpcCodec) (l s : bytes) : Prop :=
  decoder_type t ∧ l = [] ∧
  match decode_stage_ (decoder_base_ c) with
  | kDecodeFixedHeader => True
  | kDecodeUnaryProtocolHeader => header_seen c s ∧ stream_frame_type (header_at s) = TRPC_UNARY
  | KDecodeStreamFrame => header_seen c s ∧ stream_frame_type (header_at s) ≠ TRPC_UNARY
  | kDecodePayload => header_seen c s ∧ header_parsed t c s
  | _ => False
  end.

(** What the loop of [CodecChecker] does with a stream. *)
Definition loop_result (t : MessageType) (b : buffer) (r : outcome DecodeStage * (TrpcCodec * buffer)) : Prop :=
  match trpc_frame t (contents b) with
  | FWait => ∃ c', r = (Return kWaitForData, (c', b)) ∧ trpc_rep t c' [] (contents b) ∧ trpc_messageType_ c' = t
  | FDone n v => ∃ c' b' msg fh,
      r = (Return kDecodeDone, (c', b')) ∧ decoder_base_ c' = new_CodecChecker ∧
      fixed_header_ c' = Some fh ∧ origin_msg_ c' = Some msg ∧ trpc_messageType_ c' = t ∧
      contents msg = ztake n (contents b) ∧ contents b' = zdrop n (contents b) ∧
      v = ((toMetadata c' fh (fresh_metadata t)) <| origin_message_ := buf_new |>, ztake n (contents b))
  | FThrow e => ∃ s', r = (Throw e, s')
  | FPanic w => ∃ s', r = (Panic w, s')
  end.

Lemma same_headers_keep t fh c k f :
  same_headers t fh c (c <| decoder_base_ := k |> <| fixed_header_ := f |>).
Proof. intros m. done. Qed.

(** Past the headers, [trpc_frame] waits for the payload. *)
Lemma trpc_frame_parsed t c s :
  header_seen c s → header_parsed t c s →
  trpc_frame t s = frame_payload t (header_at s) c s.
Proof.
  intros (Hlen & Hm & _) (Hc & c0 & Hp & Hsame). unfold trpc_frame.
  rewrite (proj2 (Z.ltb_ge _ _)) by done. cbv zeta. rewrite Hm, Z.eqb_refl. cbn [negb].
  unfold header_complete in Hc. unfold frame_header. rewrite Hp.
  assert (frame_payload t (header_at s) c0 s = frame_payload t (header_at s) c s) as ->.
  { unfold frame_payload. by rewrite Hsame. }
  destruct (_ =? TRPC_UNARY).
  - by rewrite (proj2 (Z.ltb_ge _ _)).
  - destruct Hc as (H1 & H2 & ->). by rewrite !(proj2 (Z.ltb_ge _ _)).
Qed.

Lemma loop_payload t c b fuel :
  decode_stage_ (decoder_base_ c) = kDecodePayload → decoder_type t → trpc_messageType_ c = t →
  header_seen c (contents b) → header_parsed t c (contents b) →
  loop_result t b (onData_loop (S (S fuel)) (c, b)).
Proof.
  intros Hst Ht Htc Hseen Hp. unfold loop_result. rewrite (trpc_frame_parsed t c) by done.
  assert (trpc_rep t c [] (contents b)) as Hrep by (split_and!; [done | done | by rewrite Hst]).
  destruct Hseen as (Hlen & Hm & Hfh & Hts & Hps). pose proof (header_at_range (contents b)) as [Hr _].
  cbn [onData_loop]. rewrite run_bind. cbn [gets fst]. cbv beta iota. rewrite Hst.
  rewrite decide_False by done. rewrite run_bind. unfold handleState. rewrite run_bind.
  cbn [gets fst]. cbv beta iota. rewrite Hst. unfold decodePayload. mstep. cbn [fst snd].
  rewrite buf_length_spec, Hts. unfold frame_payload.
  destruct (Z.ltb_spec (zlen (contents b)) (data_frame_size (header_at (contents b)))).
  - cbn [mret M_ret]. cbv beta iota. rewrite decide_True by done. eauto.
  - mstep. destruct (move_ok buf_new b (data_frame_size (header_at (contents b)))) as (msg & b' & Hmv & Hm1 & Hm2); [lia |].
    cbn [snd]. rewrite Hmv. mstep. unfold onCompleted, on_codec. mstep.
    rewrite decide_False by done. mstep. cbn. rewrite decide_True by done. mstep.
    eexists _, b', msg, (header_at (contents b)). split_and!; try done.
    + by rewrite Hm1, buf_new_spec.
    + f_equal. destruct c. cbn in Htc. by subst.
Qed.

(** One round of the loop that moves to another stage. *)
Lemma loop_round c b fuel st c' b' :
  decode_stage_ (decoder_base_ c) ≠ kDecodeDone →
  handleState (c, b) = (Return st, (c', b')) → st ≠ kWaitForData →
  onData_loop (S fuel) (c, b) =
    onData_loop fuel (c' <| decoder_base_ ::= λ k, k <| decode_stage_ := st |> |>, b').
Proof.
  intros Hne Hh Hst. cbn [onData_loop]. rewrite run_bind. cbn [gets fst]. cbv beta iota.
  rewrite decide_False by done. rewrite run_bind, Hh. cbv beta iota. by rewrite decide_False.
Qed.

(** One round of the loop that ends it. *)
Lemma loop_end c b fuel o s' :
  decode_stage_ (decoder_base_ c) ≠ kDecodeDone →
  handleState (c, b) = (o, s') → (∀ st, o = Return st → st = kWaitForData) →
  onData_loop (S fuel) (c, b) = (o, s').
Proof.
  intros Hne Hh Hst. cbn [onData_loop]. rewrite run_bind. cbn [gets fst]. cbv beta iota.
  rewrite decide_False by done. rewrite run_bind, Hh. destruct o as [st|e|w]; cbv beta iota; [| done..].
  rewrite (Hst st eq_refl). by rewrite decide_True.
Qed.

Lemma handleState_at c b st :
  decode_stage_ (decoder_base_ c) = st →
  handleState (c, b) =
    match st with
    | kDecodeFixedHeader => decodeFixedHeader (c, b)
    | kDecodeUnaryProtocolHeader => decodeUnaryProtocolHeader (c, b)
    | KDecodeStreamFrame => decodeStreamFrame (c, b)
    | kDecodePayload => decodePayload (c, b)
    | _ => (Panic "not reached", (c, b))
    end.
Proof. intros <-. unfold handleState. rewrite run_bind. cbn [gets fst]. cbv beta iota. by destruct (decode_stage_ _). Qed.

(** Parsing a header does not depend on the codec it is parsed into. *)
Lemma parse_into_any t fh raw c :
  match parse_into t fh raw new_TrpcCodec, parse_into t fh raw c with
  | Some c0, Some c1 => same_headers t fh c0 c1 ∧ decoder_base_ c1 = decoder_base_ c ∧
      fixed_header_ c1 = fixed_header_ c ∧ trpc_messageType_ c1 = trpc_messageType_ c
  | None, None => True
  | _, _ => False
  end.
Proof.
  unfold parse_into, same_headers, toMetadata. repeat case_match; try done; simplify_eq;
    split_and!; try done; intros m; unfold upd; cbn; first [by repeat case_decide | cbn in *; congruence].
Qed.

(** Both header stages end the same way: [frame_header] decides. *)
Lemma loop_header t c b fuel o c' :
  decoder_type t → trpc_messageType_ c = t → decode_stage_ (decoder_base_ c) ≠ kDecodeDone →
  header_seen c (contents b) → header_complete (contents b) →
  trpc_frame t (contents b) = frame_header t (header_at (contents b)) (contents b) →
  handleState (c, b) = (o, (c', b)) →
  match parse_into t (header_at (contents b)) (header_raw (header_at (contents b)) (contents b)) c with
  | Some c1 => o = Return kDecodePayload ∧ c' = c1
  | None => o = Throw (EnvoyException "parse header failed")
  end →
  loop_result t b (onData_loop (S (S (S fuel))) (c, b)).
Proof.
  intros Ht Htc Hne Hseen Hcomp Hframe Hh Hparse.
  set (bs := contents b) in *. set (fh := header_at bs) in *.
  pose proof (parse_into_any t fh (header_raw fh bs) c) as Hany.
  destruct (parse_into t fh (header_raw fh bs) c) as [c1|],
    (parse_into t fh (header_raw fh bs) new_TrpcCodec) as [c0|] eqn:Hp0; try done.
  - destruct Hparse as [-> ->], Hany as (Hsame & Hk1 & Hk2 & Hk3).
    erewrite loop_round; [| done | done | done]. apply loop_payload; try done.
    + by rewrite <- Htc, <- Hk3.
    + destruct Hseen as (H1 & H2 & H3 & H4 & H5).
      split_and!; try done; unfold upd; cbn; by rewrite ?Hk1, ?Hk2.
    + split; [done |]. exists c0. split; [done |]. intros m. apply Hsame.
  - subst o. erewrite loop_end; [| done | done | done].
    unfold loop_result. fold bs. rewrite Hframe. unfold frame_header. rewrite Hp0. eauto.
Qed.

(** The outcome of a stage that parses a header into [c]. *)
Definition parse_step (t : MessageType) (c : TrpcCodec) (b : buffer) (r : outcome DecodeStage * (TrpcCodec * buffer)) : Prop :=
  ∃ o c', r = (o, (c', b)) ∧
    match parse_into t (header_at (contents b)) (header_raw (header_at (contents b)) (contents b)) c with
    | Some c1 => o = Return kDecodePayload ∧ c' = c1
    | None => o = Throw (EnvoyException "parse header failed")
    end.

Lemma decodeUnary_spec t c b :
  trpc_messageType_ c = t → header_seen c (contents b) →
  stream_frame_type (header_at (contents b)) = TRPC_UNARY →
  if zlen (contents b) <? 16 + pb_header_size (header_at (contents b))
  then decodeUnaryProtocolHeader (c, b) = (Return kWaitForData, (c, b))
  else parse_step t c b (decodeUnaryProtocolHeader (c, b)).
Proof.
  intros Htc (Hlen & Hm & Hfh & Hts & Hps) Hft. pose proof (header_at_range (contents b)) as [_ Hr].
  unfold decodeUnaryProtocolHeader. mstep. cbn [fst snd]. rewrite buf_length_spec, Hps. unfold_spaces.
  rewrite u32_small by lia.
  destruct (Z.ltb_spec (zlen (contents b)) (16 + pb_header_size (header_at (contents b)))); [done |].
  mstep. cbn [snd]. rewrite copyOut_ok by lia. unfold onUnaryHeader. mstep. cbn [fst snd].
  rewrite Hfh. cbn [deref]. mstep. rewrite Hft, Z.eqb_refl. mstep. cbn [fst]. rewrite Htc.
  unfold parse_step, parse_into, header_raw. rewrite Hft, Z.eqb_refl.
  destruct (decide (t = MessageType_Request)); destruct (ParseFromString _) as [[] h];
    (eexists _, _; split; [reflexivity | done]).
Qed.

Lemma decodeStream_spec t c b :
  header_seen c (contents b) →
  stream_frame_type (header_at (contents b)) ≠ TRPC_UNARY →
  let fh := header_at (contents b) in
  if zlen (contents b) <? data_frame_size fh
  then decodeStreamFrame (c, b) = (Return kWaitForData, (c, b))
  else if zlen (contents b) <? 16 + u32 (data_frame_size fh - 16)
  then decodeStreamFrame (c, b) = (Panic "copyOut", (c, b))
  else if negb (known_frame_type (stream_frame_type fh))
  then decodeStreamFrame (c, b) = (Panic "stream_frame_type", (c, b))
  else parse_step t c b (decodeStreamFrame (c, b)).
Proof.
  intros (Hlen & Hm & Hfh & Hts & Hps) Hft fh. pose proof (header_at_range (contents b)) as [Hr _].
  pose proof (u32_range (data_frame_size fh - 16)) as Hu. fold fh in Hfh, Hts, Hft.
  unfold decodeStreamFrame. mstep. cbn [fst snd]. rewrite buf_length_spec, Hts. unfold_spaces.
  destruct (Z.ltb_spec (zlen (contents b)) (data_frame_size fh)); [done |].
  mstep. cbn [snd]. destruct (Z.ltb_spec (zlen (contents b)) (16 + u32 (data_frame_size fh - 16))).
  { by rewrite copyOut_panic by lia. }
  rewrite copyOut_ok by lia. unfold onStreamFrame. mstep. cbn [fst snd].
  rewrite Hfh. cbn [deref]. mstep. unfold known_frame_type.
  destruct (_ || _ || _ || _) eqn:Hk; [| done]. mstep.
  unfold parse_step, parse_into, header_raw. fold fh. rewrite (proj2 (Z.eqb_neq _ _) Hft).
  destruct (stream_frame_type fh =? TRPC_STREAM_FRAME_INIT);
    [destruct (ParseFromString _) as [[] h]; (eexists _, _; split; [reflexivity | done]) |].
  destruct (stream_frame_type fh =? TRPC_STREAM_FRAME_CLOSE);
    [destruct (ParseFromString _) as [[] h]; (eexists _, _; split; [reflexivity | done]) |].
  cbn [orb] in Hk. rewrite orb_comm, Hk. eexists _, _. split; [reflexivity | done].
Qed.

Lemma loop_unary t c b fuel :
  decode_stage_ (decoder_base_ c) = kDecodeUnaryProtocolHeader → decoder_type t → trpc_messageType_ c = t →
  header_seen c (contents b) → stream_frame_type (header_at (contents b)) = TRPC_UNARY →
  loop_result t b (onData_loop (S (S (S fuel))) (c, b)).
Proof.
  intros Hst Ht Htc Hseen Hft. pose proof (decodeUnary_spec t c b Htc Hseen Hft) as Hsp.
  pose proof (handleState_at c b _ Hst) as Hh. cbv beta iota in Hh. rewrite <- Hh in Hsp. clear Hh.
  pose proof Hseen as (Hlen & Hm & _).
  assert (trpc_frame t (contents b) =
    if zlen (contents b) <? 16 + pb_header_size (header_at (contents b)) then FWait
    else frame_header t (header_at (contents b)) (contents b)) as Hframe.
  { unfold trpc_frame. rewrite (proj2 (Z.ltb_ge _ _)) by done. cbv zeta. by rewrite Hm, Hft. }
  destruct (Z.ltb_spec (zlen (contents b)) (16 + pb_header_size (header_at (contents b)))).
  - erewrite loop_end; [| by rewrite Hst | exact Hsp | by intros ? [= <-]].
    unfold loop_result. rewrite Hframe. exists c. split_and!; [done | | done].
    unfold trpc_rep. by rewrite Hst.
  - destruct Hsp as (o & c' & Hh & Hp). eapply loop_header; try done; [by rewrite Hst |].
    unfold header_complete. by rewrite Hft.
Qed.

Lemma loop_stream t c b fuel :
  decode_stage_ (decoder_base_ c) = KDecodeStreamFrame → decoder_type t → trpc_messageType_ c = t →
  header_seen c (contents b) → stream_frame_type (header_at (contents b)) ≠ TRPC_UNARY →
  loop_result t b (onData_loop (S (S (S fuel))) (c, b)).
Proof.
  intros Hst Ht Htc Hseen Hft. pose proof (decodeStream_spec t c b Hseen Hft) as Hsp. cbv zeta in Hsp.
  pose proof (handleState_at c b _ Hst) as Hh. cbv beta iota in Hh. rewrite <- Hh in Hsp. clear Hh.
  pose proof Hseen as (Hlen & Hm & _). set (fh := header_at (contents b)) in *.
  assert (trpc_frame t (contents b) =
    if zlen (contents b) <? data_frame_size fh then FWait
    else if zlen (contents b) <? 16 + u32 (data_frame_size fh - 16) then FPanic "copyOut"
    else if negb (known_frame_type (stream_frame_type fh)) then FPanic "stream_frame_type"
    else frame_header t fh (contents b)) as Hframe.
  { unfold trpc_frame. rewrite (proj2 (Z.ltb_ge _ _)) by done. cbv zeta. fold fh.
    by rewrite Hm, (proj2 (Z.eqb_neq _ _) Hft). }
  destruct (Z.ltb_spec (zlen (contents b)) (data_frame_size fh)).
  { erewrite loop_end; [| by rewrite Hst | exact Hsp | by intros ? [= <-]].
    unfold loop_result. rewrite Hframe. exists c. split_and!; [done | | done].
    unfold trpc_rep. by rewrite Hst. }
  destruct (Z.ltb_spec (zlen (contents b)) (16 + u32 (data_frame_size fh - 16))).
  { erewrite loop_end; [| by rewrite Hst | exact Hsp | done]. unfold loop_result. rewrite Hframe. eauto. }
  destruct (known_frame_type (stream_frame_type fh)) eqn:Hk; cbn [negb] in *.
  - destruct Hsp as (o & c' & Hh & Hp). eapply loop_header; try done; [by rewrite Hst |].
    unfold header_complete. fold fh. by rewrite (proj2 (Z.eqb_neq _ _) Hft).
  - erewrite loop_end; [| by rewrite Hst | exact Hsp | done]. unfold loop_result. rewrite Hframe. eauto.
Qed.

Lemma decodeFixed_spec c b :
  if zlen (contents b) <? 16 then decodeFixedHeader (c, b) = (Return kWaitForData, (c, b))
  else
    let fh := header_at (contents b) in
    if negb (magic_value fh =? TRPC_MAGIC_VALUE)
    then decodeFixedHeader (c, b) = (Throw (EnvoyException "protocol invalid"), (c, b))
    else decodeFixedHeader (c, b) =
      (Return (if stream_frame_type fh =? TRPC_UNARY then kDecodeUnaryProtocolHeader else KDecodeStreamFrame),
       (c <| decoder_base_ ::= λ k, k <| total_size_ := data_frame_size fh |>
                                      <| protocol_header_size_ := pb_header_size fh |> |>
          <| fixed_header_ := Some fh |>, b)).
Proof.
  unfold decodeFixedHeader. mstep. cbn [snd]. rewrite buf_length_spec. unfold_spaces.
  destruct (Z.ltb_spec (zlen (contents b)) 16); [done |]. cbv zeta.
  destruct (Z.eqb_spec (magic_value (header_at (contents b))) TRPC_MAGIC_VALUE) as [Hm | Hm]; cbn [negb].
  - destruct (TrpcFixedHeader_decode_ok false new_TrpcFixedHeader b) as (b' & Hd & ->); try done.
    mstep. rewrite Hd. done.
  - destruct (TrpcFixedHeader_decode_bad false new_TrpcFixedHeader b) as (h' & Hd); try done.
    mstep. rewrite Hd. done.
Qed.

Lemma loop_any t c b :
  trpc_rep t c [] (contents b) → trpc_messageType_ c = t →
  loop_result t b (CodecChecker_onData (c, b)).
Proof.
  intros (Ht & _ & Hrep) Htc. unfold CodecChecker_onData.
  destruct (decode_stage_ (decoder_base_ c)) eqn:Hst; try done.
  - pose proof (decodeFixed_spec c b) as Hsp. cbv zeta in Hsp.
    pose proof (handleState_at c b _ Hst) as Hh. cbv beta iota in Hh. rewrite <- Hh in Hsp. clear Hh.
    destruct (Z.ltb_spec (zlen (contents b)) 16).
    { erewrite loop_end; [| by rewrite Hst | exact Hsp | by intros ? [= <-]].
      unfold loop_result, trpc_frame. rewrite (proj2 (Z.ltb_lt _ _)) by done.
      exists c. split_and!; [done | | done]. unfold trpc_rep. by rewrite Hst. }
    destruct (Z.eqb_spec (magic_value (header_at (contents b))) TRPC_MAGIC_VALUE) as [Hm | Hm]; cbn [negb] in Hsp.
    + erewrite loop_round; [| by rewrite Hst | exact Hsp | by case_match].
      destruct (Z.eqb_spec (stream_frame_type (header_at (contents b))) TRPC_UNARY).
      * by apply loop_unary.
      * by apply loop_stream.
    + erewrite loop_end; [| by rewrite Hst | exact Hsp | done].
      unfold loop_result, trpc_frame. rewrite (proj2 (Z.ltb_ge _ _)) by done. cbv zeta.
      rewrite (proj2 (Z.eqb_neq _ _) Hm). cbn [negb]. by eexists.
  - destruct Hrep. by apply loop_unary.
  - destruct Hrep. by apply loop_stream.
  - destruct Hrep. by apply loop_payload.
Qed.

Lemma trpc_rep_new t s : decoder_type t → trpc_rep t new_TrpcCodec [] s.
Proof. intros. by split_and!. Qed.

Lemma header_seen_app c s k : header_seen c s → header_seen c (s ++ k).
Proof.
  intros (H1 & H2 & H3 & H4 & H5). pose proof (zlen_nonneg k).
  unfold header_seen. rewrite header_at_app, zlen_app by done. split_and!; try done. lia.
Qed.

Lemma trpc_rep_app t c l s k : trpc_rep t c l s → trpc_rep t c l (s ++ k).
Proof.
  intros (Ht & Hl & Hrep). split_and!; [done | done |]. pose proof (zlen_nonneg k).
  destruct (decode_stage_ _); try done; destruct Hrep as [Hs Hx]; (split; [by apply header_seen_app |]);
    pose proof Hs as (Hlen & _); pose proof (header_at_range s) as [Hr1 Hr2].
  - by rewrite header_at_app.
  - by rewrite header_at_app.
  - destruct Hx as (Hc & c0 & Hp & Hsame). unfold header_parsed, header_complete in *.
    rewrite header_at_app by done. pose proof (u32_range (data_frame_size (header_at s) - 16)). split.
    + rewrite zlen_app. destruct (_ =? TRPC_UNARY); [lia |]. destruct Hc as (? & ? & ?). split_and!; try done; lia.
    + exists c0. split; [| done]. rewrite <- Hp. f_equal. unfold header_raw.
      destruct (_ =? TRPC_UNARY); (rewrite zdrop_app, ztake_app; [done | rewrite zlen_zdrop; lia | lia]).
Qed.

Lemma put_trans_info_origin i m : origin_message_ (put_trans_info i m) = origin_message_ m.
Proof.
  unfold put_trans_info. generalize (pb_map_entries i). intros l. revert m.
  induction l as [|kv l IH]; intros m; cbn [foldl]; [done |]. by rewrite IH.
Qed.
Lemma toMetadata_origin c fh m : origin_message_ (toMetadata c fh m) = origin_message_ m.
Proof. unfold toMetadata. repeat case_match; cbv zeta; by rewrite ?put_trans_info_origin. Qed.

(** tRPC implements its framing: the interface [decoder.cc] relies on. *)
#[global] Instance trpc_contract : CodecContract trpc_codec.
Proof.
  refine {| frame := trpc_frame; codec_rep := trpc_rep : _ → codec_state (CodecOps := trpc_codec) → _ |}.
  - intros t s Ht. by split_and!.
  - by intros t c l s (? & _).
  - apply trpc_rep_app.
  - apply trpc_frame_size.
  - apply trpc_frame_app.
  - done.
  - intros t c l b (Ht & -> & Hrep). cbn [app] in *.
    set (c1 := (c : TrpcCodec) <| trpc_messageType_ := t |>).
    assert (trpc_rep t c1 [] (contents b)) as Hrep1 by (split_and!; done).
    pose proof (loop_any t c1 b Hrep1 eq_refl) as Hloop. unfold loop_result in Hloop.
    cbn [codec_decode trpc_codec]. unfold TrpcCodec_decode. cbv zeta.
    change (message_type_ (fresh_metadata t)) with t. fold c1.
    rewrite bool_decide_true by exact Ht. cbn [negb].
    destruct (trpc_frame t (contents b)) as [|n v|e|w].
    + destruct Hloop as (c' & -> & Hr & _). by exists c', b, (fresh_metadata t), [].
    + destruct Hloop as (c' & b' & msg & fh & -> & Hb & Hfh & Hom & Htc & Hmsg & Hb' & ->).
      rewrite bool_decide_true by done. cbn [negb]. rewrite Hfh, Hom.
      pose proof (buf_move_all_dst (origin_message_ (toMetadata c' fh (fresh_metadata t))) msg) as Hdst.
      destruct (buf_move_all _ msg) as [dst src]. cbn [fst] in Hdst.
      eexists _, b', _. split_and!; [done | | done |].
      * intros s. split_and!; try done. unfold upd. cbn. by rewrite Hb.
      * unfold view. f_equal. rewrite <- Hmsg. unfold upd at 1. cbn [origin_message_ eta].
        rewrite Hdst, toMetadata_origin. cbn. by rewrite buf_new_spec.
    + destruct Hloop as ([c' b'] & ->). eauto.
    + destruct Hloop as ([c' b'] & ->). eauto.
Defined.
End refinement.

(** ** Messages built by the codec *)

Section messages.
Context {E : Envoy} {L : EnvoyLaws E}.

Lemma TrpcFixedHeader_encode_spec h b :
  is_bytes (reserved h) → contents (TrpcFixedHeader_encode h b) = contents b ++ header_bytes h.
Proof.
  intros. unfold TrpcFixedHeader_encode, header_bytes.
  rewrite buf_add_spec, !buf_writeBEInt_spec by done. by rewrite <- !(assoc_L (++)).
Qed.

(** A frame: the fixed header, the protobuf header, the payload. *)
Definition frame_bytes {T} {PB : Protobuf T} (fh : TrpcFixedHeader) (header : T) (payload : bytes) : bytes :=
  header_bytes fh ++ SerializeAsString header ++ payload.

(** The sizes written in [fh] are those of the frame. *)
Definition sizes_ok {T} {PB : Protobuf T} (fh : TrpcFixedHeader) (header : T) (payload : bytes) : Prop :=
  pb_header_size fh = zlen (SerializeAsString header) ∧
  data_frame_size fh = zlen (frame_bytes fh header payload).

Lemma zlen_frame_bytes {T} {PB : Protobuf T} fh (header : T) payload :
  fixed_header_ok fh → zlen (frame_bytes fh header payload) = 16 + zlen (SerializeAsString header) + zlen payload.
Proof. intros (_ & _ & _ & _ & _ & _ & _ & Hr). unfold frame_bytes. rewrite !zlen_app, zlen_header_bytes by done. lia. Qed.

Lemma set_sizes_ok {T} {PB : Protobuf T} {PL : ProtobufLaws T} fh (header : T) payload :
  fixed_header_ok fh → zlen (SerializeAsString header) < 2 ^ 16 →
  16 + zlen (SerializeAsString header) + zlen payload < 2 ^ 32 →
  let fh' := set_sizes header (zlen payload) fh in
  fixed_header_ok fh' ∧ sizes_ok fh' header payload ∧
  stream_frame_type fh' = stream_frame_type fh ∧ data_frame_type fh' = data_frame_type fh ∧ stream_id fh' = stream_id fh.
Proof.
  intros Hok Hh Ht. cbv zeta. pose proof (zlen_nonneg (SerializeAsString header)). pose proof (zlen_nonneg payload).
  assert (fixed_header_ok (set_sizes header (zlen payload) fh)) as Hok'.
  { destruct Hok as (Hm & H1 & H2 & H3 & H4 & H5 & Hr & Hl). unfold set_sizes, upd.
    split_and!; cbn; try done; try lia; apply Z.mod_pos_bound; lia. }
  split_and!; try done. split; [| rewrite zlen_frame_bytes by done].
  - unfold set_sizes, upd. cbn. by rewrite ByteSizeLong_spec, u16_small.
  - unfold set_sizes, upd, getHeaderSize. cbn. unfold_spaces.
    rewrite ByteSizeLong_spec, u16_small, (u32_small (_ + 16)), u32_small by lia. lia.
Qed.

(** Reading back a frame that was built with the sizes right. *)
Lemma frame_bytes_parts {T} {PB : Protobuf T} fh (header : T) payload :
  fixed_header_ok fh → sizes_ok fh header payload →
  header_at (frame_bytes fh header payload) = fh ∧
  ztake (pb_header_size fh) (zdrop 16 (frame_bytes fh header payload)) = SerializeAsString header ∧
  getPayloadSize fh = zlen payload.
Proof.
  intros Hok (Hs1 & Hs2). pose proof Hok as (_ & _ & _ & Hd & Hp & _ & _ & Hr). split_and!.
  - by apply header_at_bytes.
  - unfold frame_bytes. rewrite <- (zlen_header_bytes fh Hr), zdrop_app_exact, Hs1. by rewrite ztake_app_exact.
  - rewrite zlen_frame_bytes in Hs2 by done. pose proof (zlen_nonneg payload).
    unfold getPayloadSize, getHeaderSize. unfold_spaces. rewrite (u32_small (_ + 16)) by lia.
    rewrite u32_small by lia. lia.
Qed.

Lemma TrpcFixedHeader_decode_frame fh h b k :
  fixed_header_ok fh → contents b = header_bytes fh ++ k →
  ∃ b', TrpcFixedHeader_decode true (h, b) = (Return true, (fh, b')) ∧ contents b' = k.
Proof.
  intros Hok Hb. pose proof Hok as (Hm & _ & _ & _ & _ & _ & _ & Hr).
  assert (header_at (contents b) = fh) as Hat by (rewrite Hb; by apply header_at_bytes).
  destruct (TrpcFixedHeader_decode_ok true h b) as (b' & Hd & Hc).
  - rewrite Hb, zlen_app, zlen_header_bytes by done. pose proof (zlen_nonneg k). lia.
  - by rewrite Hat.
  - exists b'. rewrite Hd, Hat. split; [done |]. cbv beta iota in Hc.
    rewrite Hc, Hb, <- (zlen_header_bytes fh Hr). apply zdrop_app_exact.
Qed.

Lemma Protocol_parseHeader_ok {T} {PB : Protobuf T} {PL : ProtobufLaws T} (p : Protocol T) b (header : T) k :
  pb_header_size (p_fixed_header_ p) = zlen (SerializeAsString header) →
  contents b = SerializeAsString header ++ k →
  ∃ b', Protocol_parseHeader 0 (p, b) = (Return true, (p <| protocol_header_ := header |>, b')) ∧ contents b' = k.
Proof.
  intros Hs Hb. pose proof (zlen_nonneg (SerializeAsString header)). pose proof (zlen_nonneg k).
  destruct (drain_ok b (zlen (SerializeAsString header))) as (b' & Hd & Hc); [rewrite Hb, zlen_app; lia |].
  exists b'. split; [| by rewrite Hc, Hb, zdrop_app_exact].
  unfold Protocol_parseHeader. mstep. cbn [id]. mstep. rewrite Hs.
  rewrite copyOut_ok by (rewrite ?Hb, ?zlen_app; lia). mstep. rewrite Hd. mstep.
  rewrite zdrop_0, Hb, ztake_app_exact, Parse_Serialize. done.
Qed.

Lemma foldl_insert_union (m i : gmap string string) :
  foldl (λ i kv, <[kv.1 := kv.2]> i) i (in_key_order m) = m ∪ i.
Proof.
  rewrite <- (in_key_order_list_to_map m) at 2. pose proof (in_key_order_NoDup m) as Hnd.
  revert Hnd i. generalize (in_key_order m). intros l.
  induction l as [|[k v] l IH]; intros Hnd i; cbn; [by rewrite (left_id_L ∅ (∪)) |].
  apply NoDup_cons in Hnd as [Hk Hnd]. cbn in IH. rewrite IH by done.
  rewrite <- insert_union_l, <- insert_union_r; [done |]. by apply not_elem_of_list_to_map_1.
Qed.

(** [mutateHeader] on a well formed frame. *)
Lemma mutateHeader_spec {T} {PB : Protobuf T} {PL : ProtobufLaws T} {I : HasTransInfo T}
    (p : Protocol T) b fh (header : T) payload mutation :
  fixed_header_ok fh → sizes_ok fh header payload → contents b = frame_bytes fh header payload →
  is_bytes payload →
  let header' := set_trans_info (mutation ∪ trans_info header) header in
  let fh' := set_sizes header' (zlen payload) fh in
  ∃ p' b', mutateHeader mutation (p, b) = (Return true, (p', b')) ∧
    contents b' = frame_bytes fh' header' payload.
Proof.
  intros Hok Hsz Hb Hpay header' fh'. destruct (frame_bytes_parts fh header payload Hok Hsz) as (_ & _ & Hps).
  destruct Hsz as [Hs1 Hs2]. pose proof (zlen_nonneg payload).
  destruct (TrpcFixedHeader_decode_frame fh (p_fixed_header_ p) b _ Hok Hb) as (b1 & Hd1 & Hc1).
  set (p1 := p <| p_fixed_header_ := fh |>).
  destruct (Protocol_parseHeader_ok p1 b1 header payload Hs1 Hc1) as (b2 & Hd2 & Hc2).
  destruct (move_ok buf_new b2 (getPayloadSize fh)) as (body & b3 & Hmv & Hm1 & Hm2); [rewrite Hc2, Hps; lia |].
  assert (contents body = payload) as Hbody by (by rewrite Hm1, buf_new_spec, Hc2, Hps, ztake_all).
  assert (contents b3 = []) as Hb3 by (by rewrite Hm2, Hc2, Hps, zdrop_all).
  unfold mutateHeader. mstep. cbn [snd]. unfold Protocol_decodeFixed. rewrite Hd1. mstep. cbn [negb].
  mstep. cbn [fst]. fold p1. change (p_fixed_header_ p1) with fh.
  rewrite buf_length_spec, Hb, <- Hs2, Z.ltb_irrefl. mstep. rewrite Hd2. mstep. cbn [negb]. mstep.
  cbn [id]. mstep. change (p_fixed_header_ (p1 <| protocol_header_ := header |>)) with fh. rewrite Hmv.
  mstep. eexists _, _. split; [reflexivity |].
  change (protocol_header_ (p1 <| protocol_header_ := header |>)) with header.
  rewrite foldl_insert_union, buf_length_spec, !Hbody. fold header'. fold fh'.
  destruct Hok as (_ & _ & _ & _ & _ & _ & Hr & _).
  rewrite !buf_add_spec; [| apply SerializeAsString_bytes | done].
  rewrite TrpcFixedHeader_encode_spec, Hb3 by done. unfold frame_bytes. by rewrite <- (assoc_L (++)).
Qed.

(** [Protocol::encode] of a message without payload. *)
Lemma Protocol_encode_spec {T} {PB : Protobuf T} {PL : ProtobufLaws T} (p : Protocol T) b :
  is_bytes (reserved (p_fixed_header_ p)) →
  let fh := set_sizes (protocol_header_ p) (zlen (contents (body_ p)))
              ((p_fixed_header_ p) <| magic_value := TRPC_MAGIC_VALUE |>) in
  contents (Protocol_encode p b).2 =
    contents b ++ frame_bytes fh (protocol_header_ p) (contents (body_ p)).
Proof.
  intros Hr fh. unfold Protocol_encode. rewrite buf_length_spec. fold fh. cbv zeta. cbn [snd].
  assert (∀ b0, contents (if 0 <? zlen (contents (body_ p)) then buf_add b0 (contents (body_ p)) else b0) =
                contents b0 ++ contents (body_ p)) as ->.
  { intros b0. destruct (Z.ltb_spec 0 (zlen (contents (body_ p)))).
    - apply buf_add_spec, contents_bytes.
    - pose proof (zlen_nonneg (contents (body_ p))). rewrite (zlen_0_nil (contents (body_ p))) by lia.
      by rewrite app_nil_r. }
  rewrite buf_add_spec by apply SerializeAsString_bytes. rewrite TrpcFixedHeader_encode_spec by done.
  unfold frame_bytes. by rewrite <- !(assoc_L (++)).
Qed.
End messages.

(** ** A concrete protobuf encoding, for the witnesses

    One byte per bit of the [Countable] code of a message. *)

Fixpoint bits_of (p : positive) : bytes :=
  match p with xH => [] | xO p => 0 :: bits_of p | xI p => 1 :: bits_of p end.
Fixpoint of_bits (l : bytes) : positive :=
  match l with [] => xH | b :: l => if b =? 0 then xO (of_bits l) else xI (of_bits l) end.
Lemma of_bits_of p : of_bits (bits_of p) = p.
Proof. induction p; cbn; by rewrite ?IHp. Qed.
Lemma bits_of_bytes p : is_bytes (bits_of p).
Proof. induction p; cbn; constructor; auto; unfold is_byte; lia. Qed.

Section countable_pb.
Context {T U : Type} `{Countable U} (to : T → U) (from : U → T) (default_ : T).

Definition countable_pb : Protobuf T := {|
  ParseFromString bs := match decode (of_bits bs) with Some u => (true, from u) | None => (false, default_) end;
  SerializeAsString m := bits_of (encode (to m));
  ByteSizeLong m := zlen (bits_of (encode (to m)))
|}.
Lemma countable_pb_laws : (∀ m, from (to m) = m) → @ProtobufLaws T countable_pb.
Proof.
  intros Hft. split; cbn; intros m; [apply bits_of_bytes | done |].
  by rewrite of_bits_of, decode_encode, Hft.
Qed.
End countable_pb.

(** A message as the list of its fields. *)
Abbreviation field := (Z + (string + gmap string string))%type.
Abbreviation FZ := inl.
Abbreviation FS s := (inr (inl s)).
Abbreviation FM m := (inr (inr m)).

Definition req_pb : Protobuf RequestProtocol :=
  countable_pb (U := list field)
    (λ m, [FZ (req_version m); FZ (req_call_type m); FZ (req_request_id m); FZ (req_timeout m);
           FS (req_caller m); FS (req_callee m); FS (req_func m); FZ (req_message_type m);
           FM (req_trans_info m); FZ (req_content_type m); FZ (req_content_encoding m); FZ (req_attachment_size m)])
    (λ l, match l with
          | [FZ a; FZ b; FZ c; FZ d; FS e; FS f; FS g; FZ h; FM i; FZ j; FZ k; FZ l] =>
              Build_RequestProtocol a b c d e f g h i j k l
          | _ => default_RequestProtocol
          end)
    default_RequestProtocol.
Definition rsp_pb : Protobuf ResponseProtocol :=
  countable_pb (U := list field)
    (λ m, [FZ (rsp_version m); FZ (rsp_call_type m); FZ (rsp_request_id m); FZ (rsp_ret m); FZ (rsp_func_ret m);
           FS (rsp_error_msg m); FZ (rsp_message_type m); FM (rsp_trans_info m); FZ (rsp_content_type m);
           FZ (rsp_content_encoding m); FZ (rsp_attachment_size m)])
    (λ l, match l with
          | [FZ a; FZ b; FZ c; FZ d; FZ e; FS f; FZ g; FM h; FZ i; FZ j; FZ k] =>
              Build_ResponseProtocol a b c d e f g h i j k
          | _ => default_ResponseProtocol
          end)
    default_ResponseProtocol.
Definition init_pb : Protobuf TrpcStreamInitMeta :=
  countable_pb (U := list field)
    (λ m, [FS (init_caller m); FS (init_callee m); FS (init_func m); FZ (init_message_type m);
           FM (init_trans_info m); FZ (init_ret m); FS (init_error_msg m); FZ (init_window_size m);
           FZ (init_content_type m); FZ (init_content_encoding m)])
    (λ l, match l with
          | [FS a; FS b; FS c; FZ d; FM e; FZ f; FS g; FZ h; FZ i; FZ j] =>
              Build_TrpcStreamInitMeta a b c d e f g h i j
          | _ => default_TrpcStreamInitMeta
          end)
    default_TrpcStreamInitMeta.
Definition close_pb : Protobuf TrpcStreamCloseMeta :=
  countable_pb (U := list field)
    (λ m, [FZ (close_type m); FZ (close_ret m); FS (close_msg m); FZ (close_message_type m);
           FM (close_trans_info m); FZ (close_func_ret m)])
    (λ l, match l with
          | [FZ a; FZ b; FS c; FZ d; FM e; FZ f] => Build_TrpcStreamCloseMeta a b c d e f
          | _ => default_TrpcStreamCloseMeta
          end)
    default_TrpcStreamCloseMeta.

Definition list_trpc_pb : TrpcPb :=
  {| pb_req := req_pb; pb_rsp := rsp_pb; pb_init := init_pb; pb_close := close_pb;
     pb_map_entries := map_to_list |}.
Lemma list_trpc_pb_laws : TrpcPbLaws list_trpc_pb.
Proof. split; [apply countable_pb_laws; by intros []..|]. done. Qed.

(** ** Properties *)

Section properties.
Context {E : Envoy} {P : TrpcPb}.

(** the sixteen bytes [TrpcFixedHeader::encode] writes are read back by
    [TrpcFixedHeader::decode] to the same header, and only they are drained. *)
Theorem trpc_fixed_header_roundtrip {L : EnvoyLaws E} (h h0 : TrpcFixedHeader) (k : bytes)
    (Hok : fixed_header_ok h) (Hk : is_bytes k) :
  ∃ b', TrpcFixedHeader_decode true (h0, buf_add (TrpcFixedHeader_encode h buf_new) k) = (Return true, (h, b')) ∧
    contents b' = k.
Proof.
  apply TrpcFixedHeader_decode_frame; [done |]. destruct Hok as (_ & _ & _ & _ & _ & _ & Hr & _).
  by rewrite buf_add_spec, TrpcFixedHeader_encode_spec, buf_new_spec.
Qed.

(** C2: one call of [TrpcCodec::decode], at any point of a stream, does what the
    pure framing of the bytes says: it waits and keeps every byte, or returns
    the message with exactly its [data_frame_size] bytes taken, or fails as
    the framing fails. *)
Theorem trpc_decode_refines_framing {L : EnvoyLaws E} (t : MessageType) (c : TrpcCodec) (b : buffer)
    (Hrep : trpc_rep t c [] (contents b)) :
  match trpc_frame t (contents b) with
  | FWait => ∃ c' b' m',
      TrpcCodec_decode (c, b, fresh_metadata t) = (Return DecodeStatus_WaitForData, (c', b', m')) ∧
      trpc_rep t c' [] (contents b') ∧ contents b' = contents b
  | FDone n v => ∃ c' b' m',
      TrpcCodec_decode (c, b, fresh_metadata t) = (Return DecodeStatus_Done, (c', b', m')) ∧
      (∀ s, trpc_rep t c' [] s) ∧ contents b' = zdrop n (contents b) ∧ view m' = v
  | FThrow e => ∃ s', TrpcCodec_decode (c, b, fresh_metadata t) = (Throw e, s')
  | FPanic w => ∃ s', TrpcCodec_decode (c, b, fresh_metadata t) = (Panic w, s')
  end.
Proof.
  pose proof (codec_decode_spec (CodecContract := trpc_contract) t c [] b Hrep) as Hs.
  cbn [frame trpc_contract app] in Hs. destruct (trpc_frame t (contents b)).
  - destruct Hs as (c' & b' & m' & l' & Hd & Hr & Heq). exists c', b', m'.
    pose proof Hr as (_ & -> & _). cbn in *. by rewrite <- Heq.
  - exact Hs.
  - destruct Hs as (c' & b' & m' & Hd). eauto.
  - destruct Hs as (c' & b' & m' & Hd). eauto.
Qed.

(** The request of a mutated frame. *)
Lemma unary_frame_done {T} {PB : Protobuf T} t fh (header : T) payload c :
  fixed_header_ok fh → stream_frame_type fh = TRPC_UNARY → sizes_ok fh header payload →
  parse_into t fh (SerializeAsString header) new_TrpcCodec = Some c →
  trpc_frame t (frame_bytes fh header payload) =
    FDone (zlen (frame_bytes fh header payload))
      ((toMetadata (c <| trpc_messageType_ := t |>) fh (fresh_metadata t)) <| origin_message_ := buf_new |>,
       frame_bytes fh header payload).
Proof.
  intros Hok Hft Hsz Hp. destruct (frame_bytes_parts fh header payload Hok Hsz) as (Hat & Hraw & _).
  pose proof (zlen_frame_bytes fh header payload Hok) as Hlen. destruct Hsz as [Hs1 Hs2].
  pose proof (zlen_nonneg payload). pose proof (zlen_nonneg (SerializeAsString header)).
  destruct Hok as (Hm & _). unfold trpc_frame.
  rewrite (proj2 (Z.ltb_ge _ _)) by lia. cbv zeta. rewrite Hat, Hm, Hft. cbn [negb Z.eqb TRPC_UNARY].
  rewrite (proj2 (Z.ltb_ge _ _)) by lia. change (negb (TRPC_MAGIC_VALUE =? TRPC_MAGIC_VALUE)) with false.
  cbv iota. unfold frame_header, header_raw. rewrite Hft. cbn [Z.eqb TRPC_UNARY].
  rewrite Hraw, Hp. unfold frame_payload. rewrite (proj2 (Z.ltb_ge _ _)) by lia. by rewrite Hs2, ztake_all.
Qed.

(** C3: encoding a mutation into a request keeps the payload byte for byte,
    writes the mutated keys over the [trans_info] of the header, leaves the
    rest of it alone, and sets both size fields of the fixed header so that
    the result is again exactly one frame. *)
Theorem trpc_encode_mutation {L : EnvoyLaws E} {PL : TrpcPbLaws P} (c : TrpcCodec) (m : MetadataImpl)
    (mutation : Mutation) (b : buffer) (fh : TrpcFixedHeader) (header : RequestProtocol) (payload : bytes)
    (Hm : message_type_ m = MessageType_Request) (Hmut : mutation ≠ ∅)
    (Hok : fixed_header_ok fh) (Hft : stream_frame_type fh = TRPC_UNARY)
    (Hsz : sizes_ok fh header payload) (Hb : contents b = frame_bytes fh header payload)
    (Hpay : is_bytes payload)
    (Hfit : zlen (SerializeAsString (header <| req_trans_info := mutation ∪ req_trans_info header |>)) < 2 ^ 16)
    (Hfit' : 16 + 2 ^ 16 + zlen payload < 2 ^ 32) :
  let header' := header <| req_trans_info := mutation ∪ req_trans_info header |> in
  ∃ b' fh' v, TrpcCodec_encode m mutation (c, b) = (Return tt, (c, b')) ∧
    contents b' = frame_bytes fh' header' payload ∧ sizes_ok fh' header' payload ∧
    stream_id fh' = stream_id fh ∧
    trpc_frame MessageType_Request (contents b') = FDone (zlen (contents b')) v ∧ v.2 = contents b' ∧
    request_id_ v.1 = u64 (req_request_id header).
Proof.
  cbv zeta. set (header' := header <| req_trans_info := mutation ∪ req_trans_info header |>) in *.
  destruct (mutateHeader_spec (new_Protocol default_RequestProtocol) b fh header payload mutation Hok Hsz Hb Hpay)
    as (p' & b' & Hmh & Hb'). cbn [set_trans_info trans_info req_has_trans_info] in Hb'. fold header' in Hb'.
  destruct (set_sizes_ok fh header' payload Hok Hfit) as (Hok' & Hsz' & Hft' & _ & Hid'); [lia |].
  pose proof (unary_frame_done MessageType_Request _ header' payload
    (new_TrpcCodec <| requestHeader_ := header' |>) Hok' (eq_trans Hft' Hft) Hsz') as Hdone.
  eexists b', _, _. split_and!; [| exact Hb' | done | done | rewrite Hb'; apply Hdone | |].
  - unfold TrpcCodec_encode. cbv zeta. rewrite decide_False, decide_True by done. by rewrite Hmh.
  - unfold parse_into. rewrite Hft', Hft. cbn [Z.eqb TRPC_UNARY]. rewrite decide_True by done.
    by rewrite Parse_Serialize.
  - by rewrite Hb'.
  - cbn [fst]. unfold toMetadata. rewrite Hft', Hft. cbn [Z.eqb TRPC_UNARY].
    rewrite decide_True by done. unfold put_trans_info. generalize (pb_map_entries (req_trans_info
      (requestHeader_ (new_TrpcCodec <| requestHeader_ := header' |> <| trpc_messageType_ := MessageType_Request |>)))).
    intros l. induction l as [|kv l IH] using rev_ind; [done |]. rewrite foldl_app. exact IH.
Qed.

Lemma put_trans_info_nil {PL : TrpcPbLaws P} m : put_trans_info ∅ m = m.
Proof.
  unfold put_trans_info. pose proof (pb_map_entries_perm ∅) as Hp. rewrite map_to_list_empty in Hp.
  by apply Permutation_nil_r in Hp as ->.
Qed.

(** the local reply [TrpcCodec::onError] builds for a unary request is one
    complete response frame: the peer's decoder returns it with the request
    id of the request and the error message, and nothing is left over. *)
Theorem trpc_error_reply {L : EnvoyLaws E} {PL : TrpcPbLaws P} (c : TrpcCodec) (m : MetadataImpl) (error : Error)
    (Hm : message_type_ m ≠ MessageType_Stream_Init)
    (Hfit : zlen (SerializeAsString (default_ResponseProtocol <| rsp_request_id := u32 (request_id_ m) |>
              <| rsp_error_msg := error_message error |> <| rsp_ret := errCode (error_type error) |>
              <| rsp_func_ret := errCode (error_type error) |>)) < 2 ^ 16) :
  ∃ b' v, TrpcCodec_onError m error (c, buf_new) = (Return tt, (c, b')) ∧
    trpc_frame MessageType_Response (contents b') = FDone (zlen (contents b')) v ∧
    request_id_ v.1 = u32 (request_id_ m) ∧ v.2 = contents b' ∧
    properties_ v.1 = {["error_msg" := AnyString (error_message error)]}.
Proof.
  set (header := default_ResponseProtocol <| rsp_request_id := u32 (request_id_ m) |>
    <| rsp_error_msg := error_message error |> <| rsp_ret := errCode (error_type error) |>
    <| rsp_func_ret := errCode (error_type error) |>) in *.
  set (p := (new_Protocol header) <| p_fixed_header_ := new_TrpcFixedHeader <| data_frame_type := TRPC_UNARY |> |>).
  pose proof (Protocol_encode_spec p buf_new) as Henc. cbv zeta in Henc.
  destruct (Protocol_encode p buf_new) as [p' b'] eqn:Hp. cbn [snd] in Henc.
  specialize (Henc (bool_decide_unpack (Forall is_byte [0; 0]) I)).
  change (protocol_header_ p) with header in Henc. change (body_ p) with buf_new in Henc.
  rewrite buf_new_spec in Henc. cbn [app] in Henc. set (fh := set_sizes header (zlen []) _) in Henc.
  destruct (set_sizes_ok ((p_fixed_header_ p) <| magic_value := TRPC_MAGIC_VALUE |>) header [])
    as (Hok & Hsz & Hft & _); [| done | change (zlen []) with 0; lia |].
  { split_and!; cbn; try done; apply (bool_decide_unpack (Forall is_byte [0; 0])); done. }
  pose proof (u32_range (request_id_ m)).
  eexists b', _. split_and!.
  - unfold TrpcCodec_onError. cbv zeta. rewrite decide_False by done. fold header. fold p. by rewrite Hp.
  - rewrite Henc. apply (unary_frame_done _ fh header [] (new_TrpcCodec <| responseHeader_ := header |>) Hok Hft Hsz).
    unfold parse_into. change (stream_frame_type fh =? TRPC_UNARY) with true. cbv iota.
    rewrite decide_False by done. by rewrite Parse_Serialize.
  - cbn [fst]. unfold toMetadata. change (stream_frame_type fh =? TRPC_UNARY) with true. cbv iota.
    rewrite decide_False by done. change (rsp_trans_info _) with (∅ : gmap string string).
    rewrite put_trans_info_nil. cbn. apply u64_small. lia.
  - by rewrite Henc.
  - cbn [fst]. unfold toMetadata. change (stream_frame_type fh =? TRPC_UNARY) with true. cbv iota.
    rewrite decide_False by done. change (rsp_trans_info _) with (∅ : gmap string string).
    by rewrite put_trans_info_nil.
Qed.

(** C16: a unary frame whose [data_frame_size] is 0 is never consumed: as long
    as its header parses, the loop over the request buffer decodes it again
    for ever, whatever the bound on the number of rounds. *)
Theorem trpc_zero_size_frame_loops {L : EnvoyLaws E} {H W : Type} {D : DecoderCallbacks (C := trpc_codec) H W}
    (log : W → list (MetadataImpl * bytes)) {CL : CallbacksLaws (C := trpc_codec) D log}
    (h : Host (C := trpc_codec) H W) (fuel : nat)
    (Hready : ready (C := trpc_codec) MessageType_Request h [])
    (Hlen : 16 + pb_header_size (header_at (contents (h_buffer h))) ≤ zlen (contents (h_buffer h)))
    (Hmagic : magic_value (header_at (contents (h_buffer h))) = TRPC_MAGIC_VALUE)
    (Hunary : stream_frame_type (header_at (contents (h_buffer h))) = TRPC_UNARY)
    (Hsize : data_frame_size (header_at (contents (h_buffer h))) = 0)
    (Hparse : (ParseFromString (T := RequestProtocol)
      (ztake (pb_header_size (header_at (contents (h_buffer h)))) (zdrop 16 (contents (h_buffer h))))).1 = true) :
  (decode_loop fuel h).1 = Panic "out of fuel".
Proof.
  pose proof (header_at_range (contents (h_buffer h))) as [_ Hr]. set (bs := contents (h_buffer h)) in *.
  destruct (ParseFromString _) as [ok hd] eqn:Hp in Hparse. cbn in Hparse. subst ok.
  assert (∃ v, trpc_frame MessageType_Request bs = FDone 0 v) as [v Hf].
  { unfold trpc_frame. rewrite (proj2 (Z.ltb_ge _ _)) by lia. cbv zeta. rewrite Hmagic, Hunary.
    cbn [Z.eqb TRPC_UNARY TRPC_MAGIC_VALUE Pos.eqb negb]. rewrite (proj2 (Z.ltb_ge _ _)) by lia.
    unfold frame_header, header_raw, parse_into. rewrite Hunary. cbn [Z.eqb TRPC_UNARY].
    rewrite decide_True by done. rewrite Hp. cbn [fst snd]. unfold frame_payload.
    rewrite Hsize, (proj2 (Z.ltb_ge _ _)) by (auto with mpp). eauto. }
  eapply (decode_loop_no_progress log); [done | exact Hf |]. unfold pending. fold bs. cbn [app].
  intros ->. change (zlen []) with 0 in Hlen. lia.
Qed.

(** a frame with an unknown [stream_frame_type] stops the process: the
    codec has no error path for it. *)
Theorem trpc_unknown_frame_type_panics {L : EnvoyLaws E} (t : MessageType) (b : buffer)
    (Ht : decoder_type t)
    (Hlen : 16 ≤ data_frame_size (header_at (contents b)) ≤ zlen (contents b))
    (Hmagic : magic_value (header_at (contents b)) = TRPC_MAGIC_VALUE)
    (Htype : 4 < stream_frame_type (header_at (contents b))) :
  ∃ s', TrpcCodec_decode (new_TrpcCodec, b, fresh_metadata t) = (Panic "stream_frame_type", s').
Proof.
  pose proof (codec_decode_spec (CodecContract := trpc_contract) t new_TrpcCodec [] b) as Hs.
  cbn [frame trpc_contract app] in Hs. specialize (Hs ltac:(by split_and!)).
  assert (trpc_frame t (contents b) = FPanic "stream_frame_type") as Hf.
  { pose proof (header_at_range (contents b)) as [Hr _].
    unfold trpc_frame. rewrite (proj2 (Z.ltb_ge _ _)) by lia. cbv zeta. rewrite Hmagic.
    cbn [Z.eqb TRPC_MAGIC_VALUE Pos.eqb negb]. unfold TRPC_UNARY.
    rewrite (proj2 (Z.eqb_neq _ _)) by lia. rewrite (proj2 (Z.ltb_ge _ _)) by lia.
    rewrite u32_small by lia. rewrite (proj2 (Z.ltb_ge _ _)) by lia. unfold known_frame_type,
      TRPC_STREAM_FRAME_INIT, TRPC_STREAM_FRAME_CLOSE, TRPC_STREAM_FRAME_FEEDBACK, TRPC_STREAM_FRAME_DATA.
    by rewrite !(proj2 (Z.eqb_neq _ _)) by lia. }
  rewrite Hf in Hs. destruct Hs as (c' & b' & m' & Hd). eauto.
Qed.
End properties.

(** ** Witnesses *)

Section witnesses.
Definition wE : Envoy := list_envoy Empty_set.
Definition wL : EnvoyLaws wE := list_envoy_laws Empty_set.
Existing Instances wL list_trpc_pb list_trpc_pb_laws.

Definition w_request : RequestProtocol :=
  default_RequestProtocol <| req_request_id := 7 |> <| req_callee := "s" |>.
Definition w_payload : bytes := [1; 2; 3].
Definition w_header : TrpcFixedHeader := set_sizes w_request (zlen w_payload) new_TrpcFixedHeader.
Definition w_frame : bytes := frame_bytes w_header w_request w_payload.
Definition w_mutation : Mutation := {["k" := "v"]}.

Lemma w_header_ok : fixed_header_ok w_header.
Proof. vm_compute. repeat split; try discriminate; repeat constructor; discriminate. Qed.

Lemma trpc_fixed_header_roundtrip_witness :
  ∃ b', TrpcFixedHeader_decode (E := wE) true
          (new_TrpcFixedHeader, buf_add (TrpcFixedHeader_encode w_header buf_new) w_payload) =
        (Return true, (w_header, b')) ∧ contents b' = w_payload.
Proof.
  apply (trpc_fixed_header_roundtrip (E := wE) w_header new_TrpcFixedHeader w_payload w_header_ok).
  by apply (bool_decide_unpack (Forall is_byte w_payload)).
Defined.

Definition frame_len {E : Envoy} (f : framing) : Z := match f with FDone n _ => n | _ => -1 end.

Lemma trpc_decode_refines_framing_witness :
  ∃ c' b' m', TrpcCodec_decode (E := wE) (new_TrpcCodec, w_frame ++ [9], fresh_metadata MessageType_Request) =
    (Return DecodeStatus_Done, (c', b', m')) ∧ contents b' = [9].
Proof.
  pose proof (trpc_decode_refines_framing (E := wE) MessageType_Request new_TrpcCodec (w_frame ++ [9])) as H.
  specialize (H (trpc_rep_new _ _ (or_introl eq_refl))).
  assert (frame_len (trpc_frame (E := wE) MessageType_Request (contents (w_frame ++ [9] : buffer (BufferOps := list_buffer)))) =
          zlen w_frame) as Hn by (by vm_compute).
  destruct (trpc_frame _ _) as [|n v|e|w]; cbn [frame_len] in Hn; [discriminate Hn | | discriminate Hn..].
  destruct H as (c' & b' & m' & Hd & _ & Hb & _). exists c', b', m'. split; [exact Hd |].
  rewrite Hb, Hn. by vm_compute.
Defined.

Lemma trpc_encode_mutation_witness :
  ∃ b' fh' v, TrpcCodec_encode (E := wE) (fresh_metadata MessageType_Request) w_mutation (new_TrpcCodec, w_frame) =
      (Return tt, (new_TrpcCodec, b')) ∧
    contents b' = frame_bytes fh' (w_request <| req_trans_info := w_mutation ∪ ∅ |>) w_payload ∧
    sizes_ok fh' (w_request <| req_trans_info := w_mutation ∪ ∅ |>) w_payload ∧ stream_id fh' = 0 ∧
    trpc_frame (E := wE) MessageType_Request (contents b') = FDone (zlen (contents b')) v ∧
    v.2 = contents b' ∧ request_id_ v.1 = 7.
Proof.
  apply (trpc_encode_mutation (E := wE) new_TrpcCodec (fresh_metadata MessageType_Request) w_mutation w_frame
           w_header w_request w_payload).
  - reflexivity.
  - done.
  - exact w_header_ok.
  - reflexivity.
  - split; vm_compute; reflexivity.
  - vm_compute. reflexivity.
  - by apply (bool_decide_unpack (Forall is_byte w_payload)).
  - vm_compute. reflexivity.
  - vm_compute. reflexivity.
Defined.

Lemma trpc_error_reply_witness :
  ∃ b' v, TrpcCodec_onError (E := wE) (fresh_metadata MessageType_Request)
            {| error_type := ErrorType_RouteNotFound; error_message := "x" |} (new_TrpcCodec, buf_new) =
      (Return tt, (new_TrpcCodec, b')) ∧
    trpc_frame (E := wE) MessageType_Response (contents b') = FDone (zlen (contents b')) v ∧
    request_id_ v.1 = 0 ∧ v.2 = contents b' ∧ properties_ v.1 = {["error_msg" := AnyString "x"]}.
Proof.
  apply (trpc_error_reply (E := wE) new_TrpcCodec (fresh_metadata MessageType_Request)
           {| error_type := ErrorType_RouteNotFound; error_message := "x" |}); [done | by vm_compute].
Defined.

(** The header of [w_frame] with its size set to 0. *)
Definition w_zero_frame : bytes := frame_bytes (w_header <| data_frame_size := 0 |>) w_request w_payload.
Definition w_host : Host (E := wE) (C := trpc_codec) unit (list (MetadataImpl * bytes)) :=
  let h := recording_host (E := wE) (C := trpc_codec) MessageType_Request in
  {| h_decoder := h_decoder h; h_codec := h_codec h; h_buffer := w_zero_frame : buffer (BufferOps := @envoy_buffer wE);
     h_world := h_world h |}.

Lemma trpc_zero_size_frame_loops_witness : (decode_loop 1000 w_host).1 = Panic "out of fuel".
Proof.
  apply (trpc_zero_size_frame_loops (E := wE) id w_host 1000); try by vm_compute.
  split_and!; [apply trpc_rep_new; by left | done | done | done].
Defined.

Lemma trpc_unknown_frame_type_panics_witness :
  ∃ s', TrpcCodec_decode (E := wE)
          (new_TrpcCodec, frame_bytes (w_header <| stream_frame_type := 9 |>) w_request w_payload,
           fresh_metadata MessageType_Request) = (Panic "stream_frame_type", s').
Proof. apply (trpc_unknown_frame_type_panics (E := wE) MessageType_Request); [by left | by vm_compute..]. Defined.

(** Two messages and a part of a third, in three reads cut inside messages. *)
Definition w_stream : bytes := w_frame ++ w_frame ++ take 20 w_frame.
Definition w_chunks : list (@buffer (@envoy_buffer wE)) :=
  [take 5 w_stream; take 150 (drop 5 w_stream); drop 155 w_stream].
Definition delivered {E : Envoy} (r : option (list (MetadataImpl * bytes) * tail)) : option (nat * bytes) :=
  match r with Some (vs, TRest rest) => Some (length vs, rest) | _ => None end.

Lemma decoder_segmentation_independent_witness :
  ∃ h' : Host (E := wE) (C := trpc_codec) unit (list (MetadataImpl * bytes)),
    feed_all 3 w_chunks (recording_host MessageType_Request) = (Return tt, h') ∧ length (h_world h') = 2%nat.
Proof.
  assert (delivered (parse_all (E := wE) (C := trpc_codec) MessageType_Request 3 (concat (contents <$> w_chunks))) =
          Some (2%nat, take 20 w_frame)) as Hd by (vm_compute; reflexivity).
  destruct (parse_all _ _ _) as [[vs [rest|e|w]]|] eqn:Hp; cbn [delivered] in Hd;
    [| discriminate Hd | discriminate Hd | discriminate Hd].
  destruct (decoder_segmentation_independent (E := wE) (C := trpc_codec) id MessageType_Request [] w_chunks 3
              vs (TRest rest)) as (h' & Hf & Hl).
  - by left.
  - vm_compute. reflexivity.
  - exact Hp.
  - exists h'. split; [exact Hf |]. unfold id in Hl. rewrite Hl. injection Hd as Hn _. exact Hn.
Defined.
End witnesses.
