(* ===== verification/Brpc.v ===== *)
(** * The bRPC codec

    Model of [application_protocols/brpc]: [BrpcHeader] ([protocol.h],
    [protocol.cc]) and [BrpcCodec] ([brpc_codec.h], [brpc_codec.cc]).  The
    protobuf class [RpcMeta] is generated code: its parser is a parameter, and
    its result is ignored by the codec. *)

From S2P Require Import Prelude Envoy Metadata Codec Decoder.

(** ** BrpcHeader *)

Definition HEADER_SIZE : Z := 12.
(** The four bytes of "PRPC" read as an integer of the (little endian) host. *)
Definition MAGIC : Z := 0x43505250.

Record BrpcHeader : Type := { _body_len : Z; _meta_len : Z }.
#[global] Instance BrpcHeader_eta : Eta BrpcHeader := fun h =>
  {| _body_len := _body_len h; _meta_len := _meta_len h |}.

Inductive BrpcDecodeStatus : Type := DecodeHeader | DecodePayload | DecodeDone | WaitForData.
#[global] Instance BrpcDecodeStatus_eq_dec : EqDecision BrpcDecodeStatus.
Proof. solve_decision. Defined.

Class BrpcPb := { RpcMeta : Type; RpcMeta_default : RpcMeta; RpcMeta_parse : bytes → RpcMeta }.

Section brpc.
Context {E : Envoy} {P : BrpcPb}.

Definition BrpcHeader_decode : M (BrpcHeader * buffer) bool :=
  '(_, b) ← gets id;
  if buf_length b <? HEADER_SIZE then mret false
  else
    let pos := 0 in
    let pos := pos + 4 in
    v ← lift (buf_peek 4 pos b);
    _ ← modify (λ '(h, b), (h <| _body_len := v |>, b));
    let pos := pos + 4 in
    v ← lift (buf_peek 4 pos b);
    _ ← modify (λ '(h, b), (h <| _meta_len := v |>, b));
    let pos := pos + 4 in
    _ ← ASSERT (pos =? HEADER_SIZE) "pos == HEADER_SIZE";
    mret true.

Definition BrpcHeader_encode (h : BrpcHeader) (b : buffer) : buffer :=
  let b := buf_writeBEInt 4 b MAGIC in
  let b := buf_writeBEInt 4 b (_body_len h) in
  buf_writeBEInt 4 b (_meta_len h).

(** [messageType_] and the header are not initialised by the constructor; they
    are written before they are read. *)
Record BrpcCodec : Type := {
  decode_status : BrpcDecodeStatus;
  brpc_messageType_ : MessageType;
  brpc_header_ : BrpcHeader;
  meta_ : RpcMeta;
  brpc_origin_msg_ : option buffer
}.
#[global] Instance BrpcCodec_eta : Eta BrpcCodec := fun c =>
  {| decode_status := decode_status c; brpc_messageType_ := brpc_messageType_ c;
     brpc_header_ := brpc_header_ c; meta_ := meta_ c; brpc_origin_msg_ := brpc_origin_msg_ c |}.
Definition new_BrpcCodec : BrpcCodec :=
  {| decode_status := DecodeHeader; brpc_messageType_ := MessageType_Request;
     brpc_header_ := {| _body_len := 0; _meta_len := 0 |}; meta_ := RpcMeta_default;
     brpc_origin_msg_ := None |}.

Abbreviation S := (BrpcCodec * buffer)%type.

Definition decodeHeader : M S BrpcDecodeStatus :=
  '(c, b) ← gets id;
  if buf_length b <? HEADER_SIZE then mret WaitForData
  else
    match BrpcHeader_decode (brpc_header_ c, b) with
    | (o, (h, b)) =>
        _ ← modify (λ '(c, _), (c <| brpc_header_ := h |>, b));
        ok ← lift o;
        if negb ok then throw (EnvoyException "brpc header invalid") else mret DecodePayload
    end.

(** [HEADER_SIZE + get_body_len()] and [HEADER_SIZE + get_meta_len()] are sums of
    [uint32_t]. *)
Definition decodeBody : M S BrpcDecodeStatus :=
  '(c, b) ← gets id;
  let size := u32 (HEADER_SIZE + _body_len (brpc_header_ c)) in
  if buf_length b <? size then mret WaitForData
  else
    let linear := u32 (HEADER_SIZE + _meta_len (brpc_header_ c)) in
    _ ← ASSERT (linear <=? buf_length b) "linearize";
    raw ← lift (copyOut b HEADER_SIZE (_meta_len (brpc_header_ c)));
    '(msg, b) ← lift (move buf_new b size);
    _ ← modify (λ '(c, _), (c <| meta_ := RpcMeta_parse raw |> <| brpc_origin_msg_ := Some msg |>, b));
    mret DecodeDone.

Definition brpc_handleState : M S BrpcDecodeStatus :=
  c ← gets fst;
  match decode_status c with
  | DecodeHeader => decodeHeader
  | DecodePayload => decodeBody
  | _ => panic "not reached"
  end.

(** The loop of [BrpcCodec::decode]: [decode_status] is assigned before it is
    compared with [WaitForData].  A message takes two stages. *)
Fixpoint brpc_loop (fuel : nat) : M S DecodeStatus :=
  match fuel with
  | O => panic "out of fuel"
  | Datatypes.S fuel =>
      c ← gets fst;
      if decide (decode_status c = DecodeDone) then mret DecodeStatus_Done
      else
        st ← brpc_handleState;
        _ ← modify (λ '(c, b), (c <| decode_status := st |>, b));
        if decide (st = WaitForData) then mret DecodeStatus_WaitForData else brpc_loop fuel
  end.

Definition BrpcCodec_decode : M (BrpcCodec * buffer * MetadataImpl) DecodeStatus := λ '(c, b, m),
  let c := c <| brpc_messageType_ := message_type_ m |> in
  if negb (bool_decide (message_type_ m = MessageType_Request ∨ message_type_ m = MessageType_Response))
  then (Panic "messageType_", (c, b, m))
  else
    match brpc_loop 3 (c, b) with
    | (Return DecodeStatus_Done, (c, b)) =>
        match brpc_origin_msg_ c with
        | Some msg =>
            let '(dst, src) := buf_move_all (origin_message_ m) msg in
            (Return DecodeStatus_Done,
             (c <| brpc_origin_msg_ := Some src |> <| decode_status := DecodeHeader |>, b,
              m <| origin_message_ := dst |>))
        | None => (Panic "null pointer", (c, b, m))
        end
    | (Return st, (c, b)) => (Return st, (c, b, m))
    | (Throw e, (c, b)) => (Throw e, (c, b, m))
    | (Panic w, (c, b)) => (Panic w, (c, b, m))
    end.

(** [encode] and [onError] do nothing. *)
Definition BrpcCodec_encode (m : MetadataImpl) (mutation : Mutation) : M S unit := mret tt.
Definition BrpcCodec_onError (m : MetadataImpl) (error : Error) : M S unit := mret tt.

Definition brpc_codec : CodecOps E := {|
  codec_state := BrpcCodec;
  codec_init := new_BrpcCodec;
  codec_decode := BrpcCodec_decode;
  codec_encode := BrpcCodec_encode;
  codec_onError := BrpcCodec_onError
|}.
End brpc.

Section lemmas.
Context {E : Envoy} {L : EnvoyLaws E} {P : BrpcPb}.

(** The lengths in the header of a stream. *)
Definition lengths_at (bs : bytes) : BrpcHeader :=
  {| _body_len := be_at 4 4 bs; _meta_len := be_at 4 8 bs |}.

Lemma lengths_at_range bs : is_bytes bs → 12 ≤ zlen bs →
  0 ≤ _body_len (lengths_at bs) < 2 ^ 32 ∧ 0 ≤ _meta_len (lengths_at bs) < 2 ^ 32.
Proof. intros. split; apply (be_at_bound 4); try done; lia. Qed.

Lemma BrpcHeader_decode_spec h b :
  12 ≤ zlen (contents b) → BrpcHeader_decode (h, b) = (Return true, (lengths_at (contents b), b)).
Proof.
  intros Hlen. unfold BrpcHeader_decode, HEADER_SIZE. mstep. cbn [id]. mstep.
  rewrite buf_length_spec, (proj2 (Z.ltb_ge _ _)) by done. cbv zeta.
  rewrite run_bind, buf_peek_ok by lia. mstep. rewrite buf_peek_ok by lia. mstep. done.
Qed.

Lemma brpc_handleState_at c b :
  brpc_handleState (c, b) =
    match decode_status c with
    | DecodeHeader => decodeHeader (c, b)
    | DecodePayload => decodeBody (c, b)
    | _ => (Panic "not reached", (c, b))
    end.
Proof. unfold brpc_handleState. rewrite run_bind. cbn [gets fst]. cbv beta iota. by destruct (decode_status c). Qed.

(** One stage that goes on to the next. *)
Lemma brpc_loop_round c b fuel st c' b' :
  decode_status c ≠ DecodeDone → brpc_handleState (c, b) = (Return st, (c', b')) → st ≠ WaitForData →
  brpc_loop (S fuel) (c, b) = brpc_loop fuel (c' <| decode_status := st |>, b').
Proof.
  intros Hne Hh Hst. cbn [brpc_loop]. mstep. cbn [fst]. rewrite decide_False by done. mstep.
  rewrite Hh. mstep. by rewrite decide_False.
Qed.
(** One stage that has to wait. *)
Lemma brpc_loop_wait c b fuel c' b' :
  decode_status c ≠ DecodeDone → brpc_handleState (c, b) = (Return WaitForData, (c', b')) →
  brpc_loop (S fuel) (c, b) = (Return DecodeStatus_WaitForData, (c' <| decode_status := WaitForData |>, b')).
Proof.
  intros Hne Hh. cbn [brpc_loop]. mstep. cbn [fst]. rewrite decide_False by done. mstep.
  rewrite Hh. mstep. by rewrite decide_True.
Qed.

Lemma decodeHeader_spec c b :
  decodeHeader (c, b) =
    if zlen (contents b) <? 12 then (Return WaitForData, (c, b))
    else (Return DecodePayload, (c <| brpc_header_ := lengths_at (contents b) |>, b)).
Proof.
  unfold decodeHeader, HEADER_SIZE. mstep. cbn [id]. mstep. rewrite buf_length_spec.
  destruct (Z.ltb_spec (zlen (contents b)) 12); [done |]. by rewrite BrpcHeader_decode_spec.
Qed.

(** The number of bytes a message claims, as the [uint32_t] it is computed in. *)
Definition claimed (h : BrpcHeader) : Z := u32 (HEADER_SIZE + _body_len h).

Lemma decodeBody_wait c b :
  zlen (contents b) < claimed (brpc_header_ c) → decodeBody (c, b) = (Return WaitForData, (c, b)).
Proof.
  intros. unfold decodeBody. mstep. cbn [id]. mstep. rewrite buf_length_spec.
  by rewrite (proj2 (Z.ltb_lt _ _)).
Qed.

Lemma decodeBody_done c b :
  claimed (brpc_header_ c) ≤ zlen (contents b) → 0 ≤ _meta_len (brpc_header_ c) →
  HEADER_SIZE + _meta_len (brpc_header_ c) ≤ zlen (contents b) →
  HEADER_SIZE + _meta_len (brpc_header_ c) < 2 ^ 32 →
  ∃ c' b' msg, decodeBody (c, b) = (Return DecodeDone, (c', b')) ∧ brpc_origin_msg_ c' = Some msg ∧
    contents msg = ztake (claimed (brpc_header_ c)) (contents b) ∧
    contents b' = zdrop (claimed (brpc_header_ c)) (contents b).
Proof.
  intros Hc Hm Hml Hm32. unfold HEADER_SIZE in *.
  destruct (move_ok buf_new b (claimed (brpc_header_ c))) as (msg & b' & Hmv & H1 & H2).
  { split; [apply u32_range | done]. }
  unfold decodeBody. mstep. cbn [id]. mstep. rewrite buf_length_spec. fold (claimed (brpc_header_ c)).
  rewrite (proj2 (Z.ltb_ge _ _)) by done. mstep. unfold HEADER_SIZE. rewrite u32_small by lia.
  rewrite (proj2 (Z.leb_le _ _)) by done. mstep. rewrite copyOut_ok by lia. mstep. rewrite Hmv. mstep.
  eexists _, b', msg. split_and!; [done | done | by rewrite H1, buf_new_spec | done].
Qed.

(** A message whose stages all succeed. *)
Lemma BrpcCodec_decode_done c b t :
  decoder_type t → decode_status c = DecodeHeader → 12 ≤ zlen (contents b) →
  claimed (lengths_at (contents b)) ≤ zlen (contents b) →
  HEADER_SIZE + _meta_len (lengths_at (contents b)) ≤ zlen (contents b) →
  HEADER_SIZE + _meta_len (lengths_at (contents b)) < 2 ^ 32 →
  ∃ c' b' m', BrpcCodec_decode (c, b, fresh_metadata t) = (Return DecodeStatus_Done, (c', b', m')) ∧
    decode_status c' = DecodeHeader ∧ contents b' = zdrop (claimed (lengths_at (contents b))) (contents b) ∧
    view m' = (fresh_metadata t, ztake (claimed (lengths_at (contents b))) (contents b)).
Proof.
  intros Ht Hst Hlen Hcl Hml Hm32.
  destruct (lengths_at_range (contents b) (contents_bytes b) Hlen) as [_ Hmr].
  set (c0 := c <| brpc_messageType_ := t |>).
  set (c1 := c0 <| brpc_header_ := lengths_at (contents b) |> <| decode_status := DecodePayload |>).
  destruct (decodeBody_done c1 b Hcl (proj1 Hmr) Hml Hm32) as (c2 & b' & msg & Hb & Hmsg & H1 & H2).
  unfold BrpcCodec_decode. cbv zeta. change (message_type_ (fresh_metadata t)) with t. fold c0.
  rewrite bool_decide_true by exact Ht. cbn [negb].
  rewrite (brpc_loop_round c0 b 2 DecodePayload (c0 <| brpc_header_ := lengths_at (contents b) |>) b);
    [| change (decode_status c ≠ DecodeDone); by rewrite Hst | | done].
  2: { rewrite brpc_handleState_at. change (decode_status c0) with (decode_status c). rewrite Hst, decodeHeader_spec.
       by rewrite (proj2 (Z.ltb_ge _ _)). }
  fold c1. rewrite (brpc_loop_round c1 b 1 DecodeDone c2 b'); [| done | | done].
  2: { by rewrite brpc_handleState_at. }
  cbn [brpc_loop]. mstep. cbn [fst]. rewrite decide_True by done. mstep.
  change (brpc_origin_msg_ (c2 <| decode_status := DecodeDone |>)) with (brpc_origin_msg_ c2). rewrite Hmsg.
  pose proof (buf_move_all_dst (origin_message_ (fresh_metadata t)) msg) as Hdst.
  destruct (buf_move_all _ msg) as [dst src]. cbn [fst] in Hdst.
  eexists _, b', _. split_and!; [done | done | done |].
  unfold view. f_equal. unfold upd at 1. cbn [origin_message_ eta]. rewrite Hdst, H1. cbn.
  by rewrite buf_new_spec.
Qed.
End lemmas.

(** ** Properties *)

Section properties.
Context {E : Envoy} {P : BrpcPb}.

(** a bRPC message that is in the buffer as a whole is returned in one call,
    with exactly its [12 + body_len] bytes; the bytes after it stay in the
    buffer and the codec is ready for the next message. *)
Theorem brpc_decode_whole_message {L : EnvoyLaws E} (c : BrpcCodec) (b : buffer) (t : MessageType) (rest : bytes)
    (body : bytes) (meta_len : Z)
    (Ht : decoder_type t) (Hst : decode_status c = DecodeHeader)
    (Hb : contents b = be_split 4 MAGIC ++ be_split 4 (zlen body) ++ be_split 4 meta_len ++ body ++ rest)
    (Hlen : 12 + zlen body < 2 ^ 32) (Hmeta : 0 ≤ meta_len ≤ zlen body) :
  ∃ c' b' m', BrpcCodec_decode (c, b, fresh_metadata t) = (Return DecodeStatus_Done, (c', b', m')) ∧
    decode_status c' = DecodeHeader ∧ contents b' = rest ∧
    view m' = (fresh_metadata t, be_split 4 MAGIC ++ be_split 4 (zlen body) ++ be_split 4 meta_len ++ body).
Proof.
  pose proof (zlen_nonneg body). pose proof (zlen_nonneg rest).
  set (msg := be_split 4 MAGIC ++ be_split 4 (zlen body) ++ be_split 4 meta_len ++ body).
  assert (contents b = msg ++ rest) as Hb' by (rewrite Hb; unfold msg; by rewrite <- !(assoc_L (++))).
  assert (zlen msg = 12 + zlen body) as Hmsg by (unfold msg; rewrite !zlen_app, !zlen_be_split; lia).
  assert (∀ p v k, 0 ≤ v < 2 ^ 32 → be_at 4 (zlen p) (p ++ be_split 4 v ++ k) = v) as Hat.
  { intros p v k Hv. unfold be_at. rewrite zdrop_app_exact. rewrite <- (zlen_be_split 4 v) at 1.
    rewrite ztake_app_exact. by apply be_combine_split_small. }
  assert (lengths_at (contents b) = {| _body_len := zlen body; _meta_len := meta_len |}) as Hl.
  { unfold lengths_at. rewrite Hb. f_equal.
    - apply (Hat (be_split 4 MAGIC)). lia.
    - rewrite (assoc_L (++)). apply (Hat (be_split 4 MAGIC ++ be_split 4 (zlen body))). lia. }
  assert (claimed (lengths_at (contents b)) = zlen msg) as Hc.
  { rewrite Hl, Hmsg. unfold claimed, HEADER_SIZE. cbn [_body_len]. apply u32_small. lia. }
  assert (zlen (contents b) = 12 + zlen body + zlen rest) as Hlb by (rewrite Hb', zlen_app; lia).
  destruct (BrpcCodec_decode_done c b t Ht Hst) as (c' & b' & m' & Hd & Hst' & H1 & H2);
    rewrite ?Hc, ?Hl in *; unfold HEADER_SIZE; cbn [_meta_len]; try lia.
  exists c', b', m'. rewrite H1, H2, Hb', ztake_app_exact, zdrop_app_exact. done.
Qed.

(** C15: when a call of [decode] has to wait for more data, every later call
    stops the process, whatever arrives: [decode_status] keeps the value
    [WaitForData], for which there is no stage. *)
Theorem brpc_partial_message_panics {L : EnvoyLaws E} (b b2 : buffer) (t : MessageType)
    (Ht : decoder_type t) (Hpart : zlen (contents b) < 12 ∨ zlen (contents b) < claimed (lengths_at (contents b))) :
  ∃ c' m', BrpcCodec_decode (new_BrpcCodec, b, fresh_metadata t) =
             (Return DecodeStatus_WaitForData, (c', b, m')) ∧
    (BrpcCodec_decode (c', b2, fresh_metadata t)).1 = Panic "not reached".
Proof.
  set (c0 := new_BrpcCodec <| brpc_messageType_ := t |>).
  assert (∃ c1, brpc_loop 3 (c0, b) = (Return DecodeStatus_WaitForData, (c1 <| decode_status := WaitForData |>, b))) as [c1 Hl].
  { destruct (Z.ltb_spec (zlen (contents b)) 12) as [Hlt | Hge].
    - exists c0. apply brpc_loop_wait; [done |]. rewrite brpc_handleState_at. cbn [decode_status c0].
      change (decode_status c0) with DecodeHeader. cbv iota. rewrite decodeHeader_spec.
      by rewrite (proj2 (Z.ltb_lt _ _)).
    - destruct Hpart as [? | Hpart]; [lia |].
      set (c1 := c0 <| brpc_header_ := lengths_at (contents b) |>). exists (c1 <| decode_status := DecodePayload |>).
      rewrite (brpc_loop_round c0 b 2 DecodePayload c1 b); [| done | | done].
      + apply brpc_loop_wait; [done |]. rewrite brpc_handleState_at. by apply decodeBody_wait.
      + rewrite brpc_handleState_at. change (decode_status c0) with DecodeHeader. cbv iota.
        rewrite decodeHeader_spec. by rewrite (proj2 (Z.ltb_ge _ _)). }
  eexists _, _. split.
  - unfold BrpcCodec_decode. cbv zeta. change (message_type_ (fresh_metadata t)) with t. fold c0.
    rewrite bool_decide_true by exact Ht. cbn [negb]. by rewrite Hl.
  - unfold BrpcCodec_decode. cbv zeta. change (message_type_ (fresh_metadata t)) with t.
    rewrite bool_decide_true by exact Ht. done.
Qed.

(** [12 + body_len] is computed in 32 bits: a message that claims
    [2^32 - 12] body bytes is accepted as a message of no bytes, and nothing
    is taken from the buffer. *)
Theorem brpc_length_wraps {L : EnvoyLaws E} (b : buffer) (t : MessageType)
    (Ht : decoder_type t) (Hlen : 12 ≤ zlen (contents b))
    (Hbody : _body_len (lengths_at (contents b)) = 2 ^ 32 - 12)
    (Hmeta : _meta_len (lengths_at (contents b)) = 0) :
  ∃ c' b' m', BrpcCodec_decode (new_BrpcCodec, b, fresh_metadata t) = (Return DecodeStatus_Done, (c', b', m')) ∧
    contents b' = contents b ∧ contents (origin_message_ m') = [].
Proof.
  assert (claimed (lengths_at (contents b)) = 0) as Hc by (unfold claimed; by rewrite Hbody).
  destruct (BrpcCodec_decode_done new_BrpcCodec b t Ht eq_refl Hlen) as (c' & b' & m' & Hd & _ & H1 & H2);
    rewrite ?Hc, ?Hmeta in *; unfold HEADER_SIZE; try lia.
  exists c', b', m'. split_and!; [done | by rewrite H1 |]. change ((view m').2 = []). by rewrite H2.
Qed.
End properties.

(** ** Witnesses *)

Section witnesses.
Definition brpc_E : Envoy := list_envoy Empty_set.
Definition brpc_L : EnvoyLaws brpc_E := list_envoy_laws Empty_set.
Definition brpc_P : BrpcPb := {| RpcMeta := bytes; RpcMeta_default := []; RpcMeta_parse := id |}.
Existing Instances brpc_L brpc_P.
Definition brpc_msg (len : Z) (body : bytes) : bytes := be_split 4 MAGIC ++ be_split 4 len ++ be_split 4 0 ++ body.

Lemma brpc_decode_whole_message_witness :
  ∃ c' b' m', BrpcCodec_decode (E := brpc_E) (new_BrpcCodec, brpc_msg 2 [5; 6; 7], fresh_metadata MessageType_Request) =
      (Return DecodeStatus_Done, (c', b', m')) ∧
    decode_status c' = DecodeHeader ∧ contents b' = [7] ∧
    view m' = (fresh_metadata MessageType_Request, brpc_msg 2 [5; 6]).
Proof.
  apply (brpc_decode_whole_message (E := brpc_E) new_BrpcCodec (brpc_msg 2 [5; 6; 7]) MessageType_Request [7] [5; 6] 0);
    [by left | reflexivity | vm_compute; reflexivity | vm_compute; reflexivity | vm_compute; split; discriminate].
Defined.

Lemma brpc_partial_message_panics_witness :
  ∃ c' m', BrpcCodec_decode (E := brpc_E) (new_BrpcCodec, [80; 82], fresh_metadata MessageType_Request) =
      (Return DecodeStatus_WaitForData, (c', [80; 82], m')) ∧
    (BrpcCodec_decode (E := brpc_E) (c', brpc_msg 0 [], fresh_metadata MessageType_Request)).1 = Panic "not reached".
Proof.
  apply (brpc_partial_message_panics (E := brpc_E) [80; 82] (brpc_msg 0 []) MessageType_Request);
    [by left | left; vm_compute; reflexivity].
Defined.

Lemma brpc_length_wraps_witness :
  ∃ c' b' m', BrpcCodec_decode (E := brpc_E) (new_BrpcCodec, brpc_msg (2 ^ 32 - 12) [], fresh_metadata MessageType_Request) =
      (Return DecodeStatus_Done, (c', b', m')) ∧
    contents b' = brpc_msg (2 ^ 32 - 12) [] ∧ contents (origin_message_ m') = [].
Proof.
  apply (brpc_length_wraps (E := brpc_E) (brpc_msg (2 ^ 32 - 12) []) MessageType_Request);
    [by left | vm_compute; discriminate | vm_compute; reflexivity | vm_compute; reflexivity].
Defined.
End witnesses.
