(* ===== verification/Dubbo.v ===== *)
(** * The Dubbo codec

    Model of [application_protocols/dubbo]: the Dubbo header and the mutation of
    attachments ([dubbo_protocol_impl.cc]), the Hessian2 body
    ([dubbo_hessian2_serializer_impl.cc], [hessian_utils.cc]), the objects a
    message is decoded to ([message.h], [message_impl.h], [message_impl.cc],
    [metadata.h]) and the codec with its state machine ([dubbo_codec.h],
    [dubbo_codec.cc]).

    Hessian2 itself is a library: [Hessian2::Decoder] and [Hessian2::Encoder]
    are the parameter [Hessian2].  A decoder has a state of its own (an offset
    and the tables of back references) and reads the bytes of a buffer it only
    refers to.

    The [RpcInvocation] of a message is decoded lazily from the buffer of the
    context.  The two callbacks share one decoder, [delayed_]; the buffer they
    read is an argument of the operations that may call them, and [None] once
    the context is gone. *)

From Stdlib Require Import Ascii.
From S2P Require Import Prelude Envoy Metadata Codec.

(** ** Enumerations of message.h *)

Definition ProtocolType_Dubbo : Z := 1.
Definition SerializationType_Hessian2 : Z := 2.

Inductive DubboMessageType : Type :=
| DubboResponse
| DubboRequest
| DubboOneway
| DubboException
| DubboHeartbeatRequest
| DubboHeartbeatResponse.
#[global] Instance DubboMessageType_eq_dec : EqDecision DubboMessageType.
Proof. solve_decision. Defined.

(** [enum class ResponseStatus : uint8_t]; a status read from the wire may be any
    byte. *)
Definition Status_Ok : Z := 20.
Definition Status_ClientTimeout : Z := 30.
Definition Status_ServerTimeout : Z := 31.
Definition Status_BadRequest : Z := 40.
Definition Status_BadResponse : Z := 50.
Definition Status_ServiceNotFound : Z := 60.
Definition Status_ServiceError : Z := 70.
Definition Status_ServerError : Z := 80.
Definition Status_ClientError : Z := 90.
Definition Status_ServerThreadpoolExhaustedError : Z := 100.

Inductive RpcResponseType : Type :=
| ResponseWithException
| ResponseWithValue
| ResponseWithNullValue
| ResponseWithExceptionWithAttachments
| ResponseValueWithAttachments
| ResponseNullValueWithAttachments.

(** The enumerators by value, [static_cast<RpcResponseType>] of a byte. *)
Definition RpcResponseType_of (z : Z) : option RpcResponseType :=
  match z with
  | 0 => Some ResponseWithException
  | 1 => Some ResponseWithValue
  | 2 => Some ResponseWithNullValue
  | 3 => Some ResponseWithExceptionWithAttachments
  | 4 => Some ResponseValueWithAttachments
  | 5 => Some ResponseNullValueWithAttachments
  | _ => None
  end.

(** ** The Hessian2 library

    A decoding operation gives [None] for the null pointer.  [as_untyped_map] is
    [type() == UntypedMap] with the cast to it.  Keys of a map are objects; the
    sources look them up by string. *)

Class Hessian2 := {
  HDecoder : Type;
  hd_new : Z → HDecoder;
  hd_offset : HDecoder → Z;
  hd_string : bytes → HDecoder → option string * HDecoder;
  hd_int32 : bytes → HDecoder → option Z * HDecoder;
  Object : Type;
  hd_object : bytes → HDecoder → option Object * HDecoder;
  toString : Object → option string;
  UntypedMap : Type;
  as_untyped_map : Object → option UntypedMap;
  map_new : UntypedMap;
  map_entries : UntypedMap → list (Object * Object);
  map_emplace : string → string → UntypedMap → UntypedMap;
  map_erase : string → UntypedMap → UntypedMap;
  map_find : string → UntypedMap → option Object;
  he_map : UntypedMap → bytes
}.

(** ** HessianUtils *)

(** The loop of [getParametersNumber]: [next] is set inside an object type. *)
Fixpoint getParametersNumber_loop (s : string) (count : Z) (next : bool) : Z :=
  match s with
  | EmptyString => count
  | String ch s =>
      if (ch =? "[")%char then getParametersNumber_loop s count next
      else if next && negb (ch =? ";")%char then getParametersNumber_loop s count next
      else
        match ch with
        | "V" | "Z" | "B" | "C" | "D" | "F" | "I" | "J" | "S" =>
            getParametersNumber_loop s (u32 (count + 1)) next
        | "L" => getParametersNumber_loop s (u32 (count + 1)) true
        | ";" => getParametersNumber_loop s count false
        | _ => getParametersNumber_loop s count next
        end%char
  end.
Definition getParametersNumber (parameters_type : string) : Z :=
  if bool_decide (parameters_type = "") then 0 else getParametersNumber_loop parameters_type 0 false.

Section model.
Context {E : Envoy} {HL : Hessian2}.

(** ** Attachment *)

Record Attachment : Type := {
  attachment_updated_ : bool;
  attachment_map_ : UntypedMap;
  attachment_offset_ : Z;
  attachment_headers_ : headers
}.
#[global] Instance Attachment_eta : Eta Attachment := fun a =>
  {| attachment_updated_ := attachment_updated_ a; attachment_map_ := attachment_map_ a;
     attachment_offset_ := attachment_offset_ a; attachment_headers_ := attachment_headers_ a |}.

(** The pairs of strings among the entries of a map, the others are skipped. *)
Fixpoint string_entries (l : list (Object * Object)) : list (string * string) :=
  match l with
  | [] => []
  | (k, v) :: l =>
      match toString k, toString v with
      | Some k, Some v => (k, v) :: string_entries l
      | _, _ => string_entries l
      end
  end.

Definition new_Attachment (value : UntypedMap) (offset : Z) : Attachment :=
  {| attachment_updated_ := false; attachment_map_ := value; attachment_offset_ := offset;
     attachment_headers_ :=
       foldl (λ h kv, hdr_addCopy h (LowerCaseString kv.1) kv.2) hdr_create
         (string_entries (map_entries value)) |}.

Definition Attachment_insert (key value : string) (a : Attachment) : Attachment :=
  let a := a <| attachment_updated_ := true |> in
  let a := a <| attachment_map_ ::= map_emplace key value |> in
  let lowcase_key := LowerCaseString key in
  let a := a <| attachment_headers_ ::= λ h, hdr_remove h lowcase_key |> in
  a <| attachment_headers_ ::= λ h, hdr_addCopy h lowcase_key value |>.

Definition Attachment_remove (key : string) (a : Attachment) : Attachment :=
  let a := a <| attachment_updated_ := true |> in
  let a := a <| attachment_map_ ::= map_erase key |> in
  a <| attachment_headers_ ::= λ h, hdr_remove h (LowerCaseString key) |>.

Definition Attachment_lookup (key : string) (a : Attachment) : option string :=
  match map_find key (attachment_map_ a) with
  | Some o => toString o
  | None => None
  end.

(** ** RpcInvocationImpl and RpcResultImpl *)

Record RpcInvocationImpl : Type := {
  service_name_ : string;
  method_name_ : string;
  service_version_ : option string;
  group_ : option string;
  delayed_ : HDecoder;
  parameters_ : option (list Object);
  attachment_ : option Attachment
}.
#[global] Instance RpcInvocationImpl_eta : Eta RpcInvocationImpl := fun i =>
  {| service_name_ := service_name_ i; method_name_ := method_name_ i;
     service_version_ := service_version_ i; group_ := group_ i; delayed_ := delayed_ i;
     parameters_ := parameters_ i; attachment_ := attachment_ i |}.

Record RpcResultImpl : Type := {
  result_attachment_ : option Attachment;
  has_exception_ : bool;
  bodyrsp : string
}.
#[global] Instance RpcResultImpl_eta : Eta RpcResultImpl := fun r =>
  {| result_attachment_ := result_attachment_ r; has_exception_ := has_exception_ r; bodyrsp := bodyrsp r |}.

(** [delayed_decoder->decode<T>()] on the buffer of the context. *)
Definition delayed_decode {A} (dec : bytes → HDecoder → option A * HDecoder) (origin : option bytes) :
    M RpcInvocationImpl (option A) := λ i,
  match origin with
  | Some bs => let '(v, d) := dec bs (delayed_ i) in (Return v, i <| delayed_ := d |>)
  | None => (Panic "the buffer of the context is gone", i)
  end.

(** The callback of [setParametersLazyCallback]. *)
Fixpoint decode_parameters (number : nat) (params : list Object) (origin : option bytes) :
    M RpcInvocationImpl (list Object) :=
  match number with
  | O => mret params
  | S number =>
      result ← delayed_decode hd_object origin;
      match result with
      | Some o => decode_parameters number (params ++ [o]) origin
      | None => throw (EnvoyException "Cannot parse RpcInvocation parameter from buffer")
      end
  end.
Definition parameters_lazy_callback (origin : option bytes) : M RpcInvocationImpl (list Object) :=
  types ← delayed_decode hd_string origin;
  match types with
  | Some types =>
      if bool_decide (types = "") then mret []
      else decode_parameters (Z.to_nat (getParametersNumber types)) [] origin
  | None => mret []
  end.

(** The callback of [setAttachmentLazyCallback]. *)
Definition attachment_lazy_callback (origin : option bytes) : M RpcInvocationImpl Attachment :=
  offset ← gets (λ i, hd_offset (delayed_ i));
  result ← delayed_decode hd_object origin;
  mret (new_Attachment (default map_new (result ≫= as_untyped_map)) offset).

Definition assignParametersIfNeed (origin : option bytes) : M RpcInvocationImpl unit :=
  i ← gets id;
  match parameters_ i with
  | Some _ => mret tt
  | None => ps ← parameters_lazy_callback origin; modify (λ i, i <| parameters_ := Some ps |>)
  end.

Definition assignAttachmentIfNeed (origin : option bytes) : M RpcInvocationImpl unit :=
  i ← gets id;
  match attachment_ i with
  | Some _ => mret tt
  | None =>
      _ ← assignParametersIfNeed origin;
      a ← attachment_lazy_callback origin;
      _ ← modify (λ i, i <| attachment_ := Some a |>);
      match Attachment_lookup "group" a with
      | Some g => modify (λ i, i <| group_ := Some g |>)
      | None => mret tt
      end
  end.

(** [attachment()]; a caller that changes it gives the change. *)
Definition attachment (origin : option bytes) : M RpcInvocationImpl Attachment :=
  _ ← assignAttachmentIfNeed origin;
  i ← gets id;
  lift (match attachment_ i with Some a => Return a | None => Panic "null pointer" end).
Definition update_attachment (f : Attachment → Attachment) (origin : option bytes) : M RpcInvocationImpl unit :=
  a ← attachment origin;
  modify (λ i, i <| attachment_ := Some (f a) |>).

(** ** Context and MessageMetadata *)

Record ContextImpl : Type := {
  ctx_header_size_ : Z;
  ctx_body_size_ : Z;
  is_heartbeat_ : bool;
  ctx_origin_message_ : buffer
}.
#[global] Instance ContextImpl_eta : Eta ContextImpl := fun c =>
  {| ctx_header_size_ := ctx_header_size_ c; ctx_body_size_ := ctx_body_size_ c;
     is_heartbeat_ := is_heartbeat_ c; ctx_origin_message_ := ctx_origin_message_ c |}.
Definition new_ContextImpl : ContextImpl :=
  {| ctx_header_size_ := 0; ctx_body_size_ := 0; is_heartbeat_ := false; ctx_origin_message_ := buf_new |}.

Record MessageMetadata : Type := {
  mm_is_two_way_ : bool;
  mm_message_type_ : DubboMessageType;
  mm_proto_type_ : Z;
  mm_response_status_ : option Z;
  mm_timeout_ : option Z;
  mm_invocation_info_ : option RpcInvocationImpl;
  mm_result_info_ : option RpcResultImpl;
  mm_serialization_type_ : Z;
  mm_protocol_version_ : Z;
  mm_request_id_ : Z
}.
#[global] Instance MessageMetadata_eta : Eta MessageMetadata := fun m =>
  {| mm_is_two_way_ := mm_is_two_way_ m; mm_message_type_ := mm_message_type_ m;
     mm_proto_type_ := mm_proto_type_ m; mm_response_status_ := mm_response_status_ m;
     mm_timeout_ := mm_timeout_ m; mm_invocation_info_ := mm_invocation_info_ m;
     mm_result_info_ := mm_result_info_ m; mm_serialization_type_ := mm_serialization_type_ m;
     mm_protocol_version_ := mm_protocol_version_ m; mm_request_id_ := mm_request_id_ m |}.
Definition new_MessageMetadata : MessageMetadata :=
  {| mm_is_two_way_ := false; mm_message_type_ := DubboRequest; mm_proto_type_ := ProtocolType_Dubbo;
     mm_response_status_ := None; mm_timeout_ := None; mm_invocation_info_ := None;
     mm_result_info_ := None; mm_serialization_type_ := SerializationType_Hessian2;
     mm_protocol_version_ := 1; mm_request_id_ := 0 |}.

(** ** DubboProtocolImpl: decoding *)

Definition MessageSize : Z := 16.
Definition MaxBodySize : Z := 16 * 1024 * 1024.
Definition MagicNumber : Z := 0xdabb.
Definition MessageTypeMask : Z := 0x80.
Definition EventMask : Z := 0x20.
Definition TwoWayMask : Z := 0x40.
Definition SerializationTypeMask : Z := 0x1f.
Definition FlagOffset : Z := 2.
Definition StatusOffset : Z := 3.
Definition RequestIDOffset : Z := 4.
Definition BodySizeOffset : Z := 12.

Definition isValidSerializationType (type : Z) : bool := type =? SerializationType_Hessian2.

Definition isValidResponseStatus (status : Z) : bool :=
  (status =? Status_Ok) || (status =? Status_ClientTimeout) || (status =? Status_ServerTimeout)
  || (status =? Status_BadRequest) || (status =? Status_BadResponse) || (status =? Status_ServiceNotFound)
  || (status =? Status_ServiceError) || (status =? Status_ClientError)
  || (status =? Status_ServerThreadpoolExhaustedError).

(** [(flag & mask) == mask] *)
Definition has_flag (flag mask : Z) : bool := Z.land flag mask =? mask.

Definition parseRequestInfoFromBuffer (data : buffer) : M MessageMetadata unit :=
  _ ← ASSERT (MessageSize <=? buf_length data) "data.length() >= MessageSize";
  flag ← lift (buf_peek 1 FlagOffset data);
  let is_two_way := has_flag flag TwoWayMask in
  let type := Z.land flag SerializationTypeMask in
  if negb (isValidSerializationType type) then
    throw (EnvoyException ("invalid dubbo message serialization type " +:+ pretty type))
  else
    metadata ← gets id;
    _ ← (if negb is_two_way && negb (bool_decide (mm_message_type_ metadata = DubboHeartbeatRequest))
         then modify (λ m, m <| mm_message_type_ := DubboOneway |>) else mret tt);
    modify (λ m, m <| mm_serialization_type_ := type |>).

Definition parseResponseInfoFromBuffer (buffer : buffer) : M MessageMetadata unit :=
  _ ← ASSERT (MessageSize <=? buf_length buffer) "buffer.length() >= MessageSize";
  status ← lift (buf_peek 1 StatusOffset buffer);
  if negb (isValidResponseStatus status) then
    throw (EnvoyException ("invalid dubbo message response status " +:+ pretty status))
  else modify (λ m, m <| mm_response_status_ := Some status |>).

(** [None] is the pair [(nullptr, false)].  The metadata pointer is never null. *)
Definition decodeHeader (buffer : buffer) : M MessageMetadata (option ContextImpl) :=
  if buf_length buffer <? MessageSize then mret None
  else
    magic_number ← lift (buf_peek 2 0 buffer);
    if negb (magic_number =? MagicNumber) then
      throw (EnvoyException ("invalid dubbo message magic number " +:+ pretty magic_number))
    else
      flag ← lift (buf_peek 1 FlagOffset buffer);
      let is_request := has_flag flag MessageTypeMask in
      let is_event := has_flag flag EventMask in
      request_id ← lift (to_i64 <$> buf_peek 8 RequestIDOffset buffer);
      body_size ← lift (to_i32 <$> buf_peek 4 BodySizeOffset buffer);
      if (MaxBodySize <? body_size) || (body_size <? 0) then
        throw (EnvoyException ("invalid dubbo message size " +:+ pretty body_size))
      else
        _ ← modify (λ m, m <| mm_request_id_ := request_id |>);
        _ ← (if (is_request : bool) then
               _ ← modify (λ m, m <| mm_message_type_ :=
                                  if (is_event : bool) then DubboHeartbeatRequest else DubboRequest |>);
               parseRequestInfoFromBuffer buffer
             else
               _ ← modify (λ m, m <| mm_message_type_ :=
                                  if (is_event : bool) then DubboHeartbeatResponse else DubboResponse |>);
               parseResponseInfoFromBuffer buffer);
        mret (Some (new_ContextImpl <| ctx_header_size_ := MessageSize |>
                                    <| ctx_body_size_ := body_size |>
                                    <| is_heartbeat_ := is_event |>)).

(** ** DubboHessian2SerializerImpl *)

(** The reader of [buffer] is not limited to the body of the message. *)
Definition deserializeRpcInvocation (buffer : buffer) (context : ContextImpl) : outcome RpcInvocationImpl :=
  let bs := contents buffer in
  let decoder := hd_new 0 in
  let '(dubbo_version, decoder) := hd_string bs decoder in
  let '(service_name, decoder) := hd_string bs decoder in
  let '(service_version, decoder) := hd_string bs decoder in
  let '(method_name, decoder) := hd_string bs decoder in
  if ctx_body_size_ context <? hd_offset decoder then
    Throw (EnvoyException ("RpcInvocation size(" +:+ pretty (hd_offset decoder) +:+
                           ") larger than body size(" +:+ pretty (ctx_body_size_ context) +:+ ")"))
  else
    match dubbo_version, service_name, service_version, method_name with
    | Some _, Some service_name, Some service_version, Some method_name =>
        let parsed_size := ctx_header_size_ context + hd_offset decoder in
        Return {| service_name_ := service_name; method_name_ := method_name;
                  service_version_ := Some service_version; group_ := None;
                  delayed_ := hd_new parsed_size; parameters_ := None; attachment_ := None |}
    | _, _, _, _ => Throw (EnvoyException "RpcInvocation has no request metadata")
    end.

(** The switch of [deserializeRpcResult]: [has_value_or_attachment],
    [hasException], [has_value] and [has_attachment]. *)
Definition response_parts (type : RpcResponseType) : bool * bool * bool * bool :=
  match type with
  | ResponseWithException => (false, true, false, false)
  | ResponseWithExceptionWithAttachments => (false, true, false, true)
  | ResponseWithNullValue => (false, false, false, true)
  | ResponseNullValueWithAttachments => (true, false, false, true)
  | ResponseWithValue => (true, false, true, false)
  | ResponseValueWithAttachments => (true, false, true, true)
  end.

(** The type is an [int32_t] cast to [uint8_t]. *)
Definition deserializeRpcResult (buffer : buffer) (context : ContextImpl) : outcome RpcResultImpl :=
  _ ← assert_that (ctx_body_size_ context <=? buf_length buffer) "buffer.length() >= bodySize()";
  let bs := contents buffer in
  let '(type_value, decoder) := hd_int32 bs (hd_new 0) in
  match type_value with
  | None => Throw (EnvoyException "Cannot parse RpcResult type from buffer")
  | Some type_value =>
      match RpcResponseType_of (u8 type_value) with
      | None => Throw (EnvoyException ("not supported return type " +:+ pretty (u8 type_value)))
      | Some type =>
          let '(has_value_or_attachment, exception, has_value, has_attachment) := response_parts type in
          let total_size := hd_offset decoder in
          '(body, decoder) ←
            (if (has_value : bool) then
               let '(responesebody, decoder) := hd_string bs decoder in
               match responesebody with
               | Some s => Return (s, decoder)
               | None => Panic "null pointer"
               end
             else Return ("", decoder));
          let attachment :=
            if (has_attachment : bool) then
              let offset := ctx_header_size_ context + hd_offset decoder in
              let '(attachResult, decoder) := hd_object bs decoder in
              Some (new_Attachment (default map_new (attachResult ≫= as_untyped_map)) offset)
            else None in
          if ctx_body_size_ context <? total_size then
            Throw (EnvoyException ("RpcResult size(" +:+ pretty total_size +:+
                                   ") large than body size(" +:+ pretty (ctx_body_size_ context) +:+ ")"))
          else if negb has_value_or_attachment && negb (ctx_body_size_ context =? total_size) then
            Throw (EnvoyException ("RpcResult is no value, but the rest of the body size(" +:+
                                   pretty (ctx_body_size_ context - total_size) +:+ ") not equal 0"))
          else Return {| result_attachment_ := attachment; has_exception_ := exception; bodyrsp := body |}
      end
  end.

Definition decodeData (buffer : buffer) (context : ContextImpl) : M MessageMetadata bool :=
  if buf_length buffer <? ctx_body_size_ context then mret false
  else
    metadata ← gets id;
    match mm_message_type_ metadata with
    | DubboOneway | DubboRequest =>
        invo ← lift (deserializeRpcInvocation buffer context);
        _ ← modify (λ m, m <| mm_invocation_info_ := Some invo |>);
        mret true
    | DubboResponse =>
        if negb (bool_decide (mm_response_status_ metadata = Some Status_Ok)) then
          _ ← modify (λ m, m <| mm_message_type_ := DubboException |>);
          mret true
        else
          result ← lift (deserializeRpcResult buffer context);
          _ ← modify (λ m, m <| mm_result_info_ := Some result |>);
          _ ← (if has_exception_ result then modify (λ m, m <| mm_message_type_ := DubboException |>)
               else mret tt);
          mret true
    | _ => panic "not handled"
    end.

(** ** DubboProtocolImpl: encoding *)

(** The body of [headerMutation] and of [rspheaderMutation]: the message up to
    the attachment is kept, the attachment is serialized again and the body size
    is rewritten. *)
Definition replace_attachment (ctx : ContextImpl) (a : Attachment) : M buffer unit :=
  buffer ← gets id;
  let '(origin_buffer, buffer) := buf_move buf_new buffer (buf_length buffer) in
  let body_length_size := 4 in
  let attachment_offset := attachment_offset_ a in
  let request_header_size := ctx_header_size_ ctx in
  _ ← ASSERT (attachment_offset <=? buf_length origin_buffer) "attachment_offset <= origin_buffer.length()";
  '(buffer, origin_buffer) ← lift (move buffer origin_buffer (u64 (request_header_size - body_length_size)));
  origin_buffer ← lift (drain origin_buffer body_length_size);
  let attachment_buffer := buf_add buf_new (he_map (attachment_map_ a)) in
  let new_body_size := u64 (attachment_offset - request_header_size + buf_length attachment_buffer) in
  let buffer := buf_writeBEInt 4 buffer new_body_size in
  '(buffer, origin_buffer) ← lift (move buffer origin_buffer (u64 (attachment_offset - request_header_size)));
  let '(buffer, attachment_buffer) := buf_move_all buffer attachment_buffer in
  modify (λ _, buffer).

Definition rspheaderMutation (metadata : MessageMetadata) (ctx : ContextImpl) : M buffer unit :=
  match mm_result_info_ metadata with
  | Some result =>
      match result_attachment_ result with
      | Some a => replace_attachment ctx a
      | None => mret tt
      end
  | None => mret tt
  end.

Definition headerMutation (metadata : MessageMetadata) (ctx : ContextImpl) : M buffer unit :=
  match mm_invocation_info_ metadata with
  | Some invo =>
      match attachment_ invo with
      | Some a => if attachment_updated_ a then replace_attachment ctx a else mret tt
      | None => mret tt
      end
  | None => mret tt
  end.

Definition Protocol_encode (metadata : MessageMetadata) (ctx : ContextImpl) (content : string) : M buffer bool :=
  match mm_message_type_ metadata with
  | DubboHeartbeatResponse =>
      match mm_response_status_ metadata with
      | None => panic "metadata.hasResponseStatus()"
      | Some status =>
          _ ← ASSERT (bool_decide (content = "")) "content.empty()";
          buffer ← gets id;
          buffer ← lift (drain buffer (buf_length buffer));
          let buffer := buf_writeBEInt 2 buffer MagicNumber in
          let flag := u8 (mm_serialization_type_ metadata) in
          let flag := Z.lxor flag EventMask in
          let buffer := buf_writeByte buffer flag in
          let buffer := buf_writeByte buffer status in
          let buffer := buf_writeBEInt 8 buffer (mm_request_id_ metadata) in
          let buffer := buf_writeBEInt 4 buffer 1 in
          let buffer := buf_writeByte buffer 78 in
          _ ← modify (λ _, buffer);
          mret true
      end
  | DubboResponse =>
      _ ← ASSERT (bool_decide (is_Some (mm_response_status_ metadata))) "metadata.hasResponseStatus()";
      _ ← (if bool_decide (content = "addheader") then rspheaderMutation metadata ctx else mret tt);
      mret true
  | DubboRequest => _ ← headerMutation metadata ctx; mret true
  | _ => panic "not implemented"
  end.

(** ** DubboCodec: metadata *)

(** The types of the values the codec stores in a [std::any].  A shared pointer
    stands for the object it points to, which only the codecs reach. *)
Inductive dubbo_any : Type :=
| AnyInvocation (p : option RpcInvocationImpl)
| AnyResult (p : option RpcResultImpl)
| AnyProtocolType (z : Z)
| AnyUint8 (z : Z)
| AnyMessageType (t : DubboMessageType)
| AnyOptUint32 (z : option Z)
| AnySerializationType (z : Z)
| AnyResponseStatus (z : Z).

Class DubboAny := {
  dubbo_inj : dubbo_any → any_other;
  dubbo_proj : any_other → option dubbo_any;
  dubbo_proj_inj x : dubbo_proj (dubbo_inj x) = Some x
}.
Context {DA : DubboAny}.

Definition put_dubbo (key : string) (x : dubbo_any) (m : MetadataImpl) : MetadataImpl :=
  put key (AnyOther (dubbo_inj x)) m.

(** [std::any_cast<T>(a)]; [sel] selects the values of type [T]. *)
Definition any_cast {A} (sel : dubbo_any → option A) (a : any) : outcome A :=
  match a with
  | AnyOther x => match dubbo_proj x ≫= sel with Some v => Return v | None => Throw BadAnyCast end
  | _ => Throw BadAnyCast
  end.

Abbreviation Msgs := (MessageMetadata * MetadataImpl)%type.
Definition on_metadata (f : MetadataImpl → MetadataImpl) : M Msgs unit := modify (λ '(mm, m), (mm, f m)).
Definition on_invocation {A} (op : M RpcInvocationImpl A) : M Msgs A := λ '(mm, m),
  match mm_invocation_info_ mm with
  | Some i => let '(o, i) := op i in (o, (mm <| mm_invocation_info_ := Some i |>, m))
  | None => (Panic "null pointer", (mm, m))
  end.
Definition put_strings (l : list (string * string)) (m : MetadataImpl) : MetadataImpl :=
  foldl (λ m kv, putString kv.1 kv.2 m) m l.

Definition toMessageType (t : DubboMessageType) : MessageType :=
  match t with
  | DubboRequest => MessageType_Request
  | DubboResponse => MessageType_Response
  | DubboOneway => MessageType_Oneway
  | DubboException => MessageType_Error
  | DubboHeartbeatRequest | DubboHeartbeatResponse => MessageType_Heartbeat
  end.

(** [toMetadata(msgMetadata, metadata)] *)
Definition msg_toMetadata (origin : option bytes) : M Msgs unit :=
  mm ← gets fst;
  _ ← match mm_invocation_info_ mm with
      | Some invo =>
          _ ← on_metadata (putString "interface" (service_name_ invo));
          _ ← on_metadata (putString "method" (method_name_ invo));
          _ ← on_metadata (setOperationName (service_name_ invo +:+ "/" +:+ method_name_ invo));
          a ← on_invocation (attachment origin);
          on_metadata (put_strings (string_entries (map_entries (attachment_map_ a))))
      | None => mret tt
      end;
  mm ← gets fst;
  _ ← on_metadata (put_dubbo "InvocationInfo" (AnyInvocation (mm_invocation_info_ mm)));
  _ ← on_metadata (put_dubbo "ProtocolType" (AnyProtocolType (mm_proto_type_ mm)));
  _ ← on_metadata (put_dubbo "ProtocolVersion" (AnyUint8 (mm_protocol_version_ mm)));
  _ ← on_metadata (put_dubbo "MessageType" (AnyMessageType (mm_message_type_ mm)));
  _ ← on_metadata (setRequestId (mm_request_id_ mm));
  _ ← match mm_timeout_ mm with
      | Some _ => on_metadata (put_dubbo "Timeout" (AnyOptUint32 (mm_timeout_ mm)))
      | None => mret tt
      end;
  _ ← on_metadata (put "TwoWay" (AnyBool (mm_is_two_way_ mm)));
  _ ← on_metadata (put_dubbo "SerializationType" (AnySerializationType (mm_serialization_type_ mm)));
  _ ← match mm_response_status_ mm with
      | Some status => on_metadata (put_dubbo "ResponseStatus" (AnyResponseStatus status))
      | None => mret tt
      end;
  _ ← match mm_result_info_ mm with
      | Some result =>
          match result_attachment_ result with
          | Some a =>
              _ ← on_metadata (put_strings (string_entries (map_entries (attachment_map_ a))));
              on_metadata (put_dubbo "RpcResultInfo" (AnyResult (Some result)))
          | None => panic "null pointer"
          end
      | None => mret tt
      end;
  _ ← on_metadata (setMessageType (toMessageType (mm_message_type_ mm)));
  match mm_response_status_ mm with
  | Some status =>
      on_metadata (setResponseStatus (if status =? Status_Ok then ResponseStatus_Ok else ResponseStatus_Error))
  | None => mret tt
  end.

Definition toMsgMetadata (metadata : MetadataImpl) : outcome MessageMetadata :=
  let mm := new_MessageMetadata <| mm_request_id_ := to_i64 (request_id_ metadata) |> in
  mm ← match getByKey "InvocationInfo" metadata with
       | Some ref =>
           p ← any_cast (λ x, match x with AnyInvocation p => Some p | _ => None end) ref;
           Return (mm <| mm_invocation_info_ := p |>)
       | None => Return mm
       end;
  mm ← match getByKey "RpcResultInfo" metadata with
       | Some ref =>
           p ← any_cast (λ x, match x with AnyResult p => Some p | _ => None end) ref;
           Return (mm <| mm_result_info_ := p |>)
       | None => Return mm
       end;
  mm ← match getByKey "ProtocolType" metadata with
       | Some ref =>
           z ← any_cast (λ x, match x with AnyProtocolType z => Some z | _ => None end) ref;
           Return (mm <| mm_proto_type_ := z |>)
       | None => Panic "ref.has_value()"
       end;
  mm ← match getByKey "ProtocolVersion" metadata with
       | Some ref =>
           z ← any_cast (λ x, match x with AnyUint8 z => Some z | _ => None end) ref;
           Return (mm <| mm_protocol_version_ := z |>)
       | None => Panic "ref.has_value()"
       end;
  mm ← match getByKey "MessageType" metadata with
       | Some ref =>
           t ← any_cast (λ x, match x with AnyMessageType t => Some t | _ => None end) ref;
           Return (mm <| mm_message_type_ := t |>)
       | None => Panic "ref.has_value()"
       end;
  mm ← match getByKey "Timeout" metadata with
       | Some (AnyUint32 z) => Return (mm <| mm_timeout_ := Some z |>)
       | Some _ => Throw BadAnyCast
       | None => Return mm
       end;
  mm ← match getByKey "TwoWay" metadata with
       | Some _ => b ← getBool "TwoWay" metadata; Return (mm <| mm_is_two_way_ := b |>)
       | None => Panic "ref.has_value()"
       end;
  mm ← match getByKey "SerializationType" metadata with
       | Some ref =>
           z ← any_cast (λ x, match x with AnySerializationType z => Some z | _ => None end) ref;
           Return (mm <| mm_serialization_type_ := z |>)
       | None => Panic "ref.has_value()"
       end;
  match getByKey "ResponseStatus" metadata with
  | Some ref =>
      z ← any_cast (λ x, match x with AnyResponseStatus z => Some z | _ => None end) ref;
      Return (mm <| mm_response_status_ := Some z |>)
  | None => Return mm
  end.

(** ** DecoderStateMachine and DubboCodec *)

Inductive DubboProtocolState : Type :=
| StopIteration
| DubboWaitForData
| OnDecodeStreamHeader
| OnDecodeStreamData
| DubboDone.
#[global] Instance DubboProtocolState_eq_dec : EqDecision DubboProtocolState.
Proof. solve_decision. Defined.

Record DecoderStateMachine : Type := {
  sm_metadata_ : MessageMetadata;
  sm_context_ : option ContextImpl;
  sm_state_ : DubboProtocolState
}.
#[global] Instance DecoderStateMachine_eta : Eta DecoderStateMachine := fun s =>
  {| sm_metadata_ := sm_metadata_ s; sm_context_ := sm_context_ s; sm_state_ := sm_state_ s |}.
Definition new_DecoderStateMachine : DecoderStateMachine :=
  {| sm_metadata_ := new_MessageMetadata; sm_context_ := None; sm_state_ := OnDecodeStreamHeader |}.

Abbreviation Machine := (DecoderStateMachine * buffer)%type.
Definition on_machine_metadata {A} (op : M MessageMetadata A) : M Machine A := λ '(s, b),
  let '(o, mm) := op (sm_metadata_ s) in (o, (s <| sm_metadata_ := mm |>, b)).

(** [context_->originMessage().move(buffer, size)] *)
Definition move_to_context (ctx : ContextImpl) (size : Z) : M Machine unit :=
  b ← gets snd;
  '(origin, b) ← lift (move (ctx_origin_message_ ctx) b size);
  modify (λ '(s, _), (s <| sm_context_ := Some (ctx <| ctx_origin_message_ := origin |>) |>, b)).

Definition onDecodeStreamHeader : M Machine DubboProtocolState :=
  b ← gets snd;
  ret ← on_machine_metadata (decodeHeader b);
  match ret with
  | None => mret DubboWaitForData
  | Some context =>
      _ ← modify (λ '(s, b), (s <| sm_context_ := Some context |>, b));
      mm ← gets (λ s, sm_metadata_ s.1);
      if bool_decide (mm_message_type_ mm = DubboHeartbeatRequest ∨ mm_message_type_ mm = DubboHeartbeatResponse)
      then
        if buf_length b <? u64 (ctx_header_size_ context + ctx_body_size_ context) then mret DubboWaitForData
        else
          _ ← move_to_context context (u64 (ctx_header_size_ context + ctx_body_size_ context));
          mret DubboDone
      else
        _ ← move_to_context context (ctx_header_size_ context);
        mret OnDecodeStreamData
  end.

Definition onDecodeStreamData : M Machine DubboProtocolState :=
  '(s, b) ← gets id;
  match sm_context_ s with
  | None => panic "null pointer"
  | Some context =>
      ok ← on_machine_metadata (decodeData b context);
      if negb ok then mret DubboWaitForData
      else _ ← move_to_context context (ctx_body_size_ context); mret DubboDone
  end.

Definition handleState : M Machine DubboProtocolState :=
  s ← gets fst;
  match sm_state_ s with
  | OnDecodeStreamHeader => onDecodeStreamHeader
  | OnDecodeStreamData => onDecodeStreamData
  | _ => panic "not reached"
  end.

(** A message takes two rounds of [run]. *)
Fixpoint run_loop (fuel : nat) : M Machine DubboProtocolState :=
  match fuel with
  | O => panic "out of fuel"
  | S fuel =>
      s ← gets fst;
      if decide (sm_state_ s = DubboDone) then mret DubboDone
      else
        nextState ← handleState;
        if decide (nextState = DubboWaitForData) then mret DubboWaitForData
        else
          _ ← modify (λ '(s, b), (s <| sm_state_ := nextState |>, b));
          run_loop fuel
  end.
Definition run : M Machine DubboProtocolState := run_loop 3.

Record DubboCodec : Type := {
  dubbo_state_machine_ : option DecoderStateMachine;
  dubbo_decode_started_ : bool
}.
#[global] Instance DubboCodec_eta : Eta DubboCodec := fun c =>
  {| dubbo_state_machine_ := dubbo_state_machine_ c; dubbo_decode_started_ := dubbo_decode_started_ c |}.
Definition new_DubboCodec : DubboCodec := {| dubbo_state_machine_ := None; dubbo_decode_started_ := false |}.

Definition start (c : DubboCodec) : DubboCodec :=
  c <| dubbo_state_machine_ := Some new_DecoderStateMachine |> <| dubbo_decode_started_ := true |>.
Definition complete (c : DubboCodec) : DubboCodec :=
  c <| dubbo_state_machine_ := None |> <| dubbo_decode_started_ := false |>.

(** [toMetadata(msgMetadata, context, metadata)] *)
Definition toMetadata (mm : MessageMetadata) (context : ContextImpl) (m : MetadataImpl) :
    outcome unit * MessageMetadata * ContextImpl * MetadataImpl :=
  match msg_toMetadata (Some (contents (ctx_origin_message_ context))) (mm, m) with
  | (Return _, (mm, m)) =>
      let m := setHeaderSize (ctx_header_size_ context) m in
      let m := setBodySize (ctx_body_size_ context) m in
      let '(dst, src) := buf_move_all (origin_message_ m) (ctx_origin_message_ context) in
      (Return tt, mm, context <| ctx_origin_message_ := src |>, m <| origin_message_ := dst |>)
  | (o, (mm, m)) => (o, mm, context, m)
  end.

Definition DubboCodec_decode : M (DubboCodec * buffer * MetadataImpl) DecodeStatus := λ '(c, b, m),
  let c := if dubbo_decode_started_ c then c else start c in
  match dubbo_state_machine_ c with
  | None => (Panic "null pointer", (c, b, m))
  | Some s =>
      match run (s, b) with
      | (Return DubboWaitForData, (s, b)) =>
          (Return DecodeStatus_WaitForData, (c <| dubbo_state_machine_ := Some s |>, b, m))
      | (Return DubboDone, (s, b)) =>
          match sm_context_ s with
          | None => (Panic "null pointer", (c <| dubbo_state_machine_ := Some s |>, b, m))
          | Some context =>
              let '(o, mm, context, m) := toMetadata (sm_metadata_ s) context m in
              let c := c <| dubbo_state_machine_ :=
                           Some (s <| sm_metadata_ := mm |> <| sm_context_ := Some context |>) |> in
              match o with
              | Return _ => (Return DecodeStatus_Done, (complete c, b, m))
              | Throw e => (Throw e, (c, b, m))
              | Panic w => (Panic w, (c, b, m))
              end
          end
      | (Return _, (s, b)) => (Panic "state == Done", (c <| dubbo_state_machine_ := Some s |>, b, m))
      | (Throw e, (s, b)) => (Throw e, (c <| dubbo_state_machine_ := Some s |>, b, m))
      | (Panic w, (s, b)) => (Panic w, (c <| dubbo_state_machine_ := Some s |>, b, m))
      end
  end.

(** ** DubboCodec: encoding

    The metadata given to [encode] is constant, the objects its properties point
    to are not: the state keeps the metadata with them. *)

Abbreviation Enc := (buffer * MetadataImpl)%type.
Definition on_buffer {A} (op : M buffer A) : M Enc A := λ '(b, m), let '(o, b) := op b in (o, (b, m)).
Definition encode_or_throw (mm : MessageMetadata) (ctx : ContextImpl) (content what : string) : M Enc unit :=
  ok ← on_buffer (Protocol_encode mm ctx content);
  if negb ok then throw (EnvoyException what) else mret tt.

(** The context of [encodeRequest] and [encodeResponse]. *)
Definition sized_context (metadata : MetadataImpl) : ContextImpl :=
  new_ContextImpl <| ctx_header_size_ := header_size_ metadata |> <| ctx_body_size_ := body_size_ metadata |>.

Definition encodeHeartbeat : M Enc unit :=
  metadata ← gets snd;
  mm ← lift (toMsgMetadata metadata);
  let mm := mm <| mm_response_status_ := Some Status_Ok |> <| mm_message_type_ := DubboHeartbeatResponse |> in
  encode_or_throw mm new_ContextImpl "" "failed to encode heartbeat message".

(** The loop over the mutation, in key order. *)
Fixpoint mutate_invocation (mutation : list (string * string)) : M RpcInvocationImpl unit :=
  match mutation with
  | [] => mret tt
  | (key, value) :: mutation =>
      _ ← update_attachment (Attachment_remove key) None;
      _ ← update_attachment (Attachment_insert key value) None;
      mutate_invocation mutation
  end.

Definition encodeRequest (mutation : Mutation) : M Enc unit :=
  metadata ← gets snd;
  mm ← lift (toMsgMetadata metadata);
  mm ← match mm_invocation_info_ mm with
       | Some invo =>
           let '(o, invo) := mutate_invocation (in_key_order mutation) invo in
           _ ← modify (λ '(b, m), (b, put_dubbo "InvocationInfo" (AnyInvocation (Some invo)) m));
           _ ← lift o;
           mret (mm <| mm_invocation_info_ := Some invo |>)
       | None => mret mm
       end;
  encode_or_throw mm (sized_context metadata) "" "failed to encode request message".

Definition mutate_attachment (mutation : list (string * string)) (a : Attachment) : Attachment :=
  foldl (λ a kv, Attachment_insert kv.1 kv.2 (Attachment_remove kv.1 a)) a mutation.

(** Without an attachment the first key of a mutation meets a null pointer. *)
Definition mutate_result (mutation : list (string * string)) (result : RpcResultImpl) : outcome RpcResultImpl :=
  match mutation, result_attachment_ result with
  | [], _ => Return result
  | _, Some a => Return (result <| result_attachment_ := Some (mutate_attachment mutation a) |>)
  | _, None => Panic "null pointer"
  end.

Definition encodeResponse (mutation : Mutation) : M Enc unit :=
  metadata ← gets snd;
  mm ← lift (toMsgMetadata metadata);
  '(mm, has_mutation) ←
    match mm_result_info_ mm with
    | Some result =>
        result ← lift (mutate_result (in_key_order mutation) result);
        _ ← modify (λ '(b, m), (b, put_dubbo "RpcResultInfo" (AnyResult (Some result)) m));
        mret (mm <| mm_result_info_ := Some result |>, negb (bool_decide (mutation = ∅)))
    | None => mret (mm, false)
    end;
  if (has_mutation : bool) then
    encode_or_throw mm (sized_context metadata) "addheader" "failed to encode request message"
  else mret tt.

Definition DubboCodec_encode (mutation : Mutation) : M Enc unit :=
  metadata ← gets snd;
  match message_type_ metadata with
  | MessageType_Heartbeat => encodeHeartbeat
  | MessageType_Request => encodeRequest mutation
  | MessageType_Response => encodeResponse mutation
  | MessageType_Error => mret tt
  | _ => panic "not reached"
  end.

Definition onError_status (type : ErrorType) : Z :=
  match type with
  | ErrorType_RouteNotFound => Status_ServiceNotFound
  | ErrorType_BadResponse => Status_BadResponse
  | _ => Status_ServerError
  end.

Definition DubboCodec_onError (error : Error) : M Enc unit :=
  '(buffer, metadata) ← gets id;
  _ ← ASSERT (buf_length buffer =? 0) "buffer.length() == 0";
  mm ← lift (toMsgMetadata metadata);
  let mm := mm <| mm_message_type_ := DubboResponse |>
               <| mm_response_status_ := Some (onError_status (error_type error)) |> in
  encode_or_throw mm new_ContextImpl (error_message error) "failed to encode heartbeat message".

Definition dubbo_codec : CodecOps E := {|
  codec_state := DubboCodec;
  codec_init := new_DubboCodec;
  codec_decode := DubboCodec_decode;
  codec_encode m mutation := λ '(c, b), let '(o, (b, _)) := DubboCodec_encode mutation (b, m) in (o, (c, b));
  codec_onError m error := λ '(c, b), let '(o, (b, _)) := DubboCodec_onError error (b, m) in (o, (c, b))
|}.
End model.
