(* ===== verification/DubboSpec.v ===== *)
(** * Correctness of the Dubbo codec

    The pure framing of the protocol and the proof that [DubboCodec_decode]
    implements it at any point of a stream; the header checks; the mutation of
    attachments; heartbeats; the parameter count of a type descriptor. *)

From Stdlib Require Import Ascii.
From S2P Require Import Prelude Envoy Metadata Codec Dubbo.

(** ** Type descriptors

    A descriptor of the JVM is a sequence of types.  [Void] is one of the letters
    the source counts. *)

Inductive jtype : Type :=
| JPrimitive (c : ascii)
| JObject (name : string)
| JArray (t : jtype).

Fixpoint chars (s : string) : list ascii :=
  match s with EmptyString => [] | String c s => c :: chars s end.

Fixpoint jtype_ok (t : jtype) : Prop :=
  match t with
  | JPrimitive c => c ∈ ["V"; "Z"; "B"; "C"; "D"; "F"; "I"; "J"; "S"]%char
  | JObject name => ";"%char ∉ chars name
  | JArray t => jtype_ok t
  end.

#[global] Instance jtype_ok_dec t : Decision (jtype_ok t).
Proof. induction t; cbn; apply _. Defined.

Fixpoint print_jtype (t : jtype) : string :=
  match t with
  | JPrimitive c => String c ""
  | JObject name => String "L" (name +:+ ";")
  | JArray t => String "[" (print_jtype t)
  end.

Lemma String_cons_app c s k : String c s +:+ k = String c (s +:+ k).
Proof. done. Qed.
Lemma String_app_assoc s k l : (s +:+ k) +:+ l = s +:+ (k +:+ l).
Proof. induction s as [|c s IH]; [done |]. rewrite !String_cons_app. by rewrite IH. Qed.
Lemma getParametersNumber_cons ch s count next :
  getParametersNumber_loop (String ch s) count next =
    (if (ch =? "[")%char then getParametersNumber_loop s count next
     else if next && negb (ch =? ";")%char then getParametersNumber_loop s count next
     else
       match ch with
       | "V" | "Z" | "B" | "C" | "D" | "F" | "I" | "J" | "S" =>
           getParametersNumber_loop s (u32 (count + 1)) next
       | "L" => getParametersNumber_loop s (u32 (count + 1)) true
       | ";" => getParametersNumber_loop s count false
       | _ => getParametersNumber_loop s count next
       end%char).
Proof. done. Qed.

(** Inside an object type every character but the semicolon is skipped. *)
Lemma getParametersNumber_name name k count :
  ";"%char ∉ chars name →
  getParametersNumber_loop (name +:+ k) count true = getParametersNumber_loop k count true.
Proof.
  induction name as [|c name IH]; intros Hn; [done |]. cbn [chars] in Hn. apply not_elem_of_cons in Hn as [Hc Hn].
  rewrite String_cons_app, getParametersNumber_cons.
  destruct (c =? "[")%char; [auto |]. destruct (Ascii.eqb_spec c ";"); [congruence |]. cbn [andb negb]. auto.
Qed.

Lemma getParametersNumber_type t k count :
  jtype_ok t →
  getParametersNumber_loop (print_jtype t +:+ k) count false = getParametersNumber_loop k (u32 (count + 1)) false.
Proof.
  induction t as [c | name | t IH]; intros Ht; cbn [print_jtype jtype_ok] in *; rewrite String_cons_app.
  - change ("" +:+ k) with k. rewrite !elem_of_cons in Ht. destruct_or! Ht; try (subst c; reflexivity).
    by apply elem_of_nil in Ht.
  - rewrite getParametersNumber_cons. cbn [Ascii.eqb Bool.eqb andb negb].
    rewrite String_app_assoc, getParametersNumber_name by done. done.
  - rewrite getParametersNumber_cons. auto.
Qed.

Definition print_jtypes (ts : list jtype) : string := foldr (λ t s, print_jtype t +:+ s) "" ts.

Lemma getParametersNumber_types ts count :
  Forall jtype_ok ts → 0 ≤ count → count + zlen ts < 2 ^ 32 →
  getParametersNumber_loop (print_jtypes ts) count false = count + zlen ts.
Proof.
  intros Hts. revert count. induction Hts as [|t ts Ht _ IH]; intros count Hc Hlen; [rewrite zlen_nil; cbn [print_jtypes foldr getParametersNumber_loop]; lia |].
  rewrite zlen_cons in *. cbn [print_jtypes foldr]. fold (print_jtypes ts).
  rewrite getParametersNumber_type by done. pose proof (zlen_nonneg ts).
  rewrite u32_small, IH by lia. lia.
Qed.

(** [getParametersNumber] counts the types of a descriptor: on the printed form
    of any list of JVM types (primitive types, object types of any name, arrays of
    them) it returns their number. *)
Theorem dubbo_parameters_counted ts :
  Forall jtype_ok ts → zlen ts < 2 ^ 32 → getParametersNumber (print_jtypes ts) = zlen ts.
Proof.
  intros Hts Hlen. unfold getParametersNumber. case_bool_decide as He.
  - destruct ts as [|t ts]; [done |]. destruct t; discriminate.
  - by rewrite getParametersNumber_types.
Qed.

Example dubbo_parameters_counted_witness :
  getParametersNumber "I[[JLjava/lang/String;[Ljava/util/List;Z" = 5.
Proof.
  apply (dubbo_parameters_counted
    [JPrimitive "I"; JArray (JArray (JPrimitive "J")); JObject "java/lang/String";
     JArray (JObject "java/util/List"); JPrimitive "Z"]%char); [| reflexivity].
  apply (bool_decide_unpack _). vm_compute. exact I.
Defined.

(** ** The header *)

Record dubbo_header : Type := {
  dh_request : bool;
  dh_event : bool;
  dh_type : DubboMessageType;
  dh_id : Z;
  dh_status : Z;
  dh_size : Z
}.

(** What the sixteen bytes at the front of [bs] say. *)
Definition read_header (bs : bytes) : dubbo_header :=
  let flag := be_at 1 2 bs in
  let request := has_flag flag MessageTypeMask in
  let event := has_flag flag EventMask in
  {| dh_request := request;
     dh_event := event;
     dh_type :=
       match request, event with
       | true, true => DubboHeartbeatRequest
       | true, false => if has_flag flag TwoWayMask then DubboRequest else DubboOneway
       | false, true => DubboHeartbeatResponse
       | false, false => DubboResponse
       end;
     dh_id := to_i64 (be_at 8 4 bs);
     dh_status := be_at 1 3 bs;
     dh_size := to_i32 (be_at 4 12 bs) |}.

(** The first check of a header that fails. *)
Definition header_error (bs : bytes) : option exn :=
  let h := read_header bs in
  let type := Z.land (be_at 1 2 bs) SerializationTypeMask in
  if negb (be_at 2 0 bs =? MagicNumber) then
    Some (EnvoyException ("invalid dubbo message magic number " +:+ pretty (be_at 2 0 bs)))
  else if (MaxBodySize <? dh_size h) || (dh_size h <? 0) then
    Some (EnvoyException ("invalid dubbo message size " +:+ pretty (dh_size h)))
  else if dh_request h && negb (isValidSerializationType type) then
    Some (EnvoyException ("invalid dubbo message serialization type " +:+ pretty type))
  else if negb (dh_request h) && negb (isValidResponseStatus (dh_status h)) then
    Some (EnvoyException ("invalid dubbo message response status " +:+ pretty (dh_status h)))
  else None.

Section header.
Context {E : Envoy} {HL : Hessian2}.

Definition with_header (h : dubbo_header) (mm : MessageMetadata) : MessageMetadata :=
  let mm := mm <| mm_request_id_ := dh_id h |> <| mm_message_type_ := dh_type h |> in
  if dh_request h then mm <| mm_serialization_type_ := SerializationType_Hessian2 |>
  else mm <| mm_response_status_ := Some (dh_status h) |>.
Definition header_context (h : dubbo_header) : ContextImpl :=
  new_ContextImpl <| ctx_header_size_ := 16 |> <| ctx_body_size_ := dh_size h |> <| is_heartbeat_ := dh_event h |>.

Lemma with_header_idem h mm : with_header h (with_header h mm) = with_header h mm.
Proof. unfold with_header. by destruct (dh_request h). Qed.

Context {L : EnvoyLaws E}.

Lemma parseRequestInfo_spec b mm flag event :
  16 ≤ zlen (contents b) → be_at 1 2 (contents b) = flag →
  mm_message_type_ mm = (if (event : bool) then DubboHeartbeatRequest else DubboRequest) →
  parseRequestInfoFromBuffer b mm =
    if negb (isValidSerializationType (Z.land flag SerializationTypeMask))
    then (Throw (EnvoyException ("invalid dubbo message serialization type " +:+
                                 pretty (Z.land flag SerializationTypeMask))), mm)
    else (Return tt, mm <| mm_message_type_ :=
            if event then DubboHeartbeatRequest else if has_flag flag TwoWayMask then DubboRequest else DubboOneway |>
                        <| mm_serialization_type_ := SerializationType_Hessian2 |>).
Proof.
  intros Hlen Hflag Ht. unfold parseRequestInfoFromBuffer, FlagOffset. mstep.
  rewrite buf_length_spec, (proj2 (Z.leb_le _ _)) by done. mstep.
  rewrite buf_peek_ok, Hflag by lia. mstep.
  unfold isValidSerializationType. destruct (Z.eqb_spec (Z.land flag SerializationTypeMask) SerializationType_Hessian2)
    as [-> |]; [| done]. cbn [negb]. mstep. cbn [id]. rewrite Ht. clear Hflag.
  destruct mm, event; cbn in Ht; subst; case_bool_decide; try done; rewrite ?andb_false_r; [done |].
  by destruct (has_flag flag TwoWayMask).
Qed.

Lemma parseResponseInfo_spec b mm :
  16 ≤ zlen (contents b) →
  parseResponseInfoFromBuffer b mm =
    if negb (isValidResponseStatus (be_at 1 3 (contents b)))
    then (Throw (EnvoyException ("invalid dubbo message response status " +:+ pretty (be_at 1 3 (contents b)))), mm)
    else (Return tt, mm <| mm_response_status_ := Some (be_at 1 3 (contents b)) |>).
Proof.
  intros Hlen. unfold parseResponseInfoFromBuffer, StatusOffset. mstep.
  rewrite buf_length_spec, (proj2 (Z.leb_le _ _)) by done. mstep. rewrite buf_peek_ok by lia. mstep.
  by destruct (isValidResponseStatus _).
Qed.

Lemma decodeHeader_wait b mm : zlen (contents b) < 16 → decodeHeader b mm = (Return None, mm).
Proof. intros. unfold decodeHeader, MessageSize. rewrite buf_length_spec, (proj2 (Z.ltb_lt _ _)) by done. done. Qed.

Lemma dubbo_decodeHeader_spec b mm :
  16 ≤ zlen (contents b) →
  match header_error (contents b) with
  | Some e => (decodeHeader b mm).1 = Throw e
  | None => decodeHeader b mm = (Return (Some (header_context (read_header (contents b)))),
                                 with_header (read_header (contents b)) mm)
  end.
Proof.
  intros Hlen. unfold header_error, decodeHeader, MessageSize, FlagOffset, RequestIDOffset, BodySizeOffset.
  cbn [read_header dh_size dh_request dh_status].
  rewrite buf_length_spec, (proj2 (Z.ltb_ge (zlen (contents b)) 16)) by done. mstep. rewrite buf_peek_ok by lia. mstep.
  destruct (be_at 2 0 (contents b) =? MagicNumber); cbn [negb]; [| done]. mstep.
  rewrite !buf_peek_ok by lia. mstep. cbn [fmap outcome_fmap]. mstep.
  destruct ((MaxBodySize <? to_i32 (be_at 4 12 (contents b))) || (to_i32 (be_at 4 12 (contents b)) <? 0)); [done |].
  mstep. destruct (has_flag (be_at 1 2 (contents b)) MessageTypeMask) eqn:Hreq; cbn [andb negb].
  - mstep. rewrite (parseRequestInfo_spec _ _ (be_at 1 2 (contents b)) (has_flag (be_at 1 2 (contents b)) EventMask)) by done.
    destruct (isValidSerializationType _); cbn [negb]; mstep; [| done].
    unfold with_header, read_header. cbn [dh_request dh_event dh_type dh_id dh_status dh_size]. rewrite Hreq. reflexivity.
  - mstep. rewrite parseResponseInfo_spec by done.
    destruct (isValidResponseStatus _); cbn [negb]; mstep; [| done].
    unfold with_header, read_header. cbn [dh_request dh_event dh_type dh_id dh_status dh_size]. rewrite Hreq. reflexivity.
Qed.
End header.

(** ** Documented behaviour of the Hessian2 library

    A decoder never moves back nor past the end of its input, and what it has
    decoded does not change when more input follows; the encoder writes bytes. *)

Class Hessian2Laws (HL : Hessian2) : Prop := {
  hd_offset_new o : hd_offset (hd_new o) = o;
  hd_string_offset bs d : hd_offset d ≤ hd_offset (hd_string bs d).2 ≤ hd_offset d `max` zlen bs;
  hd_object_offset bs d : hd_offset d ≤ hd_offset (hd_object bs d).2 ≤ hd_offset d `max` zlen bs;
  hd_string_app bs k d v d' : hd_string bs d = (Some v, d') → hd_string (bs ++ k) d = (Some v, d');
  hd_int32_app bs k d v d' : hd_int32 bs d = (Some v, d') → hd_int32 (bs ++ k) d = (Some v, d');
  hd_object_app bs k d v d' : hd_object bs d = (Some v, d') → hd_object (bs ++ k) d = (Some v, d');
  he_map_bytes m : is_bytes (he_map m);
  map_find_erase k k' m :
    map_find k' (map_erase k m) = if decide (k = k') then None else map_find k' m;
  map_find_emplace k k' v m :
    (map_find k' (map_emplace k v m) ≫= toString) =
      (if decide (k = k' ∧ map_find k m = None) then Some v else map_find k' m ≫= toString)
}.

(** ** Framing *)

Section framing.
Context {E : Envoy} {HL : Hessian2} {DA : DubboAny}.

(** The message metadata of a complete message; [rest] is what follows the
    header, the bytes after the body included. *)
Definition read_body (h : dubbo_header) (rest : bytes) : outcome MessageMetadata :=
  if dh_event h then Return (with_header h new_MessageMetadata)
  else
    match decodeData (buf_add buf_new rest) (header_context h) (with_header h new_MessageMetadata) with
    | (Return _, mm) => Return mm
    | (Throw e, _) => Throw e
    | (Panic w, _) => Panic w
    end.

Definition dubbo_frame (t : MessageType) (bs : bytes) : framing :=
  if zlen bs <? 16 then FWait
  else
    match header_error bs with
    | Some e => FThrow e
    | None =>
        let h := read_header bs in
        let n := 16 + dh_size h in
        if zlen bs <? n then FWait
        else
          match read_body h (zdrop 16 bs) with
          | Throw e => FThrow e
          | Panic w => FPanic w
          | Return mm =>
              match msg_toMetadata (Some (ztake n bs)) (mm, fresh_metadata t) with
              | (Return _, (_, m)) =>
                  FDone n ((setBodySize (dh_size h) (setHeaderSize 16 m)) <| origin_message_ := buf_new |>, ztake n bs)
              | (Throw e, _) => FThrow e
              | (Panic w, _) => FPanic w
              end
          end
    end.

(** [dubbo_rep c l s]: the codec [c] has taken the bytes [l] of the current
    message, and what it remembers is right for the stream [s]. *)
Inductive dubbo_rep : DubboCodec → bytes → bytes → Prop :=
| rep_new s : dubbo_rep new_DubboCodec [] s
| rep_header mm ctx s :
    (mm = new_MessageMetadata ∨
     16 ≤ zlen s ∧ mm = with_header (read_header s) new_MessageMetadata) →
    dubbo_rep {| dubbo_state_machine_ := Some {| sm_metadata_ := mm; sm_context_ := ctx;
                                                 sm_state_ := OnDecodeStreamHeader |};
                 dubbo_decode_started_ := true |} [] s
| rep_data origin s :
    16 ≤ zlen s → header_error s = None → dh_event (read_header s) = false → contents origin = ztake 16 s →
    dubbo_rep {| dubbo_state_machine_ :=
                   Some {| sm_metadata_ := with_header (read_header s) new_MessageMetadata;
                           sm_context_ := Some ((header_context (read_header s)) <| ctx_origin_message_ := origin |>);
                           sm_state_ := OnDecodeStreamData |};
                 dubbo_decode_started_ := true |} (ztake 16 s) s.

Context {L : EnvoyLaws E}.

Lemma header_size_range bs : header_error bs = None → 0 ≤ dh_size (read_header bs) ≤ 16777216.
Proof.
  unfold header_error. destruct (negb (be_at 2 0 bs =? MagicNumber)); [done |].
  destruct (_ || _) eqn:Hsz; [done |]. apply orb_false_iff in Hsz as [H1 H2].
  apply Z.ltb_ge in H1, H2. unfold MaxBodySize in *. lia.
Qed.

(** The header is in the first sixteen bytes. *)
Lemma read_header_app s k : 16 ≤ zlen s → read_header (s ++ k) = read_header s.
Proof. intros. unfold read_header. by rewrite !be_at_app by lia. Qed.
Lemma header_error_app s k : 16 ≤ zlen s → header_error (s ++ k) = header_error s.
Proof. intros. unfold header_error. rewrite read_header_app, !be_at_app by lia. done. Qed.

(** Decoding a body reads the contents of the buffer and the sizes of the context. *)
Lemma decodeData_ext b b' ctx ctx' mm :
  contents b = contents b' → ctx_header_size_ ctx = ctx_header_size_ ctx' →
  ctx_body_size_ ctx = ctx_body_size_ ctx' → decodeData b ctx mm = decodeData b' ctx' mm.
Proof.
  intros Hb Hh Hs. unfold decodeData, deserializeRpcInvocation, deserializeRpcResult.
  by rewrite !buf_length_spec, Hb, Hh, Hs.
Qed.

(** Decoding a body never asks for more once the body is there. *)
Lemma decodeData_done b ctx mm mm' ok :
  ctx_body_size_ ctx ≤ zlen (contents b) → decodeData b ctx mm = (Return ok, mm') → ok = true.
Proof.
  intros Hlen. unfold decodeData. rewrite buf_length_spec, (proj2 (Z.ltb_ge _ _)) by done. mstep. cbn [id].
  destruct (mm_message_type_ mm); mstep; try done.
  - case_bool_decide; cbn [negb]; mstep; [| by intros [= <-]].
    destruct (deserializeRpcResult b ctx) as [r| |]; mstep; try done. destruct (has_exception_ r); mstep; by intros [= <-].
  - destruct (deserializeRpcInvocation b ctx); mstep; try done. by intros [= <-].
  - destruct (deserializeRpcInvocation b ctx); mstep; try done. by intros [= <-].
Qed.
End framing.

(** ** The state machine *)

Section machine.
Context {E : Envoy} {HL : Hessian2} {DA : DubboAny} {L : EnvoyLaws E}.

Abbreviation machine mm ctx st := {| sm_metadata_ := mm; sm_context_ := ctx; sm_state_ := st |}.

Lemma run_loop_next fuel s b st s' b' :
  handleState (s, b) = (Return st, (s', b')) → sm_state_ s ≠ DubboDone → st ≠ DubboWaitForData →
  run_loop (S fuel) (s, b) = run_loop fuel (s' <| sm_state_ := st |>, b').
Proof.
  intros Hh Hs Hst. cbn [run_loop]. mstep. cbn [fst]. rewrite decide_False by done. mstep. rewrite Hh. mstep.
  by rewrite decide_False.
Qed.
Lemma run_loop_wait fuel s b s' b' :
  sm_state_ s ≠ DubboDone → handleState (s, b) = (Return DubboWaitForData, (s', b')) →
  run_loop (S fuel) (s, b) = (Return DubboWaitForData, (s', b')).
Proof. intros Hs Hh. cbn [run_loop]. mstep. cbn [fst]. rewrite decide_False by done. mstep. by rewrite Hh. Qed.
Lemma run_loop_fail fuel s b o s' b' :
  sm_state_ s ≠ DubboDone → handleState (s, b) = (o, (s', b')) →
  match o with Return _ => True | _ => run_loop (S fuel) (s, b) = (o, (s', b')) end.
Proof.
  intros Hs Hh. destruct o; try done; cbn [run_loop]; mstep; cbn [fst]; rewrite decide_False by done; mstep;
    by rewrite Hh.
Qed.
Lemma run_loop_done fuel s b : sm_state_ s = DubboDone → run_loop (S fuel) (s, b) = (Return DubboDone, (s, b)).
Proof. intros Hs. cbn [run_loop]. mstep. cbn [fst]. by rewrite decide_True. Qed.

Lemma move_to_context_spec s ctx b n :
  0 ≤ n ≤ zlen (contents b) →
  ∃ origin b', move_to_context ctx n (s, b) =
      (Return tt, (s <| sm_context_ := Some (ctx <| ctx_origin_message_ := origin |>) |>, b')) ∧
    contents origin = contents (ctx_origin_message_ ctx) ++ ztake n (contents b) ∧
    contents b' = zdrop n (contents b).
Proof.
  intros Hn. destruct (move_ok (ctx_origin_message_ ctx) b n Hn) as (o & b' & Hm & Ho & Hb).
  exists o, b'. unfold move_to_context. mstep. cbn [snd]. rewrite Hm. done.
Qed.

(** *** Reading a header *)

Lemma run_header_wait mm ctx b : zlen (contents b) < 16 →
  run (machine mm ctx OnDecodeStreamHeader, b) = (Return DubboWaitForData, (machine mm ctx OnDecodeStreamHeader, b)).
Proof.
  intros Hlen. apply run_loop_wait; [done |]. unfold handleState. mstep. cbn [fst sm_state_].
  unfold onDecodeStreamHeader. mstep. cbn [snd]. unfold on_machine_metadata at 1. cbn [sm_metadata_].
  by rewrite decodeHeader_wait.
Qed.

Lemma run_header_error mm ctx b e : 16 ≤ zlen (contents b) → header_error (contents b) = Some e →
  ∃ s' b', run (machine mm ctx OnDecodeStreamHeader, b) = (Throw e, (s', b')).
Proof.
  intros Hlen He. pose proof (dubbo_decodeHeader_spec b mm Hlen) as Hd. rewrite He in Hd.
  destruct (decodeHeader b mm) as [o mm'] eqn:Hdec. cbn in Hd. subst o.
  eexists _, _. apply (run_loop_fail _ _ _ (Throw e)); [done |]. unfold handleState. mstep. cbn [fst sm_state_].
  unfold onDecodeStreamHeader. mstep. cbn [snd]. unfold on_machine_metadata at 1. cbn [sm_metadata_].
  rewrite Hdec. reflexivity.
Qed.

Section header_ok.
Context (b : buffer) (mm : MessageMetadata) (ctx : option ContextImpl) (h : dubbo_header).
Context (Hlen : 16 ≤ zlen (contents b)) (Herr : header_error (contents b) = None).
Context (Hh : h = read_header (contents b)).

Lemma header_type_event :
  bool_decide (dh_type h = DubboHeartbeatRequest ∨ dh_type h = DubboHeartbeatResponse) = dh_event h.
Proof using Hh.
  subst h. unfold read_header. cbn [dh_type dh_event].
  repeat (destruct (has_flag _ _); try reflexivity).
Qed.
Lemma with_header_type m : mm_message_type_ (with_header h m) = dh_type h.
Proof. unfold with_header. by destruct (dh_request h). Qed.

(** The first steps of [onDecodeStreamHeader]. *)
Lemma onDecodeStreamHeader_at :
  handleState (machine mm ctx OnDecodeStreamHeader, b) =
    (if dh_event h then
       if zlen (contents b) <? 16 + dh_size h then mret DubboWaitForData
       else _ ← move_to_context (header_context h) (16 + dh_size h); mret DubboDone
     else _ ← move_to_context (header_context h) 16; mret OnDecodeStreamData)
    (machine (with_header h mm) (Some (header_context h)) OnDecodeStreamHeader, b).
Proof using Hlen Herr Hh L.
  pose proof (dubbo_decodeHeader_spec b mm Hlen) as Hd. rewrite Herr, <- Hh in Hd.
  pose proof (header_size_range _ Herr) as Hsz. rewrite <- Hh in Hsz.
  unfold handleState. mstep. cbn [fst sm_state_]. unfold onDecodeStreamHeader. mstep. cbn [snd].
  unfold on_machine_metadata at 1. cbn [sm_metadata_]. rewrite Hd. cbv beta iota. mstep. cbn [fst].
  change ((machine mm ctx OnDecodeStreamHeader) <| sm_metadata_ := with_header h mm |>
            <| sm_context_ := Some (header_context h) |>)
    with (machine (with_header h mm) (Some (header_context h)) OnDecodeStreamHeader).
  cbn [sm_metadata_]. rewrite with_header_type, header_type_event.
  destruct (dh_event h); [| done].
  rewrite buf_length_spec. change (ctx_header_size_ (header_context h) + ctx_body_size_ (header_context h))
    with (16 + dh_size h). rewrite u64_small by lia. by destruct (_ <? _).
Qed.

Lemma run_header_heartbeat_wait : dh_event h = true → zlen (contents b) < 16 + dh_size h →
  run (machine mm ctx OnDecodeStreamHeader, b) =
    (Return DubboWaitForData, (machine (with_header h mm) (Some (header_context h)) OnDecodeStreamHeader, b)).
Proof using Hlen Herr Hh L.
  intros Hev Hsz. apply run_loop_wait; [done |]. rewrite onDecodeStreamHeader_at, Hev.
  by rewrite (proj2 (Z.ltb_lt _ _)) by done.
Qed.

Lemma run_header_heartbeat : dh_event h = true → 16 + dh_size h ≤ zlen (contents b) →
  ∃ origin b', run (machine mm ctx OnDecodeStreamHeader, b) =
    (Return DubboDone, (machine (with_header h mm) (Some ((header_context h) <| ctx_origin_message_ := origin |>))
                          DubboDone, b')) ∧
    contents origin = ztake (16 + dh_size h) (contents b) ∧ contents b' = zdrop (16 + dh_size h) (contents b).
Proof using Hlen Herr Hh L.
  intros Hev Hsz. pose proof (header_size_range _ Herr) as Hr. rewrite <- Hh in Hr.
  destruct (move_to_context_spec (machine (with_header h mm) (Some (header_context h)) OnDecodeStreamHeader)
              (header_context h) b (16 + dh_size h)) as (o & b' & Hm & Ho & Hb); [lia |].
  exists o, b'. change (ctx_origin_message_ (header_context h)) with buf_new in Ho. rewrite buf_new_spec in Ho. split; [| done].
  assert (handleState (machine mm ctx OnDecodeStreamHeader, b) =
    (Return DubboDone, (machine (with_header h mm) (Some ((header_context h) <| ctx_origin_message_ := o |>))
                          OnDecodeStreamHeader, b'))) as Hst.
  { rewrite onDecodeStreamHeader_at, Hev, (proj2 (Z.ltb_ge _ _)) by done. mstep. rewrite Hm. done. }
  unfold run. rewrite (run_loop_next 2 _ _ _ _ _ Hst) by done. by apply run_loop_done.
Qed.

Lemma run_header_data : dh_event h = false →
  ∃ origin b', run (machine mm ctx OnDecodeStreamHeader, b) =
    run_loop 2 (machine (with_header h mm) (Some ((header_context h) <| ctx_origin_message_ := origin |>))
                  OnDecodeStreamData, b') ∧
    contents origin = ztake 16 (contents b) ∧ contents b' = zdrop 16 (contents b).
Proof using Hlen Herr Hh L.
  intros Hev.
  destruct (move_to_context_spec (machine (with_header h mm) (Some (header_context h)) OnDecodeStreamHeader)
              (header_context h) b 16) as (o & b' & Hm & Ho & Hb); [lia |].
  exists o, b'. change (ctx_origin_message_ (header_context h)) with buf_new in Ho. rewrite buf_new_spec in Ho. split; [| done].
  assert (handleState (machine mm ctx OnDecodeStreamHeader, b) =
    (Return OnDecodeStreamData, (machine (with_header h mm) (Some ((header_context h) <| ctx_origin_message_ := o |>))
                          OnDecodeStreamHeader, b'))) as Hst.
  { rewrite onDecodeStreamHeader_at, Hev. mstep. rewrite Hm. done. }
  unfold run. by rewrite (run_loop_next 2 _ _ _ _ _ Hst).
Qed.
End header_ok.

(** *** Reading a body *)

Lemma run_data_wait fuel mm ctx b : zlen (contents b) < ctx_body_size_ ctx →
  run_loop (S fuel) (machine mm (Some ctx) OnDecodeStreamData, b) =
    (Return DubboWaitForData, (machine mm (Some ctx) OnDecodeStreamData, b)).
Proof.
  intros Hlen. apply run_loop_wait; [done |]. unfold handleState. mstep. cbn [fst sm_state_].
  unfold onDecodeStreamData. mstep. cbn [id sm_context_]. unfold on_machine_metadata. mstep. cbn [sm_metadata_].
  unfold decodeData. rewrite buf_length_spec, (proj2 (Z.ltb_lt _ _)) by done. done.
Qed.

Lemma run_data fuel mm ctx b : 0 ≤ ctx_body_size_ ctx ≤ zlen (contents b) →
  match decodeData b ctx mm with
  | (Return _, mm') => ∃ origin b',
      run_loop (S (S fuel)) (machine mm (Some ctx) OnDecodeStreamData, b) =
        (Return DubboDone, (machine mm' (Some (ctx <| ctx_origin_message_ := origin |>)) DubboDone, b')) ∧
      contents origin = contents (ctx_origin_message_ ctx) ++ ztake (ctx_body_size_ ctx) (contents b) ∧
      contents b' = zdrop (ctx_body_size_ ctx) (contents b)
  | (Throw e, _) => ∃ s' b', run_loop (S (S fuel)) (machine mm (Some ctx) OnDecodeStreamData, b) = (Throw e, (s', b'))
  | (Panic w, _) => ∃ s' b', run_loop (S (S fuel)) (machine mm (Some ctx) OnDecodeStreamData, b) = (Panic w, (s', b'))
  end.
Proof.
  intros Hlen.
  assert (handleState (machine mm (Some ctx) OnDecodeStreamData, b) =
    (ok ← on_machine_metadata (decodeData b ctx);
     if negb ok then mret DubboWaitForData
     else _ ← move_to_context ctx (ctx_body_size_ ctx); mret DubboDone)
     (machine mm (Some ctx) OnDecodeStreamData, b)) as Hst by done.
  unfold on_machine_metadata in Hst. rewrite run_bind in Hst. cbn [sm_metadata_] in Hst.
  destruct (decodeData b ctx mm) as [[ok|e|w] mm'] eqn:Hd.
  - pose proof (decodeData_done _ _ _ _ _ (proj2 Hlen) Hd) as ->. cbv beta iota in Hst. cbn [negb] in Hst.
    destruct (move_to_context_spec ((machine mm (Some ctx) OnDecodeStreamData) <| sm_metadata_ := mm' |>) ctx b
                (ctx_body_size_ ctx) Hlen) as (o & b' & Hm & Ho & Hb).
    exists o, b'. split; [| done]. rewrite run_bind, Hm in Hst.
    rewrite (run_loop_next (S fuel) _ _ _ _ _ Hst) by done. by apply run_loop_done.
  - eexists _, _. apply (run_loop_fail _ _ _ (Throw e)); [done |]. exact Hst.
  - eexists _, _. apply (run_loop_fail _ _ _ (Panic w)); [done |]. exact Hst.
Qed.
End machine.

(** ** The codec implements the framing *)

Section decode.
Context {E : Envoy} {HL : Hessian2} {DA : DubboAny} {L : EnvoyLaws E}.

Definition same_origin (x y : MessageMetadata * MetadataImpl) : Prop :=
  origin_message_ x.2 = origin_message_ y.2.
#[local] Instance same_origin_preorder : PreOrder same_origin.
Proof. split; [by intros ? | intros ???; unfold same_origin; congruence]. Qed.

Lemma frames_on_metadata f : (∀ m, origin_message_ (f m) = origin_message_ m) → frames same_origin (on_metadata f).
Proof. intros Hf. apply frames_modify. intros [mm m]. unfold same_origin. cbn. by rewrite Hf. Qed.
Lemma origin_put_strings l m : origin_message_ (put_strings l m) = origin_message_ m.
Proof.
  revert m. induction l as [|kv l IH]; intros m; [done |].
  change (put_strings (kv :: l) m) with (put_strings l (putString kv.1 kv.2 m)). by rewrite IH.
Qed.
Lemma frames_on_invocation {A} (op : M RpcInvocationImpl A) : frames same_origin (on_invocation op).
Proof.
  intros [mm m]. unfold on_invocation. destruct (mm_invocation_info_ mm) as [i|]; [| done]. by destruct (op i).
Qed.
Lemma frames_msg_toMetadata origin : frames same_origin (msg_toMetadata origin).
Proof.
  unfold msg_toMetadata.
  repeat first [ frames_step | apply frames_on_invocation
               | apply frames_on_metadata; intros; first [done | apply origin_put_strings] ].
Qed.

Abbreviation started s := {| dubbo_state_machine_ := Some s; dubbo_decode_started_ := true |}.

Lemma decode_started b m :
  DubboCodec_decode (new_DubboCodec, b, m) = DubboCodec_decode (started new_DecoderStateMachine, b, m).
Proof. done. Qed.
Lemma decode_wait s b m s' b' : run (s, b) = (Return DubboWaitForData, (s', b')) →
  DubboCodec_decode (started s, b, m) = (Return DecodeStatus_WaitForData, (started s', b', m)).
Proof. intros Hr. unfold DubboCodec_decode. cbn [dubbo_decode_started_ dubbo_state_machine_]. by rewrite Hr. Qed.
Lemma decode_throw s b m e s' b' : run (s, b) = (Throw e, (s', b')) →
  DubboCodec_decode (started s, b, m) = (Throw e, (started s', b', m)).
Proof. intros Hr. unfold DubboCodec_decode. cbn [dubbo_decode_started_ dubbo_state_machine_]. by rewrite Hr. Qed.
Lemma decode_panic s b m w s' b' : run (s, b) = (Panic w, (s', b')) →
  DubboCodec_decode (started s, b, m) = (Panic w, (started s', b', m)).
Proof. intros Hr. unfold DubboCodec_decode. cbn [dubbo_decode_started_ dubbo_state_machine_]. by rewrite Hr. Qed.

(** What [decode] does once the machine is done. *)
Definition finishes (t : MessageType) (h : dubbo_header) (msg : bytes) (mm : MessageMetadata) (rest : buffer)
    (r : outcome DecodeStatus * (DubboCodec * buffer * MetadataImpl)) : Prop :=
  match msg_toMetadata (Some msg) (mm, fresh_metadata t) with
  | (Return _, (_, m)) => ∃ m', r = (Return DecodeStatus_Done, (new_DubboCodec, rest, m')) ∧
      view m' = ((setBodySize (dh_size h) (setHeaderSize 16 m)) <| origin_message_ := buf_new |>, msg)
  | (Throw e, _) => ∃ c' m', r = (Throw e, (c', rest, m'))
  | (Panic w, _) => ∃ c' m', r = (Panic w, (c', rest, m'))
  end.

Lemma decode_done t h s b mm origin st rest msg :
  run (s, b) = (Return DubboDone,
    ({| sm_metadata_ := mm; sm_context_ := Some ((header_context h) <| ctx_origin_message_ := origin |>);
        sm_state_ := st |}, rest)) →
  contents origin = msg →
  finishes t h msg mm rest (DubboCodec_decode (started s, b, fresh_metadata t)).
Proof.
  intros Hr <-. unfold finishes, DubboCodec_decode. cbn [dubbo_decode_started_ dubbo_state_machine_]. rewrite Hr.
  cbv beta iota. cbn [sm_context_ sm_metadata_]. unfold toMetadata.
  change (ctx_origin_message_ ((header_context h) <| ctx_origin_message_ := origin |>)) with origin.
  pose proof (frames_msg_toMetadata (Some (contents origin)) (mm, fresh_metadata t)) as Ho.
  destruct (msg_toMetadata (Some (contents origin)) (mm, fresh_metadata t)) as [[[]|e|w] [mm' m]].
  - unfold same_origin in Ho. cbn [snd] in Ho.
    set (m1 := setBodySize _ (setHeaderSize _ m)). assert (origin_message_ m1 = buf_new) as Hm1 by exact (eq_sym Ho).
    pose proof (buf_move_all_dst (origin_message_ m1) origin) as Hd. rewrite Hm1, buf_new_spec in Hd.
    destruct (buf_move_all (origin_message_ m1) origin) as [dst src] eqn:Hmv. rewrite Hm1 in Hmv. rewrite Hmv in Hd.
    eexists. split; [reflexivity |]. unfold view. f_equal. exact Hd.
  - eauto.
  - eauto.
Qed.

(** [decode], called in the state [c] that has taken [l], does on [b] what the
    framing of the whole says. *)
Definition implements (t : MessageType) (c : DubboCodec) (l : bytes) (b : buffer) : Prop :=
  match dubbo_frame t (l ++ contents b) with
  | FWait => ∃ c' b' m' l',
      DubboCodec_decode (c, b, fresh_metadata t) = (Return DecodeStatus_WaitForData, (c', b', m')) ∧
      dubbo_rep c' l' (l' ++ contents b') ∧ l' ++ contents b' = l ++ contents b
  | FDone n v => ∃ b' m',
      DubboCodec_decode (c, b, fresh_metadata t) = (Return DecodeStatus_Done, (new_DubboCodec, b', m')) ∧
      contents b' = zdrop n (l ++ contents b) ∧ view m' = v
  | FThrow e => ∃ c' b' m', DubboCodec_decode (c, b, fresh_metadata t) = (Throw e, (c', b', m'))
  | FPanic w => ∃ c' b' m', DubboCodec_decode (c, b, fresh_metadata t) = (Panic w, (c', b', m'))
  end.

Lemma frame_complete t bs :
  16 ≤ zlen bs → header_error bs = None → 16 + dh_size (read_header bs) ≤ zlen bs →
  dubbo_frame t bs =
    match read_body (read_header bs) (zdrop 16 bs) with
    | Throw e => FThrow e
    | Panic w => FPanic w
    | Return mm =>
        match msg_toMetadata (Some (ztake (16 + dh_size (read_header bs)) bs)) (mm, fresh_metadata t) with
        | (Return _, (_, m)) =>
            FDone (16 + dh_size (read_header bs))
              ((setBodySize (dh_size (read_header bs)) (setHeaderSize 16 m)) <| origin_message_ := buf_new |>,
               ztake (16 + dh_size (read_header bs)) bs)
        | (Throw e, _) => FThrow e
        | (Panic w, _) => FPanic w
        end
    end.
Proof.
  intros Hlen He Hn. unfold dubbo_frame. rewrite (proj2 (Z.ltb_ge _ _)), He by done. cbv zeta.
  by rewrite (proj2 (Z.ltb_ge _ _)).
Qed.
Lemma frame_wait t bs :
  zlen bs < 16 ∨ header_error bs = None ∧ zlen bs < 16 + dh_size (read_header bs) → dubbo_frame t bs = FWait.
Proof.
  intros Hw. unfold dubbo_frame. destruct (Z.ltb_spec (zlen bs) 16); [done |].
  destruct Hw as [? | [He ?]]; [lia |]. rewrite He. cbv zeta. by rewrite (proj2 (Z.ltb_lt _ _)).
Qed.

(** A finished machine gives the frame of the message. *)
Lemma finishes_implements t c l b mm rest :
  let bs := l ++ contents b in let h := read_header bs in
  16 ≤ zlen bs → header_error bs = None → 16 + dh_size h ≤ zlen bs →
  read_body h (zdrop 16 bs) = Return mm → contents rest = zdrop (16 + dh_size h) bs →
  finishes t h (ztake (16 + dh_size h) bs) mm rest (DubboCodec_decode (c, b, fresh_metadata t)) →
  implements t c l b.
Proof.
  intros bs h Hlen He Hn Hb Hrest Hf. unfold implements. fold bs. rewrite frame_complete by done. fold h.
  rewrite Hb. unfold finishes in Hf.
  destruct (msg_toMetadata _ _) as [[[]|e|w] [mm' m]]; cbv beta iota.
  - destruct Hf as (m' & -> & Hv). eauto 10.
  - destruct Hf as (c' & m' & ->). eauto.
  - destruct Hf as (c' & m' & ->). eauto.
Qed.

(** From the state that reads a body; [b] is what is left of the buffer [b0]
    then. *)
Lemma data_implements t h origin b s l0 b0 fuel :
  let bs := l0 ++ contents b0 in
  bs = contents origin ++ contents b → zlen (contents origin) = 16 →
  header_error bs = None → h = read_header bs → dh_event h = false →
  run (s, b0) = run_loop (S (S fuel)) ({| sm_metadata_ := with_header h new_MessageMetadata;
      sm_context_ := Some ((header_context h) <| ctx_origin_message_ := origin |>);
      sm_state_ := OnDecodeStreamData |}, b) →
  implements t (started s) l0 b0.
Proof.
  intros bs Hbs Hol He Hh Hev Hrun. pose proof (header_size_range _ He) as Hsz. rewrite <- Hh in Hsz.
  assert (zlen bs = 16 + zlen (contents b)) as Hlen by (rewrite Hbs, zlen_app; lia).
  pose proof (zlen_nonneg (contents b)) as Hnn.
  assert (zdrop 16 bs = contents b) as Hdrop by (rewrite Hbs, <- Hol; apply zdrop_app_exact).
  assert (ztake 16 bs = contents origin) as Htake by (rewrite Hbs, <- Hol; apply ztake_app_exact).
  set (ctx := (header_context h) <| ctx_origin_message_ := origin |>) in *.
  assert (ctx_body_size_ ctx = dh_size h) as Hcs by done.
  destruct (Z.ltb_spec (zlen (contents b)) (ctx_body_size_ ctx)) as [Hw|Hd].
  - unfold implements. fold bs. rewrite frame_wait by (right; split; [done | rewrite <- Hh; lia]).
    rewrite (decode_wait _ _ _ _ _ (eq_trans Hrun (run_data_wait (S fuel) _ ctx b Hw))).
    exists (started {| sm_metadata_ := with_header h new_MessageMetadata; sm_context_ := Some ctx;
                       sm_state_ := OnDecodeStreamData |}), b, (fresh_metadata t), (ztake 16 bs).
    split; [done |]. rewrite Htake at 2 3. rewrite <- Hbs. split; [| done].
    unfold ctx. rewrite Hh. apply rep_data; [lia | done | by rewrite <- Hh | done].
  - pose proof (run_data fuel (with_header h new_MessageMetadata) ctx b ltac:(lia)) as Hrd.
    assert (read_body h (zdrop 16 bs) =
      match decodeData b ctx (with_header h new_MessageMetadata) with
      | (Return _, mm) => Return mm | (Throw e, _) => Throw e | (Panic w, _) => Panic w end) as Hbody.
    { unfold read_body. rewrite Hev, Hdrop. erewrite decodeData_ext; [done | | done | done].
      rewrite buf_add_spec, buf_new_spec by apply contents_bytes. done. }
    assert (16 + dh_size (read_header bs) ≤ zlen bs) as Hn by (rewrite <- Hh; lia).
    destruct (decodeData b ctx (with_header h new_MessageMetadata)) as [[ok|e|w] mm'].
    + destruct Hrd as (o' & b' & Hr & Ho' & Hb').
      apply (finishes_implements _ _ _ _ mm' b'); fold bs; [lia | done | done | by rewrite <- Hh | |].
      * rewrite Hb', <- Hh, <- Hdrop, zdrop_zdrop by lia. done.
      * rewrite <- Hh. apply (decode_done _ _ _ _ _ o' DubboDone); [by rewrite Hrun, Hr |].
        rewrite Ho'. change (ctx_origin_message_ ctx) with origin.
        rewrite <- Hdrop, <- (ztake_app_add 16 (dh_size h)), Htake by lia. done.
    + destruct Hrd as (s' & b' & Hr). unfold implements. fold bs. rewrite frame_complete, <- Hh, Hbody by (done || lia).
      rewrite (decode_throw _ _ _ e _ _ (eq_trans Hrun Hr)). eauto.
    + destruct Hrd as (s' & b' & Hr). unfold implements. fold bs. rewrite frame_complete, <- Hh, Hbody by (done || lia).
      rewrite (decode_panic _ _ _ w _ _ (eq_trans Hrun Hr)). eauto.
Qed.

(** From the state that reads a header. *)
Lemma header_implements t mm ctx b :
  mm = new_MessageMetadata ∨
  16 ≤ zlen (contents b) ∧ mm = with_header (read_header (contents b)) new_MessageMetadata →
  implements t (started {| sm_metadata_ := mm; sm_context_ := ctx; sm_state_ := OnDecodeStreamHeader |}) [] b.
Proof.
  intros Hmm. destruct (Z.ltb_spec (zlen (contents b)) 16) as [Hw|Hlen].
  { unfold implements. rewrite frame_wait by auto. rewrite (decode_wait _ _ _ _ _ (run_header_wait mm ctx b Hw)).
    eexists _, _, _, []. split; [done |]. split; [by constructor | done]. }
  destruct (header_error (contents b)) as [e|] eqn:He.
  { destruct (run_header_error mm ctx b e Hlen He) as (s' & b' & Hr). unfold implements. cbn [app]. unfold dubbo_frame.
    rewrite (proj2 (Z.ltb_ge _ _)), He, (decode_throw _ _ _ _ _ _ Hr) by done. eauto. }
  assert (with_header (read_header (contents b)) mm = with_header (read_header (contents b)) new_MessageMetadata) as Hwh.
  { destruct Hmm as [-> | [_ ->]]; [done | apply with_header_idem]. }
  pose proof (header_size_range _ He) as Hsz.
  destruct (dh_event (read_header (contents b))) eqn:Hev.
  - destruct (Z.ltb_spec (zlen (contents b)) (16 + dh_size (read_header (contents b)))) as [Hw|Hn].
    + unfold implements. rewrite frame_wait by auto.
      rewrite (decode_wait _ _ _ _ _ (run_header_heartbeat_wait b mm ctx _ Hlen He eq_refl Hev Hw)).
      eexists _, _, _, []. split; [done |]. split; [| done]. constructor. right. by rewrite Hwh.
    + destruct (run_header_heartbeat b mm ctx _ Hlen He eq_refl Hev Hn) as (o & b' & Hr & Ho & Hb).
      rewrite Hwh in Hr.
      apply (finishes_implements _ _ _ _ (with_header (read_header (contents b)) new_MessageMetadata) b'); try done.
      * cbn [app]. unfold read_body. by rewrite Hev.
      * eapply decode_done; [exact Hr | done].
  - destruct (run_header_data b mm ctx _ Hlen He eq_refl Hev) as (o & b' & Hr & Ho & Hb). rewrite Hwh in Hr.
    apply (data_implements _ (read_header (contents b)) o b' _ _ _ 0); cbn [app]; try done.
    + rewrite Ho, Hb. by rewrite ztake_zdrop.
    + rewrite Ho. apply zlen_ztake. lia.
Qed.

Lemma rep_implements t c l b : dubbo_rep c l (l ++ contents b) → implements t c l b.
Proof.
  remember (l ++ contents b) as s eqn:Hs. intros Hrep. revert Hs.
  destruct Hrep as [s' | mm ctx s' Hmm | origin s' Hlen He Hev Ho]; intros Hs.
  - apply (header_implements t new_MessageMetadata None b). auto.
  - subst s'. by apply header_implements.
  - assert (zlen (ztake 16 s') = 16) as Hl16 by (apply zlen_ztake; lia).
    apply (data_implements _ (read_header s') origin b _ _ _ 1); rewrite <- ?Hs; try done; [| by rewrite Ho].
    by rewrite Ho.
Qed.

(** C12: At any point of a stream [DubboCodec::decode] does what the pure framing of
    the bytes says: it waits and stays in a state that is right for the rest of the
    stream, or returns the metadata of one message and has taken exactly the bytes
    of it, or throws, or stops the process. *)
Theorem dubbo_decode_refines_framing t c l b :
  dubbo_rep c l (l ++ contents b) →
  match dubbo_frame t (l ++ contents b) with
  | FWait => ∃ c' b' m' l',
      DubboCodec_decode (c, b, fresh_metadata t) = (Return DecodeStatus_WaitForData, (c', b', m')) ∧
      dubbo_rep c' l' (l' ++ contents b') ∧ l' ++ contents b' = l ++ contents b
  | FDone n v => ∃ b' m',
      DubboCodec_decode (c, b, fresh_metadata t) = (Return DecodeStatus_Done, (new_DubboCodec, b', m')) ∧
      contents b' = zdrop n (l ++ contents b) ∧ view m' = v
  | FThrow e => ∃ c' b' m', DubboCodec_decode (c, b, fresh_metadata t) = (Throw e, (c', b', m'))
  | FPanic w => ∃ c' b' m', DubboCodec_decode (c, b, fresh_metadata t) = (Panic w, (c', b', m'))
  end.
Proof. apply rep_implements. Qed.
End decode.

(** ** Segmentation *)

Section segmentation.
Context {E : Envoy} {HL : Hessian2} {DA : DubboAny}.

(** The reader of a result is not limited to its body.  A body is closed when the
    attachment its type announces is in it. *)
Definition result_closed (body : bytes) : bool :=
  match hd_int32 body (hd_new 0) with
  | (Some tv, d) =>
      match RpcResponseType_of (u8 tv) with
      | Some type =>
          let '(_, _, has_value, has_attachment) := response_parts type in
          let d := if (has_value : bool) then (hd_string body d).2 else d in
          if (has_attachment : bool) then bool_decide (is_Some (hd_object body d).1) else true
      | None => true
      end
  | (None, _) => true
  end.

(** Requests, heartbeats and errors always are. *)
Definition self_contained (msg : bytes) : bool :=
  let h := read_header msg in
  dh_request h || dh_event h || negb (dh_status h =? Status_Ok) || result_closed (zdrop 16 msg).

(** Feeding the codec chunk by chunk, as long as it waits for more. *)
Fixpoint dubbo_feed (t : MessageType) (chunks : list bytes) (c : DubboCodec) (b : buffer) :
    option (DubboCodec * buffer) :=
  match chunks with
  | [] => Some (c, b)
  | chunk :: chunks =>
      match DubboCodec_decode (c, buf_add b chunk, fresh_metadata t) with
      | (Return DecodeStatus_WaitForData, (c, b, _)) => dubbo_feed t chunks c b
      | _ => None
      end
  end.

Context {L : EnvoyLaws E} {HLL : Hessian2Laws HL}.

Lemma deserializeRpcInvocation_app b b' k ctx i :
  contents b' = contents b ++ k → deserializeRpcInvocation b ctx = Return i → deserializeRpcInvocation b' ctx = Return i.
Proof.
  intros Hb. unfold deserializeRpcInvocation. rewrite Hb.
  destruct (hd_string (contents b) (hd_new 0)) as [v1 d1] eqn:H1.
  destruct (hd_string (contents b) d1) as [v2 d2] eqn:H2.
  destruct (hd_string (contents b) d2) as [v3 d3] eqn:H3.
  destruct (hd_string (contents b) d3) as [v4 d4] eqn:H4. cbv beta iota.
  destruct (ctx_body_size_ ctx <? hd_offset d4) eqn:Hsz; [done |].
  destruct v1, v2, v3, v4; try done.
  apply (hd_string_app _ k) in H1, H2, H3, H4. rewrite H1, H2, H3, H4. cbv beta iota. by rewrite Hsz.
Qed.

Lemma deserializeRpcResult_app b b' k ctx r :
  contents b' = contents b ++ k → ctx_body_size_ ctx ≤ zlen (contents b) → result_closed (contents b) = true →
  deserializeRpcResult b ctx = Return r → deserializeRpcResult b' ctx = Return r.
Proof.
  intros Hb Hlen Hc. unfold deserializeRpcResult, result_closed in *.
  rewrite !buf_length_spec, Hb, zlen_app. pose proof (zlen_nonneg k).
  rewrite !(proj2 (Z.leb_le _ _)) by lia. cbn [assert_that mbind outcome_bind].
  destruct (hd_int32 (contents b) (hd_new 0)) as [[tv|] d1] eqn:H1; [| done].
  rewrite (hd_int32_app _ k _ _ _ H1). destruct (RpcResponseType_of (u8 tv)) as [type|]; [| done].
  destruct (response_parts type) as [[[hva exc] hv] ha].
  destruct hv.
  - destruct (hd_string (contents b) d1) as [[s|] d2] eqn:H2; [| done]. rewrite (hd_string_app _ k _ _ _ H2).
    cbn [snd mbind outcome_bind] in *. destruct ha; [| done].
    destruct (hd_object (contents b) d2) as [[o|] d3] eqn:H3; cbn [fst] in Hc; apply bool_decide_eq_true in Hc as [? Hx];
      [| done]. by rewrite (hd_object_app _ k _ _ _ H3).
  - cbn [mbind outcome_bind] in *. destruct ha; [| done].
    destruct (hd_object (contents b) d1) as [[o|] d3] eqn:H3; cbn [fst] in Hc; apply bool_decide_eq_true in Hc as [? Hx];
      [| done]. by rewrite (hd_object_app _ k _ _ _ H3).
Qed.

Lemma decodeData_app b b' k ctx mm mm' ok :
  contents b' = contents b ++ k → ctx_body_size_ ctx ≤ zlen (contents b) →
  (mm_message_type_ mm = DubboResponse → mm_response_status_ mm = Some Status_Ok → result_closed (contents b) = true) →
  decodeData b ctx mm = (Return ok, mm') → decodeData b' ctx mm = (Return ok, mm').
Proof.
  intros Hb Hlen Hc. unfold decodeData. rewrite !buf_length_spec, Hb, zlen_app. pose proof (zlen_nonneg k).
  rewrite !(proj2 (Z.ltb_ge _ _)) by lia. mstep. cbn [id].
  destruct (mm_message_type_ mm); mstep; try done.
  - case_bool_decide as Hst; cbn [negb]; [| done]. mstep.
    destruct (deserializeRpcResult b ctx) as [r| |] eqn:Hr; mstep; try done.
    by rewrite (deserializeRpcResult_app _ _ _ _ _ Hb Hlen (Hc eq_refl Hst) Hr).
  - destruct (deserializeRpcInvocation b ctx) as [i| |] eqn:Hi; mstep; try done.
    by rewrite (deserializeRpcInvocation_app _ _ _ _ _ Hb Hi).
  - destruct (deserializeRpcInvocation b ctx) as [i| |] eqn:Hi; mstep; try done.
    by rewrite (deserializeRpcInvocation_app _ _ _ _ _ Hb Hi).
Qed.

Lemma self_contained_closed msg :
  let mm := with_header (read_header msg) new_MessageMetadata in
  self_contained msg = true → dh_event (read_header msg) = false →
  mm_message_type_ mm = DubboResponse → mm_response_status_ mm = Some Status_Ok →
  result_closed (zdrop 16 msg) = true.
Proof.
  unfold self_contained, with_header. intros Hc Hev. rewrite Hev in Hc.
  destruct (dh_request (read_header msg)) eqn:Hreq.
  - cbn. intros Ht. exfalso. unfold read_header in *. cbn [dh_request dh_event dh_type] in *. rewrite Hreq, Hev in Ht.
    by destruct (has_flag _ TwoWayMask).
  - intros _. change (Some (dh_status (read_header msg)) = Some Status_Ok → result_closed (zdrop 16 msg) = true).
    intros Hst%(inj Some). rewrite Hst in Hc. done.
Qed.

(** The bytes after a message that contains itself do not change it. *)
Lemma dubbo_frame_app t msg k v :
  is_bytes (msg ++ k) → dubbo_frame t msg = FDone (zlen msg) v → self_contained msg = true →
  dubbo_frame t (msg ++ k) = FDone (zlen msg) v.
Proof.
  intros Hby Hf Hc. pose proof (zlen_nonneg k).
  assert (16 ≤ zlen msg ∧ header_error msg = None ∧ 16 + dh_size (read_header msg) ≤ zlen msg) as (Hlen & He & Hn).
  { unfold dubbo_frame in Hf. destruct (Z.ltb_spec (zlen msg) 16); [done |]. destruct (header_error msg); [done |].
    cbv zeta in Hf. destruct (Z.ltb_spec (zlen msg) (16 + dh_size (read_header msg))); [done | auto]. }
  rewrite frame_complete in Hf by done. pose proof (header_size_range _ He).
  rewrite frame_complete; rewrite ?read_header_app, ?header_error_app, ?zlen_app by done; [| lia | done | lia].
  set (h := read_header msg) in *.
  assert (16 + dh_size h = zlen msg) as Hall.
  { destruct (read_body h (zdrop 16 msg)); try done. by destruct (msg_toMetadata _ _) as [[[]| |] [? ?]]; simplify_eq. }
  rewrite ztake_app by lia. destruct (read_body h (zdrop 16 msg)) as [mm| |] eqn:Hb; try done.
  assert (read_body h (zdrop 16 (msg ++ k)) = Return mm) as ->; [| done].
  unfold read_body in *. destruct (dh_event h) eqn:Hev; [done |]. rewrite zdrop_app by lia.
  apply Forall_app in Hby as [Hb1 Hb2].
  destruct (decodeData (buf_add buf_new (zdrop 16 msg)) _ _) as [[ok| |] mm1] eqn:Hd; try done.
  assert (contents (buf_add buf_new (zdrop 16 msg)) = zdrop 16 msg) as Hc1
    by (rewrite buf_add_spec, buf_new_spec by (by apply Forall_zdrop); done).
  erewrite decodeData_app; [exact Hb | | | | exact Hd]; rewrite ?Hc1.
  - rewrite buf_add_spec, buf_new_spec; [done |]. apply Forall_app. split; [by apply Forall_zdrop | done].
  - rewrite zlen_zdrop by lia. change (ctx_body_size_ (header_context h)) with (dh_size h). lia.
  - by apply self_contained_closed.
Qed.

(** A part of a message is waited for. *)
Lemma dubbo_frame_prefix t a k n v :
  dubbo_frame t (a ++ k) = FDone n v → zlen a < n → dubbo_frame t a = FWait.
Proof.
  intros Hf Hn. apply frame_wait. destruct (Z.ltb_spec (zlen a) 16) as [|Hlen]; [auto |]. right.
  unfold dubbo_frame in Hf. rewrite header_error_app, read_header_app in Hf by done. split_cmp; [done |].
  destruct (header_error a); [done |]. cbv zeta in Hf. split; [done |].
  destruct (zlen (a ++ k) <? _); [done |]. destruct (read_body _ _); try done.
  by destruct (msg_toMetadata _ _) as [[[]| |] [? ?]]; simplify_eq.
Qed.

Lemma dubbo_rep_app c l s k : dubbo_rep c l s → dubbo_rep c l (s ++ k).
Proof.
  intros [s' | mm ctx s' Hmm | origin s' Hlen He Hev Ho]; pose proof (zlen_nonneg k).
  - constructor.
  - constructor. destruct Hmm as [? | [? ?]]; [by left | right]. rewrite read_header_app, zlen_app by done. auto with lia.
  - rewrite <- (ztake_app 16 s' k) by lia. rewrite <- (read_header_app s' k) by done.
    apply rep_data; rewrite ?zlen_app, ?header_error_app, ?read_header_app, ?ztake_app by lia; [lia | done..].
Qed.

(** [c] and [b] hold the prefix [p] of a stream. *)
Definition holds (p : bytes) (c : DubboCodec) (b : buffer) : Prop :=
  ∃ l, dubbo_rep c l p ∧ l ++ contents b = p.

Lemma dubbo_feed_waits t chunks p rest n v c b :
  is_bytes (p ++ concat chunks ++ rest) → dubbo_frame t (p ++ concat chunks ++ rest) = FDone n v →
  zlen (p ++ concat chunks) < n → holds p c b →
  ∃ c' b', dubbo_feed t chunks c b = Some (c', b') ∧ holds (p ++ concat chunks) c' b'.
Proof.
  revert p c b. induction chunks as [|x chunks IH]; intros p c b Hby Hf Hn Hh; cbn [concat dubbo_feed] in *.
  { rewrite app_nil_r. eauto. }
  rewrite <- (assoc_L (++) x), (assoc_L (++) p x) in Hby, Hf. rewrite (assoc_L (++) p x) in Hn |- *.
  destruct Hh as (l & Hrep & Hl). assert (is_bytes x) as Hx by (rewrite !Forall_app in Hby; tauto).
  assert (l ++ contents (buf_add b x) = p ++ x) as Hpx by (rewrite buf_add_spec by done; rewrite (assoc_L (++)), Hl; done).
  pose proof (rep_implements t c l (buf_add b x)) as Him. unfold implements in Him. rewrite Hpx in Him.
  rewrite (dubbo_frame_prefix t _ _ _ _ Hf) in Him
    by (rewrite zlen_app in Hn; pose proof (zlen_nonneg (concat chunks)); lia).
  destruct Him as (c' & b' & m' & l' & -> & Hrep' & Hl'); [by apply dubbo_rep_app |].
  apply (IH (p ++ x) c' b'); try done. exists l'. rewrite <- Hl'. done.
Qed.

(** However a message is cut into reads, and whatever follows it, the codec
    decodes it the same: it waits at every read but the one that completes the
    message, then returns the metadata of the message decoded alone, and leaves
    exactly the bytes that follow.  The message has to contain itself: a result must
    hold the attachment its type announces. *)
Theorem dubbo_decode_segmented t msg v chunks last k :
  is_bytes (msg ++ k) → dubbo_frame t msg = FDone (zlen msg) v → self_contained msg = true →
  concat chunks ++ last = msg ++ k → zlen (concat chunks) < zlen msg →
  ∃ c b b' m', dubbo_feed t chunks new_DubboCodec buf_new = Some (c, b) ∧
    DubboCodec_decode (c, buf_add b last, fresh_metadata t) = (Return DecodeStatus_Done, (new_DubboCodec, b', m')) ∧
    contents b' = k ∧ view m' = v.
Proof.
  intros Hby Hf Hc Hcut Hn. pose proof (dubbo_frame_app _ _ _ _ Hby Hf Hc) as Hfk. rewrite <- Hcut in Hfk, Hby.
  destruct (dubbo_feed_waits t chunks [] last (zlen msg) v new_DubboCodec buf_new) as (c & b & Hfeed & l & Hrep & Hl);
    [done | done | done | |].
  { exists []. split; [constructor | by rewrite buf_new_spec]. }
  cbn [app] in *. apply Forall_app in Hby as [_ Hlast].
  assert (l ++ contents (buf_add b last) = msg ++ k) as Hs
    by (rewrite buf_add_spec, (assoc_L (++)), Hl by done; done).
  pose proof (rep_implements t c l (buf_add b last)) as Him. unfold implements in Him.
  rewrite Hs, <- Hcut, Hfk in Him. destruct Him as (b' & m' & Hdec & Hb' & Hv).
  { by apply dubbo_rep_app. }
  exists c, b, b', m'. rewrite Hcut, zdrop_app_exact in Hb'. done.
Qed.
End segmentation.

(** ** A small Hessian2

    Compact strings, compact integers, null and untyped maps of strings, in their
    encoding: the laws can hold, and the examples below compute. *)

Definition text (bs : bytes) : string :=
  String.string_of_list_ascii ((λ z, ascii_of_N (Z.to_N z)) <$> bs).
Definition untext (s : string) : bytes := (λ c, Z.of_N (N_of_ascii c)) <$> String.list_ascii_of_string s.

Definition mini_string (bs : bytes) (o : Z) : option string * Z :=
  match zdrop o bs with
  | n :: rest => if (0 <=? n) && (n <? 32) && (n <=? zlen rest) then (Some (text (ztake n rest)), o + 1 + n) else (None, o)
  | [] => (None, o)
  end.
Definition mini_int32 (bs : bytes) (o : Z) : option Z * Z :=
  match zdrop o bs with
  | n :: _ => if (128 <=? n) && (n <? 192) then (Some (n - 144), o + 1) else (None, o)
  | [] => (None, o)
  end.
Fixpoint mini_entries (fuel : nat) (bs : bytes) (o : Z) : option (list (string * string) * Z) :=
  match fuel with
  | O => None
  | S fuel =>
      if decide (head (zdrop o bs) = Some 90) then Some ([], o + 1)
      else
        let '(k, o) := mini_string bs o in
        let '(v, o) := mini_string bs o in
        match k, v with
        | Some k, Some v => prod_map (cons (k, v)) id <$> mini_entries fuel bs o
        | _, _ => None
        end
  end.
Inductive mini_object : Type := OString (s : string) | OMap (m : list (string * string)) | ONull.
Definition mini_object_decode (bs : bytes) (o : Z) : option mini_object * Z :=
  if decide (head (zdrop o bs) = Some 72) then
    match mini_entries (length bs) bs (o + 1) with Some (m, o) => (Some (OMap m), o) | None => (None, o) end
  else if decide (head (zdrop o bs) = Some 78) then (Some ONull, o + 1)
  else let '(s, o) := mini_string bs o in (OString <$> s, o).

Fixpoint mini_find (k : string) (m : list (string * string)) : option string :=
  match m with [] => None | (k', v) :: m => if decide (k = k') then Some v else mini_find k m end.
Definition mini_encode_string (s : string) : bytes := u8 (zlen (untext s)) :: untext s.

Definition mini_hessian : Hessian2 := {|
  HDecoder := Z;
  hd_new o := o;
  hd_offset o := o;
  hd_string := mini_string;
  hd_int32 := mini_int32;
  Object := mini_object;
  hd_object := mini_object_decode;
  toString o := match o with OString s => Some s | _ => None end;
  UntypedMap := list (string * string);
  as_untyped_map o := match o with OMap m => Some m | _ => None end;
  map_new := [];
  map_entries m := (λ '(k, v), (OString k, OString v)) <$> m;
  map_emplace k v m := match mini_find k m with Some _ => m | None => m ++ [(k, v)] end;
  map_erase k m := filter (λ e, e.1 ≠ k) m;
  map_find k m := OString <$> mini_find k m;
  he_map m := 72 :: concat ((λ '(k, v), mini_encode_string k ++ mini_encode_string v) <$> m) ++ [90]
|}.

Lemma zdrop_cons_bound {A} o (l : list A) x r : zdrop o l = x :: r → o + 1 + zlen r ≤ zlen l ∧ (0 ≤ o → zlen l = o + 1 + zlen r).
Proof.
  intros Hd. assert (zlen (zdrop o l) = 1 + zlen r) as Hl by (rewrite Hd, zlen_cons; lia).
  unfold zdrop, zlen in *. rewrite length_drop in Hl. lia.
Qed.
Lemma zdrop_cons_app {A} o (l k : list A) x r : zdrop o l = x :: r → zdrop o (l ++ k) = x :: r ++ k.
Proof.
  intros Hd. unfold zdrop in *. assert (length (drop (Z.to_nat o) l) = S (length r)) as Hl by (by rewrite Hd).
  rewrite length_drop in Hl. rewrite drop_app_le, Hd by lia. done.
Qed.

Lemma mini_string_offset bs o : o ≤ (mini_string bs o).2 ≤ o `max` zlen bs.
Proof.
  unfold mini_string. destruct (zdrop o bs) as [|n r] eqn:Hd; cbn [snd]; [lia |].
  destruct (_ && _) eqn:Hb; cbn [snd]; [| lia]. rewrite !andb_true_iff, !Z.leb_le in Hb.
  apply zdrop_cons_bound in Hd as [Hd _]. lia.
Qed.
Lemma mini_string_app bs k o v o' : mini_string bs o = (Some v, o') → mini_string (bs ++ k) o = (Some v, o').
Proof.
  unfold mini_string. destruct (zdrop o bs) as [|n r] eqn:Hd; [done |]. rewrite (zdrop_cons_app _ _ _ _ _ Hd).
  destruct (_ && _) eqn:Hb; [| done]. rewrite !andb_true_iff, !Z.leb_le, Z.ltb_lt in Hb. pose proof (zlen_nonneg k).
  rewrite (proj2 (Z.leb_le 0 n)), (proj2 (Z.ltb_lt n 32)), (proj2 (Z.leb_le n _)) by (rewrite ?zlen_app; lia).
  cbn [andb]. rewrite ztake_app by lia. done.
Qed.

Lemma head_zdrop_app {A} o (l k : list A) x : head (zdrop o l) = Some x → head (zdrop o (l ++ k)) = Some x.
Proof. destruct (zdrop o l) as [|y r] eqn:Hd; cbn; [done |]. intros [= ->]. by rewrite (zdrop_cons_app _ _ _ _ _ Hd). Qed.
Lemma head_zdrop_bound {A} o (l : list A) x : head (zdrop o l) = Some x → o + 1 ≤ zlen l.
Proof.
  destruct (zdrop o l) as [|y r] eqn:Hd; cbn; [done |]. intros _. apply zdrop_cons_bound in Hd as [Hd _].
  pose proof (zlen_nonneg r). lia.
Qed.
Lemma mini_string_head bs o v o' : mini_string bs o = (Some v, o') → ∃ n, head (zdrop o bs) = Some n ∧ n < 32.
Proof.
  unfold mini_string. destruct (zdrop o bs) as [|n r]; [done |]. destruct (_ && _) eqn:Hb; [| done]. intros _.
  rewrite !andb_true_iff, Z.ltb_lt in Hb. exists n. split; [done | lia].
Qed.

Lemma mini_entries_offset fuel bs o l o' : mini_entries fuel bs o = Some (l, o') → o ≤ o' ≤ o `max` zlen bs.
Proof.
  revert o l. induction fuel as [|fuel IH]; intros o l; cbn [mini_entries]; [done |].
  destruct (decide _) as [Hh|_]; [intros [= _ <-]; apply head_zdrop_bound in Hh; lia |].
  pose proof (mini_string_offset bs o). destruct (mini_string bs o) as [k o1]; cbn [snd] in *.
  pose proof (mini_string_offset bs o1). destruct (mini_string bs o1) as [v o2]; cbn [snd] in *.
  destruct k, v; try done. intros ([l' o''] & Hm & [= -> ->])%fmap_Some. apply IH in Hm. cbn. lia.
Qed.
Lemma mini_entries_app fuel fuel' bs k o r : (fuel ≤ fuel')%nat →
  mini_entries fuel bs o = Some r → mini_entries fuel' (bs ++ k) o = Some r.
Proof.
  revert fuel' o r. induction fuel as [|fuel IH]; intros [|fuel'] o r Hle; cbn [mini_entries]; try done; [lia |].
  destruct (decide (head (zdrop o bs) = Some 90)) as [Hh|Hh].
  { by rewrite decide_True by by apply head_zdrop_app. }
  destruct (mini_string bs o) as [[k1|] o1] eqn:H1; [| by destruct (mini_string bs o1)].
  destruct (mini_string bs o1) as [[v1|] o2] eqn:H2; [| done].
  destruct (mini_string_head _ _ _ _ H1) as (n & Hn & Hn32).
  rewrite decide_False by (rewrite (head_zdrop_app _ _ _ _ Hn); intros [= ->]; lia).
  rewrite (mini_string_app _ _ _ _ _ H1), (mini_string_app _ _ _ _ _ H2). cbv beta iota.
  intros (r' & Hm & ->)%fmap_Some. rewrite (IH fuel' _ r'); [done | lia | done].
Qed.

Lemma mini_find_app k m m' : mini_find k (m ++ m') = match mini_find k m with Some v => Some v | None => mini_find k m' end.
Proof. induction m as [|[k1 v1] m IH]; cbn; [done |]. by case_decide. Qed.
Lemma mini_find_filter k k' m :
  mini_find k' (filter (λ e, e.1 ≠ k) m) = if decide (k = k') then None else mini_find k' m.
Proof.
  induction m as [|[k1 v1] m IH]; [by case_decide |]. rewrite filter_cons. cbn [fst mini_find].
  repeat case_decide; cbn [mini_find]; subst; try done; by rewrite ?decide_True, ?decide_False, ?IH, ?decide_False by done.
Qed.
Lemma untext_bytes s : is_bytes (untext s).
Proof.
  unfold untext. apply Forall_fmap, Forall_forall. intros c _. unfold compose, is_byte. pose proof (N_ascii_bounded c). lia.
Qed.

Lemma mini_hessian_laws : Hessian2Laws mini_hessian.
Proof.
  split.
  - done.
  - apply mini_string_offset.
  - intros bs o. cbn. unfold mini_object_decode. destruct (decide _) as [Hh|_].
    { apply head_zdrop_bound in Hh. destruct (mini_entries _ _ _) as [[m o']|] eqn:Hm; cbn [snd]; [| lia].
      apply mini_entries_offset in Hm. lia. }
    destruct (decide _) as [Hh|_]; [apply head_zdrop_bound in Hh; cbn [snd]; lia |].
    pose proof (mini_string_offset bs o). by destruct (mini_string bs o).
  - apply mini_string_app.
  - intros bs k o v o'. cbn. unfold mini_int32. destruct (zdrop o bs) as [|n r] eqn:Hd; [done |].
    by rewrite (zdrop_cons_app _ _ _ _ _ Hd).
  - intros bs k o v o'. cbn. unfold mini_object_decode. destruct (decide (head (zdrop o bs) = Some 72)) as [Hh|H72].
    { rewrite decide_True by by apply head_zdrop_app. destruct (mini_entries (length bs) _ _) as [[m o1]|] eqn:Hm; [| done].
      rewrite (mini_entries_app (length bs) (length (bs ++ k)) _ k _ _ ltac:(rewrite length_app; lia) Hm). done. }
    destruct (decide (head (zdrop o bs) = Some 78)) as [Hh|H78].
    { apply head_zdrop_app with (k := k) in Hh. by rewrite decide_False, decide_True by (rewrite Hh; done). }
    destruct (mini_string bs o) as [[s|] o1] eqn:H1; [| done].
    destruct (mini_string_head _ _ _ _ H1) as (n & Hn & Hn32). apply head_zdrop_app with (k := k) in Hn.
    rewrite !decide_False by (rewrite Hn; intros [= ->]; lia). by rewrite (mini_string_app _ _ _ _ _ H1).
  - intros m. cbn. constructor; [done |]. apply Forall_app. split; [| by repeat constructor].
    apply Forall_concat, Forall_fmap, Forall_forall. intros [k v] _. cbn. unfold mini_encode_string.
    pose proof (untext_bytes k). pose proof (untext_bytes v).
    constructor; [apply u8_range |]. apply Forall_app. split; [done |]. constructor; [apply u8_range | done].
  - intros k k' m. cbn. rewrite mini_find_filter. by case_decide.
  - intros k k' v m. cbn. destruct (mini_find k m) as [v1|] eqn:Hk.
    { rewrite decide_False; [done |]. intros [_ ?]. done. }
    rewrite mini_find_app. cbn. destruct (decide (k = k')) as [<-|Hne].
    + rewrite Hk, !decide_True by done. done.
    + rewrite (decide_False (P := k' = k)), (decide_False (P := _ ∧ _)) by (try intros [? ?]; congruence). by destruct (mini_find k' m).
Qed.
