(* ===== verification/DubboBehaviour.v ===== *)
(** * What the Dubbo codec guarantees

    The checks on a header, the metadata of a decoded message and its way back
    ([toMetadata], [toMsgMetadata]), the rewriting of attachments, heartbeats, and
    the messages that stop the process. *)

From S2P Require Import Prelude Envoy Metadata Codec Dubbo DubboSpec.

(** Running the first steps of [msg_toMetadata]. *)
Lemma on_metadata_bind `{Envoy, Hessian2} {A} f (k : unit → M (MessageMetadata * MetadataImpl) A) mm m :
  (on_metadata f ≫= k) (mm, m) = k tt (mm, f m).
Proof. done. Qed.
Lemma gets_bind {S A B} (f : S → A) (k : A → M S B) s : (gets f ≫= k) s = k (f s) s.
Proof. done. Qed.
Ltac msg_step := repeat first [rewrite on_metadata_bind | rewrite gets_bind | rewrite bind_ret_l | rewrite bind_assoc | progress cbn [fst]].

Section behaviour.
Context {E : Envoy} {HL : Hessian2} {DA : DubboAny} {L : EnvoyLaws E}.

(** ** Headers *)

(** What the protocol says of a header, read from its bytes: the flags are bits 7
    (request), 6 (two way) and 5 (event) of the third byte, over five bits of
    serialization, of which Hessian 2 is number 2; the statuses are those of
    [ResponseStatus] in message.h. *)
Definition response_statuses : list Z := [20; 30; 31; 40; 50; 60; 70; 80; 90; 100].
Definition well_formed_header (bs : bytes) : Prop :=
  be_at 2 0 bs = 0xdabb ∧ be_at 4 12 bs ≤ 16 * 1024 * 1024 ∧
  if Z.testbit (be_at 1 2 bs) 7 then be_at 1 2 bs `mod` 32 = 2 else be_at 1 3 bs ∈ response_statuses.
Definition header_message_type (bs : bytes) : DubboMessageType :=
  match Z.testbit (be_at 1 2 bs) 7, Z.testbit (be_at 1 2 bs) 5 with
  | true, true => DubboHeartbeatRequest
  | true, false => if Z.testbit (be_at 1 2 bs) 6 then DubboRequest else DubboOneway
  | false, true => DubboHeartbeatResponse
  | false, false => DubboResponse
  end.

Lemma has_flag_bit z i : 0 ≤ i → has_flag z (2 ^ i) = Z.testbit z i.
Proof.
  intros Hi. unfold has_flag. apply eq_true_iff_eq. rewrite Z.eqb_eq. split.
  - intros H. apply (f_equal (λ x, Z.testbit x i)) in H. rewrite Z.land_spec, Z.pow2_bits_true in H by lia.
    by rewrite andb_true_r in H.
  - intros H. apply Z.bits_inj'. intros n Hn. rewrite Z.land_spec, Z.pow2_bits_eqb by lia.
    destruct (Z.eqb_spec i n) as [<- |]; [by rewrite H | by rewrite andb_false_r].
Qed.

(** The header the decoder reads is the one the bytes have. *)
Lemma read_header_bits (b : buffer) (bs := contents b) :
  let h := read_header bs in
  dh_request h = Z.testbit (be_at 1 2 bs) 7 ∧ dh_event h = Z.testbit (be_at 1 2 bs) 5 ∧
  dh_type h = header_message_type bs ∧ Z.land (be_at 1 2 bs) SerializationTypeMask = be_at 1 2 bs `mod` 32.
Proof using Type.
  cbv zeta.
  assert (∀ i, 0 ≤ i → has_flag (be_at 1 2 bs) (2 ^ i) = Z.testbit (be_at 1 2 bs) i) as Hf by (intros; by apply has_flag_bit).
  pose proof (Hf 7 ltac:(lia)) as H7. pose proof (Hf 6 ltac:(lia)) as H6. pose proof (Hf 5 ltac:(lia)) as H5.
  change (2 ^ 7) with MessageTypeMask in H7. change (2 ^ 6) with TwoWayMask in H6. change (2 ^ 5) with EventMask in H5.
  unfold read_header, header_message_type. cbn [dh_request dh_event dh_type]. rewrite H7, H6, H5. split_and!; try done.
  change SerializationTypeMask with (Z.ones 5). by rewrite Z.land_ones by lia.
Qed.

(** Apart from [ServerError], the decoder takes the statuses the protocol has. *)
Lemma response_statuses_valid z : z ≠ 80 → isValidResponseStatus z = true ↔ z ∈ response_statuses.
Proof.
  intros Hz. unfold isValidResponseStatus, response_statuses, Status_Ok, Status_ClientTimeout, Status_ServerTimeout,
    Status_BadRequest, Status_BadResponse, Status_ServiceNotFound, Status_ServiceError, Status_ClientError,
    Status_ServerThreadpoolExhaustedError.
  rewrite !orb_true_iff, !Z.eqb_eq, !list_elem_of_In. cbn [In]. lia.
Qed.

(** A header has no error exactly when it is well formed. *)
Lemma header_error_well_formed b (bs := contents b) : 16 ≤ zlen bs →
  (Z.testbit (be_at 1 2 bs) 7 = false → be_at 1 3 bs ≠ 80) → header_error bs = None ↔ well_formed_header bs.
Proof using L.
  intros Hlen H80. destruct (read_header_bits b) as (Hreq & _ & _ & Hser). fold bs in Hreq, Hser.
  pose proof (be_at_bound 4 12 bs (contents_bytes b) ltac:(done) ltac:(done) Hlen) as Hb.
  unfold header_error, well_formed_header. rewrite Hser, Hreq.
  change (dh_size (read_header bs)) with (to_i32 (be_at 4 12 bs)). change (dh_status (read_header bs)) with (be_at 1 3 bs).
  assert ((MaxBodySize <? to_i32 (be_at 4 12 bs)) || (to_i32 (be_at 4 12 bs) <? 0) = negb (be_at 4 12 bs <=? 16 * 1024 * 1024)) as ->.
  { unfold to_i32, MaxBodySize. rewrite u32_small by lia. apply eq_true_iff_eq.
    rewrite orb_true_iff, negb_true_iff, !Z.ltb_lt, Z.leb_gt. destruct (Z.ltb_spec (be_at 4 12 bs) (2 ^ 31)); lia. }
  change MagicNumber with 0xdabb. unfold isValidSerializationType. change SerializationType_Hessian2 with 2.
  destruct (Z.eqb_spec (be_at 2 0 bs) 0xdabb); cbn [negb]; [| intuition done].
  destruct (Z.leb_spec (be_at 4 12 bs) (16 * 1024 * 1024)); cbn [negb]; [| intuition (done || lia)].
  destruct (Z.testbit (be_at 1 2 bs) 7); cbn [andb negb].
  - destruct (Z.eqb_spec (be_at 1 2 bs `mod` 32) 2); cbn [negb]; intuition done.
  - rewrite <- response_statuses_valid by auto. destruct (isValidResponseStatus _); cbn [negb]; intuition done.
Qed.

(** C17: a header is decoded as the protocol says.  Less than sixteen bytes are waited
    for.  A well-formed header (the magic number, a body of at most 16 MiB, Hessian 2 in a
    request, a status of [ResponseStatus] in a response) is accepted, and the metadata
    gets its id, its type and its status, the context its sizes; any other is an
    [EnvoyException].  This is for the headers that are not a response with the status
    [ServerError]. *)
Theorem dubbo_header_checked b mm (bs := contents b)
    (Hstatus : Z.testbit (be_at 1 2 bs) 7 = false → be_at 1 3 bs ≠ 80) :
  (zlen bs < 16 → decodeHeader b mm = (Return None, mm)) ∧
  (16 ≤ zlen bs → well_formed_header bs → ∃ ctx mm', decodeHeader b mm = (Return (Some ctx), mm') ∧
     ctx = new_ContextImpl <| ctx_header_size_ := 16 |> <| ctx_body_size_ := be_at 4 12 bs |>
                           <| is_heartbeat_ := Z.testbit (be_at 1 2 bs) 5 |> ∧
     mm' = (let mm := mm <| mm_request_id_ := to_i64 (be_at 8 4 bs) |> <| mm_message_type_ := header_message_type bs |> in
            if Z.testbit (be_at 1 2 bs) 7 then mm <| mm_serialization_type_ := 2 |>
            else mm <| mm_response_status_ := Some (be_at 1 3 bs) |>)) ∧
  (16 ≤ zlen bs → ¬ well_formed_header bs → ∃ what mm', decodeHeader b mm = (Throw (EnvoyException what), mm')).
Proof.
  split; [by apply decodeHeader_wait |].
  split; intros Hlen Hw; pose proof (header_error_well_formed b Hlen Hstatus) as Hwf; fold bs in Hwf; pose proof (dubbo_decodeHeader_spec b mm Hlen) as Hd; fold bs in Hd.
  - pose proof (proj2 Hwf Hw) as He. rewrite He in Hd. rewrite Hd. do 2 eexists. split; [done |].
    destruct (read_header_bits b) as (Hreq & Hev & Hty & _). fold bs in Hreq, Hev, Hty.
    unfold header_context, with_header. rewrite Hev, Hty, Hreq. split; [| done].
    change (dh_size (read_header bs)) with (to_i32 (be_at 4 12 bs)).
    pose proof (be_at_bound 4 12 bs (contents_bytes b) ltac:(done) ltac:(done) Hlen). destruct Hw as (_ & Hsz & _). unfold to_i32. rewrite u32_small by lia.
    by rewrite (proj2 (Z.ltb_lt _ _)) by lia.
  - destruct (header_error bs) as [e|] eqn:He; [| by destruct (Hw (proj1 Hwf eq_refl))].
    destruct (decodeHeader b mm) as [o mm']. cbn in Hd. subst o. unfold header_error in He.
    repeat (case_match; simplify_eq); by do 2 eexists.
Qed.

(** A response that says [ServerError] is not decoded. *)
Lemma dubbo_server_error_rejected b mm :
  16 ≤ zlen (contents b) → be_at 2 0 (contents b) = MagicNumber → 0 ≤ to_i32 (be_at 4 12 (contents b)) ≤ MaxBodySize →
  has_flag (be_at 1 2 (contents b)) MessageTypeMask = false → be_at 1 3 (contents b) = Status_ServerError →
  (decodeHeader b mm).1 = Throw (EnvoyException "invalid dubbo message response status 80").
Proof.
  intros Hlen Hm Hsz Hreq Hst. pose proof (dubbo_decodeHeader_spec b mm Hlen) as Hd. unfold header_error in Hd.
  cbn [read_header dh_size dh_request dh_status] in Hd. rewrite Hm, Hreq, Hst, Z.eqb_refl in Hd.
  rewrite !(proj2 (Z.ltb_ge _ _)) in Hd by lia. exact Hd.
Qed.

(** ** From the message to the metadata and back *)

(** The properties every message gets, a result apart. *)
Definition described (mm : MessageMetadata) (m : MetadataImpl) : MetadataImpl :=
  let m := put_dubbo "InvocationInfo" (AnyInvocation (mm_invocation_info_ mm)) m in
  let m := put_dubbo "ProtocolType" (AnyProtocolType (mm_proto_type_ mm)) m in
  let m := put_dubbo "ProtocolVersion" (AnyUint8 (mm_protocol_version_ mm)) m in
  let m := put_dubbo "MessageType" (AnyMessageType (mm_message_type_ mm)) m in
  let m := setRequestId (mm_request_id_ mm) m in
  let m := put "TwoWay" (AnyBool (mm_is_two_way_ mm)) m in
  let m := put_dubbo "SerializationType" (AnySerializationType (mm_serialization_type_ mm)) m in
  let m := match mm_response_status_ mm with
           | Some status => put_dubbo "ResponseStatus" (AnyResponseStatus status) m
           | None => m
           end in
  let m := setMessageType (toMessageType (mm_message_type_ mm)) m in
  match mm_response_status_ mm with
  | Some status => setResponseStatus (if status =? Status_Ok then ResponseStatus_Ok else ResponseStatus_Error) m
  | None => m
  end.

(** The properties of an invocation. *)
Definition with_invocation (i : RpcInvocationImpl) (a : Attachment) (m : MetadataImpl) : MetadataImpl :=
  let m := putString "interface" (service_name_ i) m in
  let m := putString "method" (method_name_ i) m in
  let m := setOperationName (service_name_ i +:+ "/" +:+ method_name_ i) m in
  put_strings (string_entries (map_entries (attachment_map_ a))) m.

Lemma msg_toMetadata_plain origin mm m :
  mm_invocation_info_ mm = None → mm_result_info_ mm = None → mm_timeout_ mm = None →
  msg_toMetadata origin (mm, m) = (Return tt, (mm, described mm m)).
Proof.
  intros Hi Hr Ht. unfold msg_toMetadata. msg_step. rewrite Hi. msg_step. rewrite Ht, Hr. msg_step.
  unfold described. rewrite Hi. destruct (mm_response_status_ mm); msg_step; done.
Qed.

Lemma msg_toMetadata_invocation origin mm m i :
  mm_invocation_info_ mm = Some i → mm_result_info_ mm = None → mm_timeout_ mm = None →
  match attachment origin i with
  | (Return a, i') =>
      msg_toMetadata origin (mm, m) =
        (Return tt, (mm <| mm_invocation_info_ := Some i' |>,
                     described (mm <| mm_invocation_info_ := Some i' |>) (with_invocation i a m)))
  | (Throw e, _) => (msg_toMetadata origin (mm, m)).1 = Throw e
  | (Panic w, _) => (msg_toMetadata origin (mm, m)).1 = Panic w
  end.
Proof.
  intros Hi Hr Ht. unfold msg_toMetadata. msg_step. rewrite Hi. msg_step. rewrite run_bind.
  unfold on_invocation. rewrite Hi. destruct (attachment origin i) as [[a|e|w] i']; [| done | done]. msg_step.
  set (mm1 := mm <| mm_invocation_info_ := Some i' |>).
  change (mm_timeout_ mm1) with (mm_timeout_ mm). change (mm_result_info_ mm1) with (mm_result_info_ mm).
  change (mm_response_status_ mm1) with (mm_response_status_ mm). rewrite Ht, Hr. msg_step. unfold described.
  change (mm_response_status_ mm1) with (mm_response_status_ mm). destruct (mm_response_status_ mm); msg_step; done.
Qed.

(** *** The way back *)

Lemma toMsgMetadata_ext m m' :
  properties_ m = properties_ m' → request_id_ m = request_id_ m' → toMsgMetadata m = toMsgMetadata m'.
Proof. intros Hp Hr. unfold toMsgMetadata, getBool, getByKey. by rewrite Hp, Hr. Qed.

Lemma properties_described mm m :
  properties_ (described mm m) =
    (match mm_response_status_ mm with
     | Some status => <["ResponseStatus" := AnyOther (dubbo_inj (AnyResponseStatus status))]>
     | None => id
     end
       (<["SerializationType" := AnyOther (dubbo_inj (AnySerializationType (mm_serialization_type_ mm)))]>
       (<["TwoWay" := AnyBool (mm_is_two_way_ mm)]>
       (<["MessageType" := AnyOther (dubbo_inj (AnyMessageType (mm_message_type_ mm)))]>
       (<["ProtocolVersion" := AnyOther (dubbo_inj (AnyUint8 (mm_protocol_version_ mm)))]>
       (<["ProtocolType" := AnyOther (dubbo_inj (AnyProtocolType (mm_proto_type_ mm)))]>
       (<["InvocationInfo" := AnyOther (dubbo_inj (AnyInvocation (mm_invocation_info_ mm)))]> (properties_ m)))))))).
Proof. unfold described. by destruct (mm_response_status_ mm). Qed.

(** The keys [toMsgMetadata] reads and [described] does not write. *)
Definition unreserved (mm : MessageMetadata) (m : MetadataImpl) : Prop :=
  getByKey "RpcResultInfo" m = None ∧ getByKey "Timeout" m = None ∧
  (mm_response_status_ mm = None → getByKey "ResponseStatus" m = None).

Lemma toMsgMetadata_described mm m m' :
  properties_ m' = properties_ (described mm m) → request_id_ m' = u64 (mm_request_id_ mm) →
  unreserved mm m → mm_result_info_ mm = None → mm_timeout_ mm = None →
  to_i64 (u64 (mm_request_id_ mm)) = mm_request_id_ mm →
  toMsgMetadata m' = Return mm.
Proof.
  intros Hp Hid (Hri & Hti & Hst) Hr Ht Hi64. unfold toMsgMetadata, getBool, getByKey in *.
  rewrite Hp, properties_described, Hid, Hi64.
  destruct mm as [tw ty pt st ti inv res ser ver id0]. cbn in *. subst res ti.
  destruct st as [st|].
  all: repeat first [rewrite lookup_insert_eq | rewrite lookup_insert_ne by done].
  - rewrite Hri, Hti. unfold any_cast. rewrite !dubbo_proj_inj. done.
  - unfold id. repeat first [rewrite lookup_insert_eq | rewrite lookup_insert_ne by done].
    rewrite Hri, Hti, Hst by done. unfold any_cast. rewrite !dubbo_proj_inj. done.
Qed.

(** ** Heartbeats *)

Lemma frame_heartbeat t bs :
  let h := read_header bs in
  16 ≤ zlen bs → header_error bs = None → dh_event h = true → 16 + dh_size h ≤ zlen bs →
  dubbo_frame t bs =
    FDone (16 + dh_size h)
      ((setBodySize (dh_size h) (setHeaderSize 16 (described (with_header h new_MessageMetadata) (fresh_metadata t))))
         <| origin_message_ := buf_new |>, ztake (16 + dh_size h) bs).
Proof.
  intros h Hlen He Hev Hn. rewrite frame_complete by done. fold h. unfold read_body. rewrite Hev.
  by rewrite msg_toMetadata_plain by (unfold with_header; by destruct (dh_request h)).
Qed.

(** What a heartbeat is decoded to. *)
Lemma decode_heartbeat t b :
  let h := read_header (contents b) in
  16 ≤ zlen (contents b) → header_error (contents b) = None → dh_event h = true →
  16 + dh_size h ≤ zlen (contents b) →
  ∃ rest m, DubboCodec_decode (new_DubboCodec, b, fresh_metadata t) = (Return DecodeStatus_Done, (new_DubboCodec, rest, m)) ∧
    contents rest = zdrop (16 + dh_size h) (contents b) ∧
    properties_ m = properties_ (described (with_header h new_MessageMetadata) (fresh_metadata t)) ∧
    message_type_ m = MessageType_Heartbeat ∧ request_id_ m = u64 (dh_id h).
Proof.
  intros h Hlen He Hev Hn. pose proof (rep_implements t new_DubboCodec [] b (rep_new _)) as Him. unfold implements in Him.
  cbn [app] in Him. rewrite frame_heartbeat in Him by done. fold h in Him.
  destruct Him as (rest & m & Hd & Hr & Hv). exists rest, m. split; [done |]. split; [done |].
  assert (∀ A (f : MetadataImpl → A), (∀ x o, f (x <| origin_message_ := o |>) = f x) → f m = f (view m).1) as Hf.
  { intros A f Hf. unfold view. cbn [fst]. by rewrite Hf. }
  assert (mm_message_type_ (with_header h new_MessageMetadata) = dh_type h) as Hty
    by (unfold with_header; by destruct (dh_request h)).
  assert (mm_request_id_ (with_header h new_MessageMetadata) = dh_id h) as Hid
    by (unfold with_header; by destruct (dh_request h)).
  assert (toMessageType (dh_type h) = MessageType_Heartbeat) as Hhb.
  { unfold h, read_header in *. cbn [dh_event dh_type] in *. rewrite Hev. by destruct (has_flag _ MessageTypeMask). }
  rewrite !(Hf _ properties_), !(Hf _ message_type_), !(Hf _ request_id_) by done. rewrite Hv. cbn [fst].
  split; [done |]. unfold described. rewrite Hty, Hid. destruct (mm_response_status_ _); by rewrite <- Hhb.
Qed.

Lemma be_split_mod n z : be_split n z = be_split n (z `mod` 256 ^ Z.of_nat n).
Proof. rewrite <- be_combine_split. rewrite <- (length_be_split n z) at 2. by rewrite be_split_combine by apply be_split_bytes. Qed.

(** The bytes of the reply to the request id [id]. *)
Definition heartbeat_reply (id : bytes) : bytes := [0xda; 0xbb; 0x22; 20] ++ id ++ [0; 0; 0; 1; 78].

Lemma header_of_reply id : zlen id = 8 → is_bytes id →
  let bs := heartbeat_reply id in
  header_error bs = None ∧ dh_event (read_header bs) = true ∧ dh_size (read_header bs) = 1 ∧ zlen bs = 17 ∧
  dh_id (read_header bs) = to_i64 (be_combine id).
Proof.
  intros Hl Hb. assert (length id = 8%nat) as Hl' by (unfold zlen in Hl; lia).
  do 8 (destruct id as [|? id]; [done |]). destruct id; [| done]. cbv zeta. repeat split.
Qed.

Definition reply_buffer (out : buffer) (id : Z) : buffer :=
  buf_writeByte (buf_writeBEInt 4 (buf_writeBEInt 8 (buf_writeByte (buf_writeByte
    (buf_writeBEInt 2 (buf_drain out (buf_length out)) MagicNumber) 0x22) 20) id) 1) 78.
Lemma Protocol_encode_heartbeat mm ctx out :
  mm_message_type_ mm = DubboHeartbeatResponse → mm_response_status_ mm = Some Status_Ok →
  mm_serialization_type_ mm = SerializationType_Hessian2 →
  Protocol_encode mm ctx "" out = (Return true, reply_buffer out (mm_request_id_ mm)).
Proof.
  intros Ht Hs Hser. unfold Protocol_encode. rewrite Ht, Hs, Hser. rewrite run_bind, bool_decide_true by done.
  cbn [ASSERT lift assert_that]. rewrite gets_bind, run_bind. cbn [id]. unfold drain. rewrite Z.leb_refl. done.
Qed.

(** A heartbeat request is answered with the seventeen bytes of a heartbeat
    response with the same id, whatever the buffer held, and decoding these gives a
    heartbeat with that id and nothing left. *)
Theorem dubbo_heartbeat_reply b out :
  let bs := contents b in
  16 ≤ zlen bs → header_error bs = None → dh_request (read_header bs) = true → dh_event (read_header bs) = true →
  16 + dh_size (read_header bs) ≤ zlen bs →
  ∃ rest m out' rest' m',
    DubboCodec_decode (new_DubboCodec, b, fresh_metadata MessageType_Request) =
      (Return DecodeStatus_Done, (new_DubboCodec, rest, m)) ∧
    message_type_ m = MessageType_Heartbeat ∧ request_id_ m = be_at 8 4 bs ∧
    DubboCodec_encode ∅ (out, m) = (Return tt, (out', m)) ∧
    contents out' = heartbeat_reply (ztake 8 (zdrop 4 bs)) ∧
    DubboCodec_decode (new_DubboCodec, out', fresh_metadata MessageType_Response) =
      (Return DecodeStatus_Done, (new_DubboCodec, rest', m')) ∧
    contents rest' = [] ∧ message_type_ m' = MessageType_Heartbeat ∧ request_id_ m' = request_id_ m.
Proof.
  intros bs Hlen He Hreq Hev Hn. pose proof (contents_bytes b) as Hby. fold bs in Hby.
  destruct (decode_heartbeat MessageType_Request b Hlen He Hev Hn) as (rest & m & Hd & _ & Hp & Ht & Hid).
  fold bs in Hp, Hid. set (h := read_header bs) in *. set (id := ztake 8 (zdrop 4 bs)).
  pose proof (be_at_bound 8 4 bs Hby ltac:(lia) ltac:(lia) ltac:(lia)) as Hidb.
  assert (u64 (dh_id h) = be_at 8 4 bs) as Hu.
  { unfold h. cbn [read_header dh_id]. rewrite to_i64_u64. apply u64_small. lia. }
  assert (zlen id = 8) as Hidl by (unfold id; apply zlen_ztake; rewrite zlen_zdrop; lia).
  assert (is_bytes id) as Hidby by (by apply Forall_ztake, Forall_zdrop).
  set (mm := with_header h new_MessageMetadata) in *.
  assert (mm = new_MessageMetadata <| mm_request_id_ := dh_id h |> <| mm_message_type_ := dh_type h |>
                 <| mm_serialization_type_ := SerializationType_Hessian2 |>) as Hmm
    by (unfold mm, with_header; by rewrite Hreq).
  assert (toMsgMetadata m = Return mm) as Hto.
  { eapply toMsgMetadata_described; [exact Hp | by rewrite Hid, Hmm | by rewrite Hmm.. | | |]; rewrite Hmm; try done.
    exact (f_equal to_i64 Hu). }
  set (out' := reply_buffer out (dh_id h)).
  assert (contents out' = heartbeat_reply id) as Hout.
  { unfold out', reply_buffer. pose proof (zlen_nonneg (contents out)).
    rewrite !buf_writeByte_spec, !buf_writeBEInt_spec, !buf_writeByte_spec, buf_writeBEInt_spec, buf_length_spec,
      buf_drain_spec, zdrop_all by lia. unfold heartbeat_reply. cbn [app]. rewrite (be_split_mod 8 (dh_id h)).
    change (dh_id h `mod` 256 ^ Z.of_nat 8) with (u64 (dh_id h)). rewrite Hu. unfold be_at. fold id.
    replace 8%nat with (length id) by (unfold zlen in Hidl; lia). rewrite be_split_combine by done.
    cbn. by rewrite <- !(assoc_L (++)). }
  destruct (header_of_reply id Hidl Hidby) as (He' & Hev' & Hsz' & Hl' & Hid').
  destruct (decode_heartbeat MessageType_Response out') as (rest' & m' & Hd' & Hr' & _ & Ht' & Hi');
    rewrite ?Hout, ?He', ?Hev', ?Hsz', ?Hl'; try done.
  exists rest, m, out', rest', m'. rewrite Hout, Hsz', Hid' in *.
  split; [done |]. split; [done |]. split; [by rewrite Hid |]. split; [| split; [done |]; split; [done |]].
  - unfold DubboCodec_encode. rewrite run_bind. cbn [gets]. cbn [snd]. rewrite Ht. unfold encodeHeartbeat.
    rewrite gets_bind. cbn [snd]. rewrite run_bind, Hto. unfold lift. cbv beta iota.
    unfold encode_or_throw. rewrite run_bind. unfold on_buffer.
    rewrite Protocol_encode_heartbeat by (rewrite Hmm; done). by rewrite Hmm.
  - split; [| split; [done |]].
    + rewrite Hr'. change (16 + 1) with 17. rewrite <- Hl'. apply zdrop_all.
    + rewrite Hi', to_i64_u64, Hid, Hu. unfold be_at. fold id. apply u64_small. exact Hidb.
Qed.
End behaviour.

(** ** Attachments *)

Section attachments.
Context {E : Envoy} {HL : Hessian2} {DA : DubboAny} {L : EnvoyLaws E} {HLL : Hessian2Laws HL}.

(** The delayed decoder only moves forward, and not past the end. *)
Definition advances (n : Z) (i i' : RpcInvocationImpl) : Prop :=
  hd_offset (delayed_ i) ≤ hd_offset (delayed_ i') ≤ hd_offset (delayed_ i) `max` n.
#[local] Instance advances_preorder n : PreOrder (advances n).
Proof. split; unfold advances; [intros ? | intros ???]; lia. Qed.

Lemma frames_delayed_string msg : frames (advances (zlen msg)) (delayed_decode hd_string (Some msg)).
Proof.
  intros i. unfold delayed_decode, advances. pose proof (hd_string_offset msg (delayed_ i)).
  by destruct (hd_string msg (delayed_ i)).
Qed.
Lemma frames_delayed_object msg : frames (advances (zlen msg)) (delayed_decode hd_object (Some msg)).
Proof.
  intros i. unfold delayed_decode, advances. pose proof (hd_object_offset msg (delayed_ i)).
  by destruct (hd_object msg (delayed_ i)).
Qed.
#[local] Hint Resolve frames_delayed_string frames_delayed_object : frames.
Lemma frames_decode_parameters msg number ps :
  frames (advances (zlen msg)) (decode_parameters number ps (Some msg)).
Proof. revert ps. induction number as [|number IH]; intros ps; cbn [decode_parameters]; frames_auto; auto. Qed.
#[local] Hint Resolve frames_decode_parameters : frames.
Lemma frames_assignParameters msg : frames (advances (zlen msg)) (assignParametersIfNeed (Some msg)).
Proof.
  unfold assignParametersIfNeed, parameters_lazy_callback. frames_auto.
  apply frames_modify. intros i. unfold advances. cbn. lia.
Qed.

(** What the first use of the attachment decodes. *)
Lemma attachment_first msg i a i' :
  attachment_ i = None → attachment (Some msg) i = (Return a, i') →
  attachment_ i' = Some a ∧ attachment_updated_ a = false ∧
  hd_offset (delayed_ i) ≤ attachment_offset_ a ≤ hd_offset (delayed_ i) `max` zlen msg.
Proof.
  intros Hn. unfold attachment, assignAttachmentIfNeed. rewrite run_bind, gets_bind. cbn [id]. rewrite Hn.
  rewrite run_bind. pose proof (frames_assignParameters msg i) as Ha. unfold advances in Ha.
  destruct (assignParametersIfNeed (Some msg) i) as [[[]| |] i1]; [| done | done]. cbn [snd] in Ha.
  unfold attachment_lazy_callback. rewrite bind_assoc, gets_bind, bind_assoc, run_bind. unfold delayed_decode.
  destruct (hd_object msg (delayed_ i1)) as [o d]. rewrite bind_ret_l, run_bind. cbn [modify].
  set (a0 := new_Attachment _ _).
  destruct (Attachment_lookup "group" a0); cbn; intros [= <- <-]; cbn; split_and!; try done; lia.
Qed.

(** *** The mutation of an attachment *)

Lemma Attachment_lookup_eq k a : Attachment_lookup k a = map_find k (attachment_map_ a) ≫= toString.
Proof. unfold Attachment_lookup. by destruct (map_find k (attachment_map_ a)). Qed.
Lemma Attachment_lookup_put k v k' a :
  Attachment_lookup k' (Attachment_insert k v (Attachment_remove k a)) =
    if decide (k = k') then Some v else Attachment_lookup k' a.
Proof.
  rewrite !Attachment_lookup_eq. cbn. rewrite map_find_emplace, !map_find_erase. destruct (decide (k = k')) as [<-|Hne].
  - rewrite decide_True; [done |]. split; [done |]. by rewrite decide_True.
  - rewrite decide_False; [done |]. by intros [? _].
Qed.
Lemma mutate_attachment_lookup l a k :
  NoDup l.*1 →
  Attachment_lookup k (mutate_attachment l a) =
    match (list_to_map l : gmap string string) !! k with Some v => Some v | None => Attachment_lookup k a end.
Proof.
  revert a. induction l as [|[k1 v1] l IH]; intros a; cbn; [done |]. rewrite NoDup_cons. intros [Hk Hl].
  fold (mutate_attachment l (Attachment_insert k1 v1 (Attachment_remove k1 a))).
  rewrite IH, Attachment_lookup_put by done. destruct (decide (k1 = k)) as [->|Hne].
  - rewrite lookup_insert_eq. by rewrite (not_elem_of_list_to_map_1 _ _ Hk).
  - by rewrite lookup_insert_ne by done.
Qed.
Lemma mutate_attachment_offset l a : attachment_offset_ (mutate_attachment l a) = attachment_offset_ a.
Proof. revert a. induction l as [|kv l IH]; intros a; [done |]. unfold mutate_attachment in *. cbn [foldl]. by rewrite IH. Qed.
Lemma mutate_attachment_updated l a :
  attachment_updated_ (mutate_attachment l a) = attachment_updated_ a || negb (bool_decide (l = [])).
Proof.
  assert (∀ l a, attachment_updated_ a = true → attachment_updated_ (mutate_attachment l a) = true) as Hup.
  { intros l0. induction l0 as [|kv l0 IH]; intros a0 Ha; [done |]. unfold mutate_attachment in *. cbn [foldl]. by apply IH. }
  destruct l as [|kv l]; [by rewrite orb_false_r |]. rewrite bool_decide_false, orb_true_r by done.
  unfold mutate_attachment in *. cbn [foldl]. by apply Hup.
Qed.

Lemma update_attachment_spec f origin i a :
  attachment_ i = Some a → update_attachment f origin i = (Return tt, i <| attachment_ := Some (f a) |>).
Proof.
  intros Ha. unfold update_attachment, attachment, assignAttachmentIfNeed. rewrite !run_bind. cbn [gets id]. rewrite Ha.
  mstep. cbn [id]. rewrite Ha. done.
Qed.
Lemma mutate_invocation_spec l i a :
  attachment_ i = Some a →
  ∃ i', mutate_invocation l i = (Return tt, i') ∧ attachment_ i' = Some (mutate_attachment l a).
Proof.
  revert i a. induction l as [|[k v] l IH]; intros i a Ha; [by exists i |].
  cbn [mutate_invocation]. rewrite run_bind, (update_attachment_spec _ _ _ _ Ha).
  rewrite run_bind, (update_attachment_spec _ _ _ (Attachment_remove k a)) by done. by apply IH.
Qed.

(** *** The rewritten message *)

Lemma be_split_u64 z : be_split 4 (u64 z) = be_split 4 z.
Proof.
  rewrite (be_split_mod 4 z), be_split_mod. f_equal. unfold u64. symmetry. rewrite Z.mod_mod_divide; [done |].
  by exists (2 ^ 32).
Qed.

Lemma replace_attachment_spec ctx a out :
  let msg := contents out in let off := attachment_offset_ a in
  ctx_header_size_ ctx = 16 → 16 ≤ off ≤ zlen msg → zlen msg < 2 ^ 64 →
  ∃ out', replace_attachment ctx a out = (Return tt, out') ∧
    contents out' = ztake 12 msg ++ be_split 4 (off - 16 + zlen (he_map (attachment_map_ a))) ++
                    ztake (off - 16) (zdrop 16 msg) ++ he_map (attachment_map_ a).
Proof.
  intros msg off Hh Hoff Hmsg. pose proof (zlen_nonneg (he_map (attachment_map_ a))).
  unfold replace_attachment. rewrite gets_bind. cbn [id].
  pose proof (buf_move_all_dst buf_new out) as Ho1. pose proof (buf_move_all_src buf_new out) as Ho2.
  unfold buf_move_all in Ho1, Ho2. destruct (buf_move buf_new out (buf_length out)) as [origin out1]. cbn [fst snd] in *.
  rewrite buf_new_spec in Ho1. cbn [app] in Ho1. fold msg in Ho1. cbv zeta. fold off. rewrite Hh.
  rewrite (buf_length_spec origin), Ho1, (proj2 (Z.leb_le off (zlen msg))) by lia. rewrite run_bind. cbn [ASSERT lift assert_that].
  change (u64 (16 - 4)) with 12.
  destruct (move_ok out1 origin 12) as (out2 & origin2 & -> & H2 & H2'); [rewrite Ho1; lia |].
  rewrite run_bind. cbn [lift]. rewrite Ho1, Ho2 in *.
  destruct (drain_ok origin2 4) as (origin3 & -> & H3); [rewrite H2', zlen_zdrop; lia |].
  rewrite run_bind. cbn [lift]. rewrite H2', zdrop_zdrop in H3 by lia. change (12 + 4) with 16 in H3.
  set (enc := buf_add buf_new (he_map (attachment_map_ a))).
  assert (contents enc = he_map (attachment_map_ a)) as Hc
    by (unfold enc; rewrite buf_add_spec, buf_new_spec by apply he_map_bytes; done).
  rewrite (buf_length_spec enc), Hc, (u64_small (off - 16)) by lia.
  destruct (move_ok (buf_writeBEInt 4 out2 (u64 (off - 16 + zlen (he_map (attachment_map_ a))))) origin3 (off - 16))
    as (out4 & origin4 & -> & H4 & _); [rewrite H3, zlen_zdrop; lia |].
  rewrite run_bind. cbn [lift]. pose proof (buf_move_all_dst out4 enc) as H5.
  destruct (buf_move_all out4 enc) as [out5 enc5]. cbn [fst] in H5. exists out5. split; [done |].
  rewrite H5, H4, buf_writeBEInt_spec, H2, H3, Hc, be_split_u64. cbn [app]. by rewrite <- !(assoc_L (++)).
Qed.

(** ** Decoded requests *)

Lemma deserializeRpcInvocation_offset b ctx i :
  deserializeRpcInvocation b ctx = Return i →
  attachment_ i = None ∧
  ctx_header_size_ ctx ≤ hd_offset (delayed_ i) ≤ ctx_header_size_ ctx + ctx_body_size_ ctx.
Proof.
  unfold deserializeRpcInvocation. pose proof (hd_offset_new 0) as H0.
  pose proof (hd_string_offset (contents b) (hd_new 0)). destruct (hd_string (contents b) (hd_new 0)) as [v1 d1].
  pose proof (hd_string_offset (contents b) d1). destruct (hd_string (contents b) d1) as [v2 d2].
  pose proof (hd_string_offset (contents b) d2). destruct (hd_string (contents b) d2) as [v3 d3].
  pose proof (hd_string_offset (contents b) d3). destruct (hd_string (contents b) d3) as [v4 d4]. cbn [snd] in *.
  destruct (Z.ltb_spec (ctx_body_size_ ctx) (hd_offset d4)); [done |].
  destruct v1, v2, v3, v4; try done. intros [= <-]. cbn [attachment_ delayed_]. rewrite hd_offset_new. split; [done | lia].
Qed.

Lemma request_flags bs : let h := read_header bs in
  dh_type h = DubboRequest ∨ dh_type h = DubboOneway → dh_event h = false ∧ dh_request h = true.
Proof.
  cbn. destruct (has_flag _ MessageTypeMask), (has_flag _ EventMask); intuition congruence.
Qed.

Lemma read_body_request bs rest :
  let h := read_header bs in
  dh_type h = DubboRequest ∨ dh_type h = DubboOneway → is_bytes rest → dh_size h ≤ zlen rest →
  read_body h rest =
    (i ← deserializeRpcInvocation (buf_add buf_new rest) (header_context h);
     Return ((with_header h new_MessageMetadata) <| mm_invocation_info_ := Some i |>)).
Proof.
  intros h Hty Hby Hn. destruct (request_flags bs Hty) as [Hev _]. fold h in Hev. unfold read_body. rewrite Hev.
  unfold decodeData. rewrite buf_length_spec, buf_add_spec, buf_new_spec by done. cbn [app].
  change (ctx_body_size_ (header_context h)) with (dh_size h). rewrite (proj2 (Z.ltb_ge _ _)) by done.
  rewrite gets_bind. cbn [id].
  replace (mm_message_type_ (with_header h new_MessageMetadata)) with (dh_type h)
    by (unfold with_header; by destruct (dh_request h)).
  destruct Hty as [-> | ->]; rewrite run_bind; by destruct (deserializeRpcInvocation _ _).
Qed.

(** What a decoded request is. *)
Lemma frame_request t bs n v :
  let h := read_header bs in
  is_bytes bs → dubbo_frame t bs = FDone n v → dh_type h = DubboRequest ∨ dh_type h = DubboOneway →
  ∃ i a i',
    let mm := (with_header h new_MessageMetadata) <| mm_invocation_info_ := Some i' |> in
    v = ((setBodySize (dh_size h) (setHeaderSize 16 (described mm (with_invocation i a (fresh_metadata t)))))
           <| origin_message_ := buf_new |>, ztake n bs) ∧
    attachment_ i' = Some a ∧ attachment_updated_ a = false ∧ 16 ≤ attachment_offset_ a ≤ n ∧
    n = 16 + dh_size h ∧ n ≤ zlen bs ∧ 0 ≤ dh_size h ≤ 16777216.
Proof.
  intros h Hby Hf Hty. destruct (request_flags bs Hty) as [Hev Hreq]. fold h in Hev, Hreq.
  unfold dubbo_frame in Hf. destruct (Z.ltb_spec (zlen bs) 16) as [|Hlen]; [done |].
  destruct (header_error bs) eqn:He; [done |]. cbv zeta in Hf. fold h in Hf.
  destruct (Z.ltb_spec (zlen bs) (16 + dh_size h)) as [|Hn]; [done |].
  pose proof (header_size_range _ He) as Hsz. fold h in Hsz.
  unfold h in Hf at 1. rewrite read_body_request in Hf; fold h in Hf |- *;
    [| done | by apply Forall_zdrop | rewrite zlen_zdrop; lia].
  destruct (deserializeRpcInvocation _ _) as [i| |] eqn:Hdes; [| done | done]. cbn [mbind outcome_bind] in Hf.
  apply deserializeRpcInvocation_offset in Hdes as [Hna Hoff].
  change (ctx_header_size_ (header_context h)) with 16 in Hoff. change (ctx_body_size_ (header_context h)) with (dh_size h) in Hoff.
  set (mm0 := (with_header h new_MessageMetadata) <| mm_invocation_info_ := Some i |>) in *.
  assert (mm_result_info_ mm0 = None ∧ mm_timeout_ mm0 = None) as [Hr Ht]
    by (unfold mm0, with_header; by rewrite Hreq).
  pose proof (msg_toMetadata_invocation (Some (ztake (16 + dh_size h) bs)) mm0 (fresh_metadata t) i eq_refl Hr Ht) as Hmsg.
  destruct (attachment (Some (ztake (16 + dh_size h) bs)) i) as [[a|e|w] i'] eqn:Ha.
  - rewrite Hmsg in Hf. cbv beta iota in Hf.
    apply attachment_first in Ha as (Hi' & Hup & Hao); [| done]. rewrite zlen_ztake in Hao by lia.
    exists i, a, i'. apply (f_equal (λ f, match f with FDone n v => Some (n, v) | _ => None end)) in Hf.
    assert (n = 16 + dh_size h) as -> by (by simplify_eq Hf). split; [by simplify_eq Hf |]. split_and!; try done; lia.
  - by destruct (msg_toMetadata _ _) as [[] [? ?]]; simplify_eq/=.
  - by destruct (msg_toMetadata _ _) as [[] [? ?]]; simplify_eq/=.
Qed.

(** The metadata of a decoded request gives the message back. *)
Lemma decoded_request t bs n m :
  let h := read_header bs in
  is_bytes bs → dubbo_frame t bs = FDone n (view m) → dh_type h = DubboRequest →
  getByKey "RpcResultInfo" m = None → getByKey "Timeout" m = None → getByKey "ResponseStatus" m = None →
  ∃ i a mm, toMsgMetadata m = Return mm ∧ mm_message_type_ mm = DubboRequest ∧ mm_invocation_info_ mm = Some i ∧
    getByKey "InvocationInfo" m = Some (AnyOther (dubbo_inj (AnyInvocation (Some i)))) ∧
    attachment_ i = Some a ∧ attachment_updated_ a = false ∧ 16 ≤ attachment_offset_ a ≤ n ∧
    n ≤ zlen bs ∧ n ≤ 16777232 ∧ message_type_ m = MessageType_Request ∧ header_size_ m = 16.
Proof.
  intros h Hby Hf Hty Hk1 Hk2 Hk3.
  destruct (frame_request t bs n (view m) Hby Hf (or_introl Hty)) as (i & a & i' & Hv & Hi' & Hup & Hoff & Hn & Hnl & Hsz).
  fold h in Hv, Hn, Hsz. destruct (request_flags bs (or_introl Hty)) as [_ Hreq]. fold h in Hreq.
  set (mm := (with_header h new_MessageMetadata) <| mm_invocation_info_ := Some i' |>) in *.
  set (m0 := with_invocation i a (fresh_metadata t)) in *.
  assert (mm = new_MessageMetadata <| mm_request_id_ := dh_id h |> <| mm_message_type_ := DubboRequest |>
                 <| mm_serialization_type_ := SerializationType_Hessian2 |> <| mm_invocation_info_ := Some i' |>) as Hmm
    by (unfold mm, with_header; by rewrite Hreq, Hty).
  clearbody mm. apply (f_equal fst) in Hv. cbn [view fst] in Hv.
  assert (properties_ m = properties_ (described mm m0)) as Hp by exact (f_equal properties_ Hv).
  assert (request_id_ m = u64 (mm_request_id_ mm)) as Hid.
  { transitivity (request_id_ (described mm m0)); [exact (f_equal request_id_ Hv) |]. by rewrite Hmm. }
  assert (message_type_ m = MessageType_Request) as Hmt.
  { transitivity (message_type_ (described mm m0)); [exact (f_equal message_type_ Hv) |]. by rewrite Hmm. }
  assert (unreserved mm m0) as Hun.
  { unfold unreserved, getByKey in *. rewrite Hp, properties_described, Hmm in Hk1, Hk2, Hk3. cbn in Hk1, Hk2, Hk3.
    rewrite !lookup_insert_ne in Hk1, Hk2, Hk3 by done. done. }
  exists i', a, mm. split_and!; try done; try lia; try (by rewrite Hmm).
  - eapply toMsgMetadata_described; [exact Hp | done | done | by rewrite Hmm | by rewrite Hmm |].
    rewrite Hmm. change (to_i64 (u64 (dh_id h)) = dh_id h). unfold h. cbn [read_header dh_id]. rewrite to_i64_u64.
    unfold to_i64. rewrite (u64_small (u64 _)) by apply u64_range. done.
  - unfold getByKey. rewrite Hp, properties_described, Hmm. cbn.
    repeat first [rewrite lookup_insert_eq | rewrite lookup_insert_ne by done]. done.
  - exact (f_equal header_size_ Hv).
Qed.

(** C13: Encoding a decoded request.  Without a mutation its bytes are not touched.
    With one, everything in front of the attachment is kept but the body size, which
    is set to the new size; the attachment is replaced by one in which every key of
    the mutation has its new value and every other key its old one. *)
Theorem dubbo_encode_mutation t bs n m mutation out :
  is_bytes bs → dubbo_frame t bs = FDone n (view m) → dh_type (read_header bs) = DubboRequest →
  getByKey "RpcResultInfo" m = None → getByKey "Timeout" m = None → getByKey "ResponseStatus" m = None →
  contents out = ztake n bs →
  ∃ i a a' out' m',
    getByKey "InvocationInfo" m = Some (AnyOther (dubbo_inj (AnyInvocation (Some i)))) ∧ attachment_ i = Some a ∧
    DubboCodec_encode mutation (out, m) = (Return tt, (out', m')) ∧
    (∀ k, Attachment_lookup k a' = match mutation !! k with Some v => Some v | None => Attachment_lookup k a end) ∧
    let off := attachment_offset_ a in
    16 ≤ off ≤ n ∧
    contents out' =
      if decide (mutation = ∅) then ztake n bs
      else ztake 12 bs ++ be_split 4 (off - 16 + zlen (he_map (attachment_map_ a'))) ++
           ztake (off - 16) (zdrop 16 bs) ++ he_map (attachment_map_ a').
Proof.
  intros Hby Hf Hty Hk1 Hk2 Hk3 Hout.
  destruct (decoded_request t bs n m Hby Hf Hty Hk1 Hk2 Hk3)
    as (i & a & mm & Hto & Hmt & Hinv & Hget & Ha & Hup & Hoff & Hnl & Hn & Ht & Hhs).
  destruct (mutate_invocation_spec (in_key_order mutation) i a Ha) as (i' & Hmut & Hi').
  exists i, a, (mutate_attachment (in_key_order mutation) a).
  assert (∀ r out', Protocol_encode (mm <| mm_invocation_info_ := Some i' |>) (sized_context m) "" out = (Return true, out') →
    r = DubboCodec_encode mutation (out, m) → ∃ m', r = (Return tt, (out', m'))) as Henc.
  { intros r out' He ->. unfold DubboCodec_encode. rewrite gets_bind. cbn [snd]. rewrite Ht. unfold encodeRequest.
    rewrite gets_bind. cbn [snd]. rewrite run_bind, Hto. cbn [lift]. cbv beta iota. rewrite Hinv, Hmut.
    rewrite bind_assoc, run_bind. cbn [modify]. rewrite bind_assoc, run_bind. cbn [lift]. rewrite bind_ret_l.
    unfold encode_or_throw. rewrite run_bind. unfold on_buffer. rewrite He. eauto. }
  unfold Protocol_encode in Henc. change (mm_message_type_ (mm <| mm_invocation_info_ := Some i' |>)) with (mm_message_type_ mm) in Henc.
  rewrite Hmt in Henc. unfold headerMutation in Henc. cbn [mm_invocation_info_ upd] in Henc.
  change (mm_invocation_info_ (mm <| mm_invocation_info_ := Some i' |>)) with (Some i') in Henc. cbv beta iota in Henc.
  rewrite Hi', mutate_attachment_updated, Hup in Henc. cbn [orb] in Henc.
  assert (∀ k, Attachment_lookup k (mutate_attachment (in_key_order mutation) a) =
    match mutation !! k with Some v => Some v | None => Attachment_lookup k a end) as Hlook.
  { intros k. rewrite mutate_attachment_lookup by apply in_key_order_NoDup. by rewrite in_key_order_list_to_map. }
  destruct (decide (mutation = ∅)) as [->|Hne].
  - destruct (Henc _ out eq_refl eq_refl) as (m' & Hm'). eauto 10.
  - assert (in_key_order mutation ≠ []) as Hl.
    { intros Hl. apply Hne. by rewrite <- (in_key_order_list_to_map mutation), Hl. }
    rewrite bool_decide_false in Henc by done. cbn [negb] in Henc.
    destruct (replace_attachment_spec (sized_context m) (mutate_attachment (in_key_order mutation) a) out)
      as (out' & Hrep & Hc); rewrite ?mutate_attachment_offset, ?Hout, ?zlen_ztake by lia; [done | lia | lia |].
    rewrite run_bind, Hrep in Henc. destruct (Henc _ out' eq_refl eq_refl) as (m' & Hm').
    exists out', m'. split_and!; try done. rewrite Hc, mutate_attachment_offset, Hout.
    assert (zlen (ztake n bs) = n) as Hzn by (apply zlen_ztake; lia).
    assert (ztake 12 (ztake n bs) = ztake 12 bs) as ->.
    { rewrite <- (ztake_zdrop n bs) at 2. by rewrite ztake_app by lia. }
    assert (ztake (attachment_offset_ a - 16) (zdrop 16 (ztake n bs)) =
            ztake (attachment_offset_ a - 16) (zdrop 16 bs)) as ->; [| done].
    rewrite <- (ztake_zdrop n bs) at 2. rewrite zdrop_app by lia. by rewrite ztake_app by (rewrite zlen_zdrop; lia).
Qed.

(** ** Messages that stop the process *)

Definition string_property (o : option any) : Prop :=
  match o with None | Some (AnyString _) => True | _ => False end.
Lemma put_strings_properties l m k :
  string_property (getByKey k m) → string_property (getByKey k (put_strings l m)).
Proof.
  revert m. induction l as [|[k1 v1] l IH]; intros m Hm; [done |]. apply IH. unfold getByKey in *.
  rewrite properties_putString. cbn. destruct (decide (k1 = k)) as [->|Hne]; [by rewrite lookup_insert_eq |].
  by rewrite lookup_insert_ne by done.
Qed.
Lemma with_invocation_properties i a t k : string_property (getByKey k (with_invocation i a (fresh_metadata t))).
Proof.
  apply put_strings_properties. unfold getByKey. cbn.
  destruct (decide (k = "method")) as [->|]; [by rewrite lookup_insert_eq |]. rewrite lookup_insert_ne by done.
  destruct (decide (k = "interface")) as [->|]; [by rewrite lookup_insert_eq |]. by rewrite lookup_insert_ne by done.
Qed.

(** A request whose attachment has a key of the name of a property the codec
    keeps for itself is decoded, but encoding it throws [std::bad_any_cast], which no
    handler of the proxy catches. *)
Theorem dubbo_reserved_key_throws t bs n m mutation out key :
  is_bytes bs → dubbo_frame t bs = FDone n (view m) → dh_type (read_header bs) = DubboRequest →
  key ∈ ["RpcResultInfo"; "Timeout"; "ResponseStatus"] → getByKey key m ≠ None →
  (DubboCodec_encode mutation (out, m)).1 = Throw BadAnyCast.
Proof.
  intros Hby Hf Hty Hkey Hget. set (h := read_header bs) in *.
  destruct (frame_request t bs n (view m) Hby Hf (or_introl Hty)) as (i & a & i' & Hv & _). fold h in Hv.
  destruct (request_flags bs (or_introl Hty)) as [_ Hreq]. fold h in Hreq.
  set (mm := (with_header h new_MessageMetadata) <| mm_invocation_info_ := Some i' |>) in *.
  assert (mm_response_status_ mm = None ∧ mm_message_type_ mm = DubboRequest) as [Hst Hmt]
    by (unfold mm, with_header; by rewrite Hreq, <- Hty).
  clearbody mm. apply (f_equal fst) in Hv. cbn [view fst] in Hv.
  set (m0 := with_invocation i a (fresh_metadata t)) in *.
  assert (properties_ m = properties_ (described mm m0)) as Hp by exact (f_equal properties_ Hv).
  assert (message_type_ m = MessageType_Request) as Ht.
  { transitivity (message_type_ (described mm m0)); [exact (f_equal message_type_ Hv) |].
    unfold described. by rewrite Hst, Hmt. }
  rewrite properties_described, Hst in Hp.
  pose proof (with_invocation_properties i a t "RpcResultInfo") as H1.
  pose proof (with_invocation_properties i a t "Timeout") as H2.
  pose proof (with_invocation_properties i a t "ResponseStatus") as H3. fold m0 in H1, H2, H3.
  assert (toMsgMetadata m = Throw BadAnyCast) as Hto.
  { unfold toMsgMetadata, getBool, getByKey in *. rewrite Hp in *. unfold id in *.
    repeat first [rewrite lookup_insert_eq | rewrite lookup_insert_ne by done].
    unfold any_cast. rewrite !dubbo_proj_inj. cbn [mbind option_bind outcome_bind].
    destruct (properties_ m0 !! "RpcResultInfo") as [[]|] eqn:E1; try done. cbn [mbind option_bind outcome_bind].
    destruct (properties_ m0 !! "Timeout") as [[]|] eqn:E2; try done. cbn [mbind option_bind outcome_bind].
    destruct (properties_ m0 !! "ResponseStatus") as [[]|] eqn:E3; try done.
    exfalso. rewrite !elem_of_cons, elem_of_nil in Hkey. destruct_or! Hkey; try done; subst key;
      rewrite !lookup_insert_ne in Hget by done; congruence. }
  unfold DubboCodec_encode. rewrite gets_bind. cbn [snd]. rewrite Ht. unfold encodeRequest. rewrite gets_bind. cbn [snd].
  by rewrite run_bind, Hto.
Qed.

(** A successful response whose result has a value and no attachment (the
    response type 1 of Dubbo) stops the process: its metadata is read from an
    attachment that is not there. *)
Theorem dubbo_plain_value_panics t b d value d' :
  let bs := contents b in let h := read_header bs in
  16 ≤ zlen bs → header_error bs = None → dh_request h = false → dh_event h = false → dh_status h = Status_Ok →
  16 + dh_size h ≤ zlen bs →
  hd_int32 (zdrop 16 bs) (hd_new 0) = (Some 1, d) → hd_offset d ≤ dh_size h →
  hd_string (zdrop 16 bs) d = (Some value, d') →
  ∃ st, DubboCodec_decode (new_DubboCodec, b, fresh_metadata t) = (Panic "null pointer", st).
Proof.
  intros bs h Hlen He Hreq Hev Hst Hn Hint Hd Hstr.
  pose proof (rep_implements t new_DubboCodec [] b (rep_new _)) as Him. unfold implements in Him.
  cbn [app] in Him. fold bs in Him. rewrite frame_complete in Him by done. fold h in Him.
  set (r := {| result_attachment_ := None; has_exception_ := false; bodyrsp := value |}).
  set (mm := with_header h new_MessageMetadata).
  assert (mm_message_type_ mm = DubboResponse ∧ mm_response_status_ mm = Some Status_Ok ∧
          mm_invocation_info_ mm = None ∧ mm_timeout_ mm = None) as (Hmt & Hms & Hmi & Hmti).
  { unfold mm, with_header. rewrite Hreq, <- Hst. split_and!; try done. cbn. unfold h, read_header in *.
    cbn [dh_request dh_event] in *. by rewrite Hreq, Hev. }
  assert (read_body h (zdrop 16 bs) = Return (mm <| mm_result_info_ := Some r |>)) as Hb.
  { unfold read_body. rewrite Hev. unfold decodeData. fold mm.
    set (b0 := buf_add buf_new (zdrop 16 bs)).
    assert (contents b0 = zdrop 16 bs) as Hb0.
    { unfold b0. rewrite buf_add_spec, buf_new_spec by (apply Forall_zdrop, contents_bytes). done. }
    assert (zlen (zdrop 16 bs) = zlen bs - 16) as Hz by (apply zlen_zdrop; lia).
    rewrite buf_length_spec, Hb0, (proj2 (Z.ltb_ge _ _)) by (change (ctx_body_size_ (header_context h)) with (dh_size h); lia).
    rewrite gets_bind. cbn [id]. rewrite Hmt, Hms. rewrite bool_decide_true by done. cbn [negb]. rewrite run_bind.
    unfold deserializeRpcResult. rewrite buf_length_spec, Hb0, Hint.
    rewrite (proj2 (Z.leb_le _ _)) by (change (ctx_body_size_ (header_context h)) with (dh_size h); lia).
    cbn [assert_that mbind outcome_bind]. change (RpcResponseType_of (u8 1)) with (Some ResponseWithValue).
    cbn [response_parts]. rewrite Hstr.
    rewrite (proj2 (Z.ltb_ge _ _)) by (change (ctx_body_size_ (header_context h)) with (dh_size h); lia). done. }
  rewrite Hb in Him.
  assert ((msg_toMetadata (Some (ztake (16 + dh_size h) bs)) (mm <| mm_result_info_ := Some r |>, fresh_metadata t)).1 =
          Panic "null pointer") as Hp.
  { unfold msg_toMetadata. msg_step. set (mm1 := mm <| mm_result_info_ := Some r |>).
    change (mm_invocation_info_ mm1) with (mm_invocation_info_ mm). rewrite Hmi. msg_step.
    change (mm_timeout_ mm1) with (mm_timeout_ mm). change (mm_response_status_ mm1) with (mm_response_status_ mm).
    change (mm_result_info_ mm1) with (Some r). rewrite Hmti, Hms. msg_step. done. }
  destruct (msg_toMetadata _ _) as [[| |w] [? ?]]; try done. cbn [fst] in Hp. injection Hp as ->.
  destruct Him as (c' & b' & m' & ->). eauto.
Qed.

(** The local reply to a Dubbo request is empty, whatever the error. *)
Lemma dubbo_onError_writes_nothing error mm b m :
  toMsgMetadata m = Return mm → mm_result_info_ mm = None → contents b = [] →
  DubboCodec_onError error (b, m) = (Return tt, (b, m)).
Proof.
  intros Hto Hr Hb. unfold DubboCodec_onError. rewrite gets_bind. cbn [id].
  rewrite buf_length_spec, Hb, zlen_nil, run_bind. cbn [ASSERT lift assert_that Z.eqb]. rewrite run_bind, Hto. cbn [lift].
  unfold encode_or_throw. rewrite run_bind. unfold on_buffer, Protocol_encode, rspheaderMutation.
  cbn [mm_message_type_ upd]. change (mm_result_info_ (_ <| mm_response_status_ := _ |>)) with (mm_result_info_ mm).
  rewrite Hr. rewrite run_bind, bool_decide_true by done. by destruct (bool_decide _).
Qed.
End attachments.

(** ** Examples

    Over list buffers and the small Hessian2.  The values a codec stores are those
    of an environment that stores none itself. *)

Section convert.
Context (X Y : Type).
#[local] Abbreviation EX := (list_envoy X).
#[local] Abbreviation EY := (list_envoy Y).
Definition convert_attachment (a : @Attachment EX mini_hessian) : @Attachment EY mini_hessian :=
  @Build_Attachment EY mini_hessian (attachment_updated_ a) (attachment_map_ a) (attachment_offset_ a) (attachment_headers_ a).
Definition convert_invocation (i : @RpcInvocationImpl EX mini_hessian) : @RpcInvocationImpl EY mini_hessian :=
  @Build_RpcInvocationImpl EY mini_hessian (service_name_ i) (method_name_ i) (service_version_ i) (group_ i)
    (delayed_ i) (parameters_ i) (convert_attachment <$> attachment_ i).
Definition convert_result (r : @RpcResultImpl EX mini_hessian) : @RpcResultImpl EY mini_hessian :=
  @Build_RpcResultImpl EY mini_hessian (convert_attachment <$> result_attachment_ r) (has_exception_ r) (bodyrsp r).
Definition convert_any (x : @dubbo_any EX mini_hessian) : @dubbo_any EY mini_hessian :=
  match x with
  | AnyInvocation p => @AnyInvocation EY mini_hessian (convert_invocation <$> p)
  | AnyResult p => @AnyResult EY mini_hessian (convert_result <$> p)
  | AnyProtocolType z => AnyProtocolType z
  | AnyUint8 z => AnyUint8 z
  | AnyMessageType t => AnyMessageType t
  | AnyOptUint32 z => AnyOptUint32 z
  | AnySerializationType z => AnySerializationType z
  | AnyResponseStatus z => AnyResponseStatus z
  end.
End convert.

Definition mini_any : Type := @dubbo_any (list_envoy unit) mini_hessian.
#[local] Instance mini_E : Envoy := list_envoy mini_any.
#[local] Instance mini_EL : EnvoyLaws mini_E := list_envoy_laws mini_any.
#[local] Existing Instance mini_hessian.
#[local] Existing Instance mini_hessian_laws.

Lemma convert_any_inv x : convert_any unit mini_any (convert_any mini_any unit x) = x.
Proof. by destruct x as [[[? ? ? ? ? ? [[]|]]|]|[[[[]|] ? ?]|]| | | | | |]. Qed.
#[local] Instance mini_DA : DubboAny := {|
  dubbo_inj := convert_any mini_any unit;
  dubbo_proj x := Some (convert_any unit mini_any x);
  dubbo_proj_inj x := f_equal Some (convert_any_inv x)
|}.

Definition request_with (att : list (string * string)) : bytes :=
  let body := concat (mini_encode_string <$> ["2.0.2"; "svc"; "1"; "ping"; "Ljava/lang/String;"; "hi"]) ++ he_map att in
  [0xda; 0xbb; 0xc2; 0; 0; 0; 0; 0; 0; 0; 0; 7] ++ be_split 4 (zlen body) ++ body.
Definition mini_request : bytes := request_with [("a", "1"); ("b", "2")].

(** The metadata a message is decoded to. *)
Definition decoded (bs : bytes) : MetadataImpl :=
  (DubboCodec_decode (new_DubboCodec, bs, fresh_metadata MessageType_Request)).2.2.

Example mini_request_decoded :
  let m := decoded (mini_request ++ [1; 2]) in
  (message_type_ m, request_id_ m, operation_name_ m, getString "a" m, contents (origin_message_ m)) =
    (MessageType_Request, 7, "svc/ping", Return "1", mini_request).
Proof. vm_compute. reflexivity. Qed.

Lemma framed t bs :
  match dubbo_frame t bs with FDone _ _ => true | _ => false end = true → ∃ n v, dubbo_frame t bs = FDone n v.
Proof. destruct (dubbo_frame t bs); try done. eauto. Qed.

Example dubbo_decode_refines_framing_witness :
  ∃ b' m', DubboCodec_decode (new_DubboCodec, mini_request ++ [1; 2], fresh_metadata MessageType_Request) =
      (Return DecodeStatus_Done, (new_DubboCodec, b', m')) ∧ contents b' = [1; 2].
Proof.
  pose proof (dubbo_decode_refines_framing MessageType_Request new_DubboCodec [] (mini_request ++ [1; 2]) (rep_new _)) as H.
  assert (match dubbo_frame MessageType_Request ([] ++ contents (mini_request ++ [1; 2])) with
          | FDone n _ => Some n | _ => None end = Some (zlen mini_request)) as Hn by (vm_compute; reflexivity).
  destruct (dubbo_frame _ _) as [|n v| |]; try discriminate Hn. injection Hn as ->.
  destruct H as (b' & m' & H & Hc & _). exists b', m'. split; [exact H |]. rewrite Hc. vm_compute. reflexivity.
Defined.

Example dubbo_decode_segmented_witness :
  ∃ v c b b' m',
    dubbo_feed MessageType_Request [ztake 7 mini_request; []; zdrop 7 (ztake 40 mini_request)] new_DubboCodec buf_new
      = Some (c, b) ∧
    DubboCodec_decode (c, buf_add b (zdrop 40 mini_request ++ [1; 2]), fresh_metadata MessageType_Request) =
      (Return DecodeStatus_Done, (new_DubboCodec, b', m')) ∧ contents b' = [1; 2] ∧ view m' = v.
Proof.
  destruct (framed MessageType_Request mini_request) as (n & v & Hf); [vm_compute; reflexivity |].
  assert (n = zlen mini_request) as ->.
  { assert (match dubbo_frame MessageType_Request mini_request with FDone n _ => Some n | _ => None end
            = Some (zlen mini_request)) as Hn by (vm_compute; reflexivity). rewrite Hf in Hn. by injection Hn as ->. }
  exists v. apply (dubbo_decode_segmented MessageType_Request mini_request v _ _ [1; 2]);
    [| exact Hf | vm_compute; reflexivity | vm_compute; reflexivity | vm_compute; reflexivity].
  apply (bool_decide_unpack _). vm_compute. exact I.
Defined.

Definition mini_heartbeat : bytes := [0xda; 0xbb; 0xe2; 0; 0; 0; 0; 0; 0; 0; 1; 2; 0; 0; 0; 1; 78].
Example dubbo_heartbeat_reply_witness :
  ∃ m out', message_type_ m = MessageType_Heartbeat ∧ DubboCodec_encode ∅ ([1; 2; 3], m) = (Return tt, (out', m)) ∧
    contents out' = [0xda; 0xbb; 0x22; 20; 0; 0; 0; 0; 0; 0; 1; 2; 0; 0; 0; 1; 78].
Proof.
  destruct (dubbo_heartbeat_reply (E := mini_E) mini_heartbeat [1; 2; 3]) as (rest & m & out' & rest' & m' & _ & Ht & _ & He & Hc & _);
    [vm_compute; discriminate | vm_compute; reflexivity.. | vm_compute; discriminate |].
  exists m, out'. split; [exact Ht |]. split; [exact He |]. rewrite Hc. vm_compute. reflexivity.
Defined.

(** The message is what [decode] gave for it. *)
Lemma decoded_view bs : is_bytes bs →
  match dubbo_frame MessageType_Request bs with FDone _ _ => true | _ => false end = true →
  ∃ n, dubbo_frame MessageType_Request bs = FDone n (view (decoded bs)).
Proof.
  intros Hb Hd. pose proof (rep_implements MessageType_Request new_DubboCodec [] bs (rep_new _)) as Him.
  unfold implements in Him. change (@contents (@envoy_buffer mini_E) bs) with (u8 <$> bs) in Him. rewrite (u8_bytes bs) in Him by done.
  cbn [app] in Him. destruct (dubbo_frame MessageType_Request bs) as [|n v| |]; try done.
  destruct Him as (b' & m' & Hdec & _ & <-). exists n.
  assert (decoded bs = m') as -> by exact (f_equal (λ r, r.2.2) Hdec). done.
Qed.

(** The facts about two messages that are computed. *)
Definition absent (key : string) (m : MetadataImpl) : bool :=
  match getByKey key m with Some _ => false | None => true end.
Lemma absent_None key m : absent key m = true → getByKey key m = None.
Proof. unfold absent. by destruct (getByKey key m). Qed.
Lemma mini_request_facts :
  is_bytes mini_request ∧ dubbo_frame MessageType_Request mini_request = FDone (zlen mini_request) (view (decoded mini_request)) ∧
  dh_type (read_header mini_request) = DubboRequest ∧
  (absent "RpcResultInfo" (decoded mini_request), absent "Timeout" (decoded mini_request),
   absent "ResponseStatus" (decoded mini_request)) = (true, true, true) ∧
  contents mini_request = ztake (zlen mini_request) mini_request ∧
  contents (DubboCodec_encode {["b" := "9"]} (mini_request, decoded mini_request)).2.1 =
    request_with [("a", "1"); ("b", "9")].
Proof.
  assert (is_bytes mini_request) as Hb by (apply (bool_decide_unpack _); vm_compute; exact I).
  split; [exact Hb |]. destruct (decoded_view mini_request Hb) as (n & Hf); [vm_compute; reflexivity |].
  assert (match dubbo_frame MessageType_Request mini_request with FDone n _ => Some n | _ => None end
          = Some (zlen mini_request)) as Hn by (vm_compute; reflexivity).
  rewrite Hf in Hn. injection Hn as ->. split; [exact Hf |]. split_and!; vm_compute; reflexivity.
Qed.

Example dubbo_encode_mutation_witness :
  ∃ out' m', DubboCodec_encode {["b" := "9"]} (mini_request, decoded mini_request) = (Return tt, (out', m')) ∧
    contents out' = request_with [("a", "1"); ("b", "9")].
Proof.
  destruct mini_request_facts as (Hb & Hf & Ht & Hk & Hc & He). generalize dependent (decoded mini_request).
  intros m Hf Hk He. injection Hk as H1 H2 H3. apply absent_None in H1, H2, H3.
  destruct (dubbo_encode_mutation MessageType_Request mini_request (zlen mini_request) m {["b" := "9"]} mini_request
              Hb Hf Ht H1 H2 H3 Hc) as (i & a & a' & out' & m' & _ & _ & Henc & _).
  exists out', m'. split; [exact Henc |]. rewrite <- He. exact (f_equal (λ r, contents r.2.1) (eq_sym Henc)).
Defined.

Definition mini_bad_request : bytes := request_with [("Timeout", "5")].
Lemma mini_bad_request_facts :
  is_bytes mini_bad_request ∧
  (∃ n, dubbo_frame MessageType_Request mini_bad_request = FDone n (view (decoded mini_bad_request))) ∧
  dh_type (read_header mini_bad_request) = DubboRequest ∧
  absent "Timeout" (decoded mini_bad_request) = false.
Proof.
  assert (is_bytes mini_bad_request) as Hb by (apply (bool_decide_unpack _); vm_compute; exact I).
  split; [exact Hb |]. split; [apply (decoded_view _ Hb); vm_compute; reflexivity |]. split; vm_compute; reflexivity.
Qed.

Example dubbo_reserved_key_throws_witness :
  (DubboCodec_encode ∅ (mini_bad_request, decoded mini_bad_request)).1 = Throw BadAnyCast.
Proof.
  destruct mini_bad_request_facts as (Hb & (n & Hf) & Ht & Hk). generalize dependent (decoded mini_bad_request).
  intros m Hf Hk. apply (dubbo_reserved_key_throws MessageType_Request mini_bad_request n m ∅ mini_bad_request "Timeout" Hb Hf Ht).
  - apply (bool_decide_unpack _). vm_compute. exact I.
  - intros H. unfold absent in Hk. rewrite H in Hk. discriminate.
Defined.

(** A response of type 1 with the value "ok". *)
Definition mini_value_response : bytes :=
  [0xda; 0xbb; 0x02; 20; 0; 0; 0; 0; 0; 0; 0; 7; 0; 0; 0; 4; 0x91; 2; 111; 107].
Example dubbo_plain_value_panics_witness :
  ∃ st, DubboCodec_decode (new_DubboCodec, mini_value_response, fresh_metadata MessageType_Response) =
    (Panic "null pointer", st).
Proof.
  apply (dubbo_plain_value_panics (E := mini_E) (HL := mini_hessian) MessageType_Response mini_value_response 1 "ok" 4);
    vm_compute; first [reflexivity | discriminate].
Defined.

Example dubbo_header_checked_witness :
  ∃ ctx mm, decodeHeader (mini_request : @buffer list_buffer) new_MessageMetadata = (Return (Some ctx), mm) ∧
    mm_message_type_ mm = DubboRequest.
Proof.
  destruct (dubbo_header_checked (E := mini_E) (L := list_envoy_laws _) mini_request new_MessageMetadata) as (_ & Hok & _);
    [vm_compute; discriminate |].
  destruct Hok as (ctx & mm & Hrun & _ & Hmm); [vm_compute; discriminate | split_and!; vm_compute; first [reflexivity | discriminate] |].
  exists ctx, mm. split; [exact Hrun |]. rewrite Hmm. vm_compute. reflexivity.
Defined.
