(* ===== verification/LocalRateLimit.v ===== *)
(** * The local rate limiter

    Model of [filters/local_ratelimit]: [LocalRateLimiterImpl]
    ([local_ratelimit_impl.h], [.cc]) and the filter [LocalRateLimit]
    ([local_ratelimit.h], [.cc]).

    The token count of a bucket is one atomic word that worker threads decrement
    and the fill timer increments, both with a compare-and-swap loop and relaxed
    ordering.  The loops are modelled twice: as functions, for the code around
    them, and as a step relation with any number of threads, in which a load may
    return any value the word ever had and a weak compare-and-swap may fail
    without a reason.  Times are nanoseconds of the monotonic clock, intervals
    milliseconds.  Building and matching header matchers is Envoy's. *)

From S2P Require Import Prelude Envoy Metadata Codec Decoder.

(** ** Buckets *)

Record TokenBucket : Type := { max_tokens_ : Z; tokens_per_fill_ : Z; fill_interval_ : Z }.
Record TokenState : Type := { tokens_ : Z; fill_time_ : Z }.
#[global] Instance TokenState_eta : Eta TokenState := fun s =>
  {| tokens_ := tokens_ s; fill_time_ := fill_time_ s |}.

(** The body of [requestAllowedHelper] when no other thread interferes. *)
Definition requestAllowedHelper (s : TokenState) : bool * TokenState :=
  let expected_tokens := tokens_ s in
  if expected_tokens =? 0 then (false, s)
  else (true, s <| tokens_ := u32 (expected_tokens - 1) |>).

(** The value [onFillTimerHelper] writes over [expected_tokens]. *)
Definition filled (bucket : TokenBucket) (expected_tokens : Z) : Z :=
  Z.min (max_tokens_ bucket) (u32 (expected_tokens + tokens_per_fill_ bucket)).

Definition onFillTimerHelper (s : TokenState) (bucket : TokenBucket) : TokenState :=
  s <| tokens_ := filled bucket (tokens_ s) |>.

(** [duration_cast<milliseconds>] of a difference of nanoseconds truncates. *)
Definition elapsed_ms (now then_ : Z) : Z := Z.quot (now - then_) 1000000.

(** Refills one bucket when its interval has passed. *)
Definition fill_if_due (now : Z) (s : TokenState) (bucket : TokenBucket) : TokenState :=
  if fill_interval_ bucket <=? elapsed_ms now (fill_time_ s)
  then (onFillTimerHelper s bucket) <| fill_time_ := now |> else s.

(** ** The limiter *)

Class HeaderMatching (E : Envoy) := {
  header_match : Type;
  matchHeaders : headers → header_match → bool
}.

Section limiter.
Context {E : Envoy} {HM : HeaderMatching E}.

Record LocalRateLimitCondition : Type := {
  token_state_ : TokenState;
  match_ : header_match;
  token_bucket_ : TokenBucket
}.
#[global] Instance LocalRateLimitCondition_eta : Eta LocalRateLimitCondition := fun c =>
  {| token_state_ := token_state_ c; match_ := match_ c; token_bucket_ := token_bucket_ c |}.

Record LocalRateLimiterImpl : Type := {
  global_token_bucket_ : TokenBucket;
  global_token_state_ : TokenState;
  conditions_ : list LocalRateLimitCondition;
  timer_duration_ : Z;
  (** [config_.has_token_bucket()] *)
  has_token_bucket : bool;
  (** the timer is armed *)
  fill_timer_ : bool
}.
#[global] Instance LocalRateLimiterImpl_eta : Eta LocalRateLimiterImpl := fun r =>
  {| global_token_bucket_ := global_token_bucket_ r; global_token_state_ := global_token_state_ r;
     conditions_ := conditions_ r; timer_duration_ := timer_duration_ r;
     has_token_bucket := has_token_bucket r; fill_timer_ := fill_timer_ r |}.

(** A condition of the configuration, its defaults applied. *)
Record ConditionConfig : Type := { cc_match : header_match; cc_bucket : TokenBucket }.

(** The shortest interval, which the timer runs at. *)
Definition timer_of (fill_interval : Z) (conditions : list ConditionConfig) : Z :=
  foldl (λ timer c,
    if (timer =? 0) || (fill_interval_ (cc_bucket c) <? timer) then fill_interval_ (cc_bucket c) else timer)
    fill_interval conditions.

(** The constructor.  Members it does not set are 0. *)
Definition new_LocalRateLimiterImpl (has_bucket : bool) (bucket : TokenBucket)
    (conditions : list ConditionConfig) (now : Z) : outcome LocalRateLimiterImpl :=
  let unset := {| max_tokens_ := 0; tokens_per_fill_ := 0; fill_interval_ := 0 |} in
  let timer := timer_of (fill_interval_ bucket) conditions in
  if timer <? 50 then Throw (EnvoyException "local rate limit token bucket fill timer must be >= 50ms")
  else Return {|
    global_token_bucket_ := if has_bucket then bucket else unset;
    global_token_state_ := {| tokens_ := if has_bucket then max_tokens_ bucket else 0; fill_time_ := 0 |};
    conditions_ := (λ c, {| token_state_ := {| tokens_ := max_tokens_ (cc_bucket c); fill_time_ := now |};
                            match_ := cc_match c; token_bucket_ := cc_bucket c |}) <$> conditions;
    timer_duration_ := timer;
    has_token_bucket := has_bucket;
    fill_timer_ := true |}.

Definition onFillTimerConditionHelper (now : Z) (r : LocalRateLimiterImpl) : LocalRateLimiterImpl :=
  let r := if has_token_bucket r
           then r <| global_token_state_ ::= λ s, fill_if_due now s (global_token_bucket_ r) |> else r in
  r <| conditions_ ::= fmap (λ c, c <| token_state_ ::= λ s, fill_if_due now s (token_bucket_ c) |>) |>.

Definition onFillTimer (now : Z) (r : LocalRateLimiterImpl) : LocalRateLimiterImpl :=
  (onFillTimerConditionHelper now r) <| fill_timer_ := true |>.

(** The loop over the conditions of [requestAllowed]: the first that matches
    decides. *)
Fixpoint requestAllowed_loop (h : headers) (cs : list LocalRateLimitCondition) :
    option (bool * list LocalRateLimitCondition) :=
  match cs with
  | [] => None
  | c :: cs =>
      if matchHeaders h (match_ c) then
        let '(allowed, s) := requestAllowedHelper (token_state_ c) in
        Some (allowed, c <| token_state_ := s |> :: cs)
      else prod_map id (cons c) <$> requestAllowed_loop h cs
  end.

Definition requestAllowed (m : MetadataImpl) (r : LocalRateLimiterImpl) : bool * LocalRateLimiterImpl :=
  match requestAllowed_loop (headers_ m) (conditions_ r) with
  | Some (allowed, cs) => (allowed, r <| conditions_ := cs |>)
  | None =>
      if negb (has_token_bucket r) then (true, r)
      else
        let '(allowed, s) := requestAllowedHelper (global_token_state_ r) in
        (allowed, r <| global_token_state_ := s |>)
  end.

(** ** The filter *)

Record LocalRateLimitStats : Type := { ok_ : Z; rate_limited_ : Z }.
#[global] Instance LocalRateLimitStats_eta : Eta LocalRateLimitStats := fun s =>
  {| ok_ := ok_ s; rate_limited_ := rate_limited_ s |}.
Record FilterConfig : Type := { stats_ : LocalRateLimitStats; rate_limiter_ : LocalRateLimiterImpl }.
#[global] Instance FilterConfig_eta : Eta FilterConfig := fun c =>
  {| stats_ := stats_ c; rate_limiter_ := rate_limiter_ c |}.

Definition shouldRateLimit (m : MetadataImpl) (c : FilterConfig) : bool * FilterConfig :=
  let '(allowed, r) := requestAllowed m (rate_limiter_ c) in
  let c := c <| rate_limiter_ := r |> in
  if allowed then (false, c <| stats_ ::= λ s, s <| ok_ ::= Z.succ |> |>)
  else (true, c <| stats_ ::= λ s, s <| rate_limited_ ::= Z.succ |> |>).

(** [callbacks_->sendLocalReply(AppException(error), end_stream)] acts on the rest
    of the proxy, [W]. *)
Definition LocalRateLimit_onMessageDecoded {W} (sendLocalReply : Error → bool → M W unit) (m : MetadataImpl) :
    M (FilterConfig * W) FilterStatus := λ '(c, w),
  let '(limit, c) := shouldRateLimit m c in
  if limit then
    let error := {| error_type := ErrorType_OverLimit;
                    error_message := "meta protocol local rate limit: request '" +:+ pretty (request_id_ m) +:+
                                     "' has been rate limited" |} in
    match sendLocalReply error false w with
    | (Return _, w) => (Return FilterStatus_AbortIteration, (c, w))
    | (Throw e, w) => (Throw e, (c, w))
    | (Panic s, w) => (Panic s, (c, w))
    end
  else (Return FilterStatus_ContinueIteration, (c, w)).
Definition LocalRateLimit_onMessageEncoded {W} (m : MetadataImpl) : M (FilterConfig * W) FilterStatus :=
  mret FilterStatus_ContinueIteration.
End limiter.

(** ** Concurrent use of one bucket *)

Section concurrent.
Context (bucket : TokenBucket).

(** Where a thread is: outside, or before the compare-and-swap of a request or
    of the timer, with the value it expects. *)
Inductive thread : Type := Idle | AllowCas (expected_tokens : Z) | FillCas (expected_tokens : Z).

(** [hist]: the values of the word, the latest first.  The other fields count:
    requests allowed and denied, refills done, tokens they added. *)
Record world : Type := {
  hist : list Z;
  threads : gmap nat thread;
  granted : Z;
  denied : Z;
  fills : Z;
  added : Z
}.
#[global] Instance world_eta : Eta world := fun w =>
  {| hist := hist w; threads := threads w; granted := granted w; denied := denied w; fills := fills w; added := added w |}.

Definition pc (t : nat) (w : world) : thread := default Idle (threads w !! t).
Definition current (w : world) : Z := default 0 (head (hist w)).
Definition set_pc (t : nat) (p : thread) (w : world) : world := w <| threads ::= <[t := p]> |>.

(** A request thread has seen the value [e]. *)
Definition seen_by_request (t : nat) (e : Z) (w : world) : world :=
  if e =? 0 then set_pc t Idle (w <| denied ::= Z.succ |>) else set_pc t (AllowCas e) w.

Inductive step : world → world → Prop :=
| step_allow_load t e w :
    pc t w = Idle → e ∈ hist w → step w (seen_by_request t e w)
| step_allow_cas t e w :
    pc t w = AllowCas e → current w = e →
    step w (set_pc t Idle (w <| hist ::= cons (u32 (e - 1)) |> <| granted ::= Z.succ |>))
| step_allow_cas_fails t e e' w :
    pc t w = AllowCas e → e' ∈ hist w → step w (seen_by_request t e' w)
| step_fill_load t e w :
    pc t w = Idle → e ∈ hist w → step w (set_pc t (FillCas e) w)
| step_fill_cas t e w :
    pc t w = FillCas e → current w = e →
    step w (set_pc t Idle (w <| hist ::= cons (filled bucket e) |> <| fills ::= Z.succ |>
                             <| added ::= Z.add (filled bucket e - e) |>))
| step_fill_cas_fails t e e' w :
    pc t w = FillCas e → e' ∈ hist w → step w (set_pc t (FillCas e') w).

Definition init_world : world :=
  {| hist := [max_tokens_ bucket]; threads := ∅; granted := 0; denied := 0; fills := 0; added := 0 |}.

Definition reachable (w : world) : Prop := rtc step init_world w.

(** What a configuration must satisfy for the sum in [onFillTimerHelper] not to
    wrap around. *)
Definition bucket_ok : Prop :=
  0 ≤ max_tokens_ bucket ∧ 0 ≤ tokens_per_fill_ bucket ∧ max_tokens_ bucket + tokens_per_fill_ bucket < 2 ^ 32.

Definition invariant (w : world) : Prop :=
  hist w ≠ [] ∧ Forall (λ v, 0 ≤ v ≤ max_tokens_ bucket) (hist w) ∧
  granted w + current w = max_tokens_ bucket + added w ∧
  0 ≤ added w ≤ fills w * tokens_per_fill_ bucket ∧ 0 ≤ fills w ∧
  (∀ t e, pc t w = AllowCas e → e ≠ 0) ∧ (0 < denied w → 0 ∈ hist w) ∧ 0 ≤ denied w.

Lemma filled_range e : bucket_ok → 0 ≤ e ≤ max_tokens_ bucket →
  e ≤ filled bucket e ≤ max_tokens_ bucket ∧ filled bucket e - e ≤ tokens_per_fill_ bucket.
Proof. intros (H1 & H2 & H3) He. unfold filled. rewrite u32_small by lia. lia. Qed.

Lemma pc_set_pc t p t' w : pc t' (set_pc t p w) = if decide (t = t') then p else pc t' w.
Proof.
  unfold pc, set_pc, upd. cbn. destruct (decide (t = t')) as [-> | Hne].
  - by rewrite lookup_insert_eq.
  - by rewrite lookup_insert_ne.
Qed.

(** Moving a thread changes nothing else. *)
Lemma invariant_set_pc t p w :
  invariant w → (∀ e, p = AllowCas e → e ≠ 0) → invariant (set_pc t p w).
Proof.
  intros (H1 & H2 & H3 & H4 & H5 & H6 & H7 & H8) Hp.
  refine (conj H1 (conj H2 (conj H3 (conj H4 (conj H5 (conj _ (conj H7 H8))))))).
  intros t' e. rewrite pc_set_pc. case_decide; [apply Hp | apply H6].
Qed.

Lemma invariant_seen t e w : invariant w → e ∈ hist w → invariant (seen_by_request t e w).
Proof.
  intros Hinv He. unfold seen_by_request. destruct (Z.eqb_spec e 0) as [-> | Hne].
  - apply invariant_set_pc; [| done]. destruct Hinv as (H1 & H2 & H3 & H4 & H5 & H6 & H7 & H8).
    refine (conj H1 (conj H2 (conj H3 (conj H4 (conj H5 (conj H6 (conj (λ _, He) _))))))).
    unfold upd. cbn. lia.
  - apply invariant_set_pc; [done |]. by intros ? [= <-].
Qed.

Lemma current_in w : hist w ≠ [] → current w ∈ hist w.
Proof. unfold current. destruct (hist w); [done |]. intros _. cbn. by left. Qed.

Lemma invariant_push t w v g d_fills d_added :
  invariant w → 0 ≤ v ≤ max_tokens_ bucket → 0 ≤ d_fills →
  g + v = current w + d_added → 0 ≤ d_added ≤ d_fills * tokens_per_fill_ bucket →
  invariant (set_pc t Idle {| hist := v :: hist w; threads := threads w; granted := granted w + g;
    denied := denied w; fills := fills w + d_fills; added := added w + d_added |}).
Proof.
  intros (H1 & H2 & H3 & H4 & H5 & H6 & H7 & H8) Hv Hf Hsum Ha.
  apply invariant_set_pc; [| done]. split_and!; cbn; try done; try lia.
  - by constructor.
  - intros Hd. right. by apply H7.
Qed.

Lemma step_invariant w w' : bucket_ok → step w w' → invariant w → invariant w'.
Proof.
  intros Hok Hstep Hinv.
  pose proof Hinv as (Hne & Hall & _ & _ & _ & Hpc & _). rewrite Forall_forall in Hall.
  pose proof (Hall _ (current_in w Hne)) as Hcur.
  destruct Hstep as [t e w Hp He | t e w Hp He | t e e' w Hp He | t e w Hp He | t e w Hp He | t e e' w Hp He].
  - by apply invariant_seen.
  - pose proof (Hpc t e Hp). subst e. destruct Hok as (? & ? & ?).
    pose proof (invariant_push t w (u32 (current w - 1)) 1 0 0 Hinv) as Hi.
    rewrite !Z.add_0_r, u32_small in Hi by lia. unfold upd. cbn.
    rewrite u32_small by lia. rewrite <- Z.add_1_r. apply Hi; lia.
  - by apply invariant_seen.
  - by apply invariant_set_pc.
  - subst e. destruct (filled_range (current w) Hok Hcur) as [Hfr Hfd].
    pose proof (invariant_push t w (filled bucket (current w)) 0 1 (filled bucket (current w) - current w) Hinv) as Hi.
    rewrite Z.add_0_r in Hi. unfold upd. cbn. rewrite <- Z.add_1_r, (Z.add_comm _ (added w)). apply Hi; lia.
  - by apply invariant_set_pc.
Qed.

Lemma reachable_invariant w : bucket_ok → reachable w → invariant w.
Proof.
  intros Hok Hr. pose proof Hok as (H1 & H2 & H3).
  assert (invariant init_world) as Hi.
  { split_and!; cbn; try done; try lia. repeat constructor; lia. }
  unfold reachable in Hr. induction Hr as [|? ? ? Hs _ IH]; [done |]. eauto using step_invariant.
Qed.
End concurrent.

(** ** Lemmas *)

Section lemmas.
Context {E : Envoy} {HM : HeaderMatching E}.

Definition state_ok (bucket : TokenBucket) (s : TokenState) : Prop := 0 ≤ tokens_ s ≤ max_tokens_ bucket.
Definition limiter_ok (r : LocalRateLimiterImpl) : Prop :=
  (has_token_bucket r = true → bucket_ok (global_token_bucket_ r) ∧ state_ok (global_token_bucket_ r) (global_token_state_ r)) ∧
  Forall (λ c, bucket_ok (token_bucket_ c) ∧ state_ok (token_bucket_ c) (token_state_ c)) (conditions_ r).

Lemma requestAllowedHelper_spec bucket s :
  bucket_ok bucket → state_ok bucket s →
  let '(allowed, s') := requestAllowedHelper s in
  allowed = negb (tokens_ s =? 0) ∧ tokens_ s' = tokens_ s - (if allowed then 1 else 0) ∧
  fill_time_ s' = fill_time_ s ∧ state_ok bucket s'.
Proof.
  intros (H1 & H2 & H3) Hs. unfold requestAllowedHelper, state_ok in *.
  destruct (Z.eqb_spec (tokens_ s) 0); [split_and!; try done; lia |].
  unfold upd. cbn. rewrite u32_small by lia. split_and!; try done; lia.
Qed.

Lemma fill_if_due_spec bucket now s :
  bucket_ok bucket → state_ok bucket s →
  let s' := fill_if_due now s bucket in
  state_ok bucket s' ∧ tokens_ s ≤ tokens_ s' ∧
  if fill_interval_ bucket <=? elapsed_ms now (fill_time_ s)
  then tokens_ s' = Z.min (max_tokens_ bucket) (tokens_ s + tokens_per_fill_ bucket) ∧ fill_time_ s' = now
  else s' = s.
Proof.
  intros Hok Hs. pose proof (filled_range bucket (tokens_ s) Hok Hs) as [Hf _]. pose proof Hok as (H1 & H2 & H3).
  unfold fill_if_due, onFillTimerHelper, state_ok in *. cbv zeta.
  destruct (_ <=? _); [| split_and!; try done; lia]. unfold upd. cbn. split_and!; try lia.
  unfold filled. by rewrite u32_small by lia.
Qed.

(** The first condition that matches, with the conditions around it. *)
Lemma requestAllowed_loop_spec h cs :
  match requestAllowed_loop h cs with
  | Some (allowed, cs') => ∃ before c after,
      cs = before ++ c :: after ∧ Forall (λ c, matchHeaders h (match_ c) = false) before ∧
      matchHeaders h (match_ c) = true ∧ allowed = (requestAllowedHelper (token_state_ c)).1 ∧
      cs' = before ++ c <| token_state_ := (requestAllowedHelper (token_state_ c)).2 |> :: after
  | None => Forall (λ c, matchHeaders h (match_ c) = false) cs
  end.
Proof.
  induction cs as [|c cs IH]; cbn [requestAllowed_loop]; [constructor |].
  destruct (matchHeaders h (match_ c)) eqn:Hm.
  - destruct (requestAllowedHelper (token_state_ c)) as [allowed s] eqn:Hr.
    exists [], c, cs. by rewrite Hr.
  - destruct (requestAllowed_loop h cs) as [[allowed cs']|]; cbn; [| by constructor].
    destruct IH as (before & c' & after & -> & Hb & Hm' & -> & ->).
    exists (c :: before), c', after. split_and!; try done. by constructor.
Qed.

Lemma timer_of_min i cs :
  0 < i → Forall (λ c, 0 < fill_interval_ (cc_bucket c)) cs →
  0 < timer_of i cs ∧ timer_of i cs ≤ i ∧ Forall (λ c, timer_of i cs ≤ fill_interval_ (cc_bucket c)) cs.
Proof.
  unfold timer_of. revert i. induction cs as [|c cs IH]; intros i Hi; cbn [foldl]; [intros _; by split_and? |].
  intros [Hc Hcs]%Forall_cons. destruct (Z.eqb_spec i 0); [lia |]. cbn [orb].
  destruct (Z.ltb_spec (fill_interval_ (cc_bucket c)) i).
  - destruct (IH _ Hc Hcs) as (H1 & H2 & H3). split_and!; [done | lia |]. by constructor.
  - destruct (IH _ Hi Hcs) as (H1 & H2 & H3). split_and!; [done | done |]. constructor; [lia | done].
Qed.
End lemmas.

(** ** Properties *)

Section properties.
Context {E : Envoy} {HM : HeaderMatching E}.

(** C31: under any interleaving of request threads and refills, with stale loads
    and spurious failures of the compare-and-swap, the number of requests a
    bucket has let through is what it started with plus what the refills added,
    less what is left: it never exceeds [max_tokens] plus [tokens_per_fill] per
    refill.  The count stays between 0 and [max_tokens], and no request is
    denied unless the bucket has been empty. *)
Theorem rate_limiter_concurrent_bound (bucket : TokenBucket) (w : world)
    (Hok : bucket_ok bucket) (Hreach : reachable bucket w) :
  granted w = max_tokens_ bucket + added w - current w ∧
  0 ≤ current w ≤ max_tokens_ bucket ∧
  granted w ≤ max_tokens_ bucket + fills w * tokens_per_fill_ bucket ∧
  (0 < denied w → 0 ∈ hist w).
Proof.
  destruct (reachable_invariant bucket w Hok Hreach) as (Hne & Hall & Hsum & Ha & _ & _ & Hd & _).
  rewrite Forall_forall in Hall. pose proof (Hall _ (current_in w Hne)). split_and!; try done; lia.
Qed.

(** the functions the limiter is modelled with are what an undisturbed thread
    does: from any state with an idle thread there are steps that load, swap and
    end in exactly the result of [requestAllowedHelper], or of the refill. *)
Theorem rate_limiter_helpers_refine_steps (bucket : TokenBucket) (w : world) (t : nat) (f : Z)
    (Hidle : pc t w = Idle) (Hne : hist w ≠ []) :
  (∃ w', rtc (step bucket) w w' ∧ pc t w' = Idle ∧
     let '(allowed, s) := requestAllowedHelper {| tokens_ := current w; fill_time_ := f |} in
     current w' = tokens_ s ∧ granted w' = granted w + (if allowed then 1 else 0) ∧
     denied w' = denied w + (if allowed then 0 else 1)) ∧
  (∃ w', rtc (step bucket) w w' ∧ pc t w' = Idle ∧ fills w' = fills w + 1 ∧
     current w' = tokens_ (onFillTimerHelper {| tokens_ := current w; fill_time_ := f |} bucket)).
Proof.
  pose proof (current_in w Hne) as Hcur. split.
  - pose proof (step_allow_load bucket t (current w) w Hidle Hcur) as Hl.
    unfold requestAllowedHelper. cbn [tokens_]. unfold seen_by_request in Hl.
    destruct (Z.eqb_spec (current w) 0) as [H0 | Hn0].
    + eexists. split; [by apply rtc_once |]. rewrite pc_set_pc, decide_True by done. unfold upd. cbn. split_and!; first [done | lia].
    + eexists. split; [eapply rtc_l; [exact Hl |]; apply rtc_once, (step_allow_cas _ t (current w)) |].
      * by rewrite pc_set_pc, decide_True.
      * done.
      * rewrite pc_set_pc, decide_True by done. unfold upd. cbn. split_and!; first [done | lia].
  - pose proof (step_fill_load bucket t (current w) w Hidle Hcur) as Hl.
    eexists. split; [eapply rtc_l; [exact Hl |]; apply rtc_once, (step_fill_cas _ t (current w)) |].
    + by rewrite pc_set_pc, decide_True.
    + done.
    + rewrite pc_set_pc, decide_True by done. unfold upd. cbn. split_and!; first [done | lia].
Qed.

(** the first condition whose matchers accept the message decides, from its
    own bucket and from no other; without one the global bucket decides if there
    is one; otherwise the request is allowed and nothing changes. *)
Theorem rate_limiter_first_match_decides (m : MetadataImpl) (r : LocalRateLimiterImpl) :
  let '(allowed, r') := requestAllowed m r in
  (∃ before c after, conditions_ r = before ++ c :: after ∧
     Forall (λ c, matchHeaders (headers_ m) (match_ c) = false) before ∧
     matchHeaders (headers_ m) (match_ c) = true ∧
     allowed = negb (tokens_ (token_state_ c) =? 0) ∧
     r' = r <| conditions_ := before ++ c <| token_state_ := (requestAllowedHelper (token_state_ c)).2 |> :: after |>) ∨
  (Forall (λ c, matchHeaders (headers_ m) (match_ c) = false) (conditions_ r) ∧
   if has_token_bucket r
   then allowed = negb (tokens_ (global_token_state_ r) =? 0) ∧
        r' = r <| global_token_state_ := (requestAllowedHelper (global_token_state_ r)).2 |>
   else allowed = true ∧ r' = r).
Proof.
  unfold requestAllowed. pose proof (requestAllowed_loop_spec (headers_ m) (conditions_ r)) as Hs.
  destruct (requestAllowed_loop _ _) as [[allowed cs']|].
  - destruct Hs as (before & c & after & Hc & Hb & Hm & -> & ->). left. exists before, c, after.
    split_and!; try done. unfold requestAllowedHelper. by destruct (_ =? 0).
  - destruct (has_token_bucket r); cbn [negb]; [| by right].
    unfold requestAllowedHelper. destruct (_ =? 0); by right.
Qed.

(** a limiter that is constructed has every bucket full, and both a request
    and a run of the fill timer keep every count between 0 and the size of its
    bucket; a refill adds [tokens_per_fill] up to the size, exactly when the
    interval has passed, and never takes tokens away. *)
Theorem rate_limiter_buckets_bounded (r : LocalRateLimiterImpl) (m : MetadataImpl) (now : Z)
    (Hr : limiter_ok r) :
  limiter_ok (requestAllowed m r).2 ∧ limiter_ok (onFillTimer now r) ∧
  Forall2 (λ c c', tokens_ (token_state_ c) ≤ tokens_ (token_state_ c') ∧
    if fill_interval_ (token_bucket_ c) <=? elapsed_ms now (fill_time_ (token_state_ c))
    then tokens_ (token_state_ c') =
           Z.min (max_tokens_ (token_bucket_ c)) (tokens_ (token_state_ c) + tokens_per_fill_ (token_bucket_ c))
    else c' = c)
    (conditions_ r) (conditions_ (onFillTimer now r)).
Proof.
  destruct Hr as [Hg Hc]. split_and!.
  - unfold requestAllowed. pose proof (requestAllowed_loop_spec (headers_ m) (conditions_ r)) as Hs.
    destruct (requestAllowed_loop _ _) as [[allowed cs']|].
    + destruct Hs as (before & c & after & Heq & _ & _ & _ & ->). split; [done |].
      rewrite Heq in Hc. apply Forall_app in Hc as [Hb [[Hbk Hst] Ha]%Forall_cons].
      pose proof (requestAllowedHelper_spec _ _ Hbk Hst) as Hh. destruct (requestAllowedHelper _) as [al s'].
      destruct Hh as (_ & _ & _ & Hh). cbn. apply Forall_app. split; [done |]. by constructor.
    + destruct (has_token_bucket r) eqn:Hhas; cbn [negb]; [| split; [cbn; rewrite Hhas; done | done]].
      destruct (Hg eq_refl) as [Hbk Hst]. pose proof (requestAllowedHelper_spec _ _ Hbk Hst) as Hh.
      destruct (requestAllowedHelper _) as [al s']. destruct Hh as (_ & _ & _ & Hh). by split.
  - unfold onFillTimer, onFillTimerConditionHelper. split.
    + destruct (has_token_bucket r) eqn:Hhas; unfold upd; cbn; [| by rewrite Hhas]. intros _.
      destruct (Hg eq_refl) as [Hbk Hst]. split; [done |]. by apply fill_if_due_spec.
    + assert (∀ cs, Forall (λ c, bucket_ok (token_bucket_ c) ∧ state_ok (token_bucket_ c) (token_state_ c)) cs →
        Forall (λ c, bucket_ok (token_bucket_ c) ∧ state_ok (token_bucket_ c) (token_state_ c))
          ((λ c, c <| token_state_ ::= λ s, fill_if_due now s (token_bucket_ c) |>) <$> cs)) as Haux.
      { intros cs Hcs. apply Forall_fmap. eapply Forall_impl; [exact Hcs |]. intros c [Hbk Hst].
        split; [done |]. by apply fill_if_due_spec. }
      destruct (has_token_bucket r); by apply Haux.
  - unfold onFillTimer, onFillTimerConditionHelper.
    assert (conditions_ (if has_token_bucket r
      then r <| global_token_state_ ::= λ s, fill_if_due now s (global_token_bucket_ r) |> else r) = conditions_ r) as Hcs
      by by destruct (has_token_bucket r).
    unfold upd at 1 2. cbn [conditions_ eta]. rewrite Hcs. apply Forall2_fmap_r, Forall_Forall2_diag.
    eapply Forall_impl; [exact Hc |]. intros c [Hbk Hst]. pose proof (fill_if_due_spec _ now _ Hbk Hst) as (_ & H1 & H2).
    split; [exact H1 |]. unfold upd. cbn. destruct (_ <=? _); [by destruct H2 |].
    rewrite H2. by destruct c.
Qed.

(** the constructor rejects a configuration whose shortest fill interval is
    below 50 ms and otherwise starts with full buckets and a timer that runs at
    the shortest interval, so that no bucket waits longer than its own. *)
Theorem rate_limiter_constructor (has_bucket : bool) (bucket : TokenBucket) (conditions : list ConditionConfig) (now : Z)
    (Hb : 0 < fill_interval_ bucket)
    (Hc : Forall (λ c, 0 < fill_interval_ (cc_bucket c)) conditions) :
  match new_LocalRateLimiterImpl has_bucket bucket conditions now with
  | Return r =>
      50 ≤ timer_duration_ r ∧ timer_duration_ r ≤ fill_interval_ bucket ∧
      Forall (λ c, timer_duration_ r ≤ fill_interval_ (token_bucket_ c) ∧
                   tokens_ (token_state_ c) = max_tokens_ (token_bucket_ c)) (conditions_ r) ∧
      (has_bucket = true → tokens_ (global_token_state_ r) = max_tokens_ (global_token_bucket_ r))
  | Throw e => e = EnvoyException "local rate limit token bucket fill timer must be >= 50ms" ∧
      (fill_interval_ bucket < 50 ∨ Exists (λ c, fill_interval_ (cc_bucket c) < 50) conditions)
  | Panic _ => False
  end.
Proof.
  destruct (timer_of_min _ _ Hb Hc) as (H1 & H2 & H3). unfold new_LocalRateLimiterImpl. cbv zeta.
  destruct (Z.ltb_spec (timer_of (fill_interval_ bucket) conditions) 50) as [Hlt | Hge].
  - split; [done |]. clear -Hlt Hb Hc. unfold timer_of in Hlt. revert Hlt Hb Hc. generalize (fill_interval_ bucket).
    induction conditions as [|c cs IH]; intros i Hlt Hb Hc; cbn [foldl] in Hlt; [by left |].
    apply Forall_cons in Hc as [Hc Hcs]. destruct (_ || _) eqn:Hor in Hlt.
    + destruct (IH _ Hlt Hc Hcs); [right; by left | right; by right].
    + destruct (IH _ Hlt Hb Hcs); [by left | right; by right].
  - split_and!; cbn; [done | done | | by destruct has_bucket].
    apply Forall_fmap. eapply Forall_impl; [exact H3 |]. intros c Hle. by split.
Qed.

(** the sum in the refill is one of 32-bit words: with [tokens_per_fill]
    close to the largest word, a refill empties the bucket instead of filling
    it. *)
Theorem rate_limiter_refill_wraps :
  let bucket := {| max_tokens_ := 2 ^ 32 - 1; tokens_per_fill_ := 1; fill_interval_ := 50 |} in
  tokens_ (onFillTimerHelper {| tokens_ := 2 ^ 32 - 1; fill_time_ := 0 |} bucket) = 0.
Proof. vm_compute. reflexivity. Qed.

(** the filter lets a message through exactly when the limiter allows it; a
    message it stops gets one local reply, of type [OverLimit] and without
    closing the connection, and is aborted.  Each message is counted once, as
    passed or as limited. *)
Theorem rate_limit_filter_decision {W} (sendLocalReply : Error → bool → M W unit) (m : MetadataImpl)
    (c : FilterConfig) (w : W) :
  let allowed := (requestAllowed m (rate_limiter_ c)).1 in
  let c' := (LocalRateLimit_onMessageDecoded sendLocalReply m (c, w)).2.1 in
  rate_limiter_ c' = (requestAllowed m (rate_limiter_ c)).2 ∧
  ok_ (stats_ c') = ok_ (stats_ c) + (if allowed then 1 else 0) ∧
  rate_limited_ (stats_ c') = rate_limited_ (stats_ c) + (if allowed then 0 else 1) ∧
  if allowed then LocalRateLimit_onMessageDecoded sendLocalReply m (c, w) = (Return FilterStatus_ContinueIteration, (c', w))
  else ∃ error, error_type error = ErrorType_OverLimit ∧
    LocalRateLimit_onMessageDecoded sendLocalReply m (c, w) =
      match sendLocalReply error false w with
      | (Return _, w') => (Return FilterStatus_AbortIteration, (c', w'))
      | (Throw e, w') => (Throw e, (c', w'))
      | (Panic s, w') => (Panic s, (c', w'))
      end.
Proof.
  cbv zeta. unfold LocalRateLimit_onMessageDecoded, shouldRateLimit.
  destruct (requestAllowed m (rate_limiter_ c)) as [[] r].
  - unfold upd. cbn. split_and!; try done; lia.
  - cbn [fst snd]. destruct (sendLocalReply _ false w) as [[] w'] eqn:Hs; unfold upd; cbn;
      (split_and!; [done | lia | lia |]; eexists; split; [| by rewrite Hs]; done).
Qed.
End properties.

(** ** Witnesses *)

Section witnesses.
Definition w_bucket : TokenBucket := {| max_tokens_ := 1; tokens_per_fill_ := 1; fill_interval_ := 100 |}.
Definition any_match (E : Envoy) : HeaderMatching E := {| header_match := bool; matchHeaders _ m := m |}.
Definition rl_E : Envoy := list_envoy Empty_set.
Existing Instances rl_E any_match.

(** One request is let through, by a thread whose first swap fails. *)
Definition w_one_granted : world :=
  set_pc 0 Idle ((set_pc 0 (AllowCas 1) (set_pc 0 (AllowCas 1) (init_world w_bucket)))
    <| hist ::= cons (u32 (1 - 1)) |> <| granted ::= Z.succ |>).
Lemma w_one_granted_reachable : reachable w_bucket w_one_granted.
Proof.
  eapply rtc_l; [apply (step_allow_load _ 0 1); [done | by left] |].
  eapply rtc_l; [apply (step_allow_cas_fails _ 0 1 1); [done | by left] |].
  apply rtc_once. by apply (step_allow_cas _ 0 1).
Qed.

Lemma rate_limiter_concurrent_bound_witness :
  granted w_one_granted = 1 ∧ granted w_one_granted ≤ max_tokens_ w_bucket + fills w_one_granted * 1.
Proof.
  split; [reflexivity |].
  apply (rate_limiter_concurrent_bound w_bucket w_one_granted); [| exact w_one_granted_reachable].
  vm_compute. split; [discriminate | split; [discriminate | reflexivity]].
Defined.

Lemma rate_limiter_helpers_refine_steps_witness :
  ∃ w', rtc (step w_bucket) (init_world w_bucket) w' ∧ pc 3 w' = Idle ∧ fills w' = 1 ∧ current w' = 1.
Proof. apply (rate_limiter_helpers_refine_steps w_bucket (init_world w_bucket) 3 0); [reflexivity | done]. Defined.

Definition w_limiter : LocalRateLimiterImpl :=
  {| global_token_bucket_ := w_bucket; global_token_state_ := {| tokens_ := 1; fill_time_ := 0 |};
     conditions_ := [{| token_state_ := {| tokens_ := 0; fill_time_ := 0 |}; match_ := true; token_bucket_ := w_bucket |}];
     timer_duration_ := 100; has_token_bucket := true; fill_timer_ := true |}.

Lemma rate_limiter_buckets_bounded_witness :
  limiter_ok (requestAllowed new_MetadataImpl w_limiter).2 ∧ limiter_ok (onFillTimer 200000000 w_limiter).
Proof.
  assert (limiter_ok w_limiter) as Hok.
  { split; [intros _ |]; repeat constructor; vm_compute; repeat split; discriminate. }
  split; apply (rate_limiter_buckets_bounded w_limiter new_MetadataImpl 200000000 Hok).
Defined.

Lemma rate_limiter_constructor_witness :
  match new_LocalRateLimiterImpl true w_bucket [{| cc_match := true; cc_bucket := w_bucket |}] 5 with
  | Return r => 50 ≤ timer_duration_ r
  | _ => False
  end.
Proof.
  pose proof (rate_limiter_constructor true w_bucket [{| cc_match := true; cc_bucket := w_bucket |}] 5) as H.
  apply H; [reflexivity | by repeat constructor].
Defined.
End witnesses.
