(* ===== verification/Route.v ===== *)
(** * Route matching

    Model of [route/route_matcher_impl.h], [route_matcher_impl.cc] and
    [config_impl.cc]: route entries built from a configuration, the match of a
    message against them, weighted clusters, mutations and mirror policies; and of
    [route/hash_policy_impl.cc].

    The configuration classes are generated from the protobuf files; a record has
    the fields the code reads.  Matching headers, choosing a weighted cluster and
    the runtime are Envoy's. *)

From S2P Require Import Prelude Envoy Metadata.

(** ** Configuration *)

Class RouteEnv (E : Envoy) := {
  HeaderMatcher : Type;
  HeaderData : Type;
  buildHeaderData : HeaderMatcher → HeaderData;
  matchAllHeaders : headers → list HeaderData → bool;
  (** [WeightedClusterUtil::pickCluster(clusters, total, random_value, false)] *)
  pickCluster : ∀ {A : Type}, (A → Z) → list A → Z → Z → outcome A;
  (** [runtime.snapshot().featureEnabled(key, default, random)] *)
  featureEnabled : string → Z * Z → Z → bool
}.

Definition sum_weights {A} (weight : A → Z) (l : list A) : Z := foldr (λ e n, weight e + n) 0 l.

(** What is documented of [pickCluster]: the interval of the weights in which
    [random_value % total] lies. *)
Class RouteEnvLaws {E : Envoy} (R : RouteEnv E) : Prop :=
  pickCluster_interval A (weight : A → Z) l random :
    Forall (λ e, 0 ≤ weight e) l → 0 < sum_weights weight l < 2 ^ 64 → 0 ≤ random →
    ∃ pre e post, l = pre ++ e :: post ∧
      pickCluster weight l (sum_weights weight l) random = Return e ∧
      sum_weights weight pre ≤ random `mod` sum_weights weight l < sum_weights weight pre + weight e.

Section route.
Context {E : Envoy} {R : RouteEnv E}.

(** [RouteAction_RequestMirrorPolicy]: the runtime fraction is a key with the
    numerator and denominator of its default. *)
Record MirrorPolicyConfig : Type := {
  mp_cluster : string;
  mp_runtime_fraction : option (string * (Z * Z))
}.
Record RouteConfig : Type := {
  rc_name : string;
  rc_cluster : string;
  rc_match : list HeaderMatcher;
  (** [kWeightedClusters]; a weight is a wrapped value that may be missing *)
  rc_weighted_clusters : option (list (string * option Z));
  rc_request_mutation : list (string * string);
  rc_response_mutation : list (string * string);
  rc_hash_policy : list string;
  rc_mirror_policies : list MirrorPolicyConfig
}.

(** ** RequestMirrorPolicyImpl *)

Record RequestMirrorPolicyImpl : Type := {
  mirror_cluster_name_ : string;
  runtime_key_ : string;
  default_value_ : Z * Z
}.
(** [FractionalPercent::HUNDRED] is the enumerator 0. *)
Definition new_RequestMirrorPolicyImpl (config : MirrorPolicyConfig) : RequestMirrorPolicyImpl :=
  match mp_runtime_fraction config with
  | Some (key, default) =>
      {| mirror_cluster_name_ := mp_cluster config; runtime_key_ := key; default_value_ := default |}
  | None => {| mirror_cluster_name_ := mp_cluster config; runtime_key_ := ""; default_value_ := (100, 0) |}
  end.
Definition shouldShadow (p : RequestMirrorPolicyImpl) (stable_random : Z) : bool :=
  featureEnabled (runtime_key_ p) (default_value_ p) stable_random.

(** ** RouteEntryImplBase *)

Record WeightedClusterEntry : Type := { wc_cluster_name_ : string; clusterWeight : Z }.

(** [total_cluster_weight_] is not initialised without weighted clusters, and not
    read either. *)
Record RouteEntryImplBase : Type := {
  total_cluster_weight_ : Z;
  route_name_ : string;
  cluster_name_ : string;
  config_headers_ : list HeaderData;
  weighted_clusters_ : list WeightedClusterEntry;
  request_mutation_ : list (string * string);
  response_mutation_ : list (string * string);
  hash_policy_ : option (list string);
  mirror_policies_ : list RequestMirrorPolicyImpl
}.

Definition buildMirrorPolicies (l : list MirrorPolicyConfig) : list RequestMirrorPolicyImpl :=
  new_RequestMirrorPolicyImpl <$> l.

(** The loop over the weighted clusters of the constructor. *)
Fixpoint add_clusters (l : list (string * option Z)) (entries : list WeightedClusterEntry) (total : Z) :
    outcome (list WeightedClusterEntry * Z) :=
  match l with
  | [] => Return (entries, total)
  | (name, Some weight) :: l =>
      add_clusters l (entries ++ [{| wc_cluster_name_ := name; clusterWeight := weight |}]) (u64 (total + weight))
  | (name, None) :: _ => Throw (EnvoyException "Field 'weight' is missing in: ")
  end.

Definition new_RouteEntryImplBase (route : RouteConfig) : outcome RouteEntryImplBase :=
  '(clusters, total) ← match rc_weighted_clusters route with
                       | Some l => add_clusters l [] 0
                       | None => Return ([], 0)
                       end;
  Return {| total_cluster_weight_ := total;
            route_name_ := rc_name route;
            cluster_name_ := rc_cluster route;
            config_headers_ := buildHeaderData <$> rc_match route;
            weighted_clusters_ := clusters;
            request_mutation_ := rc_request_mutation route;
            response_mutation_ := rc_response_mutation route;
            hash_policy_ := match rc_hash_policy route with [] => None | l => Some l end;
            mirror_policies_ := buildMirrorPolicies (rc_mirror_policies route) |}.

(** A route is the entry or one of its weighted clusters, which refers to it. *)
Record Route : Type := { r_entry : RouteEntryImplBase; r_cluster : option WeightedClusterEntry }.
Definition routeName (r : Route) : string := route_name_ (r_entry r).
Definition clusterName (r : Route) : string :=
  match r_cluster r with Some c => wc_cluster_name_ c | None => cluster_name_ (r_entry r) end.
Definition requestMirrorPolicies (r : Route) : list RequestMirrorPolicyImpl := mirror_policies_ (r_entry r).

(** [mutation[key] = value] for every entry, in the order of the configuration. *)
Definition mutate (l : list (string * string)) (mutation : Mutation) : Mutation :=
  foldl (λ m kv, <[kv.1 := kv.2]> m) mutation l.
Definition requestMutation (r : Route) (mutation : Mutation) : Mutation :=
  mutate (request_mutation_ (r_entry r)) mutation.
Definition responseMutation (r : Route) (mutation : Mutation) : Mutation :=
  mutate (response_mutation_ (r_entry r)) mutation.

Definition clusterEntry (e : RouteEntryImplBase) (random_value : Z) : outcome Route :=
  match weighted_clusters_ e with
  | [] => Return {| r_entry := e; r_cluster := None |}
  | l => c ← pickCluster clusterWeight l (total_cluster_weight_ e) random_value;
         Return {| r_entry := e; r_cluster := Some c |}
  end.

Definition headersMatch (e : RouteEntryImplBase) (metadata : MetadataImpl) : bool :=
  match config_headers_ e with
  | [] => true
  | l => matchAllHeaders (headers_ metadata) l
  end.

Definition matches (e : RouteEntryImplBase) (metadata : MetadataImpl) (random_value : Z) : outcome (option Route) :=
  if negb (headersMatch e metadata) then Return None else Some <$> clusterEntry e random_value.

(** ** RouteMatcherImpl *)

Fixpoint new_RouteMatcherImpl (config : list RouteConfig) : outcome (list RouteEntryImplBase) :=
  match config with
  | [] => Return []
  | route :: config => e ← new_RouteEntryImplBase route; l ← new_RouteMatcherImpl config; Return (e :: l)
  end.

Fixpoint RouteMatcherImpl_route (routes : list RouteEntryImplBase) (metadata : MetadataImpl) (random_value : Z) :
    outcome (option Route) :=
  match routes with
  | [] => Return None
  | route :: routes =>
      route_entry ← matches route metadata random_value;
      match route_entry with
      | Some r => Return (Some r)
      | None => RouteMatcherImpl_route routes metadata random_value
      end
  end.

(** ** HashPolicyImpl

    The views collected are of strings that [getString] returned by value and
    that are gone at the end of the statement: the first hash reads freed memory. *)
Definition generateHash (hash_policy : list string) (metadata : MetadataImpl) : outcome (option Z) :=
  match hash_policy with
  | [] => Return None
  | key :: _ => _ ← getString key metadata; Panic "use after free"
  end.
End route.

(** ** Lemmas *)

(** Choosing by cumulated weights, written as a function. *)
Fixpoint pick_ref {A} (weight : A → Z) (l : list A) (x : Z) : option A :=
  match l with
  | [] => None
  | e :: l => if x <? weight e then Some e else pick_ref weight l (x - weight e)
  end.

Lemma sum_weights_cons {A} (weight : A → Z) e l : sum_weights weight (e :: l) = weight e + sum_weights weight l.
Proof. done. Qed.
Lemma sum_weights_nil {A} (weight : A → Z) : sum_weights weight [] = 0.
Proof. done. Qed.
Lemma sum_weights_nonneg {A} (weight : A → Z) l : Forall (λ e, 0 ≤ weight e) l → 0 ≤ sum_weights weight l.
Proof. induction 1 as [|a l Ha _ IH]; rewrite ?sum_weights_nil, ?sum_weights_cons; lia. Qed.

Lemma pick_ref_app {A} (weight : A → Z) pre e post x :
  Forall (λ e, 0 ≤ weight e) pre → sum_weights weight pre ≤ x < sum_weights weight pre + weight e →
  pick_ref weight (pre ++ e :: post) x = Some e.
Proof.
  intros Hpre. revert x. induction Hpre as [|a pre Ha Hpre IH]; intros x; cbn [app pick_ref].
  { rewrite sum_weights_nil. intros. by rewrite (proj2 (Z.ltb_lt _ _)) by lia. }
  rewrite sum_weights_cons. pose proof (sum_weights_nonneg _ _ Hpre). intros Hx.
  rewrite (proj2 (Z.ltb_ge _ _)) by lia. apply IH. lia.
Qed.

Lemma seqZ_shift n m : seqZ n m = Z.add n <$> seqZ 0 m.
Proof.
  unfold seqZ. rewrite <- list_fmap_compose. apply list_fmap_ext. intros i x _. unfold compose. lia.
Qed.

Lemma seqZ_0_app n m : 0 ≤ n → 0 ≤ m → seqZ 0 (n + m) = seqZ 0 n ++ (Z.add n <$> seqZ 0 m).
Proof. intros. rewrite <- seqZ_shift. by rewrite seqZ_app. Qed.

Definition picks {A} (weight : A → Z) (p : A → bool) (l : list A) (x : Z) : bool :=
  match pick_ref weight l x with Some e => p e | None => false end.

Lemma filter_fmap_ext {A B} (f : A → B) (p : B → bool) (q : A → bool) l :
  (∀ x, x ∈ l → p (f x) = q x) → zlen (List.filter p (f <$> l)) = zlen (List.filter q l).
Proof.
  induction l as [|x l IH]; intros Hl; cbn; [done |].
  rewrite (Hl x) by left. assert (∀ y, y ∈ l → p (f y) = q y) as Hl' by (intros; apply Hl; by right).
  destruct (q x); rewrite ?zlen_cons, IH; done.
Qed.
Lemma filter_const {A} (p : A → bool) (b : bool) l :
  (∀ x, x ∈ l → p x = b) → zlen (List.filter p l) = if b then zlen l else 0.
Proof.
  induction l as [|x l IH]; intros Hl; cbn; [by destruct b |].
  rewrite (Hl x) by left. assert (∀ y, y ∈ l → p y = b) as Hl' by (intros; apply Hl; by right).
  specialize (IH Hl'). destruct b; rewrite ?zlen_cons, IH; done.
Qed.
Lemma List_filter_app {A} (p : A → bool) l k : List.filter p (l ++ k) = List.filter p l ++ List.filter p k.
Proof. apply List.filter_app. Qed.

(** How many values below the total choose an entry with [p]: its weight. *)
Lemma pick_ref_count {A} (weight : A → Z) (p : A → bool) l :
  Forall (λ e, 0 ≤ weight e) l →
  zlen (List.filter (picks weight p l) (seqZ 0 (sum_weights weight l))) = sum_weights weight (List.filter p l).
Proof.
  induction 1 as [|a l Ha Hl IH]; [done |]. rewrite sum_weights_cons.
  pose proof (sum_weights_nonneg _ _ Hl). rewrite seqZ_0_app, List_filter_app, zlen_app by done.
  rewrite (filter_const _ (p a)).
  - rewrite (filter_fmap_ext _ _ (picks weight p l)).
    + rewrite IH. assert (zlen (seqZ 0 (weight a)) = weight a) as Hlen by (unfold zlen; rewrite length_seqZ; lia).
      cbn [List.filter]. destruct (p a); rewrite ?sum_weights_cons; lia.
    + intros x Hx%elem_of_seqZ. unfold picks. cbn [pick_ref]. rewrite (proj2 (Z.ltb_ge _ _)) by lia.
      by replace (weight a + x - weight a) with x by lia.
  - intros x Hx%elem_of_seqZ. unfold picks. cbn [pick_ref]. by rewrite (proj2 (Z.ltb_lt _ _)) by lia.
Qed.

Section lemmas.
Context {E : Envoy} {R : RouteEnv E}.

(** Constructing the weighted clusters keeps them in order and adds their weights. *)
Lemma add_clusters_spec l entries total :
  Forall (λ c, 0 ≤ c.2) l → 0 ≤ total → total + sum_weights snd l < 2 ^ 64 →
  add_clusters (prod_map id Some <$> l) entries total =
    Return (entries ++ ((λ c, {| wc_cluster_name_ := c.1; clusterWeight := c.2 |}) <$> l), total + sum_weights snd l).
Proof.
  intros Hl. revert entries total. induction Hl as [|[n w] l Hw Hl IH]; intros entries total Ht Hs.
  { cbn. rewrite app_nil_r, Z.add_0_r. done. }
  rewrite sum_weights_cons in *. cbn [snd] in *. cbn [fmap list_fmap prod_map id add_clusters fst snd]. pose proof (sum_weights_nonneg _ _ Hl).
  rewrite u64_small, IH by lia. rewrite <- (assoc_L (++)). do 2 f_equal. lia.
Qed.
Lemma sum_weights_fmap {A B} (f : A → B) (weight : B → Z) l : sum_weights weight (f <$> l) = sum_weights (weight ∘ f) l.
Proof. induction l as [|a l IH]; [done |]. rewrite fmap_cons, !sum_weights_cons, IH. done. Qed.

(** Whether the random value [x] takes a message to the cluster [name]. *)
Definition chooses (e : RouteEntryImplBase) (name : string) (x : Z) : bool :=
  match clusterEntry e x with Return r => bool_decide (clusterName r = name) | _ => false end.

(** ** Theorems *)

(** A message takes the first route of the configuration whose headers match it;
    the routes behind it are not looked at, and without a match there is no route. *)
Theorem route_first_match routes m random_value :
  (Forall (λ e, headersMatch e m = false) routes ∧
   RouteMatcherImpl_route routes m random_value = Return None) ∨
  (∃ before e after, routes = before ++ e :: after ∧
     Forall (λ e, headersMatch e m = false) before ∧ headersMatch e m = true ∧
     RouteMatcherImpl_route routes m random_value = Some <$> clusterEntry e random_value).
Proof.
  induction routes as [|e routes IH]; [by left |]. cbn [RouteMatcherImpl_route]. unfold matches.
  destruct (headersMatch e m) eqn:He; cbn [negb].
  - right. exists [], e, routes. split_and!; try done. by destruct (clusterEntry e random_value).
  - destruct IH as [[Hn ->] | (before & e' & after & -> & Hb & He' & ->)].
    + left. split; [by constructor | done].
    + right. exists (e :: before), e', after. split_and!; try done. by constructor.
Qed.

(** C32: Of the random values below the total weight of a route, a cluster is chosen by
    as many as its weight says; the choice depends on the value modulo the total
    only. *)
Theorem weighted_clusters_share {RL : RouteEnvLaws R} route ws name :
  rc_weighted_clusters route = Some (prod_map id Some <$> ws) →
  Forall (λ c, 0 ≤ c.2) ws → 0 < sum_weights snd ws < 2 ^ 64 →
  ∃ e, new_RouteEntryImplBase route = Return e ∧
    zlen (List.filter (chooses e name) (seqZ 0 (sum_weights snd ws))) =
      sum_weights snd (List.filter (λ c, bool_decide (c.1 = name)) ws) ∧
    ∀ x, 0 ≤ x → chooses e name x = chooses e name (x `mod` sum_weights snd ws).
Proof.
  intros Hw Hpos Hsum. unfold new_RouteEntryImplBase. rewrite Hw, add_clusters_spec by (done || lia).
  cbn [mbind outcome_bind app]. eexists. split; [reflexivity |]. set (e := Build_RouteEntryImplBase _ _ _ _ _ _ _ _ _).
  set (l := (λ c, {| wc_cluster_name_ := c.1; clusterWeight := c.2 |}) <$> ws).
  set (total := sum_weights snd ws) in *.
  assert (weighted_clusters_ e = l ∧ total_cluster_weight_ e = total) as [Hel Het] by done. clearbody e.
  assert (sum_weights clusterWeight l = total) as Hl by apply sum_weights_fmap.
  assert (Forall (λ e, 0 ≤ clusterWeight e) l) as Hlp by (by apply Forall_fmap).
  assert (l ≠ []) as Hne by (intros Hn; rewrite Hn in Hl; cbn in Hl; lia).
  set (p := λ c, bool_decide (wc_cluster_name_ c = name)).
  assert (∀ x, 0 ≤ x → chooses e name x = picks clusterWeight p l (x `mod` total)) as Hch.
  { intros x Hx. destruct (pickCluster_interval _ clusterWeight l x) as (pre & c & post & Hd & Hpick & Hint);
      [done | by rewrite Hl | done |]. rewrite Hl in Hpick, Hint. 
    assert (clusterEntry e x = (c ← pickCluster clusterWeight l total x;
                                Return {| r_entry := e; r_cluster := Some c |})) as Hce.
    { unfold clusterEntry. rewrite Hel, Het. by destruct l. }
    unfold chooses. rewrite Hce, Hpick. unfold picks. rewrite Hd, (pick_ref_app _ pre c post) by (done || (rewrite Hd in Hlp; by apply Forall_app in Hlp as [? _])).
    done. }
  split.
  - rewrite <- (map_id (seqZ 0 total)) at 1. rewrite (filter_fmap_ext id (chooses e name) (picks clusterWeight p l)).
    + rewrite <- Hl, pick_ref_count by done. unfold l, p. clear. induction ws as [|[n w] ws IH]; [done |].
      rewrite fmap_cons. cbn [List.filter wc_cluster_name_ fst].
      destruct (bool_decide (n = name)); rewrite ?sum_weights_cons; [f_equal |]; exact IH.
    + intros x Hx%elem_of_seqZ. unfold id. rewrite Hch by lia. by rewrite Z.mod_small by lia.
  - intros x Hx. rewrite !Hch by (done || apply Z.mod_pos_bound; lia). by rewrite Z.mod_mod by lia.
Qed.

(** The last value the configuration gives a key wins, other keys keep theirs. *)
Lemma mutate_lookup l mutation k :
  mutate l mutation !! k =
    match (list_to_map (reverse l) : gmap string string) !! k with Some v => Some v | None => mutation !! k end.
Proof.
  revert mutation. induction l as [|[k' v'] l IH] using rev_ind; intros mutation; [done |].
  unfold mutate in *. rewrite foldl_app, reverse_app. cbn. destruct (decide (k' = k)) as [->|Hne].
  - by rewrite !lookup_insert_eq.
  - rewrite !lookup_insert_ne by done. apply IH.
Qed.
End lemmas.

(** ** A concrete environment *)

Definition list_route_env (E : Envoy) : RouteEnv E := {|
  HeaderMatcher := string * string;
  HeaderData := string * string;
  buildHeaderData := id;
  matchAllHeaders h l := forallb (λ c, bool_decide (hdr_get h c.1 = [c.2])) l;
  pickCluster A weight l total random :=
    match pick_ref weight l (random `mod` total) with Some e => Return e | None => Panic "no cluster" end;
  featureEnabled _ d random := random `mod` 100 <? d.1
|}.

Lemma pick_ref_some {A} (weight : A → Z) l x :
  0 ≤ x < sum_weights weight l →
  ∃ pre e post, l = pre ++ e :: post ∧ pick_ref weight l x = Some e ∧
    sum_weights weight pre ≤ x < sum_weights weight pre + weight e.
Proof.
  revert x. induction l as [|a l IH]; intros x Hx; [rewrite sum_weights_nil in Hx; lia |].
  rewrite sum_weights_cons in Hx. cbn [pick_ref]. destruct (Z.ltb_spec x (weight a)).
  - exists [], a, l. rewrite sum_weights_nil. split_and!; try done; lia.
  - destruct (IH (x - weight a)) as (pre & e & post & -> & -> & Hi); [lia |].
    exists (a :: pre), e, post. rewrite sum_weights_cons. split_and!; try done; lia.
Qed.
Lemma list_route_env_laws (E : Envoy) : RouteEnvLaws (list_route_env E).
Proof.
  intros A weight l random Hl Hs Hr.
  destruct (pick_ref_some weight l (random `mod` sum_weights weight l)) as (pre & e & post & -> & Hp & Hi);
    [apply Z.mod_pos_bound; lia |].
  exists pre, e, post. cbn. by rewrite Hp.
Qed.

Definition split_route (E : Envoy) : @RouteConfig E (list_route_env E) :=
  @Build_RouteConfig E (list_route_env E) "r" "" [] (Some [("v1", Some 90); ("v2", Some 10)]) [] [] [] [].
Example weighted_clusters_share_witness :
  ∃ e, @new_RouteEntryImplBase (list_envoy unit) (list_route_env _) (split_route _) = Return e ∧
    zlen (List.filter (chooses e "v2") (seqZ 0 100)) = 10.
Proof.
  destruct (@weighted_clusters_share (list_envoy unit) (list_route_env _) (list_route_env_laws _)
              (split_route _) [("v1", 90); ("v2", 10)] "v2") as (e & He & Hn & _).
  - reflexivity.
  - apply (bool_decide_unpack _). vm_compute. exact I.
  - split; reflexivity.
  - exists e. split; [exact He | exact Hn].
Defined.
