(* ===== verification/RequestId.v ===== *)
(** * Request ids

    Model of [request_id/config.h] and [config.cc]: the request id is a UUID in the
    property [x-request-id], and the reason a message is traced for is one character
    of it.  The generator and [StringUtil::atoull] are Envoy's. *)

From Stdlib Require Import Ascii.
From S2P Require Import Prelude Envoy Metadata.

(** [Tracing::Reason] of Envoy. *)
Inductive Reason : Type := NotTraceable | HealthCheck | Sampling | ServiceForced | ClientForced.
#[global] Instance Reason_eq_dec : EqDecision Reason.
Proof. solve_decision. Defined.

Definition UUID_LENGTH : nat := 36.
Definition TRACE_BYTE_POSITION : nat := 14.
Definition TRACE_SAMPLED : ascii := "9".
Definition TRACE_FORCED : ascii := "a".
Definition TRACE_CLIENT : ascii := "b".
Definition NO_TRACE : ascii := "4".

(** [s[i] = c] *)
Fixpoint set_char (i : nat) (c : ascii) (s : string) : string :=
  match i, s with
  | O, String _ s => String c s
  | S i, String c' s => String c' (set_char i c s)
  | _, EmptyString => EmptyString
  end.

Section request_id.
Context {E : Envoy} (atoull : string → option Z).

(** [uuid] is what [random_.uuid()] returns. *)
Definition UUID_set (uuid : string) (force : bool) (m : MetadataImpl) : outcome (bool * MetadataImpl) :=
  current ← (if force then Return "" else getString RequestUUID m);
  if negb force && negb (bool_decide (current = "")) then Return (false, m)
  else
    _ ← assert_that (negb (bool_decide (uuid = ""))) "!uuid.empty()";
    Return (true, putString RequestUUID uuid m).

Definition UUID_get (m : MetadataImpl) : outcome string := getString RequestUUID m.

Definition toInteger (m : MetadataImpl) : outcome (option Z) :=
  uuid ← getString RequestUUID m;
  if bool_decide (uuid = "") then Return None
  else if (String.length uuid <? 8)%nat then Return None
  else Return (atoull (String.substring 0 8 uuid)).

Definition getTraceReason (m : MetadataImpl) : outcome Reason :=
  uuid ← getString RequestUUID m;
  if bool_decide (uuid = "") then Return NotTraceable
  else if negb (String.length uuid =? UUID_LENGTH)%nat then Return NotTraceable
  else
    match String.get TRACE_BYTE_POSITION uuid with
    | Some c =>
        Return (if (c =? TRACE_FORCED)%char then ServiceForced
                else if (c =? TRACE_SAMPLED)%char then Sampling
                else if (c =? TRACE_CLIENT)%char then ClientForced
                else NotTraceable)
    | None => Panic "out of range"
    end.

(** [pack_trace_reason_] is the constant [true]. *)
Definition setTraceReason (reason : Reason) (m : MetadataImpl) : outcome MetadataImpl :=
  uuid ← getString RequestUUID m;
  if bool_decide (uuid = "") then Return m
  else if negb (String.length uuid =? UUID_LENGTH)%nat then Return m
  else
    let uuid :=
      match reason with
      | ServiceForced => set_char TRACE_BYTE_POSITION TRACE_FORCED uuid
      | ClientForced => set_char TRACE_BYTE_POSITION TRACE_CLIENT uuid
      | Sampling => set_char TRACE_BYTE_POSITION TRACE_SAMPLED uuid
      | NotTraceable => set_char TRACE_BYTE_POSITION NO_TRACE uuid
      | HealthCheck => uuid
      end in
    Return (putString RequestUUID uuid m).
End request_id.

(** ** Lemmas *)

Lemma length_set_char i c s : String.length (set_char i c s) = String.length s.
Proof. revert s. induction i; intros [|c' s]; cbn; congruence. Qed.
Lemma get_set_char i c s j :
  (i < String.length s)%nat → String.get j (set_char i c s) = if decide (i = j) then Some c else String.get j s.
Proof.
  revert s j. induction i as [|i IH]; intros [|c' s] j Hi; cbn in *; try lia.
  - by destruct j.
  - destruct j as [|j]; [done |]. cbn. rewrite IH by lia. repeat case_decide; congruence.
Qed.
Lemma substring_set_char i c s n : (n ≤ i)%nat → String.substring 0 n (set_char i c s) = String.substring 0 n s.
Proof.
  revert i s. induction n as [|n IH]; intros [|i] [|c' s] Hn; cbn; try done; try lia. by rewrite IH by lia.
Qed.

Section theorems.
Context {E : Envoy} (atoull : string → option Z).

(** The reason is one character of the id. *)
Lemma set_trace_reason reason m uuid :
  getString RequestUUID m = Return uuid → reason ≠ HealthCheck →
  ∃ m' uuid', setTraceReason reason m = Return m' ∧ getString RequestUUID m' = Return uuid' ∧
    toInteger atoull m' = toInteger atoull m ∧
    (∀ k, k ≠ RequestUUID → getByKey k m' = getByKey k m) ∧
    if decide (String.length uuid = 36%nat) then
      getTraceReason m' = Return reason ∧ String.length uuid' = 36%nat ∧
      ∀ j, j ≠ 14%nat → String.get j uuid' = String.get j uuid
    else m' = m ∧ getTraceReason m' = Return NotTraceable.
Proof.
  intros Hu Hr. unfold setTraceReason, UUID_LENGTH, TRACE_BYTE_POSITION. rewrite Hu. cbn [mbind outcome_bind].
  destruct (decide (String.length uuid = 36%nat)) as [Hlen|Hlen].
  - assert (uuid ≠ "") as Hne by (by intros ->). rewrite bool_decide_false, Hlen by done. cbn [negb Nat.eqb].
    set (c := match reason with ServiceForced => TRACE_FORCED | ClientForced => TRACE_CLIENT
                              | Sampling => TRACE_SAMPLED | _ => NO_TRACE end).
    exists (putString RequestUUID (set_char 14 c uuid) m), (set_char 14 c uuid).
    split; [by destruct reason |]. rewrite getString_putString. split; [done |].
    assert (set_char 14 c uuid ≠ "") as Hne' by (intros Hs; pose proof (length_set_char 14 c uuid) as Hl; by rewrite Hs, Hlen in Hl).
    split; [| split; [| split; [| split]]].
    + unfold toInteger. rewrite Hu, getString_putString. cbn [mbind outcome_bind].
      by rewrite !bool_decide_false, length_set_char, substring_set_char by (done || lia).
    + intros k Hk. by apply getByKey_putString_ne.
    + unfold getTraceReason. rewrite getString_putString. cbn [mbind outcome_bind].
      rewrite bool_decide_false, length_set_char, Hlen, get_set_char, decide_True by (done || lia).
      by destruct reason.
    + by rewrite length_set_char.
    + intros j Hj. rewrite get_set_char by lia. by rewrite decide_False.
  - exists m, uuid. rewrite (proj2 (Nat.eqb_neq _ _)) by done. cbn [negb].
    split; [by destruct (bool_decide _) |]. split_and!; try done.
    unfold getTraceReason. rewrite Hu. cbn [mbind outcome_bind]. unfold UUID_LENGTH.
    rewrite (proj2 (Nat.eqb_neq _ _)) by done. by destruct (bool_decide _).
Qed.

(** The reason stored in a request id is read back, the rest of the id and its
    integer value stay as they were; an id of another length is left alone and says
    the message is not traced. *)
Theorem trace_reason_roundtrip reason m uuid :
  getString RequestUUID m = Return uuid → reason ≠ HealthCheck →
  ∃ m' uuid', setTraceReason reason m = Return m' ∧ getString RequestUUID m' = Return uuid' ∧
    toInteger atoull m' = toInteger atoull m ∧
    (∀ k, k ≠ RequestUUID → getByKey k m' = getByKey k m) ∧
    if decide (String.length uuid = 36%nat) then
      getTraceReason m' = Return reason ∧ String.length uuid' = 36%nat ∧
      ∀ j, j ≠ 14%nat → String.get j uuid' = String.get j uuid
    else m' = m ∧ getTraceReason m' = Return NotTraceable.
Proof. apply set_trace_reason. Qed.

(** An id that is there is kept unless it is forced out; otherwise the new one is
    stored. *)
Lemma UUID_set_spec uuid force m current :
  getString RequestUUID m = Return current → uuid ≠ "" →
  UUID_set uuid force m =
    if negb force && negb (bool_decide (current = "")) then Return (false, m)
    else Return (true, putString RequestUUID uuid m).
Proof.
  intros Hc Hu. unfold UUID_set. rewrite Hc, (bool_decide_false _ Hu). destruct force; [done |].
  cbn. by destruct (bool_decide (current = "")).
Qed.
End theorems.

Example trace_reason_roundtrip_witness :
  let m := putString RequestUUID "f47ac10b-58cc-4372-a567-0e02b2c3d479" (new_MetadataImpl (E := list_envoy unit)) in
  ∃ m', setTraceReason Sampling m = Return m' ∧ getTraceReason m' = Return Sampling.
Proof.
  intros m.
  destruct (trace_reason_roundtrip (λ _, None) Sampling m "f47ac10b-58cc-4372-a567-0e02b2c3d479")
    as (m' & uuid' & Hs & _ & _ & _ & Hg); [reflexivity | discriminate |].
  exists m'. split; [exact Hs |]. rewrite decide_True in Hg by reflexivity. apply Hg.
Defined.
