(* ===== verification/Network.v ===== *)
(** * Network connections

    What the proxy uses of [Envoy::Network::Connection]: its state, [write] and
    [close].  [close] raises [LocalClose] to the connection callbacks before it
    returns when it closes the socket; [conn_close] returns whether it did.
    [FlushWrite] closes at once only if nothing is left to be written, otherwise
    the connection is [Closing] until the data has gone out. *)

From S2P Require Import Prelude.

Inductive ConnectionState : Type := Connection_Open | Connection_Closing | Connection_Closed.
Inductive ConnectionCloseType : Type := FlushWrite | NoFlush.
Inductive ConnectionEvent : Type := RemoteClose | LocalClose | Connected.
#[global] Instance ConnectionState_eq_dec : EqDecision ConnectionState.
Proof. solve_decision. Defined.
#[global] Instance ConnectionEvent_eq_dec : EqDecision ConnectionEvent.
Proof. solve_decision. Defined.

Class NetworkOps := {
  connection : Type;
  conn_state : connection → ConnectionState;
  (** what has been written, a list of the data and the [end_stream] of each call *)
  conn_written : connection → list (bytes * bool);
  conn_write : connection → bytes → bool → connection;
  conn_close : connection → ConnectionCloseType → connection * bool
}.

Class NetworkLaws (N : NetworkOps) : Prop := {
  conn_write_state c d e : conn_state (conn_write c d e) = conn_state c;
  conn_write_written c d e : conn_state c = Connection_Open →
    conn_written (conn_write c d e) = conn_written c ++ [(d, e)];
  conn_close_state c t : conn_state (conn_close c t).1 ≠ Connection_Open;
  conn_close_no_flush c : conn_state (conn_close c NoFlush).1 = Connection_Closed;
  conn_close_event c t : (conn_close c t).2 =
    bool_decide (conn_state c ≠ Connection_Closed ∧ conn_state (conn_close c t).1 = Connection_Closed);
  conn_close_closed c t : conn_state c = Connection_Closed → conn_state (conn_close c t).1 = Connection_Closed;
  conn_close_written c t : conn_written (conn_close c t).1 = conn_written c
}.

(** A connection that never gets to send what is written to it. *)
Record list_connection : Type := { lc_state : ConnectionState; lc_written : list (bytes * bool) }.
#[global] Instance list_connection_eta : Eta list_connection := fun c =>
  {| lc_state := lc_state c; lc_written := lc_written c |}.

Definition list_network : NetworkOps := {|
  connection := list_connection;
  conn_state := lc_state;
  conn_written := lc_written;
  conn_write c d e := c <| lc_written ::= λ w, w ++ [(d, e)] |>;
  conn_close c t :=
    match lc_state c, t, lc_written c with
    | Connection_Closed, _, _ => (c, false)
    | _, NoFlush, _ | Connection_Open, FlushWrite, [] => (c <| lc_state := Connection_Closed |>, true)
    | _, FlushWrite, _ => (c <| lc_state := Connection_Closing |>, false)
    end
|}.

Lemma list_network_laws : NetworkLaws list_network.
Proof. split; intros [[] [|]]; try intros []; done. Qed.
