(* ===== verification/ConnManager.v ===== *)
(** * The connection manager and its messages

    Model of [conn_manager.{h,cc}], [active_message.{h,cc}], [stream.{h,cc}],
    [heartbeat_response.cc], [app_exception.h] and [filters/filter.h].

    A connection manager is a [Host] of the request decoder whose world, [CM],
    holds everything else it owns.  Active messages are objects with an identity
    (a number): the list of active messages and the list of messages whose
    deletion is deferred hold identities, so that a use of a destroyed message is
    an outcome of its own.

    A filter of the chain is a program over the callbacks the message gives it
    ([filter_prog]): it can read and change the shared metadata and mutation, ask
    for the route, send a local reply, reset the stream or the connection, and so
    on, in any order and depending on the answers.  [continueDecoding] and
    [upstreamData] are called by filters from events of their own and are entry
    points of the connection manager here. *)

From S2P Require Import Prelude Envoy Metadata Codec Decoder Network.

(** ** Counters of stats.h *)

Inductive Stat : Type :=
| cx_destroy_local_with_active_rq_ | cx_destroy_remote_with_active_rq_
| local_response_business_exception_ | local_response_error_ | local_response_success_
| request_ | request_decoding_error_ | request_decoding_success_ | request_event_
| request_oneway_ | request_twoway_ | request_stream_
| response_ | response_business_exception_ | response_decoding_error_ | response_decoding_success_
| response_error_ | response_error_caused_connection_close_ | response_success_
| request_active_ | request_time_ms_ | idle_timeout_.
#[global] Instance Stat_eq_dec : EqDecision Stat.
Proof. solve_decision. Defined.
Abbreviation MetaProtocolProxyStats := (Stat → Z).

Definition stat_add (s : Stat) (n : Z) (f : MetaProtocolProxyStats) : MetaProtocolProxyStats := λ t,
  if decide (t = s) then f t + n else f t.

(** [upstream_response.h] and [filter.h] *)
Inductive UpstreamResponseStatus : Type :=
| UpstreamResponse_MoreData | UpstreamResponse_Complete | UpstreamResponse_Reset | UpstreamResponse_Retry.
#[global] Instance UpstreamResponseStatus_eq_dec : EqDecision UpstreamResponseStatus.
Proof. solve_decision. Defined.

Inductive ResponseType : Type := SuccessReply | ErrorReply | Exception.

(** The implementations of [DirectResponse]. *)
Inductive DirectResponse : Type := AppException (error : Error) | HeartbeatResponse.

Inductive FilterIterationStartState : Type := AlwaysStartFromNext | CanStartFromCurrent.
#[global] Instance FilterIterationStartState_eq_dec : EqDecision FilterIterationStartState.
Proof. solve_decision. Defined.

(** ** Filters *)

Section filter.
Context {E : Envoy} (route_t : Type).

(** [FilterCallbacksBase] and [DecoderFilterCallbacks], by the type of the
    answer.  The first four are uses of the shared objects the filter is given.
    Left out are accessors of things that are not modelled ([connection],
    [streamInfo], [dispatcher], [tracer], [tracingConfig], [requestIDExtension],
    [accessLogs], [createCodec], [multiplexing]); [continueDecoding] and
    [upstreamData] are entry points of the connection manager. *)
Inductive callback : Type → Type :=
| CB_metadata : callback MetadataImpl
| CB_setMetadata (m : MetadataImpl) : callback unit
| CB_mutation : callback Mutation
| CB_setMutation (mu : Mutation) : callback unit
| CB_requestId : callback Z
| CB_streamId : callback Z
| CB_route : callback (option route_t)
| CB_resetStream : callback unit
| CB_sendLocalReply (response : DirectResponse) (end_stream : bool) : callback unit
| CB_startUpstreamResponse : callback unit
| CB_resetDownstreamConnection : callback unit
| CB_setUpstreamConnection (conn : Z) : callback unit
| CB_getUpstreamHandler (cluster_name : string) : callback (Error * string + nat)
| CB_onUpstreamResponse : callback unit.

Inductive filter_prog (A : Type) : Type :=
| F_Return (a : A)
| F_Throw (e : exn)
| F_Panic (w : string)
| F_Call {R : Type} (c : callback R) (k : R → filter_prog A).
End filter.
Arguments CB_metadata {E route_t}.
Arguments CB_setMetadata {E route_t} _.
Arguments CB_mutation {E route_t}.
Arguments CB_setMutation {E route_t} _.
Arguments CB_requestId {E route_t}.
Arguments CB_streamId {E route_t}.
Arguments CB_route {E route_t}.
Arguments CB_resetStream {E route_t}.
Arguments CB_sendLocalReply {E route_t} _ _.
Arguments CB_startUpstreamResponse {E route_t}.
Arguments CB_resetDownstreamConnection {E route_t}.
Arguments CB_setUpstreamConnection {E route_t} _.
Arguments CB_getUpstreamHandler {E route_t} _.
Arguments CB_onUpstreamResponse {E route_t}.
Arguments F_Return {E route_t A} _.
Arguments F_Throw {E route_t A} _.
Arguments F_Panic {E route_t A} _.
Arguments F_Call {E route_t A R} _ _.

(** What [createFilterChain] adds to a message. *)
Inductive chain_entry (F : Type) : Type :=
| AddDecoderFilter (f : F) | AddEncoderFilter (f : F) | AddFilter (f : F).
Arguments AddDecoderFilter {F} _.
Arguments AddEncoderFilter {F} _.
Arguments AddFilter {F} _.

(** How [pool_data.newConnection] goes: it waits, or calls back at once. *)
Inductive pool_start : Type := PoolPending | PoolReadyNow | PoolFailedNow.

(** [Config], the filters and the cluster manager. *)
Class ProxyConfig (E : Envoy) := {
  filter : Type;
  route_t : Type;
  filter_onMessageDecoded : filter → filter_prog route_t (filter * FilterStatus);
  filter_onMessageEncoded : filter → filter_prog route_t (filter * FilterStatus);
  filterFactory : list (chain_entry filter);
  routerConfig_route : MetadataImpl → Z → outcome (option route_t);
  applicationProtocol : string;
  idleTimeout : option Z;
  random : nat → Z;
  getThreadLocalCluster : string → bool;
  createTcpPoolData : string → option (string * pool_start)
}.

Section state.
Context {E : Envoy} {C : CodecOps E} {N : NetworkOps} {P : ProxyConfig E}.

(** The decoder of a response, with the objects its [encoder_filter_action_]
    closes over.  [request_metadata_] refers to the metadata of the message. *)
Record ActiveResponseDecoder : Type := {
  rd_decoder_ : DecoderBase unit;
  rd_codec_ : codec_state;
  rd_metadata_ : option MetadataImpl;
  rd_mutation : Mutation;
  rd_complete_ : bool;
  rd_response_status_ : UpstreamResponseStatus
}.
#[global] Instance ActiveResponseDecoder_eta : Eta ActiveResponseDecoder := fun r =>
  {| rd_decoder_ := rd_decoder_ r; rd_codec_ := rd_codec_ r; rd_metadata_ := rd_metadata_ r;
     rd_mutation := rd_mutation r; rd_complete_ := rd_complete_ r;
     rd_response_status_ := rd_response_status_ r |}.

(** Wrappers refer to filter objects by their number; a filter that is both a
    decoder and an encoder filter is one object in both lists ([dual_filter_]). *)
Record ActiveMessage : Type := {
  am_metadata_ : option MetadataImpl;
  (** the mutation [filter_action_] closes over *)
  am_mutation : Mutation;
  am_filter_action_ : bool;
  am_encoder_filter_action_ : bool;
  am_response_decoder_ : option ActiveResponseDecoder;
  am_cached_route_ : option (option route_t);
  am_filters : list filter;
  am_decoder_filters_ : list nat;
  am_encoder_filters_ : list (nat * bool);
  am_stream_id_ : Z;
  am_bytes_sent : Z;
  am_bytes_received : Z;
  am_pending_stream_decoded_ : bool;
  am_local_response_sent_ : bool
}.
#[global] Instance ActiveMessage_eta : Eta ActiveMessage := fun a =>
  {| am_metadata_ := am_metadata_ a; am_mutation := am_mutation a; am_filter_action_ := am_filter_action_ a;
     am_encoder_filter_action_ := am_encoder_filter_action_ a; am_response_decoder_ := am_response_decoder_ a;
     am_cached_route_ := am_cached_route_ a; am_filters := am_filters a;
     am_decoder_filters_ := am_decoder_filters_ a; am_encoder_filters_ := am_encoder_filters_ a;
     am_stream_id_ := am_stream_id_ a; am_bytes_sent := am_bytes_sent a;
     am_bytes_received := am_bytes_received a; am_pending_stream_decoded_ := am_pending_stream_decoded_ a;
     am_local_response_sent_ := am_local_response_sent_ a |}.

Record Stream : Type := {
  upstream_conn_data_ : option Z;
  client_closed_ : bool;
  server_closed_ : bool
}.
#[global] Instance Stream_eta : Eta Stream := fun s =>
  {| upstream_conn_data_ := upstream_conn_data_ s; client_closed_ := client_closed_ s;
     server_closed_ := server_closed_ s |}.

Record CM : Type := {
  (** the messages that have not been destroyed *)
  objects : gmap nat ActiveMessage;
  next_id : nat;
  active_message_list_ : list nat;
  (** handed to [Dispatcher::deferredDelete] *)
  deferred : list nat;
  active_stream_map_ : gmap Z Stream;
  stats_ : MetaProtocolProxyStats;
  downstream : connection;
  (** [None] is the null pointer; the value is whether the timer is enabled *)
  idle_timer_ : option bool;
  upstream_handler_manager_ : gmap string nat;
  next_handler : nat;
  (** writes to the upstream connections of streams *)
  upstream_written : list (Z * bytes);
  (** filter objects whose [onDestroy] has been called *)
  destroyed : list (nat * nat)
}.
#[global] Instance CM_eta : Eta CM := fun c =>
  {| objects := objects c; next_id := next_id c; active_message_list_ := active_message_list_ c;
     deferred := deferred c; active_stream_map_ := active_stream_map_ c; stats_ := stats_ c;
     downstream := downstream c; idle_timer_ := idle_timer_ c;
     upstream_handler_manager_ := upstream_handler_manager_ c; next_handler := next_handler c;
     upstream_written := upstream_written c; destroyed := destroyed c |}.
End state.

Section operations.
Context {E : Envoy} {C : CodecOps E} {N : NetworkOps} {P : ProxyConfig E}.
Abbreviation ConnectionManager := (Host nat CM).
Implicit Types mid : nat.

Definition on_cm (f : CM → CM) : M ConnectionManager unit := modify (λ h, h <| h_world ::= f |>).
Definition get_cm {A} (f : CM → A) : M ConnectionManager A := gets (λ h, f (h_world h)).

Definition stat_inc (s : Stat) : M ConnectionManager unit := on_cm (λ c, c <| stats_ ::= stat_add s 1 |>).

(** A reference to a message is good until the message is destroyed. *)
Definition get_message (mid : nat) : M ConnectionManager ActiveMessage :=
  o ← get_cm (λ c, objects c !! mid);
  match o with Some a => mret a | None => panic "use after free" end.
Definition on_message (mid : nat) (f : ActiveMessage → ActiveMessage) : M ConnectionManager unit :=
  a ← get_message mid;
  on_cm (λ c, c <| objects ::= <[mid := f a]> |>).

Lemma get_message_run mid h : get_message mid h =
  match objects (h_world h) !! mid with Some a => (Return a, h) | None => (Panic "use after free", h) end.
Proof. unfold get_message, get_cm. mstep. by destruct (objects (h_world h) !! mid). Qed.
Lemma on_message_run mid f h : on_message mid f h =
  match objects (h_world h) !! mid with
  | Some a => (Return tt, h <| h_world ::= λ c, c <| objects ::= <[mid := f a]> |> |>)
  | None => (Panic "use after free", h)
  end.
Proof. unfold on_message. rewrite run_bind, get_message_run. by destruct (objects (h_world h) !! mid). Qed.

(** [codec_->encode] and [codec_->onError] of the codec of the connection *)
Definition with_codec {A} (f : M (codec_state * buffer) A) (b : buffer) : M ConnectionManager (A * buffer) := λ h,
  match f (h_codec h, b) with
  | (o, (c, b)) => ((λ a, (a, b)) <$> o, h <| h_codec := c |>)
  end.

(** [DirectResponse::encode] *)
Definition DirectResponse_encode (r : DirectResponse) (m : MetadataImpl) : M (codec_state * buffer) ResponseType :=
  match r with
  | AppException error =>
      b ← gets snd;
      _ ← ASSERT (buf_length b =? 0) "buffer.length() == 0";
      _ ← codec_onError m error;
      mret Exception
  | HeartbeatResponse =>
      _ ← codec_encode (setMessageType MessageType_Heartbeat m) ∅;
      mret SuccessReply
  end.

(** [connection().write(buffer, end_stream)] *)
Definition write_downstream (d : bytes) (end_stream : bool) : M ConnectionManager unit :=
  on_cm (λ c, c <| downstream ::= λ k, conn_write k d end_stream |>).

(** ** Deletion of messages *)

(** The debug log, which reads the metadata of the message, is left out. *)
Definition deferredDeleteMessage (mid : nat) : M ConnectionManager unit :=
  inserted ← get_cm (λ c, bool_decide (mid ∈ active_message_list_ c));
  if (inserted : bool) then
    on_cm (λ c, c <| active_message_list_ ::= List.filter (λ i, bool_decide (i ≠ mid)) |>
                  <| deferred ::= λ l, l ++ [mid] |>)
  else mret tt.

Definition onReset (mid : nat) : M ConnectionManager unit := deferredDeleteMessage mid.
Definition resetStream (mid : nat) : M ConnectionManager unit := deferredDeleteMessage mid.
Definition onUpstreamResponse (mid : nat) : M ConnectionManager unit := deferredDeleteMessage mid.

(** [while (!active_message_list_.empty())]: the fuel is the length of the list,
    every round takes one message off it. *)
Fixpoint resetAllMessages_loop (fuel : nat) (local_reset : bool) : M ConnectionManager unit :=
  l ← get_cm active_message_list_;
  match l, fuel with
  | [], _ => mret tt
  | _, O => panic "out of fuel"
  | front :: _, S fuel =>
      _ ← stat_inc (if local_reset then cx_destroy_local_with_active_rq_ else cx_destroy_remote_with_active_rq_);
      _ ← onReset front;
      resetAllMessages_loop fuel local_reset
  end.
Definition resetAllMessages (local_reset : bool) : M ConnectionManager unit :=
  n ← get_cm (λ c, length (active_message_list_ c));
  resetAllMessages_loop n local_reset.

(** ** Connection events and timers *)

Definition resetIdleTimer : M ConnectionManager unit :=
  t ← get_cm idle_timer_;
  match t with
  | None => mret tt
  | Some _ =>
      _ ← ASSERT (bool_decide (idleTimeout ≠ None)) "config_.idleTimeout()";
      on_cm (λ c, c <| idle_timer_ := Some true |>)
  end.
Definition disableIdleTimer : M ConnectionManager unit := on_cm (λ c, c <| idle_timer_ := None |>).
Definition resetUpstreamHandlerManager : M ConnectionManager unit :=
  on_cm (λ c, c <| upstream_handler_manager_ := ∅ |>).

Definition onEvent (event : ConnectionEvent) : M ConnectionManager unit :=
  match event with
  | LocalClose | RemoteClose =>
      _ ← disableIdleTimer;
      _ ← resetAllMessages (bool_decide (event = LocalClose));
      resetUpstreamHandlerManager
  | Connected => mret tt
  end.

(** [connection().close(type)], with the event it raises. *)
Definition close_downstream (t : ConnectionCloseType) : M ConnectionManager unit :=
  k ← get_cm downstream;
  let '(k', raised) := conn_close k t in
  _ ← on_cm (λ c, c <| downstream := k' |>);
  if raised then onEvent LocalClose else mret tt.
Definition resetDownstreamConnection : M ConnectionManager unit := close_downstream NoFlush.

(** ** Local replies *)

Definition CM_sendLocalReply (m : MetadataImpl) (response : DirectResponse) (end_stream : bool) :
    M ConnectionManager unit :=
  st ← get_cm (λ c, conn_state (downstream c));
  if decide (st ≠ Connection_Open) then mret tt
  else
    result ← catch_envoy
      ('(result, b) ← with_codec (DirectResponse_encode response m) buf_new;
       _ ← write_downstream (contents b) end_stream;
       mret result)
      (λ _, mret ErrorReply);
    _ ← (if (end_stream : bool) then close_downstream FlushWrite else mret tt);
    stat_inc (match result with
              | SuccessReply => local_response_success_
              | ErrorReply => local_response_error_
              | Exception => local_response_business_exception_
              end).

Definition sendLocalReply (mid : nat) (response : DirectResponse) (end_stream : bool) : M ConnectionManager unit :=
  a ← get_message mid;
  match am_metadata_ a with
  | None => panic "metadata_"
  | Some m =>
      _ ← CM_sendLocalReply m response end_stream;
      if end_stream then mret tt else on_message mid (λ a, a <| am_local_response_sent_ := true |>)
  end.

(** ** Streams *)

Definition newActiveStream (stream_id : Z) : M ConnectionManager unit :=
  on_cm (λ c, c <| active_stream_map_ ::=
    <[stream_id := {| upstream_conn_data_ := None; client_closed_ := false; server_closed_ := false |}]> |>).
Definition getActiveStream (stream_id : Z) : M ConnectionManager Stream :=
  o ← get_cm (λ c, active_stream_map_ c !! stream_id);
  match o with Some s => mret s | None => panic "iter != active_stream_map_.end()" end.
Definition streamExisted (stream_id : Z) : M ConnectionManager bool :=
  get_cm (λ c, bool_decide (is_Some (active_stream_map_ c !! stream_id))).
Definition closeStream (stream_id : Z) : M ConnectionManager unit :=
  on_cm (λ c, c <| active_stream_map_ ::= delete stream_id |>).
Definition clearStream : M ConnectionManager unit := on_cm (λ c, c <| active_stream_map_ := ∅ |>).

Definition on_stream (stream_id : Z) (f : Stream → Stream) : M ConnectionManager unit :=
  s ← getActiveStream stream_id;
  on_cm (λ c, c <| active_stream_map_ ::= <[stream_id := f s]> |>).

Definition closeClientStream (stream_id : Z) : M ConnectionManager unit :=
  on_stream stream_id (λ s, s <| client_closed_ := true |>).
Definition closeServerStream (stream_id : Z) : M ConnectionManager unit :=
  on_stream stream_id (λ s, s <| server_closed_ := true |>).
Definition setUpstreamConn (stream_id : Z) (conn : Z) : M ConnectionManager unit :=
  on_stream stream_id (λ s, s <| upstream_conn_data_ := Some conn |>).

Definition send2upstream (stream_id : Z) (data : bytes) : M ConnectionManager unit :=
  s ← getActiveStream stream_id;
  match upstream_conn_data_ s with
  | Some conn => on_cm (λ c, c <| upstream_written ::= λ l, l ++ [(conn, data)] |>)
  | None => mret tt
  end.

(** [Stream::clear]; afterwards the stream is destroyed. *)
Definition Stream_clear (stream_id : Z) : M ConnectionManager unit :=
  s ← getActiveStream stream_id;
  match upstream_conn_data_ s with
  | None => panic "null upstream_conn_data_"
  | Some _ => closeStream stream_id
  end.

(** The loop of [Stream::send2downstream] over the data from upstream; the codec
    is the one of the connection.  [this] is gone when the stream has been
    cleared, and the loop uses it if there is more data. *)
Fixpoint send2downstream (fuel : nat) (stream_id : Z) (end_stream : bool) (data : buffer) :
    M ConnectionManager buffer :=
  if buf_length data =? 0 then mret data else
  match fuel with
  | O => panic "out of fuel"
  | S fuel =>
      existed ← streamExisted stream_id;
      if negb existed then panic "use after free" else
      c ← gets h_codec;
      match codec_decode (c, data, fresh_metadata MessageType_Response) with
      | (Return status, (c, data, m)) =>
          _ ← modify (λ h, h <| h_codec := c |>);
          match status with
          | DecodeStatus_WaitForData => mret data
          | DecodeStatus_Done =>
              _ ← write_downstream (contents (origin_message_ m)) end_stream;
              _ ← (if decide (message_type_ m = MessageType_Stream_Close_One_Way)
                   then closeServerStream stream_id else mret tt);
              _ ← (if decide (message_type_ m = MessageType_Stream_Close_Two_Way)
                   then _ ← closeClientStream stream_id; closeServerStream stream_id else mret tt);
              s ← getActiveStream stream_id;
              _ ← (if end_stream || server_closed_ s then Stream_clear stream_id else mret tt);
              send2downstream fuel stream_id end_stream data
          end
      | (Throw e, (c, _, _)) => _ ← modify (λ h, h <| h_codec := c |>); throw e
      | (Panic w, _) => panic w
      end
  end.

(** ** Upstream handlers of the connection *)

Definition getUpstreamHandler (cluster_name : string) : M ConnectionManager (Error * string + nat) :=
  if negb (getThreadLocalCluster cluster_name) then
    mret (inl ({| error_type := ErrorType_ClusterNotFound;
                  error_message := "meta protocol router: unknown cluster '" +:+ cluster_name +:+ "'" |},
               "unknown_cluster"))
  else match createTcpPoolData cluster_name with
  | None =>
      mret (inl ({| error_type := ErrorType_NoHealthyUpstream;
                    error_message := "meta protocol router: no healthy upstream for '" +:+ cluster_name +:+ "'" |},
                 "no_healthy_upstream"))
  | Some (address, start) =>
      let key := cluster_name +:+ "_" +:+ address in
      o ← get_cm (λ c, upstream_handler_manager_ c !! key);
      match o with
      | Some handler => mret (inr handler)
      | None =>
          handler ← get_cm next_handler;
          _ ← on_cm (λ c, c <| next_handler ::= S |> <| upstream_handler_manager_ ::= <[key := handler]> |>);
          _ ← (match start with
               | PoolFailedNow => on_cm (λ c, c <| upstream_handler_manager_ ::= delete key |>)
               | _ => mret tt
               end);
          mret (inr handler)
      end
  end.

(** ** Routes *)

(** [ActiveMessage::route]: the route is looked up once. *)
Definition route (mid : nat) : M ConnectionManager (option route_t) :=
  a ← get_message mid;
  match am_cached_route_ a, am_metadata_ a with
  | Some r, _ => mret r
  | None, Some m =>
      r ← lift (routerConfig_route m (am_stream_id_ a));
      _ ← on_message mid (λ a, a <| am_cached_route_ := Some r |>);
      mret r
  | None, None => mret None
  end.

(** ** Running filters *)

Definition startUpstreamResponse (mid : nat) : M ConnectionManager unit :=
  a ← get_message mid;
  _ ← ASSERT (match am_response_decoder_ a with None => true | Some _ => false end) "response_decoder_ == nullptr";
  on_message mid (λ a, a <| am_response_decoder_ := Some
    {| rd_decoder_ := new_DecoderBase MessageType_Response; rd_codec_ := codec_init; rd_metadata_ := None;
       rd_mutation := ∅; rd_complete_ := false; rd_response_status_ := UpstreamResponse_MoreData |} |>).

Definition setUpstreamConnection (mid : nat) (conn : Z) : M ConnectionManager unit :=
  a ← get_message mid;
  match am_metadata_ a with
  | None => panic "null metadata_"
  | Some m => setUpstreamConn (stream_id_ m) conn
  end.

Definition requestId (a : ActiveMessage) : Z := from_option request_id_ 0 (am_metadata_ a).

(** The shared objects a filter works on: those of the request for a decoder
    filter, those of the response for an encoder filter. *)
Definition shared_metadata (encoding : bool) (a : ActiveMessage) : option MetadataImpl :=
  if encoding then am_response_decoder_ a ≫= rd_metadata_ else am_metadata_ a.
Definition set_shared_metadata (encoding : bool) (m : MetadataImpl) (a : ActiveMessage) : ActiveMessage :=
  if encoding then a <| am_response_decoder_ ::= fmap (λ r, r <| rd_metadata_ := Some m |>) |>
  else a <| am_metadata_ := Some m |>.
Definition shared_mutation (encoding : bool) (a : ActiveMessage) : Mutation :=
  if encoding then from_option rd_mutation ∅ (am_response_decoder_ a) else am_mutation a.
Definition set_shared_mutation (encoding : bool) (mu : Mutation) (a : ActiveMessage) : ActiveMessage :=
  if encoding then a <| am_response_decoder_ ::= fmap (λ r, r <| rd_mutation := mu |>) |>
  else a <| am_mutation := mu |>.

Definition do_callback (encoding : bool) (mid : nat) {R} (c : callback route_t R) : M ConnectionManager R :=
  match c in callback _ R return M ConnectionManager R with
  | CB_metadata =>
      a ← get_message mid;
      match shared_metadata encoding a with Some m => mret m | None => panic "null metadata" end
  | CB_setMetadata m => on_message mid (set_shared_metadata encoding m)
  | CB_mutation => a ← get_message mid; mret (shared_mutation encoding a)
  | CB_setMutation mu => on_message mid (set_shared_mutation encoding mu)
  | CB_requestId => a ← get_message mid; mret (requestId a)
  | CB_streamId => a ← get_message mid; mret (am_stream_id_ a)
  | CB_route => route mid
  | CB_resetStream => resetStream mid
  | CB_sendLocalReply response end_stream => sendLocalReply mid response end_stream
  | CB_startUpstreamResponse => startUpstreamResponse mid
  | CB_resetDownstreamConnection => resetDownstreamConnection
  | CB_setUpstreamConnection conn => setUpstreamConnection mid conn
  | CB_getUpstreamHandler cluster_name => getUpstreamHandler cluster_name
  | CB_onUpstreamResponse => onUpstreamResponse mid
  end.

Fixpoint run_filter (encoding : bool) (mid : nat) {A} (p : filter_prog route_t A) : M ConnectionManager A :=
  match p with
  | F_Return a => mret a
  | F_Throw e => throw e
  | F_Panic w => panic w
  | F_Call c k => r ← do_callback encoding mid c; run_filter encoding mid (k r)
  end.

(** [filter_action_(handler)] / [encoder_filter_action_(handler)] *)
Definition call_filter (encoding : bool) (mid i : nat) : M ConnectionManager FilterStatus :=
  a ← get_message mid;
  match am_filters a !! i with
  | None => panic "no such filter"
  | Some f =>
      '(f', status) ← run_filter encoding mid
        (if encoding then filter_onMessageEncoded f else filter_onMessageDecoded f);
      _ ← on_message mid (λ a, a <| am_filters ::= <[i := f']> |>);
      mret status
  end.

(** The [for] loops of [applyDecoderFilters] and [applyEncoderFilters] over the
    filters from a position on: [Some status] is the early return. *)
Fixpoint apply_filters (encoding : bool) (mid : nat) (entries : list nat) : M ConnectionManager (option FilterStatus) :=
  match entries with
  | [] => mret None
  | i :: entries =>
      status ← call_filter encoding mid i;
      a ← get_message mid;
      if am_local_response_sent_ a then mret None
      else if decide (status ≠ FilterStatus_ContinueIteration) then mret (Some status)
      else apply_filters encoding mid entries
  end.

(** [commonDecodePrefix] and [commonEncodePrefix]: the position to start from. *)
Definition commonPrefix (filter : option nat) (state : FilterIterationStartState) : nat :=
  match filter with
  | None => 0
  | Some i => if decide (state = CanStartFromCurrent) then i else S i
  end.

Definition applyDecoderFilters (mid : nat) (filter : option nat) (state : FilterIterationStartState) :
    M ConnectionManager FilterStatus :=
  a ← get_message mid;
  _ ← ASSERT (am_filter_action_ a) "filter_action_ != nullptr";
  r ← (if am_local_response_sent_ a then mret None
       else apply_filters false mid (drop (commonPrefix filter state) (am_decoder_filters_ a)));
  match r with
  | Some status => mret status
  | None =>
      _ ← on_message mid (λ a, a <| am_filter_action_ := false |>);
      mret FilterStatus_ContinueIteration
  end.

Definition applyEncoderFilters (mid : nat) (filter : option nat) (state : FilterIterationStartState) :
    M ConnectionManager FilterStatus :=
  a ← get_message mid;
  _ ← ASSERT (am_encoder_filter_action_ a) "encoder_filter_action_ != nullptr";
  r ← (if am_local_response_sent_ a then mret None
       else apply_filters true mid (drop (commonPrefix filter state) (am_encoder_filters_ a).*1));
  match r with
  | Some status => mret status
  | None =>
      _ ← on_message mid (λ a, a <| am_encoder_filter_action_ := false |>);
      mret FilterStatus_ContinueIteration
  end.

Definition maybeDeferredDeleteMessage (mid : nat) : M ConnectionManager unit :=
  _ ← on_message mid (λ a, a <| am_pending_stream_decoded_ := false |>);
  _ ← stat_inc request_;
  a ← get_message mid;
  match am_metadata_ a with
  | None => panic "null metadata_"
  | Some m =>
      is_one_way ← (match message_type_ m with
        | MessageType_Request => _ ← stat_inc request_twoway_; mret false
        | MessageType_Oneway => _ ← stat_inc request_oneway_; mret true
        | MessageType_Stream_Init => _ ← stat_inc request_event_; mret true
        | MessageType_Stream_Data | MessageType_Stream_Close_One_Way | MessageType_Stream_Close_Two_Way => mret true
        | _ => mret false
        end);
      if am_local_response_sent_ a || is_one_way then deferredDeleteMessage mid else mret tt
  end.

(** [ActiveMessageDecoderFilter::continueDecoding] of the [i]-th decoder filter *)
Definition continueDecoding (mid i : nat) : M ConnectionManager unit :=
  a ← get_message mid;
  match am_metadata_ a with
  | None => panic "activeMessage_.metadata()"
  | Some m =>
      let state := if buf_length (origin_message_ m) =? 0 then AlwaysStartFromNext else CanStartFromCurrent in
      status ← applyDecoderFilters mid (Some i) state;
      if decide (status = FilterStatus_ContinueIteration) then
        a ← get_message mid;
        if am_pending_stream_decoded_ a then maybeDeferredDeleteMessage mid else mret tt
      else mret tt
  end.

(** [ActiveMessageEncoderFilter::continueEncoding] of the [i]-th encoder filter *)
Definition continueEncoding (mid i : nat) : M ConnectionManager unit :=
  a ← get_message mid;
  match am_metadata_ a with
  | None => panic "activeMessage_.metadata()"
  | Some m =>
      let state := if buf_length (origin_message_ m) =? 0 then AlwaysStartFromNext else CanStartFromCurrent in
      _ ← applyEncoderFilters mid (Some i) state;
      mret tt
  end.

(** ** Requests *)

(** The [switch] of [ActiveMessage::onMessageDecoded]: whether the filters apply,
    and the metadata, whose message has been moved if it was sent upstream. *)
Definition switch_message_type (m : MetadataImpl) : M ConnectionManager (bool * MetadataImpl) :=
  let sid := stream_id_ m in
  let data := contents (origin_message_ m) in
  let moved := m <| origin_message_ := buf_new |> in
  match message_type_ m with
  | MessageType_Request => mret (true, m)
  | MessageType_Stream_Init => _ ← newActiveStream sid; mret (true, m)
  | MessageType_Stream_Data =>
      existed ← streamExisted sid;
      if (existed : bool) then
        s ← getActiveStream sid;
        _ ← send2upstream sid data;
        mret (false, if upstream_conn_data_ s is Some _ then moved else m)
      else mret (false, m)
  | MessageType_Stream_Close_One_Way =>
      existed ← streamExisted sid;
      if (existed : bool) then
        s ← getActiveStream sid;
        _ ← closeClientStream sid;
        _ ← send2upstream sid data;
        mret (false, if upstream_conn_data_ s is Some _ then moved else m)
      else mret (false, m)
  | MessageType_Stream_Close_Two_Way =>
      existed ← streamExisted sid;
      if (existed : bool) then
        s ← getActiveStream sid;
        _ ← closeClientStream sid;
        _ ← closeServerStream sid;
        _ ← send2upstream sid data;
        mret (false, if upstream_conn_data_ s is Some _ then moved else m)
      else mret (false, m)
  | _ => mret (false, m)
  end.

(** [ActiveMessage::onMessageDecoded] *)
Definition onMessageDecoded (mid : nat) (m : MetadataImpl) (mu : Mutation) : M ConnectionManager unit :=
  _ ← stat_inc request_decoding_success_;
  _ ← on_message mid (λ a, a <| am_bytes_sent ::= λ n, u64 (n + getMessageSize m) |>);
  let m := putString ApplicationProtocol applicationProtocol m in
  '(needApplyFilters, m) ← switch_message_type m;
  _ ← on_message mid (λ a, a <| am_metadata_ := Some m |>);
  if (needApplyFilters : bool) then
    _ ← on_message mid (λ a, a <| am_filter_action_ := true |> <| am_mutation := mu |>);
    status ← applyDecoderFilters mid None CanStartFromCurrent;
    match status with
    | FilterStatus_PauseIteration => on_message mid (λ a, a <| am_pending_stream_decoded_ := true |>)
    | FilterStatus_AbortIteration => deferredDeleteMessage mid
    | FilterStatus_ContinueIteration => maybeDeferredDeleteMessage mid
    | FilterStatus_Retry => panic "invalid filter status"
    end
  else maybeDeferredDeleteMessage mid.

(** [createFilterChain]: the filters of the factory, added to a new message. *)
Definition add_entry (a : ActiveMessage) (e : chain_entry filter) : ActiveMessage :=
  let i := length (am_filters a) in
  match e with
  | AddDecoderFilter f => a <| am_filters ::= λ l, l ++ [f] |> <| am_decoder_filters_ ::= λ l, l ++ [i] |>
  | AddEncoderFilter f => a <| am_filters ::= λ l, l ++ [f] |> <| am_encoder_filters_ ::= λ l, l ++ [(i, false)] |>
  | AddFilter f => a <| am_filters ::= λ l, l ++ [f] |> <| am_decoder_filters_ ::= λ l, l ++ [i] |>
                     <| am_encoder_filters_ ::= λ l, l ++ [(i, true)] |>
  end.
Definition new_ActiveMessage (stream_id : Z) : ActiveMessage :=
  {| am_metadata_ := None; am_mutation := ∅; am_filter_action_ := false; am_encoder_filter_action_ := false;
     am_response_decoder_ := None; am_cached_route_ := None; am_filters := []; am_decoder_filters_ := [];
     am_encoder_filters_ := []; am_stream_id_ := stream_id; am_bytes_sent := 0; am_bytes_received := 0;
     am_pending_stream_decoded_ := false; am_local_response_sent_ := false |}.
Definition createFilterChain (a : ActiveMessage) : ActiveMessage := foldl add_entry a filterFactory.

(** [ConnectionManager::newMessageHandler] *)
Definition CM_newMessageHandler : M ConnectionManager nat :=
  mid ← get_cm next_id;
  let a := new_ActiveMessage (random mid) in
  _ ← stat_inc request_active_;
  _ ← on_cm (λ c, c <| next_id ::= S |> <| objects ::= <[mid := createFilterChain a]> |>
                    <| active_message_list_ ::= cons mid |>);
  mret mid.

(** [ConnectionManager::onHeartbeat] *)
Definition CM_onHeartbeat (m : MetadataImpl) : M ConnectionManager bool :=
  _ ← stat_inc request_event_;
  st ← get_cm (λ c, conn_state (downstream c));
  if decide (st ≠ Connection_Open) then mret false
  else
    '(_, b) ← with_codec (DirectResponse_encode HeartbeatResponse m) buf_new;
    _ ← write_downstream (contents b) false;
    mret false.

#[global] Instance request_callbacks : DecoderCallbacks nat CM := {|
  newMessageHandler := CM_newMessageHandler;
  handler_onMessageDecoded := onMessageDecoded;
  onHeartbeat := CM_onHeartbeat
|}.

(** [ConnectionManager::dispatch] *)
Definition dispatch (fuel : nat) : M ConnectionManager unit :=
  n ← gets (λ h, buf_length (h_buffer h));
  if n =? 0 then mret tt
  else
    _ ← resetIdleTimer;
    failed ← catch_envoy
      (_ ← decode_loop fuel; mret false)
      (λ _, _ ← close_downstream NoFlush; _ ← stat_inc request_decoding_error_; mret true);
    if (failed : bool) then resetAllMessages true else mret tt.

(** [ConnectionManager::onData]; the result is [StopIteration]. *)
Definition CM_onData (fuel : nat) (data : bytes) (end_stream : bool) : M ConnectionManager unit :=
  _ ← modify (λ h, h <| h_buffer ::= λ b, buf_add b data |>);
  _ ← dispatch fuel;
  if end_stream then
    _ ← resetAllMessages false;
    _ ← clearStream;
    close_downstream FlushWrite
  else mret tt.

Definition onNewConnection : M ConnectionManager unit :=
  if decide (idleTimeout ≠ None) then
    _ ← on_cm (λ c, c <| idle_timer_ := Some false |>);
    resetIdleTimer
  else mret tt.

Definition onIdleTimeout : M ConnectionManager unit :=
  _ ← stat_inc idle_timeout_;
  _ ← resetAllMessages true;
  _ ← clearStream;
  close_downstream NoFlush.
End operations.

(** ** Responses *)

Section responses.
Context {E : Envoy} {C : CodecOps E} {N : NetworkOps} {P : ProxyConfig E}.
Abbreviation ConnectionManager := (Host nat CM).

(** The response decoder of a message runs with the connection manager as its
    world. *)
Abbreviation response_host := (Host unit ConnectionManager).

Definition in_world {A} (m : M ConnectionManager A) : M response_host A := λ h,
  let '(o, w) := m (h_world h) in (o, h <| h_world := w |>).

Definition on_response (mid : nat) (f : ActiveResponseDecoder → ActiveResponseDecoder) : M ConnectionManager unit :=
  on_message mid (λ a, a <| am_response_decoder_ ::= fmap f |>).
Definition get_response (mid : nat) : M ConnectionManager ActiveResponseDecoder :=
  a ← get_message mid;
  match am_response_decoder_ a with Some r => mret r | None => panic "response_decoder_ != nullptr" end.

(** [codec_->encode(metadata, mutation, metadata.originMessage())] of the codec
    of the response decoder *)
Definition response_encode (m : MetadataImpl) (mu : Mutation) : M response_host MetadataImpl := λ h,
  match codec_encode m mu (h_codec h, origin_message_ m) with
  | (o, (c, b)) => ((λ _, m <| origin_message_ := b |>) <$> o, h <| h_codec := c |>)
  end.

(** [ActiveResponseDecoder::applyMessageEncodedFilters] *)
Definition applyMessageEncodedFilters (mid : nat) : M response_host FilterStatus :=
  _ ← in_world (on_message mid (λ a, a <| am_encoder_filter_action_ := true |>));
  status ← in_world (applyEncoderFilters mid None CanStartFromCurrent);
  match status with
  | FilterStatus_PauseIteration => mret status
  | FilterStatus_Retry =>
      _ ← in_world (on_response mid (λ r, r <| rd_response_status_ := UpstreamResponse_Retry |>));
      _ ← reset;
      mret status
  | _ =>
      _ ← ASSERT (bool_decide (status = FilterStatus_ContinueIteration)) "ContinueIteration == status";
      mret status
  end.

(** [ActiveResponseDecoder::onMessageDecoded] *)
Definition response_onMessageDecoded (mid : nat) (m : MetadataImpl) (mu : Mutation) : M response_host unit :=
  _ ← ASSERT (bool_decide (message_type_ m = MessageType_Response ∨ message_type_ m = MessageType_Error))
        "Response or Error";
  _ ← in_world (on_message mid (λ a, a <| am_bytes_received ::= λ n, u64 (n + getMessageSize m) |>));
  _ ← in_world (on_response mid (λ r, r <| rd_metadata_ := Some (setStreamInfo (Z.of_nat mid) m) |>
                                        <| rd_mutation := mu |>));
  status ← applyMessageEncodedFilters mid;
  if decide (status ≠ FilterStatus_ContinueIteration) then
    in_world (on_response mid (λ r, r <| rd_response_status_ := UpstreamResponse_Complete |>))
  else
    st ← in_world (get_cm (λ c, conn_state (downstream c)));
    if decide (st ≠ Connection_Open) then
      throw (DownstreamConnectionCloseException "Downstream has closed or closing")
    else
      a ← in_world (get_message mid);
      r ← in_world (get_response mid);
      match am_metadata_ a, rd_metadata_ r with
      | Some request_metadata, Some m =>
          address ← lift (getString RealServerAddress request_metadata);
          let m := putString RealServerAddress address m in
          m ← response_encode m (rd_mutation r);
          _ ← in_world (write_downstream (contents (origin_message_ m)) false);
          _ ← in_world (on_response mid (λ r, r <| rd_metadata_ := Some (m <| origin_message_ := buf_new |>) |>));
          _ ← in_world (stat_inc response_);
          _ ← in_world (stat_inc response_decoding_success_);
          _ ← in_world (if decide (message_type_ m = MessageType_Error)
                        then stat_inc response_business_exception_ else mret tt);
          _ ← in_world (stat_inc (match response_status_ m with
                                  | ResponseStatus_Ok => response_success_
                                  | ResponseStatus_Error => response_error_
                                  end));
          in_world (on_response mid (λ r, r <| rd_complete_ := true |>
                                            <| rd_response_status_ := UpstreamResponse_Complete |>))
      | _, _ => panic "null metadata"
      end.

(** [ResponseDecoderCallbacks]: the decoder is its own handler and ignores
    heartbeats. *)
Definition response_callbacks (mid : nat) : DecoderCallbacks unit ConnectionManager := {|
  newMessageHandler := mret tt;
  handler_onMessageDecoded _ := response_onMessageDecoded mid;
  onHeartbeat _ := mret true
|}.

(** State passing with the buffer of the upstream data beside the manager. *)
Definition in_manager {A} (m : M ConnectionManager A) : M (ConnectionManager * buffer) A := λ '(w, b),
  let '(o, w) := m w in (o, (w, b)).

(** [ActiveResponseDecoder::onData] *)
Definition response_onData (mid : nat) : M (ConnectionManager * buffer) UpstreamResponseStatus :=
  r ← in_manager (get_response mid);
  underflow ← (λ '(w, b),
    let '(o, h) := Decoder.onData (D := response_callbacks mid)
      {| h_decoder := rd_decoder_ r; h_codec := rd_codec_ r; h_buffer := b; h_world := w |} in
    let '(o', w') := on_response mid (λ r, r <| rd_decoder_ := h_decoder h |> <| rd_codec_ := h_codec h |>) (h_world h) in
    (match o with Return u => (λ _, u) <$> o' | _ => o end, (w', h_buffer h)));
  r ← in_manager (get_response mid);
  _ ← ASSERT (rd_complete_ r || underflow) "complete_ || underflow";
  mret (rd_response_status_ r).

Definition response_requestId (r : ActiveResponseDecoder) : Z := from_option request_id_ 0 (rd_metadata_ r).

(** [ActiveMessage::onError] *)
Definition onError (mid : nat) (what : string) : M ConnectionManager unit :=
  _ ← on_message mid (λ a, a <| am_metadata_ ::= λ o, Some (default new_MetadataImpl o) |>);
  _ ← sendLocalReply mid (AppException {| error_type := ErrorType_BadResponse; error_message := what |}) false;
  deferredDeleteMessage mid.

Definition exn_what (e : exn) : string :=
  match e with EnvoyException w | DownstreamConnectionCloseException w => w | BadAnyCast => "bad any_cast" end.

(** [ActiveMessage::upstreamData] *)
Definition upstreamData (mid : nat) : M (ConnectionManager * buffer) UpstreamResponseStatus :=
  try_catch
    (status ← response_onData mid;
     match status with
     | UpstreamResponse_Complete =>
         a ← in_manager (get_message mid);
         r ← in_manager (get_response mid);
         if negb (requestId a =? response_requestId r) then
           throw (EnvoyException ("meta protocol " +:+ applicationProtocol +:+
             " response: request ID is not equal, " +:+ pretty (requestId a) +:+ ":" +:+ pretty (response_requestId r)))
         else
           _ ← in_manager (deferredDeleteMessage mid);
           mret status
     | UpstreamResponse_Retry =>
         _ ← in_manager (on_message mid (λ a, a <| am_response_decoder_ := None |>));
         mret status
     | _ => mret status
     end)
    (λ e, match e with
     | DownstreamConnectionCloseException _ =>
         _ ← in_manager (onReset mid);
         _ ← in_manager (stat_inc response_error_caused_connection_close_);
         mret UpstreamResponse_Reset
     | EnvoyException what =>
         _ ← in_manager (stat_inc response_decoding_error_);
         _ ← in_manager (onError mid what);
         mret UpstreamResponse_Reset
     | BadAnyCast => throw e
     end).

(** ** Destruction *)

(** [~ActiveMessage]: [onDestroy] of every decoder filter and of every encoder
    filter that is not one of them. *)
Definition destroyed_by (mid : nat) (a : ActiveMessage) : list (nat * nat) :=
  ((λ i, (mid, i)) <$> am_decoder_filters_ a) ++
  ((λ e : nat * bool, (mid, e.1)) <$> List.filter (λ e, negb e.2) (am_encoder_filters_ a)).
Definition destroy_message (mid : nat) : M ConnectionManager unit :=
  a ← get_message mid;
  _ ← on_cm (λ c, c <| stats_ ::= stat_add request_active_ (-1) |>);
  _ ← stat_inc request_time_ms_;
  on_cm (λ c, c <| destroyed ::= λ l, l ++ destroyed_by mid a |> <| objects ::= delete mid |>).

(** The dispatcher destroys what was handed to [deferredDelete]. *)
Fixpoint destroy_all (l : list nat) : M ConnectionManager unit :=
  match l with
  | [] => mret tt
  | mid :: l => _ ← destroy_message mid; destroy_all l
  end.
Definition clearDeferredDeleteList : M ConnectionManager unit :=
  l ← get_cm deferred;
  _ ← on_cm (λ c, c <| deferred := [] |>);
  destroy_all l.
End responses.
