(* ===== verification/ConnFrames.v ===== *)
(** * Frame rules for the connection manager

    The operations a filter can reach through its callbacks change a message in
    few ways: everything but its filters, which list it is on, and things no
    message depends on.  [CMFrame] states what a relation on states must allow for
    that; [frames_run_filter] then says that running any filter program respects
    it, and the lemmas before it that every operation below does. *)

From S2P Require Import Prelude Envoy Metadata Codec Decoder Network ConnManager.

Section class.
Context {E : Envoy} {C : CodecOps E} {N : NetworkOps} {P : ProxyConfig E}.

(** An update of a message that leaves its filters alone. *)
Definition keeps_filters (f : ActiveMessage → ActiveMessage) : Prop := ∀ a,
  am_filters (f a) = am_filters a ∧
  am_decoder_filters_ (f a) = am_decoder_filters_ a ∧ am_encoder_filters_ (f a) = am_encoder_filters_ a.

(** [c'] differs from [c] in nothing that concerns messages. *)
Definition same_messages (c c' : CM) : Prop :=
  objects c' = objects c ∧ next_id c' = next_id c ∧ active_message_list_ c' = active_message_list_ c ∧
  deferred c' = deferred c ∧ destroyed c' = destroyed c ∧
  stats_ c' request_active_ = stats_ c request_active_.

Class CMFrame (R : relation CM) : Prop := {
  cf_preorder :: PreOrder R;
  cf_same c c' : same_messages c c' → R c c';
  cf_insert c mid a f :
    objects c !! mid = Some a → keeps_filters f → R c (c <| objects ::= <[mid := f a]> |>);
  cf_defer c mid :
    mid ∈ active_message_list_ c →
    R c (c <| active_message_list_ ::= List.filter (λ i, bool_decide (i ≠ mid)) |>
           <| deferred ::= λ l, l ++ [mid] |>)
}.

Context (R : relation CM) {F : CMFrame R}.
Abbreviation related := (world_related (E := E) (C := C) (H := nat) R).

Lemma frames_on_cm f : (∀ c, same_messages c (f c)) → frames related (on_cm f).
Proof. intros Hf h. unfold world_related. apply cf_same, Hf. Qed.
Lemma frames_get_cm {A} (f : CM → A) : frames related (get_cm f).
Proof. intros h. reflexivity. Qed.
Lemma frames_modify_host f : (∀ h, h_world (f h) = h_world h) → frames related (modify f).
Proof. intros Hf h. unfold world_related. cbn. rewrite Hf. reflexivity. Qed.
Lemma frames_stat_inc s : s ≠ request_active_ → frames related (stat_inc s).
Proof.
  intros Hs. apply frames_on_cm. intros c. split_and!; try done.
  cbn. unfold stat_add. by rewrite decide_False.
Qed.
Lemma frames_get_message mid : frames related (get_message mid).
Proof. pose proof @frames_get_cm. unfold get_message. frames_auto. Qed.
Lemma frames_on_message mid f : keeps_filters f → frames related (on_message mid f).
Proof.
  intros Hf h. unfold world_related. rewrite on_message_run.
  destruct (objects (h_world h) !! mid) as [a|] eqn:Ha; cbn; [by apply cf_insert | reflexivity].
Qed.
Lemma frames_with_codec {A} (f : M (codec_state * buffer) A) b : frames related (with_codec f b).
Proof. intros h. unfold with_codec. destruct (f _) as [o [c b']]. unfold world_related. cbn. reflexivity. Qed.
Lemma frames_deferredDeleteMessage mid : frames related (deferredDeleteMessage mid).
Proof.
  intros h. unfold deferredDeleteMessage, get_cm. mstep. unfold world_related.
  case_bool_decide; cbn; [by apply cf_defer | reflexivity].
Qed.
End class.

(** Closes the side conditions of the rules. *)
#[export] Hint Extern 2 (∀ c, same_messages c _) => (intros; repeat split; done) : frames.
#[export] Hint Extern 2 (keeps_filters _) => (intros ?; done) : frames.
#[export] Hint Extern 2 (_ ≠ request_active_) => (repeat case_match; done) : frames.
#[export] Hint Resolve frames_on_cm frames_get_cm frames_stat_inc frames_get_message frames_on_message
  frames_with_codec frames_deferredDeleteMessage : frames.

Section callbacks.
Context {E : Envoy} {C : CodecOps E} {N : NetworkOps} {P : ProxyConfig E} (R : relation CM) {F : CMFrame R}.
Abbreviation related := (world_related (E := E) (C := C) (H := nat) R).

Lemma frames_resetAllMessages b : frames related (resetAllMessages b).
Proof.
  unfold resetAllMessages. frames_auto. generalize a as fuel.
  intros fuel. induction fuel as [|fuel IH]; cbn [resetAllMessages_loop]; unfold onReset; frames_auto.
  all: destruct b; frames_auto.
Qed.
Hint Resolve frames_resetAllMessages : frames.

Lemma frames_onEvent e : frames related (onEvent e).
Proof. unfold onEvent, disableIdleTimer, resetUpstreamHandlerManager. frames_auto. Qed.
Hint Resolve frames_onEvent : frames.
Lemma frames_close_downstream t : frames related (close_downstream t).
Proof. unfold close_downstream. frames_auto. Qed.
Hint Resolve frames_close_downstream : frames.
Lemma frames_write_downstream d e : frames related (write_downstream d e).
Proof. unfold write_downstream. frames_auto. Qed.
Hint Resolve frames_write_downstream : frames.

Lemma frames_CM_sendLocalReply m r e : frames related (CM_sendLocalReply m r e).
Proof.
  unfold CM_sendLocalReply. frames_auto.
Qed.
Hint Resolve frames_CM_sendLocalReply : frames.
Lemma frames_sendLocalReply mid r e : frames related (sendLocalReply mid r e).
Proof. unfold sendLocalReply. frames_auto. Qed.
Hint Resolve frames_sendLocalReply : frames.

Lemma frames_getActiveStream i : frames related (getActiveStream i).
Proof. unfold getActiveStream. frames_auto. Qed.
Hint Resolve frames_getActiveStream : frames.
Lemma frames_on_stream i f : frames related (on_stream i f).
Proof. unfold on_stream. frames_auto. Qed.
Hint Resolve frames_on_stream : frames.
Lemma frames_send2upstream i d : frames related (send2upstream i d).
Proof. unfold send2upstream. frames_auto. Qed.
Lemma frames_newActiveStream i : frames related (newActiveStream i).
Proof. unfold newActiveStream. frames_auto. Qed.
Lemma frames_streamExisted i : frames related (streamExisted i).
Proof. unfold streamExisted. frames_auto. Qed.
Lemma frames_clearStream : frames related clearStream.
Proof. unfold clearStream. frames_auto. Qed.
Hint Resolve frames_send2upstream frames_newActiveStream frames_streamExisted frames_clearStream : frames.
Lemma frames_Stream_clear i : frames related (Stream_clear i).
Proof. unfold Stream_clear, closeStream. frames_auto. Qed.
Hint Resolve frames_Stream_clear : frames.

Lemma frames_send2downstream fuel i e b : frames related (send2downstream fuel i e b).
Proof.
  revert b. induction fuel as [|fuel IH]; intros b; cbn [send2downstream].
  - frames_auto.
  - pose proof frames_modify_host. unfold closeServerStream, closeClientStream. frames_auto.
Qed.

Lemma frames_getUpstreamHandler n : frames related (getUpstreamHandler n).
Proof. unfold getUpstreamHandler. frames_auto. Qed.
Lemma frames_route mid : frames related (route mid).
Proof. unfold route. frames_auto. Qed.
Lemma frames_startUpstreamResponse mid : frames related (startUpstreamResponse mid).
Proof. unfold startUpstreamResponse. frames_auto. Qed.
Lemma frames_setUpstreamConnection mid k : frames related (setUpstreamConnection mid k).
Proof. unfold setUpstreamConnection, setUpstreamConn. frames_auto. Qed.
Hint Resolve frames_getUpstreamHandler frames_route frames_startUpstreamResponse frames_setUpstreamConnection : frames.

(** *** Filters *)

Lemma frames_do_callback b mid {X} (c : callback route_t X) : frames related (do_callback b mid c).
Proof.
  destruct c; cbn [do_callback];
    unfold resetStream, onUpstreamResponse, resetDownstreamConnection; frames_auto;
    (apply frames_on_message; [exact _ |]); intros a; unfold set_shared_metadata, set_shared_mutation; by destruct b.
Qed.
Hint Resolve frames_do_callback : frames.
Lemma frames_run_filter b mid {A} (p : filter_prog route_t A) : frames related (run_filter b mid p).
Proof. induction p; cbn [run_filter]; frames_auto. Qed.
Hint Resolve frames_run_filter : frames.
End callbacks.
#[export] Hint Resolve frames_resetAllMessages frames_onEvent frames_close_downstream frames_write_downstream
  frames_CM_sendLocalReply frames_sendLocalReply frames_getActiveStream frames_on_stream frames_send2upstream
  frames_newActiveStream frames_streamExisted frames_clearStream frames_Stream_clear frames_send2downstream
  frames_getUpstreamHandler frames_route frames_startUpstreamResponse frames_setUpstreamConnection
  frames_do_callback frames_run_filter : frames.
