(* ===== verification/ConnInvariant.v ===== *)
(** * Lifetimes in the connection manager

    Messages are created by the decoder, taken off the list of active messages
    once, handed to the dispatcher, and destroyed by it; what refers to a message
    in between must find it alive.  [cm_inv] is the invariant behind that, and
    [evolves] what every operation but the dispatcher's does to the state.  The
    operations are shown to respect it with the frame rules of the prelude; the
    entry points of the connection manager are the steps of a transition system
    ([cm_step]), whose reachable states satisfy the invariant. *)

From S2P Require Import Prelude Envoy Metadata Codec Decoder Network ConnManager ConnFrames.

Section invariant.
Context {E : Envoy} {C : CodecOps E} {N : NetworkOps} {P : ProxyConfig E}.
Abbreviation ConnectionManager := (Host nat CM).

(** The chain of a message holds every filter of the factory, and the destructor
    reaches each of them once. *)
Definition filters_ok (mid : nat) (a : ActiveMessage) : Prop :=
  length (am_filters a) = length filterFactory ∧
  destroyed_by mid a ≡ₚ (λ i, (mid, i)) <$> seq 0 (length filterFactory).

Record cm_inv (c : CM) : Prop := {
  inv_nodup : NoDup (active_message_list_ c ++ deferred c);
  inv_alive i : is_Some (objects c !! i) ↔ i ∈ active_message_list_ c ++ deferred c;
  inv_next i : i ∈ active_message_list_ c ++ deferred c → (i < next_id c)%nat;
  inv_gauge : stats_ c request_active_ = zlen (active_message_list_ c ++ deferred c);
  inv_filters i a : objects c !! i = Some a → filters_ok i a;
  inv_destroyed_nodup : NoDup (destroyed c);
  inv_destroyed i j : (i, j) ∈ destroyed c ↔
    (i < next_id c)%nat ∧ objects c !! i = None ∧ (j < length filterFactory)%nat
}.

(** What every operation but the dispatcher's does: messages stay alive, and the
    list of deferred deletions only grows at its end. *)
Definition evolves (c c' : CM) : Prop :=
  (cm_inv c → cm_inv c') ∧
  (∀ i, is_Some (objects c !! i) → is_Some (objects c' !! i)) ∧
  deferred c `prefix_of` deferred c'.
#[global] Instance evolves_preorder : PreOrder evolves.
Proof.
  split; [intros c; done |]. intros c1 c2 c3 (H1 & H2 & H3) (K1 & K2 & K3).
  split_and!; [by auto | by auto | by etrans].
Qed.

Lemma evolves_same c c' : same_messages c c' → evolves c c'.
Proof.
  intros (Ho & Hn & Ha & Hd & Hx & Hs). split_and!; [| by rewrite Ho | by rewrite Hd].
  intros [???????]. split; rewrite ?Ho, ?Hn, ?Ha, ?Hd, ?Hx, ?Hs; done.
Qed.

(** An update of a message that keeps its chain. *)
Definition keeps_chain (f : ActiveMessage → ActiveMessage) : Prop := ∀ a,
  length (am_filters (f a)) = length (am_filters a) ∧
  am_decoder_filters_ (f a) = am_decoder_filters_ a ∧ am_encoder_filters_ (f a) = am_encoder_filters_ a.

Lemma evolves_insert c mid a f :
  objects c !! mid = Some a → keeps_chain f → evolves c (c <| objects ::= <[mid := f a]> |>).
Proof.
  intros Ha Hf. destruct (Hf a) as (Hl & Hd & He).
  assert (∀ i, is_Some (<[mid := f a]> (objects c) !! i) ↔ is_Some (objects c !! i)) as Hiff.
  { intros i. destruct (decide (i = mid)) as [-> | Hne].
    - rewrite lookup_insert_eq, Ha. split; intros _; by eexists.
    - by rewrite lookup_insert_ne. }
  split_and!; [| intros i; apply Hiff | done].
  intros [Hnd Hal Hnx Hg Hfl Hdn Hds].
  split; unfold upd; cbn; try done.
  - intros i. by rewrite Hiff.
  - intros i b. destruct (decide (i = mid)) as [-> | Hne].
    + rewrite lookup_insert_eq. intros [= <-]. specialize (Hfl _ _ Ha).
      unfold filters_ok, destroyed_by in *. by rewrite Hl, Hd, He.
    + rewrite lookup_insert_ne by done. apply Hfl.
  - intros i j. rewrite Hds. destruct (decide (i = mid)) as [-> | Hne].
    + rewrite lookup_insert_eq, Ha. split; by intros (? & ? & ?).
    + by rewrite lookup_insert_ne.
Qed.

(** *** Deletion *)

(** Moving a message from one list to the other permutes the two together. *)
Lemma deferred_perm (l d : list nat) mid :
  NoDup l → mid ∈ l → List.filter (λ i, bool_decide (i ≠ mid)) l ++ (d ++ [mid]) ≡ₚ l ++ d.
Proof.
  intros Hnd Hin. rewrite (Permutation_app_comm d), (app_assoc _ [mid]). apply Permutation_app; [| done].
  apply list_elem_of_split in Hin as (l1 & l2 & ->).
  apply NoDup_app in Hnd as (_ & Hd1 & Hd2). apply NoDup_cons in Hd2 as [Hd2 _].
  assert (∀ k, mid ∉ k → List.filter (λ i, bool_decide (i ≠ mid)) k = k) as Hk.
  { induction k as [|x k IH]; [done |]. intros [??]%not_elem_of_cons. cbn.
    rewrite bool_decide_true by done. by rewrite IH. }
  rewrite List.filter_app. cbn. rewrite bool_decide_false by (by intros []).
  rewrite !Hk; [| done | intros Hl1; apply (Hd1 _ Hl1); left].
  by rewrite <- (Permutation_middle l1), Permutation_app_comm.
Qed.

Lemma evolves_defer c mid :
  mid ∈ active_message_list_ c →
  evolves c (c <| active_message_list_ ::= List.filter (λ i, bool_decide (i ≠ mid)) |>
               <| deferred ::= λ l, l ++ [mid] |>).
Proof.
  intros Hin. split_and!; unfold upd; cbn; [| done | by eexists].
  intros [Hnd Hal Hnx Hg Hfl Hdn Hds].
  assert (NoDup (active_message_list_ c)) as Hnd1 by (by apply NoDup_app in Hnd as (? & _)).
  pose proof (deferred_perm _ (deferred c) _ Hnd1 Hin) as Hp.
  split; cbn; try done.
  - by rewrite Hp.
  - intros i. by rewrite Hp.
  - intros i. rewrite Hp. apply Hnx.
  - rewrite Hg. unfold zlen. by rewrite Hp.
Qed.

#[global] Instance evolves_frame : CMFrame evolves.
Proof.
  split; [exact _ | apply evolves_same | | apply evolves_defer].
  intros c mid a f Ha Hf. apply evolves_insert; [done |]. intros b. by destruct (Hf b) as (-> & -> & ->).
Qed.

Abbreviation cm_evolves := (world_related (E := E) (C := C) (H := nat) evolves).

Lemma frames_call_filter b mid i : frames cm_evolves (call_filter b mid i).
Proof.
  unfold call_filter. frames_auto. intros h. unfold world_related. rewrite on_message_run.
  destruct (objects (h_world h) !! mid) eqn:Ha; cbn; [| reflexivity].
  apply (evolves_insert _ _ _ _ Ha). intros x. unfold upd. cbn. by rewrite length_insert.
Qed.
Hint Resolve frames_call_filter : frames.
Lemma frames_apply_filters b mid l : frames cm_evolves (apply_filters b mid l).
Proof. induction l; cbn [apply_filters]; frames_auto. Qed.
Hint Resolve frames_apply_filters : frames.
Lemma frames_applyDecoderFilters mid f s : frames cm_evolves (applyDecoderFilters mid f s).
Proof. unfold applyDecoderFilters. frames_auto. Qed.
Lemma frames_applyEncoderFilters mid f s : frames cm_evolves (applyEncoderFilters mid f s).
Proof. unfold applyEncoderFilters. frames_auto. Qed.
Hint Resolve frames_applyDecoderFilters frames_applyEncoderFilters : frames.
Lemma frames_maybeDeferredDeleteMessage mid : frames cm_evolves (maybeDeferredDeleteMessage mid).
Proof. unfold maybeDeferredDeleteMessage. frames_auto. Qed.
Hint Resolve frames_maybeDeferredDeleteMessage : frames.
Lemma frames_continueDecoding mid i : frames cm_evolves (continueDecoding mid i).
Proof. unfold continueDecoding. frames_auto. Qed.
Lemma frames_continueEncoding mid i : frames cm_evolves (continueEncoding mid i).
Proof. unfold continueEncoding. frames_auto. Qed.

(** *** Requests *)

Lemma frames_onMessageDecoded mid m mu : frames cm_evolves (onMessageDecoded mid m mu).
Proof. unfold onMessageDecoded, switch_message_type, closeClientStream, closeServerStream. frames_auto. Qed.
Lemma frames_CM_onHeartbeat m : frames cm_evolves (CM_onHeartbeat m).
Proof. unfold CM_onHeartbeat. frames_auto. Qed.

(** [createFilterChain] adds every filter once. *)
Lemma add_entry_ok mid n a e :
  length (am_filters a) = n → destroyed_by mid a ≡ₚ (λ i, (mid, i)) <$> seq 0 n →
  length (am_filters (add_entry a e)) = S n ∧
  destroyed_by mid (add_entry a e) ≡ₚ (λ i, (mid, i)) <$> seq 0 (S n).
Proof.
  intros Hn Hp. rewrite seq_S, fmap_app, <- Hp. cbn [Nat.add fmap list_fmap].
  unfold destroyed_by, add_entry, upd.
  destruct e as [f|f|f]; cbn; rewrite length_app, Hn, Nat.add_comm; (split; [done |]);
    rewrite ?List.filter_app, ?fmap_app; cbn; rewrite ?app_nil_r; [| by rewrite app_assoc |];
    by rewrite <- !app_assoc, (Permutation_app_comm [_]).
Qed.
Lemma createFilterChain_ok mid z : filters_ok mid (createFilterChain (new_ActiveMessage z)).
Proof.
  unfold filters_ok, createFilterChain.
  assert (∀ l n a, length (am_filters a) = n → destroyed_by mid a ≡ₚ (λ i, (mid, i)) <$> seq 0 n →
    length (am_filters (foldl add_entry a l)) = (n + length l)%nat ∧
    destroyed_by mid (foldl add_entry a l) ≡ₚ (λ i, (mid, i)) <$> seq 0 (n + length l)) as Hl.
  { induction l as [|e l IH]; intros n a Hn Hp; cbn; [by rewrite Nat.add_0_r |].
    destruct (add_entry_ok mid n a e Hn Hp) as [Hn' Hp']. rewrite Nat.add_succ_r. by apply (IH (S n)). }
  by apply (Hl filterFactory 0%nat).
Qed.

Lemma evolves_new c a :
  filters_ok (next_id c) a →
  evolves c (c <| stats_ ::= stat_add request_active_ 1 |> <| next_id ::= S |>
               <| objects ::= <[next_id c := a]> |> <| active_message_list_ ::= cons (next_id c) |>).
Proof.
  intros Ha. split_and!; unfold upd; cbn; [| | done].
  - intros [Hnd Hal Hnx Hg Hfl Hdn Hds].
    assert (next_id c ∉ active_message_list_ c ++ deferred c) as Hfresh.
    { intros Hin%Hnx. lia. }
    split; cbn.
    + by apply NoDup_cons.
    + intros i. rewrite elem_of_cons. destruct (decide (i = next_id c)) as [-> | Hne].
      * rewrite lookup_insert_eq. split; [by left | by eexists].
      * rewrite lookup_insert_ne, Hal by done. split; [by right | by intros [? | ?]].
    + intros i [-> | Hin%Hnx]%elem_of_cons; lia.
    + unfold stat_add. rewrite decide_True, Hg, zlen_cons by done. done.
    + intros i b. destruct (decide (i = next_id c)) as [-> | Hne].
      * rewrite lookup_insert_eq. by intros [= <-].
      * rewrite lookup_insert_ne by done. apply Hfl.
    + done.
    + intros i j. rewrite Hds. destruct (decide (i = next_id c)) as [-> | Hne].
      * rewrite lookup_insert_eq. split; intros (? & ? & ?); [lia | done].
      * rewrite lookup_insert_ne by done. split; intros (? & ? & ?); repeat split; try done; lia.
  - intros i Hi. destruct (decide (i = next_id c)) as [-> | Hne].
    + rewrite lookup_insert_eq. by eexists.
    + by rewrite lookup_insert_ne.
Qed.
Lemma frames_CM_newMessageHandler : frames cm_evolves CM_newMessageHandler.
Proof.
  intros h. unfold CM_newMessageHandler, get_cm, stat_inc, on_cm. mstep. cbn.
  apply evolves_new, createFilterChain_ok.
Qed.

Lemma frames_resetIdleTimer : frames cm_evolves resetIdleTimer.
Proof. unfold resetIdleTimer. frames_auto. Qed.
Hint Resolve frames_resetIdleTimer : frames.
Lemma frames_decode_loop_cm fuel : frames cm_evolves (decode_loop fuel).
Proof.
  apply frames_decode_loop; [exact _ | apply frames_CM_newMessageHandler |
    apply frames_onMessageDecoded | apply frames_CM_onHeartbeat].
Qed.
Lemma frames_dispatch fuel : frames cm_evolves (dispatch fuel).
Proof.
  pose proof (frames_decode_loop_cm fuel). unfold dispatch. frames_auto.
Qed.
Hint Resolve frames_dispatch : frames.
Lemma frames_CM_onData fuel d e : frames cm_evolves (CM_onData fuel d e).
Proof.
  unfold CM_onData. frames_auto. by apply frames_modify_host; [exact _ |].
Qed.
Lemma frames_onNewConnection : frames cm_evolves onNewConnection.
Proof. unfold onNewConnection. frames_auto. Qed.
Lemma frames_onIdleTimeout : frames cm_evolves onIdleTimeout.
Proof. unfold onIdleTimeout. frames_auto. Qed.

(** *** Responses *)

Abbreviation response_evolves := (world_related (E := E) (C := C) (H := unit) cm_evolves).

Lemma frames_in_world {A} (m : M ConnectionManager A) : frames cm_evolves m → frames response_evolves (in_world m).
Proof.
  intros Hm h. unfold in_world. specialize (Hm (h_world h)).
  destruct (m (h_world h)) as [o w]. unfold world_related in *. by cbn.
Qed.
Lemma frames_on_response mid f : frames cm_evolves (on_response mid f).
Proof. unfold on_response. frames_auto. Qed.
Hint Resolve frames_on_response : frames.
Lemma frames_get_response mid : frames cm_evolves (get_response mid).
Proof. unfold get_response. frames_auto. Qed.
Hint Resolve frames_get_response : frames.
Lemma frames_response_encode m mu : frames response_evolves (response_encode m mu).
Proof.
  intros h. unfold response_encode. destruct (codec_encode _ _ _) as [o [c b]].
  unfold world_related. cbn. reflexivity.
Qed.
Lemma frames_response_onMessageDecoded mid m mu : frames response_evolves (response_onMessageDecoded mid m mu).
Proof.
  pose proof frames_response_encode. pose proof (frames_on_decoder (E := E) (C := C) (H := unit) cm_evolves).
  unfold response_onMessageDecoded, applyMessageEncodedFilters, reset, complete. frames_auto.
  all: apply frames_in_world; frames_auto.
Qed.

(** With the buffer of the upstream data beside it. *)
Definition buffer_evolves (s s' : ConnectionManager * buffer) : Prop := cm_evolves s.1 s'.1.
#[global] Instance buffer_evolves_preorder : PreOrder buffer_evolves.
Proof. split; [intros s; unfold buffer_evolves; reflexivity | intros ?????; unfold buffer_evolves in *; by etrans]. Qed.
Lemma frames_in_manager {A} (m : M ConnectionManager A) : frames cm_evolves m → frames buffer_evolves (in_manager m).
Proof.
  intros Hm [w b]. specialize (Hm w). cbn. destruct (m w). unfold buffer_evolves. by cbn in *.
Qed.
Lemma frames_response_onData mid : frames buffer_evolves (response_onData mid).
Proof.
  unfold response_onData. frames_auto; try (apply frames_in_manager; frames_auto).
  intros [w b].
  match goal with |- context [Decoder.onData ?h] => set (h0 := h) end.
  pose proof (frames_onData (E := E) (C := C) (H := unit) cm_evolves (D := response_callbacks mid)
    (frames_ret _ _) (λ _, frames_response_onMessageDecoded mid) (λ _, frames_ret _ _) h0) as Hd.
  destruct (Decoder.onData h0) as [o h]. cbn in Hd.
  pose proof (frames_on_response mid (λ r, r <| rd_decoder_ := h_decoder h |> <| rd_codec_ := h_codec h |>) (h_world h)) as Hr.
  destruct (on_response _ _ _) as [o' w']. unfold buffer_evolves. cbn in *.
  etrans; [exact Hd | exact Hr].
Qed.
Lemma frames_onError mid w : frames cm_evolves (onError mid w).
Proof. unfold onError. frames_auto. Qed.
Hint Resolve frames_onError : frames.
Lemma frames_upstreamData mid : frames buffer_evolves (upstreamData mid).
Proof.
  pose proof frames_response_onData.
  unfold upstreamData, onReset. frames_auto; apply frames_in_manager; frames_auto.
Qed.

(** *** Destruction *)

(** The dispatcher has [l] left to destroy. *)
Definition clearing (l : list nat) (c : CM) : Prop :=
  deferred c = [] ∧ cm_inv (c <| deferred := l |>).

Lemma destroy_message_clearing mid l h :
  clearing (mid :: l) (h_world h) →
  ∃ h', destroy_message mid h = (Return tt, h') ∧ clearing l (h_world h') ∧
    active_message_list_ (h_world h') = active_message_list_ (h_world h) ∧
    objects (h_world h') = delete mid (objects (h_world h)).
Proof.
  intros [Hd [Hnd Hal Hnx Hg Hfl Hdn Hds]]. unfold upd in *. cbn in *. rename h into h0.
  destruct (proj2 (Hal mid)) as [a Ha]; [apply elem_of_app; right; left |].
  unfold destroy_message. rewrite run_bind, get_message_run, Ha. cbv beta iota. unfold on_cm, stat_inc, on_cm. mstep.
  eexists. split_and!; [done | | done | done]. split; [done |]. unfold upd. cbn.
  destruct (Hfl _ _ Ha) as [Hlen Hperm].
  rewrite <- Permutation_middle in Hnd. apply NoDup_cons in Hnd as [Hmid Hnd].
  assert (∀ i, i ∈ active_message_list_ (h_world h0) ++ mid :: l ↔
    i = mid ∨ i ∈ active_message_list_ (h_world h0) ++ l) as Hin.
  { intros i. rewrite <- Permutation_middle. apply elem_of_cons. }
  assert ((mid < next_id (h_world h0))%nat) as Hlt by (apply Hnx, Hin; by left).
  split; cbn; [done | | | | | |].
  - intros i. rewrite lookup_delete_is_Some, Hal, Hin. split; [by intros [? [-> | ?]] |].
    intros Hi. split; [by intros -> | by right].
  - intros i Hi. apply Hnx, Hin. by right.
  - unfold stat_add. rewrite decide_False, decide_True, Hg by done.
    rewrite !zlen_app, zlen_cons. lia.
  - intros i b [_ Hb]%lookup_delete_Some. by apply Hfl.
  - apply NoDup_app. split; [done |]. split.
    + intros [i j] Hij Hij'. rewrite Hperm in Hij'. apply list_elem_of_fmap in Hij' as (k & [= -> ->] & _).
      apply Hds in Hij as (_ & Hnone & _). by rewrite Ha in Hnone.
    + rewrite Hperm. apply NoDup_fmap; [by intros ?? [=] | apply NoDup_seq].
  - intros i j. rewrite elem_of_app, Hds, Hperm, list_elem_of_fmap, lookup_delete_None. split.
    + intros [(? & ? & ?) | (k & [= -> ->] & Hk%elem_of_seq)]; [by auto |].
      split_and!; [done | by left | lia].
    + intros (Hi & [-> | Hn] & Hj); [right | by left].
      eexists. split; [done |]. apply elem_of_seq. lia.
Qed.

Lemma clearDeferred_run h :
  cm_inv (h_world h) →
  ∃ h', clearDeferredDeleteList h = (Return tt, h') ∧ cm_inv (h_world h') ∧ deferred (h_world h') = [] ∧
    active_message_list_ (h_world h') = active_message_list_ (h_world h).
Proof.
  intros Hinv. unfold clearDeferredDeleteList, get_cm, on_cm. mstep.
  set (h1 := h <| h_world ::= λ c, c <| deferred := [] |> |>).
  assert (clearing (deferred (h_world h)) (h_world h1)) as Hc.
  { split; [done |]. unfold h1, upd. cbn. by destruct (h_world h). }
  change (active_message_list_ (h_world h)) with (active_message_list_ (h_world h1)).
  generalize dependent h1. generalize (deferred (h_world h)) as l.
  induction l as [|mid l IH]; intros h1 Hc; cbn [destroy_all].
  - exists h1. destruct Hc as [Hd Hi]. split_and!; [done | | done | done].
    rewrite <- Hd in Hi. unfold upd in Hi. by destruct (h_world h1).
  - destruct (destroy_message_clearing _ _ _ Hc) as (h2 & Hrun & Hc2 & Ha2 & _).
    rewrite run_bind, Hrun. cbv beta iota. rewrite <- Ha2. by apply IH.
Qed.

(** ** The transition system *)

(** What can happen to a connection.  A filter acts from an event of its own, such
    as a timer or the answer of a service, with any program over its callbacks. *)
Inductive cm_event : Type :=
| EvNewConnection
| EvData (fuel : nat) (data : bytes) (end_stream : bool)
| EvConnection (event : ConnectionEvent)
| EvIdleTimeout
| EvContinueDecoding (mid i : nat)
| EvContinueEncoding (mid i : nat)
| EvFilter (encoding : bool) (mid : nat) (p : filter_prog route_t unit)
| EvUpstreamData (mid : nat) (data : buffer)
| EvStreamData (fuel : nat) (stream_id : Z) (end_stream : bool) (data : buffer)
| EvClearDeferred.

Definition run_event (ev : cm_event) : M ConnectionManager unit :=
  match ev with
  | EvNewConnection => onNewConnection
  | EvData fuel data end_stream => CM_onData fuel data end_stream
  | EvConnection event => onEvent event
  | EvIdleTimeout => onIdleTimeout
  | EvContinueDecoding mid i => continueDecoding mid i
  | EvContinueEncoding mid i => continueEncoding mid i
  | EvFilter encoding mid p => run_filter encoding mid p
  | EvUpstreamData mid data => λ h, let '(o, (h', _)) := upstreamData mid (h, data) in ((λ _, tt) <$> o, h')
  | EvStreamData fuel i end_stream data => _ ← send2downstream fuel i end_stream data; mret tt
  | EvClearDeferred => clearDeferredDeleteList
  end.

(** An event that does not stop the process. *)
Definition cm_step (h h' : ConnectionManager) : Prop := ∃ ev o, run_event ev h = (o, h') ∧ ∀ w, o ≠ Panic w.

Lemma cm_step_run ev h : (if (run_event ev h).1 is Panic _ then false else true) = true → cm_step h (run_event ev h).2.
Proof. intros Hp. exists ev, (run_event ev h).1. split; [apply surjective_pairing |]. intros w Hw. by rewrite Hw in Hp. Qed.

(** A new connection manager: [c] has no messages. *)
Definition initial (h : ConnectionManager) : Prop :=
  objects (h_world h) = ∅ ∧ active_message_list_ (h_world h) = [] ∧ deferred (h_world h) = [] ∧
  next_id (h_world h) = 0%nat ∧ stats_ (h_world h) request_active_ = 0 ∧ destroyed (h_world h) = [].

Lemma initial_inv h : initial h → cm_inv (h_world h).
Proof.
  intros (Ho & Ha & Hd & Hn & Hg & Hx). split; rewrite ?Ho, ?Ha, ?Hd, ?Hn, ?Hg, ?Hx; cbn.
  - constructor.
  - intros i. rewrite lookup_empty. split; [by intros [? [=]] | by intros ?%elem_of_nil].
  - by intros i ?%elem_of_nil.
  - done.
  - intros i a. by rewrite lookup_empty.
  - constructor.
  - intros i j. split; [by intros ?%elem_of_nil | lia].
Qed.

(** Every event but the dispatcher's is within [evolves]. *)
Lemma event_evolves ev : ev ≠ EvClearDeferred → frames cm_evolves (run_event ev).
Proof.
  intros Hev. pose proof frames_onNewConnection. pose proof frames_CM_onData. pose proof frames_onIdleTimeout.
  pose proof frames_continueDecoding. pose proof frames_continueEncoding.
  destruct ev; cbn [run_event]; try done; frames_auto.
  intros h. pose proof (frames_upstreamData mid (h, data)) as Hu.
  by destruct (upstreamData mid (h, data)) as [o [h' b]].
Qed.

Lemma step_inv h h' : cm_step h h' → cm_inv (h_world h) → cm_inv (h_world h').
Proof.
  intros (ev & o & Hrun & _) Hinv.
  assert (ev = EvClearDeferred ∨ ev ≠ EvClearDeferred) as [-> | Hev] by (destruct ev; (by left) || (by right)).
  - destruct (clearDeferred_run h Hinv) as (h1 & Hr & Hi & _). cbn in Hrun. rewrite Hr in Hrun. by simplify_eq.
  - pose proof (event_evolves ev Hev h) as (Hk & _). rewrite Hrun in Hk. by apply Hk.
Qed.

(** C18: whatever happens on a connection, in any order and with any filters, each
    message that has not been destroyed is on exactly one of the two lists, once;
    the gauge [request_active] is the number of such messages; every filter of a
    destroyed message has had [onDestroy] called exactly once, a filter registered
    on both sides included, and no filter of a live message has. *)
Theorem conn_manager_invariant (h0 h : ConnectionManager) (Hinit : initial h0) (Hreach : rtc cm_step h0 h) :
  let c := h_world h in
  NoDup (active_message_list_ c ++ deferred c) ∧
  (∀ mid, is_Some (objects c !! mid) ↔ mid ∈ active_message_list_ c ++ deferred c) ∧
  stats_ c request_active_ = zlen (active_message_list_ c) + zlen (deferred c) ∧
  NoDup (destroyed c) ∧
  (∀ mid i, (mid, i) ∈ destroyed c ↔
    (mid < next_id c)%nat ∧ objects c !! mid = None ∧ (i < length filterFactory)%nat).
Proof.
  assert (cm_inv (h_world h)) as [].
  { apply initial_inv in Hinit. induction Hreach as [|h1 h2 h3 Hs _ IH]; [done |].
    apply IH. by eapply step_inv. }
  cbn. rewrite <- zlen_app. done.
Qed.

(** C19: a message that an event can refer to is alive to the end of the event:
    only the dispatcher destroys messages, and only those handed to
    [deferredDelete], all of them and no other. *)
Theorem messages_outlive_events (h h' : ConnectionManager) (ev : cm_event) (o : outcome unit)
    (Hinv : cm_inv (h_world h)) (Hrun : run_event ev h = (o, h')) :
  (ev ≠ EvClearDeferred →
    (∀ mid, is_Some (objects (h_world h) !! mid) → is_Some (objects (h_world h') !! mid)) ∧
    deferred (h_world h) `prefix_of` deferred (h_world h')) ∧
  (ev = EvClearDeferred → o = Return tt ∧ deferred (h_world h') = [] ∧
    ∀ mid, is_Some (objects (h_world h') !! mid) ↔
      is_Some (objects (h_world h) !! mid) ∧ mid ∉ deferred (h_world h)).
Proof.
  split; intros Hev.
  - pose proof (event_evolves ev Hev h) as (_ & Ho & Hd). by rewrite Hrun in Ho, Hd.
  - subst. destruct (clearDeferred_run h Hinv) as (h1 & Hr & [_ Hal' _ _ _ _ _] & Hd & Ha).
    cbn in Hrun. rewrite Hr in Hrun. simplify_eq. split_and!; [done | done |]. intros mid.
    rewrite Hal', Ha, Hd, app_nil_r, (inv_alive _ Hinv), elem_of_app.
    pose proof (inv_nodup _ Hinv) as (_ & Hdis & _)%NoDup_app. split; [| by intros [[? | ?] ?]].
    intros Hin. split; [by left | by apply Hdis].
Qed.
End invariant.

(** ** A small instance

    A protocol of one-byte messages, whose byte is the type (and the id, for
    errors), and a chain of two filters: one that lets everything through and counts, and one on both sides
    that answers messages of the first kind itself. *)

Definition toy_E : Envoy := list_envoy Empty_set.

Definition toy_type (b : Z) : option MessageType :=
  [MessageType_Request; MessageType_Oneway; MessageType_Stream_Init; MessageType_Stream_Data;
   MessageType_Stream_Close_One_Way; MessageType_Stream_Close_Two_Way; MessageType_Heartbeat;
   MessageType_Response; MessageType_Error] !! Z.to_nat b.

#[global] Instance toy_codec : CodecOps toy_E := {|
  codec_state := unit;
  codec_init := tt;
  codec_decode := λ '(c, b, m),
    match contents b with
    | [] => (Return DecodeStatus_WaitForData, (c, b, m))
    | x :: _ =>
        match toy_type x with
        | Some t => let '(d, b') := buf_move buf_new b 1 in
                    (Return DecodeStatus_Done, (c, b', setRequestId (if x =? 8 then 8 else 0) (setMessageType t m)
                                                         <| origin_message_ := d |>))
        | None => (Throw (EnvoyException "bad message"), (c, b, m))
        end
    end;
  codec_encode m mu := λ '(c, b), (Return tt, (c, if buf_length b =? 0 then buf_add b [6] else b));
  codec_onError m e := λ '(c, b), (Return tt, (c, buf_add b [8]))
|}.

Inductive toy_filter : Type := Counting (n : nat) | Answering.

#[global] Instance toy_config : ProxyConfig toy_E := {|
  filter := toy_filter;
  route_t := string;
  filter_onMessageDecoded f :=
    match f with
    | Counting n => F_Return (Counting (S n), FilterStatus_ContinueIteration)
    | Answering =>
        F_Call CB_metadata (λ m,
          if decide (message_type_ m = MessageType_Request)
          then F_Call (CB_sendLocalReply (AppException {| error_type := ErrorType_OverLimit; error_message := "no" |}) false)
                 (λ _, F_Return (Answering, FilterStatus_AbortIteration))
          else F_Return (Answering, FilterStatus_PauseIteration))
    end;
  filter_onMessageEncoded f := F_Return (f, FilterStatus_ContinueIteration);
  filterFactory := [AddDecoderFilter (Counting 0); AddFilter Answering];
  routerConfig_route _ _ := Return (Some "cluster");
  applicationProtocol := "toy";
  idleTimeout := Some 1000;
  random := Z.of_nat;
  getThreadLocalCluster _ := true;
  createTcpPoolData _ := Some ("10.0.0.1:80", PoolPending)
|}.

Definition toy_host : Host (E := toy_E) (C := toy_codec) nat (CM (C := toy_codec) (N := list_network)) := {|
  h_decoder := new_DecoderBase MessageType_Request;
  h_codec := codec_init;
  h_buffer := buf_new;
  h_world := {| objects := ∅; next_id := 0; active_message_list_ := []; deferred := []; active_stream_map_ := ∅;
                stats_ := λ _, 0; downstream := ({| lc_state := Connection_Open; lc_written := [] |} : connection (NetworkOps := list_network));
                idle_timer_ := None; upstream_handler_manager_ := ∅; next_handler := 0;
                upstream_written := []; destroyed := [] |} |}.

(** A request that is answered locally, a stream that is opened, and a
    heartbeat, in one read. *)
Definition toy_events : list (cm_event (E := toy_E)) := [EvNewConnection; EvData 10 [0; 2; 6] false; EvClearDeferred].
Definition toy_run : Host (C := toy_codec) nat (CM (C := toy_codec) (N := list_network)) :=
  foldl (λ h ev, (run_event ev h).2) toy_host toy_events.

Lemma toy_reachable : rtc cm_step toy_host toy_run.
Proof.
  unfold toy_run, toy_events. cbn [foldl].
  do 3 (eapply rtc_r; [| apply cm_step_run; vm_compute; done]). apply rtc_refl.
Qed.

Lemma toy_inv : cm_inv (h_world toy_run).
Proof.
  pose proof toy_reachable as Hr. assert (cm_inv (h_world toy_host)) as Hi by (apply initial_inv; by repeat split).
  induction Hr as [|h1 h2 h3 Hs _ IH]; [done |]. apply IH. by eapply step_inv.
Qed.

(** The two messages and their filters. *)
Definition toy_summary (h : Host (C := toy_codec) nat (CM (C := toy_codec) (N := list_network))) :=
  let c := h_world h in
  (active_message_list_ c, deferred c, stats_ c request_active_, destroyed c, lc_written (downstream c)).

Lemma conn_manager_invariant_witness :
  toy_summary toy_run = ([1%nat], [], 1, [(0, 0); (0, 1)]%nat, [([8], false); ([6], false)]) ∧
  NoDup (destroyed (h_world toy_run)).
Proof.
  split; [vm_compute; reflexivity |].
  apply (conn_manager_invariant toy_host toy_run); [by repeat split | apply toy_reachable].
Defined.

Lemma messages_outlive_events_witness :
  ∃ h', run_event (EvData 10 [0] false) toy_run = (Return tt, h') ∧
    is_Some (objects (h_world h') !! 1%nat) ∧ deferred (h_world h') = [2%nat].
Proof.
  exists (run_event (EvData 10 [0] false) toy_run).2.
  assert (run_event (EvData 10 [0] false) toy_run = (Return tt, (run_event (EvData 10 [0] false) toy_run).2)) as Hr
    by (apply pair_fst; vm_compute; reflexivity).
  split; [exact Hr |]. split; [| vm_compute; reflexivity].
  destruct (messages_outlive_events toy_run _ _ _ toy_inv Hr) as [Hout _].
  destruct Hout as [Hout _]; [discriminate |].
  refine (Hout 1%nat (proj2 (inv_alive _ toy_inv 1%nat) (proj2 (elem_of_app _ _ _) (or_introl _)))).
  replace (active_message_list_ (h_world toy_run)) with [1%nat] by (vm_compute; reflexivity). by left.
Defined.
