(* ===== verification/ConnBehaviour.v ===== *)
(** * What the connection manager does with messages

    The functional behaviour of the operations of [ConnManager], branch by branch:
    resets, the filter chain, local replies, undecodable input, messages that
    bypass the filters, streams, and responses from upstream. *)

From S2P Require Import Prelude Envoy Metadata Codec Decoder Network ConnManager ConnFrames ConnInvariant.

(** Decides comparisons of named counters. *)
Ltac decide_stats :=
  repeat first
    [ rewrite decide_True by first [done | by split]
    | rewrite decide_False by first [done | by intros [? [=]] | by intros [[=] ?]] ].

Section behaviour.
Context {E : Envoy} {C : CodecOps E} {N : NetworkOps} {P : ProxyConfig E}.
Abbreviation ConnectionManager := (Host nat CM).
Implicit Types h : ConnectionManager.

(** ** Resetting all messages *)

(** Everything but the lists of messages and the counters is the same. *)
Definition same_but_lists (h h' : ConnectionManager) : Prop :=
  h_decoder h' = h_decoder h ∧ h_codec h' = h_codec h ∧ h_buffer h' = h_buffer h ∧
  let c := h_world h in let c' := h_world h' in
  objects c' = objects c ∧ next_id c' = next_id c ∧ active_stream_map_ c' = active_stream_map_ c ∧
  downstream c' = downstream c ∧ idle_timer_ c' = idle_timer_ c ∧
  upstream_handler_manager_ c' = upstream_handler_manager_ c ∧ next_handler c' = next_handler c ∧
  upstream_written c' = upstream_written c ∧ destroyed c' = destroyed c.

Lemma remove_front i (l : list nat) :
  NoDup (i :: l) → List.filter (λ j, bool_decide (j ≠ i)) (i :: l) = l.
Proof.
  intros [Hi _]%NoDup_cons. cbn. rewrite bool_decide_false by (by intros []).
  induction l as [|j l IH]; [done |]. apply not_elem_of_cons in Hi as [Hne Hi]. cbn.
  rewrite bool_decide_true by done. by rewrite IH.
Qed.

Lemma resetAllMessages_run b h :
  NoDup (active_message_list_ (h_world h)) →
  ∃ h', resetAllMessages b h = (Return tt, h') ∧ same_but_lists h h' ∧
    active_message_list_ (h_world h') = [] ∧
    deferred (h_world h') = deferred (h_world h) ++ active_message_list_ (h_world h) ∧
    ∀ s, stats_ (h_world h') s = stats_ (h_world h) s +
      if decide (s = if b then cx_destroy_local_with_active_rq_ else cx_destroy_remote_with_active_rq_)
      then zlen (active_message_list_ (h_world h)) else 0.
Proof.
  unfold resetAllMessages, get_cm. rewrite run_bind. cbn [gets]. cbv beta iota.
  remember (active_message_list_ (h_world h)) as l eqn:Hl. revert h Hl.
  induction l as [|i l IH]; intros h Hl Hnd; cbn [length resetAllMessages_loop]; unfold get_cm;
    rewrite run_bind; cbn [gets]; cbv beta iota; rewrite <- Hl.
  - exists h. rewrite app_nil_r. split_and!; try done. intros s. change (zlen (@nil nat)) with 0. case_decide; lia.
  - set (h1 := h <| h_world ::= λ c, c <| stats_ ::= stat_add
      (if b then cx_destroy_local_with_active_rq_ else cx_destroy_remote_with_active_rq_) 1 |> |>).
    set (h2 := h1 <| h_world ::= λ c, c <| active_message_list_ := l |> <| deferred ::= λ d, d ++ [i] |> |>).
    assert (onReset i h1 = (Return tt, h2)) as Hreset.
    { unfold onReset, deferredDeleteMessage, get_cm. rewrite run_bind. cbn [gets]. cbv beta iota.
      rewrite bool_decide_true by (cbn; rewrite <- Hl; left). unfold on_cm, modify, h2, upd.
      cbn -[List.filter]. by rewrite <- Hl, remove_front. }
    destruct (IH h2) as (h' & Hrun & Hsame & Ha & Hd & Hs); [done | by apply NoDup_cons in Hnd as [_ ?] |].
    exists h'. unfold stat_inc, on_cm. rewrite run_bind. cbn [modify]. cbv beta iota.
    rewrite run_bind. fold h1. rewrite Hreset. cbv beta iota. split_and!; try done.
    + rewrite Hd. unfold h2, upd. cbn. by rewrite <- app_assoc.
    + intros s. rewrite Hs, zlen_cons. unfold h2, h1, upd, stat_add. cbn. repeat case_decide; subst; done || lia.
Qed.

(** [resetAllMessages] ends: it takes every active message off the list, hands
    all of them to the dispatcher in their order, counts each of them once, as
    local or remote, and changes nothing else. *)
Theorem reset_all_messages (h : ConnectionManager) (local_reset : bool)
    (Hnd : NoDup (active_message_list_ (h_world h))) :
  ∃ h', resetAllMessages local_reset h = (Return tt, h') ∧ same_but_lists h h' ∧
    active_message_list_ (h_world h') = [] ∧
    deferred (h_world h') = deferred (h_world h) ++ active_message_list_ (h_world h) ∧
    ∀ s, stats_ (h_world h') s = stats_ (h_world h) s +
      if decide (s = if local_reset then cx_destroy_local_with_active_rq_ else cx_destroy_remote_with_active_rq_)
      then zlen (active_message_list_ (h_world h)) else 0.
Proof. by apply resetAllMessages_run. Qed.

(** ** Closing the connection *)

Context {NL : NetworkLaws N}.

(** The state after [close]: when it raised [LocalClose], the messages have been
    reset, the timer is off and the upstream handlers are gone. *)
Definition closed_with (raised : bool) (h h' : ConnectionManager) : Prop :=
  h_decoder h' = h_decoder h ∧ h_codec h' = h_codec h ∧ h_buffer h' = h_buffer h ∧
  let c := h_world h in let c' := h_world h' in
  objects c' = objects c ∧ active_stream_map_ c' = active_stream_map_ c ∧
  upstream_written c' = upstream_written c ∧ destroyed c' = destroyed c ∧
  active_message_list_ c' = (if raised then [] else active_message_list_ c) ∧
  deferred c' = deferred c ++ (if raised then active_message_list_ c else []) ∧
  (raised = true → idle_timer_ c' = None ∧ upstream_handler_manager_ c' = ∅) ∧
  ∀ s, stats_ c' s = stats_ c s +
    if decide (raised = true ∧ s = cx_destroy_local_with_active_rq_) then zlen (active_message_list_ c) else 0.

Lemma close_downstream_run t h :
  NoDup (active_message_list_ (h_world h)) →
  ∃ h', close_downstream t h = (Return tt, h') ∧
    downstream (h_world h') = (conn_close (downstream (h_world h)) t).1 ∧
    closed_with (conn_close (downstream (h_world h)) t).2 h h'.
Proof.
  intros Hnd. unfold close_downstream, get_cm. rewrite run_bind. cbn [gets]. cbv beta iota.
  destruct (conn_close _ t) as [k raised] eqn:Hk. unfold on_cm. rewrite run_bind. cbn [modify]. cbv beta iota.
  set (h1 := h <| h_world ::= λ c, c <| downstream := k |> |>).
  destruct raised.
  - unfold onEvent, disableIdleTimer, resetUpstreamHandlerManager, on_cm.
    rewrite run_bind. cbn [modify]. cbv beta iota.
    set (h2 := h1 <| h_world ::= λ c, c <| idle_timer_ := None |> |>).
    rewrite run_bind, bool_decide_true by done.
    destruct (resetAllMessages_run true h2 Hnd) as (h3 & -> & Hs & Ha & Hd & Hst). cbv beta iota.
    destruct Hs as (H1 & H2 & H3 & H4 & H5 & H6 & H7 & H8 & H9 & H10 & H11 & H12).
    eexists. split; [reflexivity |]. split; [done |]. unfold closed_with. cbv zeta. split_and!; try done.
    intros s. etrans; [apply Hst |]. change (stats_ (h_world h2)) with (stats_ (h_world h)).
    f_equal. apply decide_ext. split; [done | by intros [_ ?]].
  - exists h1. unfold closed_with. cbv zeta. split_and!; try done; [by rewrite app_nil_r |].
    intros s. rewrite decide_False by (by intros [? _]). cbn. lia.
Qed.

(** C23: input that cannot be decoded closes the connection: [dispatch] does not
    throw, nothing is written, every message that was active is handed to the
    dispatcher and counted as a local reset, and the error is counted once. *)
Theorem undecodable_input_closes (fuel : nat) (h h2 : ConnectionManager) (e : exn)
    (Hinv : cm_inv (h_world h)) (Hdata : buf_length (h_buffer h) ≠ 0)
    (Htimer : idle_timer_ (h_world h) ≠ None → idleTimeout ≠ None)
    (Hdec : decode_loop fuel (resetIdleTimer h).2 = (Throw e, h2)) (He : e ≠ BadAnyCast) :
  ∃ h', dispatch fuel h = (Return tt, h') ∧
    conn_state (downstream (h_world h')) = Connection_Closed ∧
    conn_written (downstream (h_world h')) = conn_written (downstream (h_world h2)) ∧
    active_message_list_ (h_world h') = [] ∧
    deferred (h_world h') = deferred (h_world h2) ++ active_message_list_ (h_world h2) ∧
    stats_ (h_world h') request_decoding_error_ = stats_ (h_world h2) request_decoding_error_ + 1 ∧
    stats_ (h_world h') cx_destroy_local_with_active_rq_ =
      stats_ (h_world h2) cx_destroy_local_with_active_rq_ + zlen (active_message_list_ (h_world h2)).
Proof.
  assert (cm_inv (h_world h2)) as Hinv2.
  { pose proof (frames_resetIdleTimer h) as (H1 & _).
    pose proof (frames_decode_loop_cm fuel (resetIdleTimer h).2) as (H2 & _). rewrite Hdec in H2. auto. }
  assert (NoDup (active_message_list_ (h_world h2))) as Hnd.
  { by pose proof (inv_nodup _ Hinv2) as (? & _ & _)%NoDup_app. }
  assert (resetIdleTimer h = (Return tt, (resetIdleTimer h).2)) as Hidle.
  { apply pair_fst. unfold resetIdleTimer, get_cm. mstep. destruct (idle_timer_ (h_world h)); [| done].
    mstep. by rewrite bool_decide_true by (by apply Htimer). }
  destruct (close_downstream_run NoFlush h2 Hnd) as (h3 & Hclose & Hdown & Hcl).
  destruct Hcl as (_ & _ & _ & Hobj & _ & _ & _ & Ha & Hd & _ & Hst).
  set (h4 := h3 <| h_world ::= λ c, c <| stats_ ::= stat_add request_decoding_error_ 1 |> |>).
  assert (NoDup (active_message_list_ (h_world h4))) as Hnd4.
  { unfold h4, upd. cbn. rewrite Ha. case_match; [constructor | done]. }
  destruct (resetAllMessages_run true h4 Hnd4) as (h5 & Hreset & Hs & Ha5 & Hd5 & Hst5).
  exists h5. split.
  { unfold dispatch. rewrite run_bind. cbn [gets]. cbv beta iota. rewrite (proj2 (Z.eqb_neq _ _)) by done.
    rewrite run_bind, Hidle. cbv beta iota. rewrite run_bind. unfold catch_envoy, try_catch.
    rewrite run_bind, Hdec. cbv beta iota. destruct e; try done; rewrite run_bind, Hclose; cbv beta iota; apply Hreset. }
  destruct Hs as (_ & _ & _ & _ & _ & _ & Hdn & _).
  rewrite Hdn, Hd5, Ha5, !Hst5. unfold h4, upd. cbn. rewrite Hdown, Ha, Hd.
  rewrite conn_close_no_flush, conn_close_written. unfold stat_add.
  rewrite !Hst. destruct (conn_close _ _).2; cbn; split_and!; rewrite ?app_nil_r; try done.
  all: decide_stats; rewrite ?zlen_nil; lia.
Qed.

(** ** Local replies *)

Context {L : EnvoyLaws E}.

Lemma buf_length_new : buf_length buf_new = 0.
Proof using L. by rewrite buf_length_spec, buf_new_spec. Qed.

(** What [codec.onError] leaves, given to the connection. *)
Definition error_reply (m : MetadataImpl) (error : Error) (h : ConnectionManager) :
    outcome unit * (codec_state * buffer) := codec_onError m error (h_codec h, buf_new).

Lemma encode_AppException m error h :
  with_codec (DirectResponse_encode (AppException error) m) buf_new h =
    match error_reply m error h with
    | (Return _, (c, b)) => (Return (Exception, b), h <| h_codec := c |>)
    | (Throw e, (c, b)) => (Throw e, h <| h_codec := c |>)
    | (Panic w, (c, b)) => (Panic w, h <| h_codec := c |>)
    end.
Proof using L.
  unfold with_codec, DirectResponse_encode, error_reply. rewrite run_bind. cbn [gets snd]. cbv beta iota.
  rewrite run_bind, buf_length_new. cbn [Z.eqb ASSERT assert_that lift]. cbv beta iota. rewrite run_bind.
  destruct (codec_onError _ _ _) as [[]  [c b]]; done.
Qed.

(** [h'] is [h] after a reply: the codec is [k], the reply was counted under [s],
    and nothing is different for the messages but what closing the connection
    does to them. *)
Definition replied (s : Stat) (k : codec_state) (end_stream : bool) (h h' : ConnectionManager) : Prop :=
  h_codec h' = k ∧ h_buffer h' = h_buffer h ∧ objects (h_world h') = objects (h_world h) ∧
  stats_ (h_world h') s = stats_ (h_world h) s + 1 ∧
  (conn_state (downstream (h_world h')) = Connection_Open ↔ end_stream = false) ∧
  (end_stream = false → active_message_list_ (h_world h') = active_message_list_ (h_world h) ∧
                        deferred (h_world h') = deferred (h_world h)).

Lemma finish_reply s k w end_stream h :
  NoDup (active_message_list_ (h_world h)) → conn_state (downstream (h_world h)) = Connection_Open →
  conn_state w = Connection_Open → s ≠ cx_destroy_local_with_active_rq_ →
  let h1 := h <| h_codec := k |> <| h_world ::= λ c, c <| downstream := w |> |> in
  ∃ h', (_ ← (if (end_stream : bool) then close_downstream FlushWrite else mret tt); stat_inc s) h1 = (Return tt, h') ∧
    replied s k end_stream h h' ∧ conn_written (downstream (h_world h')) = conn_written w.
Proof using L NL.
  intros Hnd Hopen Hw Hs h1. rewrite run_bind. destruct end_stream.
  - destruct (close_downstream_run FlushWrite h1 Hnd) as (h2 & -> & Hd & Hcl). cbv beta iota.
    destruct Hcl as (_ & Hc & Hb & Ho & _ & _ & _ & _ & _ & _ & Hst).
    eexists. split; [reflexivity |]. cbn. rewrite Hd, conn_close_written. split; [| done].
    unfold replied, upd. cbn. rewrite Hd. split_and!; [done | done | done | | | done].
    + unfold stat_add. rewrite decide_True, Hst, decide_False by (done || by intros [_ ?]). cbn. lia.
    + split; [| done]. intros Ho'. by apply conn_close_state in Ho'.
  - cbn [mret M_ret]. cbv beta iota. eexists. split; [reflexivity |]. split; [| done].
    unfold replied, h1, upd. cbn. split_and!; try done. unfold stat_add. by rewrite decide_True.
Qed.

Lemma CM_sendLocalReply_run m error end_stream h c b :
  NoDup (active_message_list_ (h_world h)) → conn_state (downstream (h_world h)) = Connection_Open →
  error_reply m error h = (Return tt, (c, b)) →
  ∃ h', CM_sendLocalReply m (AppException error) end_stream h = (Return tt, h') ∧
    replied local_response_business_exception_ c end_stream h h' ∧
    conn_written (downstream (h_world h')) = conn_written (downstream (h_world h)) ++ [(contents b, end_stream)].
Proof using L NL.
  intros Hnd Hst Henc. unfold CM_sendLocalReply, get_cm. rewrite run_bind. cbn [gets]. cbv beta iota.
  rewrite decide_False by (by intros []). unfold catch_envoy, try_catch.
  rewrite run_bind, run_bind, encode_AppException, Henc. cbv beta iota.
  unfold write_downstream, on_cm. rewrite run_bind. cbn [modify mret M_ret]. cbv beta iota.
  destruct (finish_reply local_response_business_exception_ c (conn_write (downstream (h_world h)) (contents b) end_stream)
    end_stream h) as (h' & Hrun & Hrep & Hwr); [done | done | by rewrite conn_write_state | done |].
  exists h'. rewrite Hwr, conn_write_written by done. split; [exact Hrun | done].
Qed.

(** a local reply is written exactly when the connection is open and the codec
    can encode it, with the bytes [codec.onError] produced, once; an encoding error
    writes nothing and is counted as an error, a reply as a business exception;
    with [end_stream] the connection does not stay open, without it no message is
    affected.  A closed connection leaves everything as it is. *)
Theorem local_reply_sent (m : MetadataImpl) (error : Error) (end_stream : bool) (h : ConnectionManager)
    (Hnd : NoDup (active_message_list_ (h_world h))) :
  let k := downstream (h_world h) in
  let result := CM_sendLocalReply m (AppException error) end_stream h in
  (conn_state k ≠ Connection_Open → result = (Return tt, h)) ∧
  (conn_state k = Connection_Open →
   match error_reply m error h with
   | (Return _, (c, b)) => ∃ h', result = (Return tt, h') ∧
       replied local_response_business_exception_ c end_stream h h' ∧
       conn_written (downstream (h_world h')) = conn_written k ++ [(contents b, end_stream)]
   | (Throw e, (c, _)) => e ≠ BadAnyCast → ∃ h', result = (Return tt, h') ∧
       replied local_response_error_ c end_stream h h' ∧
       conn_written (downstream (h_world h')) = conn_written k
   | (Panic w, _) => result.1 = Panic w
   end).
Proof.
  cbv zeta. split; intros Hst.
  { unfold CM_sendLocalReply, get_cm. rewrite run_bind. cbn [gets]. cbv beta iota. by rewrite decide_True. }
  destruct (error_reply m error h) as [[[]|e|w] [c b]] eqn:Henc; [by apply CM_sendLocalReply_run | |];
    unfold CM_sendLocalReply, get_cm; rewrite run_bind; cbn [gets]; cbv beta iota;
    rewrite decide_False by (by intros []); unfold catch_envoy, try_catch;
    rewrite run_bind, run_bind, encode_AppException, Henc; cbv beta iota; [| done].
  intros He.
  destruct (finish_reply local_response_error_ c (downstream (h_world h)) end_stream h) as (h' & Hrun & Hrep & Hwr);
    [done | done | done | done |].
  exists h'. split; [| done]. destruct h as [d k0 b0 w0], w0. destruct e; done.
Qed.

(** ** The filter chain *)

(** Every message is still there, with the filters it had. *)
Definition same_filters (c c' : CM) : Prop := ∀ i a, objects c !! i = Some a →
  ∃ a', objects c' !! i = Some a' ∧ am_filters a' = am_filters a ∧
    am_decoder_filters_ a' = am_decoder_filters_ a ∧ am_encoder_filters_ a' = am_encoder_filters_ a.
#[global] Instance same_filters_frame : CMFrame same_filters.
Proof.
  split.
  - split; [by intros c i a ?; exists a |].
    intros c1 c2 c3 H1 H2 i a Ha. destruct (H1 i a Ha) as (a2 & Ha2 & E1 & E2 & E3).
    destruct (H2 i a2 Ha2) as (a3 & Ha3 & F1 & F2 & F3). exists a3. by rewrite F1, F2, F3.
  - intros c c' (Ho & _) i a Ha. exists a. by rewrite Ho.
  - intros c mid a f Ha Hf i b Hb. unfold upd. cbn. destruct (decide (i = mid)) as [-> | Hne].
    + rewrite lookup_insert_eq. assert (b = a) as -> by congruence. exists (f a). split; [done | apply Hf].
    + rewrite lookup_insert_ne by done. by exists b.
  - intros c mid _ i a Ha. by exists a.
Qed.

(** A filter program leaves the states of all filters alone; the call stores the
    new state of the filter that was called. *)
Lemma call_filter_run b mid i h st h' a :
  objects (h_world h) !! mid = Some a → call_filter b mid i h = (Return st, h') →
  ∃ f a', objects (h_world h') !! mid = Some a' ∧ am_filters a' = <[i := f]> (am_filters a) ∧
    am_decoder_filters_ a' = am_decoder_filters_ a ∧ am_encoder_filters_ a' = am_encoder_filters_ a.
Proof using Type.
  intros Ha. unfold call_filter. rewrite run_bind, get_message_run, Ha. cbv beta iota.
  destruct (am_filters a !! i) as [f0|]; [| done]. rewrite run_bind.
  set (prog := if b then _ else _).
  pose proof (frames_run_filter same_filters b mid prog h) as Hf.
  destruct (run_filter b mid prog h) as [[[f st']|e|w] h1]; cbv beta iota; try done.
  destruct (Hf mid a Ha) as (a1 & Ha1 & E1 & E2 & E3). cbn in Ha1.
  rewrite run_bind, on_message_run, Ha1. cbv beta iota. cbn [mret M_ret]. intros [= <- <-].
  exists f. eexists. cbn. rewrite lookup_insert_eq. split; [reflexivity |]. unfold upd. cbn.
  by rewrite E1, E2, E3.
Qed.

(** Calls of the decoder filters of a message, one after the other: the position of the
    filter, the status it returned and the state it left. *)
Abbreviation filter_calls := (list (nat * FilterStatus * ConnectionManager)).
Fixpoint calls_made (mid : nat) (h : ConnectionManager) (trace : filter_calls) : Prop :=
  match trace with
  | [] => True
  | (i, st, h1) :: trace => call_filter false mid i h = (Return st, h1) ∧ calls_made mid h1 trace
  end.
Definition after_calls (h : ConnectionManager) (trace : filter_calls) : ConnectionManager := default h (snd <$> last trace).
Definition replied_to (mid : nat) (h : ConnectionManager) : bool :=
  match objects (h_world h) !! mid with Some a => am_local_response_sent_ a | None => false end.
(** A call after which the chain goes on *)
Definition goes_on (mid : nat) (c : nat * FilterStatus * ConnectionManager) : Prop :=
  c.1.2 = FilterStatus_ContinueIteration ∧ replied_to mid c.2 = false.
(** The calls of a chain: each of the filters in turn, until one does not go on. *)
Inductive chain_ended (mid : nat) (h : ConnectionManager) (trace : filter_calls) (rest : list nat) : option FilterStatus → Prop :=
| ended_at_the_end : Forall (goes_on mid) trace → rest = [] → chain_ended mid h trace rest None
| ended_by_reply before c : trace = before ++ [c] → Forall (goes_on mid) before → replied_to mid c.2 = true →
    chain_ended mid h trace rest None
| ended_by_status before c : trace = before ++ [c] → Forall (goes_on mid) before → replied_to mid c.2 = false →
    c.1.2 ≠ FilterStatus_ContinueIteration → chain_ended mid h trace rest (Some c.1.2).
(** [filter_action_] is cleared. *)
Definition chain_done (mid : nat) (h : ConnectionManager) : ConnectionManager := (on_message mid (λ a, a <| am_filter_action_ := false |>) h).2.

Lemma after_calls_cons h c trace : after_calls h (c :: trace) = after_calls c.2 trace.
Proof using Type. unfold after_calls. rewrite last_cons. by destruct (last trace). Qed.
Lemma chain_ended_cons mid h c trace rest r :
  chain_ended mid h (c :: trace) rest r ↔
  (goes_on mid c ∧ chain_ended mid c.2 trace rest r) ∨
  (trace = [] ∧ replied_to mid c.2 = true ∧ r = None) ∨
  (trace = [] ∧ replied_to mid c.2 = false ∧ c.1.2 ≠ FilterStatus_ContinueIteration ∧ r = Some c.1.2).
Proof using Type.
  split.
  - intros [Hf -> | [|c0 before] c1 Heq Hf Hr | [|c0 before] c1 Heq Hf Hr Hst].
    + apply Forall_cons in Hf as [? ?]. left. split; [done |]. by apply ended_at_the_end.
    + injection Heq as -> ->. right. by left.
    + injection Heq as -> ->. apply Forall_cons in Hf as [? ?]. left. split; [done |]. by eapply ended_by_reply.
    + injection Heq as -> ->. right. by right.
    + injection Heq as -> ->. apply Forall_cons in Hf as [? ?]. left. split; [done |]. by eapply ended_by_status.
  - intros [[Hc He] | [(-> & Hr & ->) | (-> & Hr & Hst & ->)]].
    + destruct He as [Hf -> | before c1 -> Hf Hr | before c1 -> Hf Hr Hst].
      * apply ended_at_the_end; [by constructor | done].
      * apply (ended_by_reply _ _ _ _ (c :: before) c1); [reflexivity | by constructor | done].
      * apply (ended_by_status _ _ _ _ (c :: before) c1); [reflexivity | by constructor | done | done].
    + by apply (ended_by_reply _ _ _ _ [] c).
    + by apply (ended_by_status _ _ _ _ [] c).
Qed.

Lemma apply_filters_calls mid entries h r h' a :
  objects (h_world h) !! mid = Some a →
  apply_filters false mid entries h = (Return r, h') ↔
  ∃ trace rest, entries = trace.*1.*1 ++ rest ∧ calls_made mid h trace ∧ h' = after_calls h trace ∧ chain_ended mid h trace rest r.
Proof using Type.
  revert h h' a. induction entries as [|j entries IH]; intros h h' a Ha; cbn [apply_filters].
  { split.
    - intros [= <- <-]. exists [], []. split_and!; try done. by apply ended_at_the_end.
    - intros ([|c trace] & rest & Heq & _ & -> & He); [| done].
      destruct He as [_ _ | [] ? [=] | [] ? [=]]. done. }
  rewrite run_bind. split.
  - destruct (call_filter false mid j h) as [[st|e|w] h1] eqn:Hc; cbv beta iota; try done.
    destruct (call_filter_run _ _ _ _ _ _ _ Ha Hc) as (f & a1 & Ha1 & _).
    assert (replied_to mid h1 = am_local_response_sent_ a1) as Hrep by (unfold replied_to; by rewrite Ha1).
    rewrite run_bind, get_message_run, Ha1. cbv beta iota.
    destruct (am_local_response_sent_ a1) eqn:Hl; [| case_decide as Hst].
    + intros [= <- <-]. exists [(j, st, h1)], entries. split_and!; try done. apply chain_ended_cons. right. by left.
    + intros [= <- <-]. exists [(j, st, h1)], entries. split_and!; try done. apply chain_ended_cons. right. by right.
    + intros (trace & rest & -> & Hm & -> & He)%(IH h1 h' a1 Ha1). exists ((j, st, h1) :: trace), rest. rewrite after_calls_cons.
      split_and!; try done. apply chain_ended_cons. left. split; [| done]. split; [| done]. by destruct (decide (st = FilterStatus_ContinueIteration)).
  - intros ([|[[j' st] h1] trace] & rest & Heq & Hm & -> & He).
    + cbn in Heq. subst rest. destruct He as [_ [=] | [] ? [=] | [] ? [=]].
    + injection Heq as <- ->. destruct Hm as [Hc Hm]. rewrite Hc. cbv beta iota.
      destruct (call_filter_run _ _ _ _ _ _ _ Ha Hc) as (f & a1 & Ha1 & _).
      assert (replied_to mid h1 = am_local_response_sent_ a1) as Hrep by (unfold replied_to; by rewrite Ha1).
      rewrite run_bind, get_message_run, Ha1. cbv beta iota. rewrite after_calls_cons.
      apply chain_ended_cons in He as [[[Hst Hr] He] | [(-> & Hr & ->) | (-> & Hr & Hst & ->)]]; cbn in *; rewrite <- Hrep, Hr.
      * rewrite decide_False by (by intros []). apply (IH h1 _ a1 Ha1). by exists trace, rest.
      * done.
      * by rewrite decide_True.
Qed.

Lemma calls_keep_filters mid trace h a :
  objects (h_world h) !! mid = Some a → calls_made mid h trace →
  ∃ a', objects (h_world (after_calls h trace)) !! mid = Some a' ∧ am_decoder_filters_ a' = am_decoder_filters_ a ∧
    ∀ i, i ∉ trace.*1.*1 → am_filters a' !! i = am_filters a !! i.
Proof using Type.
  revert h a. induction trace as [|[[j st] h1] trace IH]; intros h a Ha; cbn [calls_made].
  { intros _. by exists a. }
  intros [Hc Hm]. destruct (call_filter_run _ _ _ _ _ _ _ Ha Hc) as (f & a1 & Ha1 & E1 & E2 & _).
  destruct (IH h1 a1 Ha1 Hm) as (a' & Ha' & Hd & Hi). exists a'. rewrite after_calls_cons. split_and!; [done | by rewrite Hd |].
  intros i [Hj Hn]%not_elem_of_cons. rewrite Hi, E1 by done. by rewrite list_lookup_insert_ne by done.
Qed.

(** C20: The decoder filters are called in their order, from the given position on: [applyDecoderFilters] returns [st] with the
    state [h'] exactly when there is a sequence of calls, each made on the state that the one before has left, whose filters
    are the first ones of the chain from the position on; every call but the last returned [ContinueIteration] and left no
    local reply; and the last one either is that of the last filter, or has sent a local reply, or has returned another
    status.  The result is this status, and otherwise [ContinueIteration] with [filter_action_] cleared.  After a local
    reply no filter is called at all.  The filters that are not called keep their state. *)
Theorem filter_chain_order (mid : nat) (start : option nat) (state : FilterIterationStartState)
    (h h' : ConnectionManager) (a : ActiveMessage) (st : FilterStatus) (Ha : objects (h_world h) !! mid = Some a) :
  (applyDecoderFilters mid start state h = (Return st, h') ↔
   am_filter_action_ a = true ∧
   if am_local_response_sent_ a then st = FilterStatus_ContinueIteration ∧ h' = chain_done mid h
   else ∃ trace rest r,
     drop (commonPrefix start state) (am_decoder_filters_ a) = trace.*1.*1 ++ rest ∧ calls_made mid h trace ∧ chain_ended mid h trace rest r ∧
     match r with
     | Some status => st = status ∧ h' = after_calls h trace
     | None => st = FilterStatus_ContinueIteration ∧ h' = chain_done mid (after_calls h trace)
     end) ∧
  ∀ trace, calls_made mid h trace →
    ∃ a', objects (h_world (after_calls h trace)) !! mid = Some a' ∧ am_decoder_filters_ a' = am_decoder_filters_ a ∧
      ∀ i, i ∉ trace.*1.*1 → am_filters a' !! i = am_filters a !! i.
Proof.
  split; [| intros trace; by apply calls_keep_filters]. unfold applyDecoderFilters. rewrite run_bind, get_message_run, Ha. cbv beta iota.
  rewrite run_bind. destruct (am_filter_action_ a); [| split; [done | by intros []]]. cbn [ASSERT assert_that lift]. cbv beta iota.
  rewrite run_bind. unfold chain_done. destruct (am_local_response_sent_ a).
  { cbn [mret M_ret]. cbv beta iota. rewrite run_bind, on_message_run, Ha. cbn [snd]. split; [by intros [= <- <-] | by intros (_ & -> & ->)]. }
  assert (∀ trace, calls_made mid h trace → ∀ f, (on_message mid f (after_calls h trace)).1 = Return tt) as Hon.
  { intros trace Hm f. destruct (calls_keep_filters mid trace h a Ha Hm) as (a' & Ha' & _). by rewrite on_message_run, Ha'. }
  split.
  - destruct (apply_filters false mid _ h) as [[r|e|w] h1] eqn:Hap; cbv beta iota; try done. intros Hrun. split; [done |].
    apply (apply_filters_calls _ _ _ _ _ _ Ha) in Hap as (trace & rest & Heq & Hm & -> & He). exists trace, rest, r. split_and!; try done.
    destruct r as [status|]; [by injection Hrun as <- <- |]. revert Hrun. specialize (Hon trace Hm). rewrite run_bind.
    specialize (Hon (λ a, a <| am_filter_action_ := false |>)). destruct (on_message mid _ _) as [o h2]. cbn in Hon. subst o.
    by intros [= <- <-].
  - intros (_ & trace & rest & r & Heq & Hm & He & Hres).
    rewrite (proj2 (apply_filters_calls mid _ h r (after_calls h trace) a Ha)); [| by exists trace, rest]. cbv beta iota.
    destruct r as [status|]; destruct Hres as [-> ->]; [done |]. rewrite run_bind.
    specialize (Hon trace Hm (λ a, a <| am_filter_action_ := false |>)). destruct (on_message mid _ _) as [o h2]. cbn in Hon. by subst o.
Qed.

(** ** Messages that bypass the filters *)

(** The counters [maybeDeferredDeleteMessage] increments for a type. *)
Definition type_stats (t : MessageType) : list Stat :=
  match t with
  | MessageType_Request => [request_; request_twoway_]
  | MessageType_Oneway => [request_; request_oneway_]
  | MessageType_Stream_Init => [request_; request_event_]
  | _ => [request_]
  end.
Definition count (l : list Stat) (f : MetaProtocolProxyStats) : MetaProtocolProxyStats :=
  foldl (λ f s, stat_add s 1 f) f l.
Definition one_way (t : MessageType) : bool :=
  match t with
  | MessageType_Oneway | MessageType_Stream_Init | MessageType_Stream_Data
  | MessageType_Stream_Close_One_Way | MessageType_Stream_Close_Two_Way => true
  | _ => false
  end.

Lemma maybeDeferredDelete_run mid h a m :
  objects (h_world h) !! mid = Some a → am_metadata_ a = Some m →
  let h1 := h <| h_world ::= λ c, c <| objects ::= <[mid := a <| am_pending_stream_decoded_ := false |>]> |>
                                    <| stats_ ::= count (type_stats (message_type_ m)) |> |> in
  maybeDeferredDeleteMessage mid h =
    (if am_local_response_sent_ a || one_way (message_type_ m) then deferredDeleteMessage mid else mret tt) h1.
Proof using Type.
  intros Ha Hm. cbv zeta. unfold maybeDeferredDeleteMessage. rewrite run_bind, on_message_run, Ha. cbv beta iota.
  unfold stat_inc, on_cm. rewrite run_bind. cbn [modify]. cbv beta iota. rewrite run_bind, get_message_run.
  unfold upd. cbn. rewrite lookup_insert_eq. cbn. rewrite Hm. by destruct (message_type_ m).
Qed.

(** The stream messages that follow the one that opens a stream. *)
Definition in_stream (t : MessageType) : bool :=
  match t with
  | MessageType_Stream_Data | MessageType_Stream_Close_One_Way | MessageType_Stream_Close_Two_Way => true
  | _ => false
  end.
Definition close_flags (t : MessageType) (s : Stream) : Stream :=
  match t with
  | MessageType_Stream_Close_One_Way => s <| client_closed_ := true |>
  | MessageType_Stream_Close_Two_Way => s <| client_closed_ := true |> <| server_closed_ := true |>
  | _ => s
  end.
Definition stream_of (t : MessageType) (sid : Z) (c : CM) : option Stream :=
  if in_stream t then active_stream_map_ c !! sid else None.

(** What [onMessageDecoded] does for a stream message before it looks at the
    filters. *)
Definition forwarded (t : MessageType) (sid : Z) (data : bytes) (c : CM) : CM :=
  match stream_of t sid c with
  | Some s => c <| active_stream_map_ ::= <[sid := close_flags t s]> |>
                <| upstream_written ::= λ l, l ++ from_option (λ k, [(k, data)]) [] (upstream_conn_data_ s) |>
  | None => c
  end.

(** The operations on a stream that exists. *)
Lemma getActiveStream_run sid st h :
  active_stream_map_ (h_world h) !! sid = Some st → getActiveStream sid h = (Return st, h).
Proof using Type. intros Hs. unfold getActiveStream, get_cm. rewrite run_bind. cbn [gets]. cbv beta iota. by rewrite Hs. Qed.
Lemma streamExisted_run sid h :
  streamExisted sid h = (Return (bool_decide (is_Some (active_stream_map_ (h_world h) !! sid))), h).
Proof using Type. done. Qed.
Lemma on_stream_run sid st f h :
  active_stream_map_ (h_world h) !! sid = Some st →
  on_stream sid f h = (Return tt, h <| h_world ::= λ c, c <| active_stream_map_ ::= <[sid := f st]> |> |>).
Proof using Type. intros Hs. unfold on_stream. by rewrite run_bind, (getActiveStream_run _ _ _ Hs). Qed.
Lemma send2upstream_run sid st data h :
  active_stream_map_ (h_world h) !! sid = Some st →
  ∃ h', send2upstream sid data h = (Return tt, h') ∧
    h' = h <| h_world ::= λ c, c <| upstream_written ::= λ l, l ++ from_option (λ k, [(k, data)]) [] (upstream_conn_data_ st) |> |>.
Proof using Type.
  intros Hs. unfold send2upstream. rewrite run_bind, (getActiveStream_run _ _ _ Hs). cbv beta iota.
  destruct (upstream_conn_data_ st); eexists; (split; [reflexivity |]); [done |].
  destruct h as [? ? ? []]. unfold upd. cbn. by rewrite app_nil_r.
Qed.

Lemma switch_run (h : ConnectionManager) (m : MetadataImpl) (t := message_type_ m) :
  t = MessageType_Oneway ∨ in_stream t = true →
  ∃ m' h', switch_message_type m h = (Return (false, m'), h') ∧ message_type_ m' = t ∧
    h' = h <| h_world ::= forwarded t (stream_id_ m) (contents (origin_message_ m)) |>.
Proof using Type.
  intros Ht. set (moved := m <| origin_message_ := buf_new |>).
  assert (∀ st : Stream, message_type_ (if upstream_conn_data_ st is Some _ then moved else m) = t) as Hmv
    by (intros st; by destruct (upstream_conn_data_ st)).
  assert (message_type_ m = t) as Hm by done. clearbody t.
  unfold switch_message_type. fold moved. rewrite Hm. cbv zeta.
  generalize (contents (origin_message_ m)) as data. generalize (stream_id_ m) as sid. intros sid data.
  unfold forwarded, stream_of. destruct Ht as [-> | Ht]; [exists m, h; by destruct h |].
  destruct (active_stream_map_ (h_world h) !! sid) as [st|] eqn:Hs.
  2: { destruct t; try done; cbn [in_stream]; exists m, h;
       rewrite run_bind, streamExisted_run, Hs, bool_decide_false by (by intros [? [=]]);
       (split; [done |]; split; [done |]); unfold upd; cbn; rewrite Hs; by destruct h. }
  destruct t; try done; cbn [in_stream];
    rewrite run_bind, streamExisted_run, Hs, bool_decide_true by (by eexists); cbv beta iota;
    rewrite run_bind, (getActiveStream_run _ _ _ Hs); cbv beta iota;
    rewrite run_bind; unfold closeClientStream, closeServerStream;
    rewrite ?(on_stream_run _ _ _ _ Hs); cbv beta iota.
  - destruct (send2upstream_run sid st data h Hs) as (h' & Hsend & ->). rewrite Hsend. cbv beta iota.
    do 2 eexists. split; [reflexivity |]. split; [apply Hmv |].
    unfold upd. cbn. rewrite Hs. cbn. rewrite insert_id by done. done.
  - rewrite run_bind. set (h1 := h <| h_world ::= _ |>).
    assert (active_stream_map_ (h_world h1) !! sid = Some (st <| client_closed_ := true |>)) as Hs1
      by apply lookup_insert_eq.
    destruct (send2upstream_run sid _ data h1 Hs1) as (h' & Hsend & ->). rewrite Hsend. cbv beta iota.
    do 2 eexists. split; [reflexivity |]. split; [apply Hmv |]. unfold h1, upd. cbn. by rewrite Hs.
  - rewrite run_bind. set (h1 := h <| h_world ::= _ |>).
    assert (active_stream_map_ (h_world h1) !! sid = Some (st <| client_closed_ := true |>)) as Hs1
      by apply lookup_insert_eq.
    rewrite (on_stream_run _ _ _ _ Hs1). cbv beta iota. rewrite run_bind. set (h2 := h1 <| h_world ::= _ |>).
    assert (active_stream_map_ (h_world h2) !! sid = Some (st <| client_closed_ := true |> <| server_closed_ := true |>)) as Hs2
      by apply lookup_insert_eq.
    destruct (send2upstream_run sid _ data h2 Hs2) as (h' & Hsend & ->). rewrite Hsend. cbv beta iota.
    do 2 eexists. split; [reflexivity |]. split; [apply Hmv |]. unfold h2, h1, upd. cbn. rewrite Hs. cbn.
    by rewrite insert_insert_eq.
Qed.

(** Forwarding concerns streams and upstream connections alone, and does not
    depend on anything else. *)
Lemma forwarded_frame t sid data c :
  let c' := forwarded t sid data c in
  objects c' = objects c ∧ active_message_list_ c' = active_message_list_ c ∧ deferred c' = deferred c ∧
  downstream c' = downstream c ∧ stats_ c' = stats_ c.
Proof using Type. unfold forwarded. by case_match. Qed.
Lemma forwarded_ext t sid data c c' :
  active_stream_map_ c' = active_stream_map_ c → upstream_written c' = upstream_written c →
  active_stream_map_ (forwarded t sid data c') = active_stream_map_ (forwarded t sid data c) ∧
  upstream_written (forwarded t sid data c') = upstream_written (forwarded t sid data c).
Proof using Type.
  intros Hs Hu. unfold forwarded, stream_of. rewrite Hs. case_match; [| done]. unfold upd. cbn. by rewrite Hs, Hu.
Qed.

(** a message that is not a request and does not open a stream bypasses the
    filters.  It is counted and handed to the dispatcher, nothing is sent to the
    client, and the filters keep their state.  A message of an open stream is
    written unchanged, once, to the upstream connection of its stream, if it has
    one, and a closing message sets the flags of its side or sides.  A one-way
    request is dropped: no filter sees it, and it is not sent anywhere. *)
Theorem bypassing_messages (mid : nat) (h : ConnectionManager) (a : ActiveMessage) (m : MetadataImpl) (mu : Mutation)
    (Ha : objects (h_world h) !! mid = Some a) (Hin : mid ∈ active_message_list_ (h_world h))
    (Ht : message_type_ m = MessageType_Oneway ∨ in_stream (message_type_ m) = true) :
  let c := h_world h in
  let c1 := forwarded (message_type_ m) (stream_id_ m) (contents (origin_message_ m)) c in
  ∃ h' a', onMessageDecoded mid m mu h = (Return tt, h') ∧
    objects (h_world h') = (<[mid := a']> (objects c)) ∧ am_filters a' = am_filters a ∧
    downstream (h_world h') = downstream c ∧
    active_stream_map_ (h_world h') = active_stream_map_ c1 ∧ upstream_written (h_world h') = upstream_written c1 ∧
    deferred (h_world h') = deferred c ++ [mid] ∧ (mid ∉ active_message_list_ (h_world h')) ∧
    stats_ (h_world h') = count (request_decoding_success_ :: type_stats (message_type_ m)) (stats_ c).
Proof.
  cbv zeta. unfold onMessageDecoded, stat_inc, on_cm. rewrite run_bind. cbn [modify]. cbv beta iota.
  rewrite run_bind, on_message_run. cbn [h_world upd objects]. rewrite Ha. cbv beta iota.
  match goal with |- context [(switch_message_type _ ≫= _) ?x] => set (h1 := x) end.
  set (m1 := putString ApplicationProtocol applicationProtocol m).
  destruct (switch_run h1 m1) as (m2 & h2 & Hsw & Htype & ->); [done |].
  rewrite run_bind, Hsw. cbv beta iota.
  set (a1 := a <| am_bytes_sent ::= λ n, u64 (n + getMessageSize m) |>).
  set (h2 := h1 <| h_world ::= forwarded _ _ _ |>).
  pose proof (forwarded_frame (message_type_ m1) (stream_id_ m1) (contents (origin_message_ m1)) (h_world h1))
    as (Ho & Hac & Hd & Hdn & Hst).
  pose proof (forwarded_ext (message_type_ m1) (stream_id_ m1) (contents (origin_message_ m1)) (h_world h) (h_world h1)
    eq_refl eq_refl) as [Hsm Huw].
  assert (objects (h_world h2) = <[mid := a1]> (objects (h_world h))) as Ho2 by (etrans; [apply Ho | reflexivity]).
  assert (objects (h_world h2) !! mid = Some a1) as Ha1 by (rewrite Ho2; apply lookup_insert_eq).
  rewrite run_bind, on_message_run, Ha1. cbv beta iota. set (h3 := h2 <| h_world ::= _ |>).
  set (a3 := a1 <| am_metadata_ := Some m2 |>).
  assert (objects (h_world h3) = <[mid := a3]> (objects (h_world h))) as Ho3.
  { rewrite <- (insert_insert_eq (objects (h_world h)) mid a3 a1), <- Ho2. reflexivity. }
  rewrite (maybeDeferredDelete_run mid h3 a3 m2); [| rewrite Ho3; apply lookup_insert_eq | reflexivity].
  rewrite Htype. change (message_type_ m1) with (message_type_ m) in *.
  assert (one_way (message_type_ m) = true) as ->
    by (destruct Ht as [-> | Ht]; [done |]; by destruct (message_type_ m)).
  rewrite orb_true_r. set (h4 := h3 <| h_world ::= _ |>).
  assert (active_message_list_ (h_world h4) = active_message_list_ (h_world h)) as Hact by exact Hac.
  unfold deferredDeleteMessage, get_cm. rewrite run_bind. cbn [gets]. cbv beta iota.
  rewrite bool_decide_true by (by rewrite Hact).
  eexists _, (a3 <| am_pending_stream_decoded_ := false |>).
  split; [reflexivity |]. split_and!.
  - rewrite <- (insert_insert_eq (objects (h_world h)) mid _ a3), <- Ho3. reflexivity.
  - reflexivity.
  - exact Hdn.
  - exact Hsm.
  - exact Huw.
  - change (deferred (h_world h2) ++ [mid] = deferred (h_world h) ++ [mid]). f_equal. exact Hd.
  - intros [_ Hf]%list_elem_of_In%List.filter_In. by apply bool_decide_eq_true_1 in Hf.
  - change (count (type_stats (message_type_ m)) (stats_ (h_world h2)) =
            count (type_stats (message_type_ m)) (stat_add request_decoding_success_ 1 (stats_ (h_world h)))).
    f_equal. exact Hst.
Qed.

(** ** Responses from upstream *)

(** A live message is on the deferred list after [deferredDeleteMessage]. *)
Lemma deferredDelete_run mid h :
  cm_inv (h_world h) → is_Some (objects (h_world h) !! mid) →
  ∃ h', deferredDeleteMessage mid h = (Return tt, h') ∧ cm_inv (h_world h') ∧
    mid ∈ deferred (h_world h') ∧ (mid ∉ active_message_list_ (h_world h')) ∧
    objects (h_world h') = objects (h_world h) ∧ downstream (h_world h') = downstream (h_world h) ∧
    stats_ (h_world h') = stats_ (h_world h).
Proof using Type.
  intros Hinv Hlive. unfold deferredDeleteMessage, get_cm. rewrite run_bind. cbn [gets]. cbv beta iota.
  case_bool_decide as Hin.
  - eexists. split; [reflexivity |]. cbn -[List.filter upd]. split_and!; try done.
    + by apply (evolves_defer (h_world h) mid).
    + cbn. apply elem_of_app. right. left.
    + cbn. intros [_ Hf]%list_elem_of_In%List.filter_In. by apply bool_decide_eq_true_1 in Hf.
  - exists h. split_and!; try done. apply (inv_alive _ Hinv), elem_of_app in Hlive as [? | ?]; done.
Qed.

Definition bad_response (what : string) : Error := {| error_type := ErrorType_BadResponse; error_message := what |}.

(** What a local reply that does not end the stream does, in every case. *)
Definition counting (s : Stat) (h : ConnectionManager) : ConnectionManager := h <| h_world ::= λ c, c <| stats_ ::= stat_add s 1 |> |>.
Definition reply_result (m : MetadataImpl) (error : Error) (h : ConnectionManager) : outcome unit * ConnectionManager :=
  if decide (conn_state (downstream (h_world h)) ≠ Connection_Open) then (Return tt, h)
  else match error_reply m error h with
  | (Return _, (c, b)) =>
      (Return tt, counting local_response_business_exception_
                    (h <| h_codec := c |> <| h_world ::= λ w, w <| downstream ::= λ k, conn_write k (contents b) false |> |>))
  | (Throw BadAnyCast, (c, _)) => (Throw BadAnyCast, h <| h_codec := c |>)
  | (Throw _, (c, _)) => (Return tt, counting local_response_error_ (h <| h_codec := c |>))
  | (Panic w, (c, _)) => (Panic w, h <| h_codec := c |>)
  end.
Lemma reply_exactly m error h : CM_sendLocalReply m (AppException error) false h = reply_result m error h.
Proof using L.
  unfold CM_sendLocalReply, get_cm, reply_result. rewrite run_bind. cbn [gets]. cbv beta iota.
  destruct (decide (conn_state (downstream (h_world h)) ≠ Connection_Open)); [done |]. unfold catch_envoy, try_catch.
  rewrite run_bind, run_bind, encode_AppException. destruct (error_reply m error h) as [[[]|e|w] [c b]]; [done | by destruct e | done].
Qed.

(** A message that is taken off the list, with what its client has been written and the
    counters *)
Definition settled_with (mid : nat) (k : connection) (st : MetaProtocolProxyStats) (h : ConnectionManager) : Prop :=
  mid ∈ deferred (h_world h) ∧ (mid ∉ active_message_list_ (h_world h)) ∧ downstream (h_world h) = k ∧ stats_ (h_world h) = st.

(** A bad response, in every case: it is counted.  If the client is there and the codec can
    encode an error, one local reply with [what] is written and counted; if the codec
    fails, this is counted instead.  Then the message is deleted.  What the codec throws
    besides an [EnvoyException] escapes. *)
Definition answered_bad_response (mid : nat) (what : string) (h1 : ConnectionManager) (b1 : buffer)
    (a1 : ActiveMessage) (result : outcome UpstreamResponseStatus * (ConnectionManager * buffer)) : Prop :=
  let k := downstream (h_world h1) in
  let counted := stat_add response_decoding_error_ 1 (stats_ (h_world h1)) in
  let reset k st := ∃ h2, result = (Return UpstreamResponse_Reset, (h2, b1)) ∧ settled_with mid k st h2 in
  if decide (conn_state k ≠ Connection_Open) then reset k counted
  else match error_reply (default new_MetadataImpl (am_metadata_ a1)) (bad_response what) h1 with
  | (Return _, (_, reply)) => reset (conn_write k (contents reply) false) (stat_add local_response_business_exception_ 1 counted)
  | (Throw BadAnyCast, _) => ∃ h2, result = (Throw BadAnyCast, (h2, b1)) ∧ downstream (h_world h2) = k ∧ stats_ (h_world h2) = counted
  | (Throw _, _) => reset k (stat_add local_response_error_ 1 counted)
  | (Panic w, _) => result.1 = Panic w
  end.

Definition id_mismatch (a : ActiveMessage) (r : ActiveResponseDecoder) : string :=
  "meta protocol " +:+ applicationProtocol +:+ " response: request ID is not equal, " +:+
  pretty (requestId a) +:+ ":" +:+ pretty (response_requestId r).

(** The end of [onError], after a reply that returned. *)
Lemma onError_end mid a h :
  cm_inv (h_world h) → objects (h_world h) !! mid = Some a →
  ∃ h', (_ ← on_message mid (λ a, a <| am_local_response_sent_ := true |>); deferredDeleteMessage mid) h = (Return tt, h') ∧
    settled_with mid (downstream (h_world h)) (stats_ (h_world h)) h'.
Proof using Type.
  intros Hinv Ha. rewrite run_bind, on_message_run, Ha. cbv beta iota. set (h1 := h <| h_world ::= _ |>).
  assert (cm_inv (h_world h1)) as Hinv1 by (by apply (evolves_insert _ _ _ (λ a, a <| am_local_response_sent_ := true |>) Ha)).
  destruct (deferredDelete_run mid h1 Hinv1) as (h2 & Hrun & _ & Hin & Hout & _ & Hdn & Hst); [eexists; apply lookup_insert_eq |].
  exists h2. split; [exact Hrun |]. by split_and!.
Qed.

Lemma onError_exactly mid what h a :
  objects (h_world h) !! mid = Some a →
  let m := default new_MetadataImpl (am_metadata_ a) in
  let h1 := h <| h_world ::= λ c, c <| objects ::= <[mid := a <| am_metadata_ := Some m |>]> |> |> in
  onError mid what h =
    match reply_result m (bad_response what) h1 with
    | (Return _, h2) => (_ ← on_message mid (λ a, a <| am_local_response_sent_ := true |>); deferredDeleteMessage mid) h2
    | (Throw e, h2) => (Throw e, h2)
    | (Panic w, h2) => (Panic w, h2)
    end.
Proof using L.
  intros Ha m h1. unfold onError. rewrite run_bind, on_message_run, Ha. cbv beta iota.
  match goal with |- context [(sendLocalReply _ _ _ ≫= _) ?x] => change x with h1 end.
  rewrite run_bind. unfold sendLocalReply. rewrite run_bind, get_message_run.
  assert (objects (h_world h1) !! mid = Some (a <| am_metadata_ := Some m |>)) as -> by apply lookup_insert_eq.
  cbv beta iota. cbn [am_metadata_]. change (am_metadata_ (a <| am_metadata_ := Some m |>)) with (Some m). cbv iota.
  rewrite run_bind. fold (bad_response what). rewrite reply_exactly. destruct (reply_result m (bad_response what) h1) as [[[]|e|w] h2]; [| done | done].
  by rewrite run_bind.
Qed.

(** The reply leaves every message as it is. *)
Lemma reply_keeps m error h : same_messages (h_world h) (h_world (reply_result m error h).2).
Proof using Type.
  unfold reply_result. destruct (decide _); [done |].
  destruct (error_reply m error h) as [[[]|[]|w] [c b]]; done.
Qed.

Lemma answer_bad_response mid what h1 b1 a1 :
  cm_inv (h_world h1) → objects (h_world h1) !! mid = Some a1 →
  answered_bad_response mid what h1 b1 a1
    ((_ ← in_manager (stat_inc response_decoding_error_); _ ← in_manager (onError mid what);
      mret UpstreamResponse_Reset) (h1, b1)).
Proof using L.
  intros Hinv Ha. unfold answered_bad_response. cbv zeta. set (m := default new_MetadataImpl (am_metadata_ a1)).
  match goal with |- context [?f (h1, b1)] => set (result := f (h1, b1)) end.
  assert (result = let '(o, h3) := onError mid what (counting response_decoding_error_ h1) in
                   ((λ _, UpstreamResponse_Reset) <$> o, (h3, b1))) as Hres.
  { unfold result. rewrite run_bind. unfold stat_inc, on_cm, in_manager at 1. cbn [modify]. cbv beta iota.
    rewrite run_bind. unfold in_manager. by destruct (onError _ _ _) as [[[]|e|w] h3]. }
  clearbody result. subst result.
  rewrite (onError_exactly mid what (counting response_decoding_error_ h1) a1 Ha). cbv zeta. fold m.
  set (h2 := _ <| h_world ::= _ |>).
  assert (cm_inv (h_world h2)) as Hinv2.
  { apply (evolves_insert (h_world (counting response_decoding_error_ h1)) mid a1 (λ a, a <| am_metadata_ := Some m |>) Ha); [done |].
    by apply (evolves_same (h_world h1)). }
  pose proof (reply_keeps m (bad_response what) h2) as Hsame. pose proof (evolves_same _ _ Hsame) as (Hev & _ & _).
  assert (∀ h3, (reply_result m (bad_response what) h2).2 = h3 → ∃ h4,
    (_ ← on_message mid (λ a, a <| am_local_response_sent_ := true |>); deferredDeleteMessage mid) h3 = (Return tt, h4) ∧
    settled_with mid (downstream (h_world h3)) (stats_ (h_world h3)) h4) as Hend.
  { intros h3 <-. apply (onError_end mid (a1 <| am_metadata_ := Some m |>)); [by apply Hev |].
    destruct Hsame as (-> & _). apply lookup_insert_eq. }
  unfold reply_result in *. change (downstream (h_world h2)) with (downstream (h_world h1)) in *.
  change (error_reply m (bad_response what) h2) with (error_reply m (bad_response what) h1) in *.
  destruct (decide _); [destruct (Hend _ eq_refl) as (h4 & Hd & Hs); cbn [snd] in Hd; rewrite Hd; by exists h4 |].
  destruct (error_reply m (bad_response what) h1) as [[[]|e|w] [c b]]; [| destruct e |];
    [destruct (Hend _ eq_refl) as (h4 & Hd & Hs); cbn [snd] in Hd; rewrite Hd; by exists h4 .. | by eexists | done].
Qed.

(** The message and its response decoder are there when [onData] has returned. *)
Lemma response_onData_returns mid h b st h1 b1 :
  response_onData mid (h, b) = (Return st, (h1, b1)) →
  ∃ a1 r1, objects (h_world h1) !! mid = Some a1 ∧ am_response_decoder_ a1 = Some r1 ∧ rd_response_status_ r1 = st.
Proof using Type.
  unfold response_onData. rewrite run_bind. destruct (in_manager (get_response mid) (h, b)) as [[r|e|w] [h0 b0]]; [| done | done].
  cbv beta iota. rewrite run_bind.
  destruct (Decoder.onData _) as [ou hd]. destruct (on_response _ _ (h_world hd)) as [o' h2]. generalize (h_buffer hd). intros b2.
  destruct (match ou with Return u => (λ _, u) <$> o' | _ => ou end) as [u|e|w]; [| done | done].
  cbv beta iota. rewrite run_bind. unfold in_manager, get_response. rewrite run_bind, get_message_run.
  destruct (objects (h_world h2) !! mid) as [a1|] eqn:Ha; [| done]. cbv beta iota.
  destruct (am_response_decoder_ a1) as [r1|] eqn:Hr; [| done]. cbn [mret M_ret]. cbv beta iota. rewrite run_bind.
  unfold ASSERT, assert_that, lift. destruct (rd_complete_ r1 || u); [| done]. intros [= <- <- <-]. by exists a1, r1.
Qed.

(** C21: what [upstreamData] does with the data of a response, in every case.  More
    data is waited for, and a retry drops the response decoder and nothing else.  A
    complete response with the id of the request deletes the message.  A response that
    cannot be decoded is counted and answered with its error, and so is a complete
    response with another id, although it has been forwarded already: the client gets
    both.  If the client has gone, the message is deleted and the loss is counted. *)
Theorem upstream_response_outcome (mid : nat) (h h1 : ConnectionManager) (b b1 : buffer) (a : ActiveMessage)
    (o : outcome UpstreamResponseStatus) (Hinv : cm_inv (h_world h)) (Ha : objects (h_world h) !! mid = Some a)
    (Hrun : response_onData mid (h, b) = (o, (h1, b1))) :
  let result := upstreamData mid (h, b) in
  let k := downstream (h_world h1) in
  let st := stats_ (h_world h1) in
  ∃ a1, objects (h_world h1) !! mid = Some a1 ∧
  match o with
  | Return UpstreamResponse_Complete => ∃ r1, am_response_decoder_ a1 = Some r1 ∧
      if requestId a1 =? response_requestId r1
      then ∃ h2, result = (Return UpstreamResponse_Complete, (h2, b1)) ∧ settled_with mid k st h2
      else answered_bad_response mid (id_mismatch a1 r1) h1 b1 a1 result
  | Return UpstreamResponse_Retry =>
      result = (Return UpstreamResponse_Retry,
        (h1 <| h_world ::= λ c, c <| objects ::= <[mid := a1 <| am_response_decoder_ := None |>]> |> |>, b1))
  | Return status => result = (Return status, (h1, b1))
  | Throw (EnvoyException what) => answered_bad_response mid what h1 b1 a1 result
  | Throw (DownstreamConnectionCloseException _) => ∃ h2,
      result = (Return UpstreamResponse_Reset, (h2, b1)) ∧
      settled_with mid k (stat_add response_error_caused_connection_close_ 1 st) h2
  | Throw BadAnyCast => result = (Throw BadAnyCast, (h1, b1))
  | Panic w => result = (Panic w, (h1, b1))
  end.
Proof.
  cbv zeta. pose proof (frames_response_onData mid (h, b)) as (Hev & Hlive & _). rewrite Hrun in Hev, Hlive.
  cbn [fst snd] in Hev, Hlive. specialize (Hev Hinv). specialize (Hlive mid (mk_is_Some _ _ Ha)).
  pose proof (response_onData_returns mid h b) as Hret. destruct Hlive as [a1 Ha1]. exists a1. split; [done |].
  assert (∀ {A} (m : M (Host nat CM) A) w, in_manager m (w, b1) = let '(o, w') := m w in (o, (w', b1))) as Hman by done.
  assert (∃ h2, deferredDeleteMessage mid h1 = (Return tt, h2) ∧
    settled_with mid (downstream (h_world h1)) (stats_ (h_world h1)) h2) as (h2 & Hd & Hset).
  { destruct (deferredDelete_run mid h1 Hev (mk_is_Some _ _ Ha1)) as (h2 & Hd & _ & ? & ? & _ & ? & ?).
    exists h2. by split_and!. }
  unfold upstreamData, try_catch. rewrite run_bind, Hrun. destruct o as [status|e|w]; cbv beta iota; [| | done].
  - specialize (Hret _ _ _ Hrun) as (a1' & r1 & Ha1' & Hr1 & _). simplify_eq.
    destruct status; cbv beta iota; try done.
    + exists r1. split; [done |]. rewrite run_bind, Hman, get_message_run, Ha1. cbv beta iota.
      assert (get_response mid h1 = (Return r1, h1)) as Hget.
      { unfold get_response. rewrite run_bind, get_message_run, Ha1. cbv beta iota. by rewrite Hr1. }
      rewrite run_bind, Hman, Hget. cbv beta iota.
      destruct (requestId a1 =? response_requestId r1); cbn [negb].
      * exists h2. by rewrite run_bind, Hman, Hd.
      * exact (answer_bad_response mid (id_mismatch a1 r1) h1 b1 a1 Hev Ha1).
    + by rewrite run_bind, Hman, on_message_run, Ha1.
  - destruct e as [what|what|]; [exact (answer_bad_response mid what h1 b1 a1 Hev Ha1) | | done].
    eexists. rewrite run_bind, Hman. unfold onReset. rewrite Hd. cbv beta iota. rewrite run_bind, Hman.
    split; [reflexivity |]. destruct Hset as (? & ? & ? & <-). by split_and!.
Qed.

(** ** Streams *)

Definition closes_stream (m : MetadataImpl) : Prop :=
  message_type_ m = MessageType_Stream_Close_One_Way ∨ message_type_ m = MessageType_Stream_Close_Two_Way.
#[global] Instance closes_stream_dec m : Decision (closes_stream m).
Proof. apply _. Defined.

(** What a message from upstream does to the flags of its stream. *)
Definition server_flags (t : MessageType) (s : Stream) : Stream :=
  match t with
  | MessageType_Stream_Close_One_Way => s <| server_closed_ := true |>
  | MessageType_Stream_Close_Two_Way => s <| client_closed_ := true |> <| server_closed_ := true |>
  | _ => s
  end.

(** One round of the loop of [send2downstream] on a complete message. *)
Lemma send2downstream_message fuel sid st (e : bool) b h c b' m :
  active_stream_map_ (h_world h) !! sid = Some st → buf_length b ≠ 0 →
  codec_decode (h_codec h, b, fresh_metadata MessageType_Response) = (Return DecodeStatus_Done, (c, b', m)) →
  let st' := server_flags (message_type_ m) st in
  send2downstream (S fuel) sid e b h =
    (_ ← (if e || server_closed_ st' then Stream_clear sid else mret tt); send2downstream fuel sid e b')
      (h <| h_codec := c |>
         <| h_world ::= λ w, w <| downstream ::= λ k, conn_write k (contents (origin_message_ m)) e |>
                               <| active_stream_map_ ::= <[sid := st']> |> |>).
Proof using Type.
  intros Hs Hb Hd. cbv zeta. cbn [send2downstream]. rewrite (proj2 (Z.eqb_neq _ _)) by done.
  rewrite run_bind, streamExisted_run, Hs, bool_decide_true by (by eexists). cbn [negb]. cbv beta iota.
  rewrite run_bind. cbn [gets]. cbv beta iota. rewrite Hd. rewrite run_bind. cbn [modify]. cbv beta iota.
  unfold write_downstream, on_cm. rewrite run_bind. cbn [modify]. cbv beta iota.
  set (h0 := h <| h_codec := c |> <| h_world ::= λ w, w <| downstream ::= λ k, conn_write k (contents (origin_message_ m)) e |> |>).
  assert (active_stream_map_ (h_world h0) !! sid = Some st) as Hs0 by done.
  assert (∀ st1, let h1 := h0 <| h_world ::= λ w, w <| active_stream_map_ ::= <[sid := st1]> |> |> in
    (s ← getActiveStream sid;
     _ ← (if e || server_closed_ s then Stream_clear sid else mret tt);
     send2downstream fuel sid e b') h1 =
    (_ ← (if e || server_closed_ st1 then Stream_clear sid else mret tt); send2downstream fuel sid e b') h1) as Hget.
  { intros st1 h1. rewrite run_bind, (getActiveStream_run sid st1); [done |]. apply lookup_insert_eq. }
  assert (h0 <| h_world ::= λ w, w <| active_stream_map_ ::= <[sid := st]> |> |> = h0) as Hsame.
  { unfold h0. destruct h as [? ? ? []]. unfold upd. cbn in *. by rewrite insert_id. }
  unfold closeClientStream, closeServerStream.
  destruct (decide (message_type_ m = MessageType_Stream_Close_One_Way)) as [Ht | Ht].
  - rewrite Ht, decide_False by done. cbn [server_flags]. rewrite run_bind, (on_stream_run _ _ _ _ Hs0). cbv beta iota.
    rewrite run_bind. cbn [mret M_ret]. cbv beta iota. exact (Hget (st <| server_closed_ := true |>)).
  - rewrite run_bind. cbn [mret M_ret]. cbv beta iota.
    destruct (decide (message_type_ m = MessageType_Stream_Close_Two_Way)) as [Ht' | Ht'].
    + rewrite Ht'. cbn [server_flags]. rewrite run_bind, run_bind, (on_stream_run _ _ _ _ Hs0). cbv beta iota.
      rewrite (on_stream_run sid (st <| client_closed_ := true |>)) by apply lookup_insert_eq. cbv beta iota.
      etrans; [| exact (Hget (st <| client_closed_ := true |> <| server_closed_ := true |>))].
      match goal with |- _ ?x = _ ?y => replace y with x; [done |] end.
      unfold h0. destruct h as [? ? ? []]. unfold upd. cbn. by rewrite insert_insert_eq.
    + rewrite run_bind. cbn [mret M_ret]. cbv beta iota.
      assert (server_flags (message_type_ m) st = st) as -> by (by destruct (message_type_ m)).
      etrans; [| exact (Hget st)]. by rewrite Hsame.
Qed.

Context {K : CodecContract C}.

(** What the bytes of a read mean, by the framing of the protocol: the messages up to
    the first that ends the stream, which every message does when the upstream
    connection is at its end, and how the read ends.  [None]: the fuel ran out. *)
Inductive stream_end : Type :=
| SE_open (rest : bytes)
| SE_closed (rest : bytes)
| SE_throws (e : exn)
| SE_panics (w : string).
Fixpoint stream_outcome (fuel : nat) (end_stream : bool) (bs : bytes) : option (list (MetadataImpl * bytes) * stream_end) :=
  match fuel with
  | O => None
  | S fuel =>
      match frame MessageType_Response bs with
      | FWait => Some ([], SE_open bs)
      | FThrow e => Some ([], SE_throws e)
      | FPanic w => Some ([], SE_panics w)
      | FDone n v =>
          if end_stream || bool_decide (closes_stream v.1) then Some ([v], SE_closed (zdrop n bs))
          else prod_map (cons v) id <$> stream_outcome fuel end_stream (zdrop n bs)
      end
  end.

(** What a read does to the manager: only the client's connection and the streams. *)
Definition streamed (end_stream : bool) (vs : list (MetadataImpl * bytes)) (streams : gmap Z Stream)
    (h : ConnectionManager) : ConnectionManager :=
  h <| h_world ::= λ w, w <| downstream ::= λ k, foldl (λ k v, conn_write k v.2 end_stream) k vs |>
                          <| active_stream_map_ := streams |> |>.
Definition stream_ended (sid : Z) (end_stream : bool) (vs : list (MetadataImpl * bytes)) (tl : stream_end)
    (h : ConnectionManager) (result : outcome buffer * ConnectionManager) : Prop :=
  let streams := active_stream_map_ (h_world h) in
  ∃ c, result.2 = streamed end_stream vs (match tl with SE_closed _ => delete sid streams | _ => streams end) h <| h_codec := c |> ∧
  match tl with
  | SE_open rest => ∃ b' l, result.1 = Return b' ∧ codec_rep MessageType_Response c l (l ++ contents b') ∧ l ++ contents b' = rest
  | SE_closed [] => ∃ b', result.1 = Return b' ∧ contents b' = []
  | SE_closed _ => result.1 = Panic "use after free"
  | SE_throws e => result.1 = Throw e
  | SE_panics w => result.1 = Panic w
  end.

Lemma streamed_nil e h c : streamed e [] (active_stream_map_ (h_world h)) h <| h_codec := c |> = h <| h_codec := c |>.
Proof using Type. by destruct h as [? ? ? []]. Qed.

(** A round of the loop that does not decode a message. *)
Lemma send2downstream_stops fuel sid st (e : bool) b h :
  active_stream_map_ (h_world h) !! sid = Some st → buf_length b ≠ 0 →
  send2downstream (S fuel) sid e b h =
    match codec_decode (h_codec h, b, fresh_metadata MessageType_Response) with
    | (Return DecodeStatus_WaitForData, (c, b', _)) => (Return b', h <| h_codec := c |>)
    | (Throw x, (c, _, _)) => (Throw x, h <| h_codec := c |>)
    | (Panic w, _) => (Panic w, h)
    | _ => send2downstream (S fuel) sid e b h
    end.
Proof using Type.
  intros Hs Hb. cbn [send2downstream]. rewrite (proj2 (Z.eqb_neq _ _)) by done.
  rewrite run_bind, streamExisted_run, Hs, bool_decide_true by (by eexists). cbn [negb]. cbv beta iota.
  rewrite run_bind. cbn [gets]. cbv beta iota.
  destruct (codec_decode _) as [[[]|x|w] [[c b'] m]]; [| | done | done]; [by rewrite run_bind |].
  by rewrite run_bind.
Qed.

(** A round that decodes the message the stream ends with. *)
Lemma send2downstream_closes fuel sid st conn (e : bool) b h c b' m :
  active_stream_map_ (h_world h) !! sid = Some st → upstream_conn_data_ st = Some conn → buf_length b ≠ 0 →
  codec_decode (h_codec h, b, fresh_metadata MessageType_Response) = (Return DecodeStatus_Done, (c, b', m)) →
  e = true ∨ closes_stream m →
  send2downstream (S (S fuel)) sid e b h =
    (if buf_length b' =? 0 then Return b' else Panic "use after free",
     streamed e [view m] (delete sid (active_stream_map_ (h_world h))) h <| h_codec := c |>).
Proof using Type.
  intros Hs Hconn Hb Hdec Hm. rewrite (send2downstream_message _ _ _ _ _ _ _ _ _ Hs Hb Hdec).
  set (st' := server_flags (message_type_ m) st). set (h1 := h <| h_codec := c |> <| h_world ::= _ |>).
  assert (e || server_closed_ st' = true ∧ upstream_conn_data_ st' = Some conn) as [-> Hup].
  { unfold st'. destruct Hm as [-> | [-> | ->]]; [by destruct (message_type_ m) | |]; by rewrite orb_true_r. }
  assert (active_stream_map_ (h_world h1) !! sid = Some st') as Hs1 by apply lookup_insert_eq.
  rewrite run_bind. unfold Stream_clear. rewrite run_bind, (getActiveStream_run _ _ _ Hs1). cbv beta iota. rewrite Hup.
  unfold closeStream, on_cm. cbn [modify]. cbv beta iota.
  match goal with |- send2downstream _ _ _ _ ?x = _ => assert (x = streamed e [view m] (delete sid (active_stream_map_ (h_world h))) h <| h_codec := c |>) as -> end.
  { unfold h1, streamed. destruct h as [? ? ? []]. unfold upd. cbn. by rewrite delete_insert_eq. }
  cbn [send2downstream]. destruct (buf_length b' =? 0); [done |].
  rewrite run_bind, streamExisted_run. cbn -[delete]. by rewrite lookup_delete_eq, bool_decide_false by (by intros [? [=]]).
Qed.


End behaviour.

(** ** Witnesses *)

(** The protocol of the small instance keeps the framing contract. *)
Definition toy_frame (t : MessageType) (bs : bytes) : framing (E := toy_E) :=
  match bs with
  | [] => FWait
  | x :: _ =>
      match toy_type x with
      | Some ty => FDone 1 (setRequestId (if x =? 8 then 8 else 0) (setMessageType ty (fresh_metadata t)), [x])
      | None => FThrow (EnvoyException "bad message")
      end
  end.
#[global] Instance toy_contract : CodecContract toy_codec.
Proof.
  refine {| frame := toy_frame; codec_rep t c l s := l = [] ∧ decoder_type t |}.
  - done.
  - by intros ???? [].
  - by intros ????? [].
  - intros t [|x bs] n v; [done |]. cbn -[toy_type]. destruct (toy_type x); [| done].
    intros [= <- _]. rewrite zlen_cons. pose proof (zlen_nonneg bs). lia.
  - by intros t [|x bs] k.
  - done.
  - intros t c l b [-> Ht]. change (list Z) in b. change unit in c. destruct c. cbn -[toy_type u8]. destruct b as [|x b]; cbn -[toy_type u8].
    + by exists tt, [], (fresh_metadata t), [].
    + destruct (toy_type (u8 x)); [| by do 3 eexists].
      do 3 eexists. split; [reflexivity |]. done.
Defined.

Abbreviation toy_manager := (Host (C := toy_codec) nat (CM (C := toy_codec) (N := list_network))).

Lemma reset_all_messages_witness :
  ∃ h', resetAllMessages true toy_run = (Return tt, h') ∧ deferred (h_world h') = [1%nat].
Proof.
  destruct (reset_all_messages toy_run true) as (h' & Hrun & _ & _ & Hd & _).
  { replace (active_message_list_ (h_world toy_run)) with [1%nat] by (vm_compute; reflexivity). apply NoDup_singleton. }
  exists h'. split; [exact Hrun |]. rewrite Hd. vm_compute. reflexivity.
Defined.

(** A message of an unknown type in the buffer. *)
Definition toy_bad : toy_manager := toy_run <| h_buffer := buf_add buf_new [99] |>.
Lemma set_buffer_inv (h : toy_manager) b : cm_inv (h_world h) → cm_inv (h_world (h <| h_buffer := b |>)).
Proof. done. Qed.
Lemma toy_bad_inv : cm_inv (h_world toy_bad).
Proof. apply (set_buffer_inv toy_run), toy_inv. Qed.
Lemma undecodable_input_closes_witness :
  ∃ h', dispatch 3 toy_bad = (Return tt, h') ∧ conn_state (downstream (h_world h')) = Connection_Closed.
Proof.
  destruct (undecodable_input_closes (NL := list_network_laws) 3 toy_bad
    (decode_loop 3 (resetIdleTimer toy_bad).2).2 (EnvoyException "bad message") toy_bad_inv) as (h' & Hrun & Hcl & _).
  - vm_compute. discriminate.
  - intros _. discriminate.
  - apply pair_fst. vm_compute. reflexivity.
  - discriminate.
  - exists h'. split; [exact Hrun | exact Hcl].
Defined.

Definition toy_error : Error := {| error_type := ErrorType_OverLimit; error_message := "no" |}.
Lemma local_reply_sent_witness :
  ∃ h', CM_sendLocalReply new_MetadataImpl (AppException toy_error) true toy_host = (Return tt, h') ∧
    conn_written (downstream (h_world h')) = [([8], true)].
Proof.
  destruct (local_reply_sent (NL := list_network_laws) (L := list_envoy_laws _) new_MetadataImpl toy_error true toy_host)
    as [_ Hreply]; [constructor |].
  destruct (Hreply eq_refl) as (h' & Hrun & _ & Hw). by exists h'.
Defined.

(** A new message whose filters are about to run, and one in the middle of its
    chain. *)
Definition toy_metadata (t : MessageType) : MetadataImpl (E := toy_E) :=
  setMessageType t new_MetadataImpl <| origin_message_ := buf_add buf_new [3] |>.
Definition toy_message : ActiveMessage (C := toy_codec) :=
  createFilterChain (new_ActiveMessage 0) <| am_metadata_ := Some (toy_metadata MessageType_Stream_Init) |>
    <| am_filter_action_ := true |>.
Definition toy_start : toy_manager :=
  toy_host <| h_world ::= λ c, c <| objects := {[ 0%nat := toy_message ]} |> <| next_id := 1%nat |>
                                 <| active_message_list_ := [0%nat] |> <| stats_ ::= stat_add request_active_ 1 |> |>.

(** Both filters run, and the second pauses. *)
Definition toy_first : toy_manager := (call_filter false 0 0 toy_start).2.
Definition toy_second : toy_manager := (call_filter false 0 1 toy_first).2.
Lemma filter_chain_order_witness :
  applyDecoderFilters 0 None CanStartFromCurrent toy_start = (Return FilterStatus_PauseIteration, toy_second).
Proof.
  apply (proj2 (proj1 (filter_chain_order 0 None CanStartFromCurrent toy_start toy_second toy_message FilterStatus_PauseIteration eq_refl))).
  split; [reflexivity |]. change (am_local_response_sent_ toy_message) with false. cbv iota.
  exists [(0%nat, FilterStatus_ContinueIteration, toy_first); (1%nat, FilterStatus_PauseIteration, toy_second)], [], (Some FilterStatus_PauseIteration).
  split; [reflexivity |]. split; [| split; [| by split]].
  - split; [apply pair_fst; vm_compute; reflexivity |]. split; [apply pair_fst; vm_compute; reflexivity | exact I].
  - apply (ended_by_status _ _ _ _ [(0%nat, FilterStatus_ContinueIteration, toy_first)] (1%nat, FilterStatus_PauseIteration, toy_second)).
    + reflexivity.
    + constructor; [split; [reflexivity | vm_compute; reflexivity] | constructor].
    + vm_compute. reflexivity.
    + discriminate.
Defined.

(** A stream with an upstream connection. *)
Definition toy_stream : Stream := {| upstream_conn_data_ := Some 5; client_closed_ := false; server_closed_ := false |}.
Definition toy_streaming : toy_manager := toy_start <| h_world ::= λ c, c <| active_stream_map_ := {[ 0 := toy_stream ]} |> |>.

Lemma bypassing_messages_witness :
  ∃ h', onMessageDecoded 0 (toy_metadata MessageType_Stream_Data) ∅ toy_streaming = (Return tt, h') ∧
    upstream_written (h_world h') = [(5, [3])] ∧ deferred (h_world h') = [0%nat].
Proof.
  destruct (bypassing_messages 0 toy_streaming toy_message (toy_metadata MessageType_Stream_Data) ∅)
    as (h' & a' & Hrun & _ & _ & _ & _ & Hup & Hd & _); [reflexivity | by left | by right |].
  exists h'. split; [exact Hrun |]. rewrite Hup, Hd. split; vm_compute; reflexivity.
Defined.

(** Two messages in a read, and in the next a message that closes the stream, with more
    data behind it. *)
Definition toy_view (t : MessageType) (x : Z) : MetadataImpl (E := toy_E) * bytes :=
  (setMessageType t (fresh_metadata MessageType_Response), [x]).
Definition toy_read : toy_manager := (send2downstream 4 0 false (buf_add buf_new [3; 7]) toy_streaming).2.

(** A response with the id of another request: the client gets it, and an error. *)
Definition toy_responding : toy_manager :=
  (run_filter false 1 (F_Call CB_startUpstreamResponse F_Return) toy_run).2.
Lemma toy_responding_inv : cm_inv (h_world toy_responding).
Proof. apply (frames_run_filter evolves false 1 (F_Call CB_startUpstreamResponse F_Return) toy_run), toy_inv. Qed.

(** The live message, and what the response leaves. *)
Lemma toy_alive (h : toy_manager) :
  cm_inv (h_world h) → bool_decide (1%nat ∈ active_message_list_ (h_world h) ++ deferred (h_world h)) = true →
  is_Some (objects (h_world h) !! 1%nat).
Proof. intros Hi Hin%bool_decide_eq_true. by apply (inv_alive _ Hi). Qed.

(** Both ids, if the message and its response decoder are there. *)
Definition toy_ids (h : toy_manager) : option (Z * Z) :=
  a ← objects (h_world h) !! 1%nat; r ← am_response_decoder_ a; Some (requestId a, response_requestId r).
Lemma run_facts {O S B} (r : O * (S * B)) (o : O) (Q : S → Prop) :
  r.1 = o → Q r.2.1 → ∃ s b, r = (o, (s, b)) ∧ Q s.
Proof. destruct r as [o' [s b]]. intros <- HQ. by exists s, b. Qed.
Lemma toy_response_run : ∃ h1 b1,
  response_onData 1 (toy_responding, buf_add buf_new [8]) = (Return UpstreamResponse_Complete, (h1, b1)) ∧
  toy_ids h1 = Some (0, 8) ∧ conn_state (downstream (h_world h1)) = Connection_Open ∧
  conn_written (downstream (h_world h1)) = [([8], false); ([6], false); ([8], false)].
Proof. apply run_facts; vm_compute; repeat split. Qed.

Lemma upstream_response_outcome_witness :
  ∃ h2 b1, upstreamData 1 (toy_responding, buf_add buf_new [8]) = (Return UpstreamResponse_Reset, (h2, b1)) ∧
    conn_written (downstream (h_world h2)) = [([8], false); ([6], false); ([8], false); ([8], false)].
Proof.
  destruct (toy_alive toy_responding toy_responding_inv) as [a Ha]; [vm_compute; reflexivity |].
  destruct toy_response_run as (h1 & b1 & Hr & Hids & Hopen & Hwritten).
  pose proof (upstream_response_outcome (L := list_envoy_laws _) 1 toy_responding
    h1 (buf_add buf_new [8]) b1 a _ toy_responding_inv Ha Hr) as Hout. cbv beta iota zeta in Hout.
  destruct Hout as (a1 & Ha1 & r1 & Hr1 & Hout). 
  assert (toy_ids h1 = Some (requestId a1, response_requestId r1)) as Hids1
    by (etrans; [exact (f_equal (λ o, a ← o; r ← am_response_decoder_ a; Some (requestId a, response_requestId r)) Ha1) |];
        cbn; by rewrite Hr1).
  rewrite Hids1 in Hids.
  injection Hids as H1 H2. assert ((requestId a1 =? response_requestId r1) = false) as Hb by (by rewrite H1, H2).
  match type of Hout with (if ?c then _ else _) => change (c = false) in Hb end. rewrite Hb in Hout.
  unfold answered_bad_response in Hout. cbv zeta in Hout. rewrite decide_False in Hout by (by intros []).
  destruct Hout as (h2 & Hrun & _ & _ & Hw & _).
  exists h2, b1. split; [exact Hrun |]. etrans; [exact (f_equal conn_written Hw) |].
  etrans; [exact (f_equal (λ l, l ++ _) Hwritten) |]. reflexivity.
Defined.
