(* ===== verification/UpstreamHandler.v ===== *)
(** * Multiplexed upstream connections

    Model of [upstream_handler.{h,cc}], [upstream_handler_impl.{h,cc}] and
    [upstream_response.{h,cc}].  With multiplexing, the requests of a client
    connection to one host share an upstream connection.  Its handler is kept by the
    [UpstreamHandlerManager] of the client connection and by the requests that use
    it, all through shared pointers.

    Handlers are objects with an identity (a number): the store [handlers] holds the
    live ones, and [owners] counts the shared pointers besides the one of the
    manager.  A handler is destroyed with the last pointer; using it later is the
    outcome [Panic "use after free"].

    The requests that wait for the connection and the functions that wait for a
    response belong to the router: they are programs over the whole state, which
    includes an [outside] this file does not look into. *)

From S2P Require Import Prelude Envoy Metadata Codec Decoder Network ConnManager ConnInvariant ConnBehaviour.

Inductive CancelPolicy : Type := CancelDefault | CloseExcess.
Inductive PoolFailureReason : Type := Overflow | LocalConnectionFailure | RemoteConnectionFailure | Timeout.

Class UpstreamTypes := {
  outside_t : Type;
  ResponseCallback : Type
}.

Section state.
Context {E : Envoy} {C : CodecOps E} {N : NetworkOps} {T : UpstreamTypes}.

Record UpstreamHandlerResponseDecoder : Type := {
  ud_codec_ : codec_state;
  ud_decoder_ : DecoderBase unit;
  ud_complete_ : bool
}.
Record UpstreamResponse : Type := { response_decoder_ : option UpstreamHandlerResponseDecoder }.

(** Pointers to callbacks of requests may be null; a [std::function] may be empty. *)
Record UpstreamHandlerImpl : Type := {
  key_ : string;
  upstream_handle_ : option Z;
  conn_data_ : option connection;
  upstream_host_ : option string;
  upstream_request_callbacks_ : list (option nat);
  response_callbacks_ : gmap Z (option ResponseCallback);
  upstream_response_ : option UpstreamResponse;
  pool_ready_ : bool;
  owners : nat
}.
#[global] Instance UpstreamHandlerImpl_eta : Eta UpstreamHandlerImpl := fun u =>
  {| key_ := key_ u; upstream_handle_ := upstream_handle_ u; conn_data_ := conn_data_ u;
     upstream_host_ := upstream_host_ u; upstream_request_callbacks_ := upstream_request_callbacks_ u;
     response_callbacks_ := response_callbacks_ u; upstream_response_ := upstream_response_ u;
     pool_ready_ := pool_ready_ u; owners := owners u |}.

Record UpstreamWorld : Type := {
  handlers : gmap nat UpstreamHandlerImpl;
  upstream_handlers_ : gmap string nat;
  client : connection;
  (** handles of the connection pool that were cancelled *)
  cancelled : list (Z * CancelPolicy);
  (** connections given back to the pool *)
  released : list connection;
  outside : outside_t
}.
#[global] Instance UpstreamWorld_eta : Eta UpstreamWorld := fun w =>
  {| handlers := handlers w; upstream_handlers_ := upstream_handlers_ w; client := client w;
     cancelled := cancelled w; released := released w; outside := outside w |}.

(** The functions of the router, and what the memory of a new response decoder
    happens to hold where [complete_] will be. *)
Class UpstreamEnv := {
  request_onPoolReady : nat → string → M UpstreamWorld unit;
  request_onPoolFailure : nat → PoolFailureReason → string → M UpstreamWorld unit;
  response_callback : ResponseCallback → MetadataImpl → M UpstreamWorld unit;
  uninitialised_bit : bool
}.

(** How [newConnection] goes: a handle to wait with, or a callback at once. *)
Inductive new_connection : Type :=
| NC_Pending (handle : Z)
| NC_Ready (conn : connection) (host : string)
| NC_Failure (reason : PoolFailureReason) (host : string).
End state.

Section handler.
Context {E : Envoy} {C : CodecOps E} {N : NetworkOps} {T : UpstreamTypes} {V : UpstreamEnv}.
Implicit Types (hid : nat) (w : UpstreamWorld) (u : UpstreamHandlerImpl).

Definition get_handler (hid : nat) : M UpstreamWorld UpstreamHandlerImpl :=
  o ← gets (λ w, handlers w !! hid);
  match o with Some u => mret u | None => panic "use after free" end.
Definition on_handler (hid : nat) (f : UpstreamHandlerImpl → UpstreamHandlerImpl) : M UpstreamWorld unit :=
  u ← get_handler hid;
  modify (λ w, w <| handlers ::= <[hid := f u]> |>).

(** ** Lifetime *)

Definition cancel (handle : Z) (policy : CancelPolicy) : M UpstreamWorld unit :=
  modify (λ w, w <| cancelled ::= λ l, l ++ [(handle, policy)] |>).
Definition release_connection (c : option connection) : M UpstreamWorld unit :=
  match c with
  | Some c => modify (λ w, w <| released ::= λ l, l ++ [c] |>)
  | None => mret tt
  end.

(** [~UpstreamHandlerImpl], and the destructor of [conn_data_] after it *)
Definition destroy_handler (hid : nat) : M UpstreamWorld unit :=
  u ← get_handler hid;
  _ ← (match upstream_handle_ u with Some k => cancel k CloseExcess | None => mret tt end);
  _ ← release_connection (conn_data_ u);
  modify (λ w, w <| handlers ::= delete hid |>).

(** Whether the manager keeps a handler. *)
Definition managed (hid : nat) (w : UpstreamWorld) : bool :=
  existsb (λ e, (e.2 =? hid)%nat) (map_to_list (upstream_handlers_ w)).

(** A shared pointer is gone: so is the handler if it was the last. *)
Definition drop_pointer (hid : nat) : M UpstreamWorld unit :=
  o ← gets (λ w, handlers w !! hid);
  m ← gets (managed hid);
  match o with
  | Some u => if (owners u =? 0)%nat && negb m then destroy_handler hid else mret tt
  | None => mret tt
  end.

(** The pointer of a request is destroyed. *)
Definition release_handler (hid : nat) : M UpstreamWorld unit :=
  _ ← on_handler hid (λ u, u <| owners ::= pred |>);
  drop_pointer hid.

(** ** UpstreamHandlerManager *)

(** [emplace] leaves a handler that is already there alone. *)
Definition manager_add (key : string) (hid : nat) : M UpstreamWorld unit :=
  modify (λ w, w <| upstream_handlers_ ::= λ l, if l !! key is Some _ then l else <[key := hid]> l |>).

Definition manager_del (key : string) : M UpstreamWorld unit :=
  o ← gets (λ w, upstream_handlers_ w !! key);
  match o with
  | Some hid =>
      _ ← modify (λ w, w <| upstream_handlers_ ::= delete key |>);
      drop_pointer hid
  | None => mret tt
  end.

(** The result is another shared pointer. *)
Definition manager_get (key : string) : M UpstreamWorld (option nat) :=
  o ← gets (λ w, upstream_handlers_ w !! key);
  match o with
  | Some hid => _ ← on_handler hid (λ u, u <| owners ::= S |>); mret (Some hid)
  | None => mret None
  end.

Fixpoint drop_pointers (l : list nat) : M UpstreamWorld unit :=
  match l with [] => mret tt | hid :: l => _ ← drop_pointer hid; drop_pointers l end.
Definition manager_clear : M UpstreamWorld unit :=
  l ← gets (λ w, (map_to_list (upstream_handlers_ w)).*2);
  _ ← modify (λ w, w <| upstream_handlers_ := ∅ |>);
  drop_pointers l.

(** ** UpstreamHandlerImpl *)

(** [std::make_shared<UpstreamHandlerImpl>(key, ...)] *)
Definition new_UpstreamHandlerImpl (key : string) : UpstreamHandlerImpl :=
  {| key_ := key; upstream_handle_ := None; conn_data_ := None; upstream_host_ := None;
     upstream_request_callbacks_ := []; response_callbacks_ := ∅; upstream_response_ := None;
     pool_ready_ := false; owners := 1 |}.

(** [delete_callback_(key_)], which [ConnectionManager::getUpstreamHandler] sets
    to [upstream_handler_manager_.del(key)] *)
Definition delete_callback_ (hid : nat) : M UpstreamWorld unit :=
  u ← get_handler hid;
  manager_del (key_ u).

Definition onClose (hid : nat) : M UpstreamWorld unit :=
  _ ← on_handler hid (λ u, u <| pool_ready_ := false |>);
  _ ← delete_callback_ hid;
  u ← get_handler hid;
  _ ← (match upstream_handle_ u with
       | Some k =>
           _ ← ASSERT (if conn_data_ u is None then true else false) "!conn_data_";
           _ ← cancel k CancelDefault;
           on_handler hid (λ u, u <| upstream_handle_ := None |>)
       | None => mret tt
       end);
  u ← get_handler hid;
  match conn_data_ u with
  | Some c => _ ← release_connection (Some c); on_handler hid (λ u, u <| conn_data_ := None |>)
  | None => mret tt
  end.

(** The loops over [upstream_request_callbacks_]: a callback that changes the
    vector invalidates the iterators of the loop. *)
Fixpoint notify (hid : nat) (call : nat → M UpstreamWorld unit) (all rest : list (option nat)) : M UpstreamWorld unit :=
  match rest with
  | [] => mret tt
  | callbacks :: rest =>
      _ ← (match callbacks with Some p => call p | None => mret tt end);
      u ← get_handler hid;
      if decide (upstream_request_callbacks_ u = all) then notify hid call all rest
      else panic "iterator invalidated"
  end.

Definition onPoolFailure (hid : nat) (reason : PoolFailureReason) (host : string) : M UpstreamWorld unit :=
  _ ← on_handler hid (λ u, u <| upstream_handle_ := None |>);
  _ ← delete_callback_ hid;
  u ← get_handler hid;
  let l := upstream_request_callbacks_ u in
  _ ← notify hid (λ p, request_onPoolFailure p reason host) l l;
  on_handler hid (λ u, u <| upstream_request_callbacks_ := [] |>).

Definition onPoolReady (hid : nat) (conn : connection) (host : string) : M UpstreamWorld unit :=
  u ← get_handler hid;
  _ ← release_connection (conn_data_ u);
  _ ← on_handler hid (λ u, u <| upstream_host_ := Some host |> <| conn_data_ := Some conn |>
                             <| upstream_handle_ := None |> <| pool_ready_ := true |>);
  let l := upstream_request_callbacks_ u in
  _ ← notify hid (λ p, request_onPoolReady p host) l l;
  on_handler hid (λ u, u <| upstream_request_callbacks_ := [] |>).

Definition start (hid : nat) (pool_data : new_connection) : M UpstreamWorld Z :=
  _ ← on_handler hid (λ u, u <| pool_ready_ := false |>);
  _ ← (match pool_data with
       | NC_Pending handle =>
           u ← get_handler hid;
           _ ← ASSERT (bool_decide (upstream_handle_ u = None)) "upstream_handle_ == nullptr";
           on_handler hid (λ u, u <| upstream_handle_ := Some handle |>)
       | NC_Ready conn host => onPoolReady hid conn host
       | NC_Failure reason host => onPoolFailure hid reason host
       end);
  mret 0.

Definition handler_onData (hid : nat) (data : bytes) (end_stream : bool) : M UpstreamWorld unit :=
  u ← get_handler hid;
  match conn_data_ u with
  | Some c =>
      _ ← ASSERT (bool_decide (upstream_handle_ u = None)) "!upstream_handle_";
      on_handler hid (λ u, u <| conn_data_ := Some (conn_write c data end_stream) |>)
  | None => panic "conn_data_"
  end.

Definition addResponseCallback (hid : nat) (request_id : Z) (callback : option ResponseCallback) : M UpstreamWorld unit :=
  on_handler hid (λ u,
    match response_callbacks_ u !! request_id with
    | Some _ => u
    | None => u <| response_callbacks_ ::= <[request_id := callback]> |>
    end).

Definition isPoolReady (hid : nat) : M UpstreamWorld bool := u ← get_handler hid; mret (pool_ready_ u).

Definition addUpsteamRequestCallbacks (hid : nat) (callbacks : option nat) : M UpstreamWorld unit :=
  on_handler hid (λ u, u <| upstream_request_callbacks_ ::= λ l, l ++ [callbacks] |>).
Definition removeUpsteamRequestCallbacks (hid : nat) (callbacks : option nat) : M UpstreamWorld unit :=
  on_handler hid (λ u, u <| upstream_request_callbacks_ ::= List.filter (λ c, bool_decide (c ≠ callbacks)) |>).

(** [UpstreamHandlerImpl::onMessageDecoded]; [write] drains the message. *)
Definition handler_onMessage (hid : nat) (m : MetadataImpl) : M UpstreamWorld unit :=
  _ ← ASSERT (bool_decide (message_type_ m = MessageType_Response ∨ message_type_ m = MessageType_Error))
        "Response or Error";
  _ ← modify (λ w, w <| client ::= λ c, conn_write c (contents (origin_message_ m)) false |>);
  let m := m <| origin_message_ := buf_new |> in
  u ← get_handler hid;
  match response_callbacks_ u !! request_id_ m with
  | Some (Some callback) =>
      _ ← response_callback callback m;
      u ← get_handler hid;
      if response_callbacks_ u !! request_id_ m is Some _ then
        on_handler hid (λ u, u <| response_callbacks_ ::= delete (request_id_ m) |>)
      else panic "iterator invalidated"
  | _ => mret tt
  end.

(** ** UpstreamHandlerResponseDecoder

    While the decoder runs, [complete_] is kept beside the state. *)

Abbreviation decoder_host := (Host unit (UpstreamWorld * bool)).

(** [codec_->encode] of the message into its own buffer *)
Definition ud_encode (m : MetadataImpl) (mu : Mutation) : M decoder_host MetadataImpl := λ h,
  match codec_encode m mu (h_codec h, origin_message_ m) with
  | (o, (c, b)) => ((λ _, m <| origin_message_ := b |>) <$> o, h <| h_codec := c |>)
  end.
Definition in_state {A} (f : M UpstreamWorld A) : M decoder_host A := λ h,
  let '(o, w) := f (h_world h).1 in (o, h <| h_world ::= λ x, (w, x.2) |>).

Definition ud_onMessageDecoded (hid : nat) (m : MetadataImpl) (mu : Mutation) : M decoder_host unit :=
  _ ← modify (λ h, h <| h_world ::= λ x, (x.1, true) |>);
  m ← ud_encode m mu;
  in_state (handler_onMessage hid m).

Definition ud_callbacks (hid : nat) : DecoderCallbacks unit (UpstreamWorld * bool) := {|
  newMessageHandler := mret tt;
  handler_onMessageDecoded _ := ud_onMessageDecoded hid;
  onHeartbeat _ := mret true
|}.

Abbreviation reading := (UpstreamWorld * buffer)%type.
Definition in_handler {A} (f : M UpstreamWorld A) : M reading A := λ '(w, b), let '(o, w) := f w in (o, (w, b)).

(** The response decoder of a handler, which is destroyed with it. *)
Definition get_decoder (hid : nat) : M UpstreamWorld UpstreamHandlerResponseDecoder :=
  u ← get_handler hid;
  match upstream_response_ u with
  | Some {| response_decoder_ := Some d |} => mret d
  | _ => panic "null response decoder"
  end.
Definition put_decoder (hid : nat) (d : UpstreamHandlerResponseDecoder) : M UpstreamWorld unit :=
  on_handler hid (λ u, u <| upstream_response_ := Some {| response_decoder_ := Some d |} |>).

Definition ud_run (hid : nat) : M reading bool := λ '(w, b),
  match get_decoder hid w with
  | (Return d, _) =>
      let '(o, h) := onData (D := ud_callbacks hid)
        {| h_decoder := ud_decoder_ d; h_codec := ud_codec_ d; h_buffer := b; h_world := (w, ud_complete_ d) |} in
      let '(o', w') := (_ ← get_decoder hid;
                        put_decoder hid {| ud_codec_ := h_codec h; ud_decoder_ := h_decoder h;
                                           ud_complete_ := (h_world h).2 |}) (h_world h).1 in
      (match o' with Return _ => o | Throw e => Throw e | Panic s => Panic s end, (w', h_buffer h))
  | (Throw e, _) => (Throw e, (w, b))
  | (Panic s, _) => (Panic s, (w, b))
  end.

Definition ud_decode (hid : nat) : M reading UpstreamResponseStatus :=
  underflow ← catch_envoy (u ← ud_run hid; mret (Some u)) (λ _, mret None);
  match underflow with
  | None => mret UpstreamResponse_Reset
  | Some underflow =>
      d ← in_handler (get_decoder hid);
      _ ← ASSERT (ud_complete_ d || underflow) "complete_ || underflow";
      mret (if ud_complete_ d then UpstreamResponse_Complete else UpstreamResponse_MoreData)
  end.

(** ** UpstreamResponse *)

Definition new_decoder : UpstreamHandlerResponseDecoder :=
  {| ud_codec_ := codec_init; ud_decoder_ := new_DecoderBase MessageType_Response; ud_complete_ := uninitialised_bit |}.
Definition handler_startUpstreamResponse (hid : nat) : M UpstreamWorld unit :=
  u ← get_handler hid;
  _ ← ASSERT (match upstream_response_ u with Some {| response_decoder_ := Some _ |} => false | _ => true end)
        "response_decoder_ == nullptr";
  put_decoder hid new_decoder.
Definition handler_upstreamData (hid : nat) : M reading UpstreamResponseStatus :=
  _ ← in_handler (get_decoder hid);
  ud_decode hid.

(** [UpstreamHandlerImpl::onUpstreamData] *)
Definition onUpstreamData (hid : nat) : M reading unit :=
  u ← in_handler (get_handler hid);
  _ ← (match upstream_response_ u with
       | None =>
           _ ← in_handler (on_handler hid (λ u, u <| upstream_response_ := Some {| response_decoder_ := None |} |>));
           in_handler (handler_startUpstreamResponse hid)
       | Some _ => mret tt
       end);
  status ← handler_upstreamData hid;
  match status with
  | UpstreamResponse_Complete | UpstreamResponse_Reset =>
      in_handler (on_handler hid (λ u, u <| upstream_response_ := None |>))
  | UpstreamResponse_MoreData | UpstreamResponse_Retry => mret tt
  end.

Definition handler_onEvent (hid : nat) (event : ConnectionEvent) : M UpstreamWorld unit :=
  match event with
  | RemoteClose | LocalClose => onClose hid
  | Connected => mret tt
  end.

(** Reads of the upstream connection: what arrives is added to the bytes that were
    left in its buffer. *)
Fixpoint reads (hid : nat) (chunks : list bytes) : M reading unit :=
  match chunks with
  | [] => mret tt
  | d :: chunks => _ ← modify (λ '(w, b), (w, buf_add b d)); _ ← onUpstreamData hid; reads hid chunks
  end.
End handler.

(** ** Lemmas *)

Section lemmas.
Context {E : Envoy} {C : CodecOps E} {N : NetworkOps} {T : UpstreamTypes} {V : UpstreamEnv}.
Implicit Types (hid : nat) (w : UpstreamWorld) (u : UpstreamHandlerImpl).

Lemma get_handler_run hid w u : handlers w !! hid = Some u → get_handler hid w = (Return u, w).
Proof. intros Hu. unfold get_handler. mstep. by rewrite Hu. Qed.
Lemma get_handler_none hid w : handlers w !! hid = None → get_handler hid w = (Panic "use after free", w).
Proof. intros Hu. unfold get_handler. mstep. by rewrite Hu. Qed.
Lemma on_handler_run hid f w u :
  handlers w !! hid = Some u → on_handler hid f w = (Return tt, w <| handlers ::= <[hid := f u]> |>).
Proof. intros Hu. unfold on_handler. by rewrite run_bind, (get_handler_run _ _ _ Hu). Qed.
Lemma handlers_upd hid f w : handlers (w <| handlers ::= <[hid := f]> |>) !! hid = Some f.
Proof. apply lookup_insert_eq. Qed.

Lemma managed_spec hid w : managed hid w = true ↔ ∃ key, upstream_handlers_ w !! key = Some hid.
Proof.
  unfold managed. rewrite existsb_exists. split.
  - intros ([k n] & Hin%list_elem_of_In & Heq%Nat.eqb_eq). cbn in Heq. subst. exists k. by apply elem_of_map_to_list.
  - intros [k Hk]. exists (k, hid). split; [| apply Nat.eqb_refl]. by apply list_elem_of_In, elem_of_map_to_list.
Qed.

(** *** Closing *)

(** Taking a handler off the manager destroys it if nobody else has it. *)
Lemma manager_del_run key hid w u :
  handlers w !! hid = Some u → upstream_handlers_ w !! key = Some hid →
  (∀ k, upstream_handlers_ w !! k = Some hid → k = key) →
  let w1 := w <| upstream_handlers_ ::= delete key |> in
  manager_del key w = if (owners u =? 0)%nat then destroy_handler hid w1 else (Return tt, w1).
Proof.
  intros Hu Hk Honly w1. unfold manager_del. rewrite run_bind. cbn [gets]. cbv beta iota. rewrite Hk.
  rewrite run_bind. cbn [modify]. cbv beta iota. change (drop_pointer hid w1 = if (owners u =? 0)%nat then destroy_handler hid w1 else (Return tt, w1)).
  unfold drop_pointer. rewrite run_bind. cbn [gets]. cbv beta iota. rewrite run_bind. cbn [gets]. cbv beta iota.
  change (handlers w1) with (handlers w). rewrite Hu.
  assert (managed hid w1 = false) as ->.
  { apply not_true_is_false. intros [k Hk']%managed_spec.
    change (delete key (upstream_handlers_ w) !! k = Some hid) in Hk'.
    apply lookup_delete_Some in Hk' as [Hne Hk']. by apply Hne, eq_sym, Honly. }
  by destruct (owners u =? 0)%nat.
Qed.

Lemma delete_callback_run hid w u :
  handlers w !! hid = Some u → upstream_handlers_ w !! key_ u = Some hid →
  (∀ k, upstream_handlers_ w !! k = Some hid → k = key_ u) →
  let w1 := w <| upstream_handlers_ ::= delete (key_ u) |> in
  delete_callback_ hid w = if (owners u =? 0)%nat then destroy_handler hid w1 else (Return tt, w1).
Proof.
  intros Hu Hk Honly w1. unfold delete_callback_. rewrite run_bind, (get_handler_run _ _ _ Hu).
  by apply manager_del_run.
Qed.

(** [destroy_handler] takes the handler out of the store. *)
Lemma destroy_handler_run hid w u :
  handlers w !! hid = Some u →
  ∃ w', destroy_handler hid w = (Return tt, w') ∧ handlers w' = delete hid (handlers w) ∧
    cancelled w' = cancelled w ++ (if upstream_handle_ u is Some k then [(k, CloseExcess)] else []) ∧
    released w' = released w ++ (if conn_data_ u is Some c then [c] else []).
Proof.
  intros Hu. unfold destroy_handler. rewrite run_bind, (get_handler_run _ _ _ Hu). cbv beta iota.
  destruct (upstream_handle_ u), (conn_data_ u); eexists; (split; [reflexivity |]); rewrite ?app_nil_r; done.
Qed.

(** What is left of a handler after its connection is closed. *)
Definition closed_handler (u : UpstreamHandlerImpl) : UpstreamHandlerImpl :=
  u <| pool_ready_ := false |> <| upstream_handle_ := None |> <| conn_data_ := None |>.

(** The end of [onClose]. *)
Lemma close_rest hid w u :
  handlers w !! hid = Some u → upstream_handle_ u = None ∨ conn_data_ u = None →
  ∃ w', (u ← get_handler hid;
         _ ← (match upstream_handle_ u with
              | Some k =>
                  _ ← ASSERT (if conn_data_ u is None then true else false) "!conn_data_";
                  _ ← cancel k CancelDefault;
                  on_handler hid (λ u, u <| upstream_handle_ := None |>)
              | None => mret tt
              end);
         u ← get_handler hid;
         match conn_data_ u with
         | Some c => _ ← release_connection (Some c); on_handler hid (λ u, u <| conn_data_ := None |>)
         | None => mret tt
         end) w = (Return tt, w') ∧
    handlers w' = <[hid := u <| upstream_handle_ := None |> <| conn_data_ := None |>]> (handlers w) ∧
    upstream_handlers_ w' = upstream_handlers_ w ∧
    cancelled w' = cancelled w ++ (if upstream_handle_ u is Some k then [(k, CancelDefault)] else []) ∧
    released w' = released w ++ (if conn_data_ u is Some c then [c] else []) ∧
    client w' = client w ∧ outside w' = outside w.
Proof.
  intros Hu Hone. rewrite run_bind, (get_handler_run _ _ _ Hu). cbv beta iota.
  destruct (upstream_handle_ u) as [k|] eqn:Hh; [destruct Hone as [[=] | Hc]; rewrite Hc | destruct (conn_data_ u) as [c|] eqn:Hc].
  - set (w1 := w <| cancelled ::= λ l, l ++ [(k, CancelDefault)] |>).
    set (u1 := u <| upstream_handle_ := None |>). set (w2 := w1 <| handlers ::= <[hid := u1]> |>).
    exists w2. assert (handlers w2 !! hid = Some u1) as Hu2 by apply handlers_upd. split_and!; try done.
    + rewrite run_bind, run_bind. cbn [ASSERT lift assert_that]. cbv beta iota. rewrite run_bind.
      unfold cancel. cbn [modify]. cbv beta iota. fold w1. rewrite (on_handler_run hid _ w1 u Hu). cbv beta iota.
      fold u1 w2. rewrite run_bind, (get_handler_run _ _ _ Hu2). cbv beta iota. change (conn_data_ u1) with (conn_data_ u).
      by rewrite Hc.
    + change (<[hid := u1]> (handlers w) = <[hid := u1 <| conn_data_ := None |>]> (handlers w)). f_equal.
      unfold u1. destruct u. cbn in *. by subst.
    + symmetry. apply app_nil_r.
  - set (w1 := w <| released ::= λ l, l ++ [c] |>). exists (w1 <| handlers ::= <[hid := u <| conn_data_ := None |>]> |>).
    split_and!; try done.
    + rewrite run_bind. cbn [mret M_ret]. cbv beta iota. rewrite run_bind, (get_handler_run _ _ _ Hu). cbv beta iota.
      rewrite Hc, run_bind. unfold release_connection. cbn [modify]. cbv beta iota. fold w1.
      by rewrite (on_handler_run hid _ w1 u Hu).
    + change (<[hid := u <| conn_data_ := None |>]> (handlers w) =
              <[hid := u <| upstream_handle_ := None |> <| conn_data_ := None |>]> (handlers w)). f_equal.
      destruct u. cbn in *. by subst.
    + symmetry. apply app_nil_r.
  - exists w. rewrite !app_nil_r. split_and!; try done.
    + rewrite run_bind. cbn [mret M_ret]. cbv beta iota. rewrite run_bind, (get_handler_run _ _ _ Hu). cbv beta iota.
      by rewrite Hc.
    + rewrite insert_id; [done |]. rewrite Hu. f_equal. destruct u. cbn in *. by subst.
Qed.

(** C34: When the upstream connection closes, its handler is taken off the manager, so
    that the next request gets a new one.  If requests still hold the handler, its
    pool handle is cancelled and its connection given back, each once, and the
    handler stays until they let go of it.  If none does, the manager's pointer was
    the last: the handler is destroyed by its own callback and used after that. *)
Theorem handler_closed (hid : nat) (w : UpstreamWorld) (u : UpstreamHandlerImpl) (event : ConnectionEvent)
    (Hu : handlers w !! hid = Some u) (Hk : upstream_handlers_ w !! key_ u = Some hid)
    (Honly : ∀ k, upstream_handlers_ w !! k = Some hid → k = key_ u)
    (Hone : upstream_handle_ u = None ∨ conn_data_ u = None) (Hev : event ≠ Connected) :
  if decide (owners u = 0%nat) then
    ∃ w', handler_onEvent hid event w = (Panic "use after free", w') ∧ handlers w' !! hid = None
  else
    ∃ w', handler_onEvent hid event w = (Return tt, w') ∧
      handlers w' = <[hid := closed_handler u]> (handlers w) ∧
      upstream_handlers_ w' = delete (key_ u) (upstream_handlers_ w) ∧
      cancelled w' = cancelled w ++ (if upstream_handle_ u is Some k then [(k, CancelDefault)] else []) ∧
      released w' = released w ++ (if conn_data_ u is Some c then [c] else []) ∧
      client w' = client w ∧ outside w' = outside w.
Proof.
  assert (handler_onEvent hid event = onClose hid) as -> by (by destruct event).
  set (u1 := u <| pool_ready_ := false |>). set (w1 := w <| handlers ::= <[hid := u1]> |>).
  assert (handlers w1 !! hid = Some u1) as Hu1 by apply handlers_upd.
  set (w2 := w1 <| upstream_handlers_ ::= delete (key_ u) |>).
  assert (handlers w2 !! hid = Some u1) as Hu2 by exact Hu1.
  assert (delete_callback_ hid w1 = if (owners u =? 0)%nat then destroy_handler hid w2 else (Return tt, w2)) as Hdel.
  { exact (delete_callback_run hid w1 u1 Hu1 Hk Honly). }
  destruct (decide (owners u = 0%nat)) as [Hown | Hown].
  - rewrite Hown in Hdel. cbn [Nat.eqb] in Hdel.
    destruct (destroy_handler_run hid w2 u1 Hu2) as (w3 & Hd & Hh & _). rewrite Hd in Hdel.
    assert (handlers w3 !! hid = None) as Hnone by (rewrite Hh; apply lookup_delete_eq).
    exists w3. split; [| exact Hnone]. unfold onClose.
    rewrite run_bind, (on_handler_run _ _ _ _ Hu). cbv beta iota. fold u1 w1.
    rewrite run_bind, Hdel. cbv beta iota. by rewrite run_bind, (get_handler_none _ _ Hnone).
  - rewrite (proj2 (Nat.eqb_neq _ _) Hown) in Hdel.
    destruct (close_rest hid w2 u1 Hu2 Hone) as (w' & Hrun & Hw & Hf).
    exists w'. split; [| split; [by rewrite Hw; apply insert_insert_eq | exact Hf]]. unfold onClose.
    rewrite run_bind, (on_handler_run _ _ _ _ Hu). cbv beta iota. fold u1 w1.
    rewrite run_bind, Hdel. cbv beta iota. exact Hrun.
Qed.
(** *** Requests that wait for the connection *)

Definition connected (u : UpstreamHandlerImpl) : Prop :=
  pool_ready_ u = true ∧ upstream_handle_ u = None ∧ is_Some (conn_data_ u).

(** What a callback of a request does to a handler: it may write to the connection,
    but leaves the waiting requests alone. *)
Definition tells (call : M UpstreamWorld unit) (told : outside_t → list (nat * option PoolFailureReason))
    (hid : nat) (keeps : UpstreamHandlerImpl → Prop) (e : nat * option PoolFailureReason) : Prop :=
  ∀ w u, handlers w !! hid = Some u → keeps u →
    ∃ w' u', call w = (Return tt, w') ∧ handlers w' !! hid = Some u' ∧ keeps u' ∧
      upstream_request_callbacks_ u' = upstream_request_callbacks_ u ∧
      upstream_handlers_ w' = upstream_handlers_ w ∧ told (outside w') = told (outside w) ++ [e].

Class RequestCallbacksLaws (told : outside_t → list (nat * option PoolFailureReason)) : Prop := {
  request_onPoolReady_tells p host hid : tells (request_onPoolReady p host) told hid connected (p, None);
  request_onPoolFailure_tells p reason host hid :
    tells (request_onPoolFailure p reason host) told hid (λ _, True) (p, Some reason)
}.

Lemma notify_run call told hid keeps (r : option PoolFailureReason) all rest w u :
  (∀ p, tells (call p) told hid keeps (p, r)) →
  handlers w !! hid = Some u → keeps u → upstream_request_callbacks_ u = all →
  ∃ w' u', notify hid call all rest w = (Return tt, w') ∧ handlers w' !! hid = Some u' ∧ keeps u' ∧
    upstream_handlers_ w' = upstream_handlers_ w ∧
    told (outside w') = told (outside w) ++ ((λ p, (p, r)) <$> omap id rest).
Proof.
  intros Hcall. revert w u. induction rest as [|o rest IH]; intros w u Hu Hk Hall; cbn [notify].
  { exists w, u. rewrite app_nil_r. done. }
  assert (∃ w1 u1, (match o with Some p => call p | None => mret tt end) w = (Return tt, w1) ∧
    handlers w1 !! hid = Some u1 ∧ keeps u1 ∧ upstream_request_callbacks_ u1 = all ∧
    upstream_handlers_ w1 = upstream_handlers_ w ∧
    told (outside w1) = told (outside w) ++ (if o is Some p then [(p, r)] else []))
    as (w1 & u1 & Hrun & Hu1 & Hk1 & Hc1 & Hm1 & Ht1).
  { destruct o as [p|].
    - destruct (Hcall p w u Hu Hk) as (w1 & u1 & H1 & H2 & H3 & H4 & H5 & H6).
      exists w1, u1. split_and!; try done. by rewrite H4.
    - exists w, u. rewrite app_nil_r. by split_and!. }
  destruct (IH w1 u1 Hu1 Hk1 Hc1) as (w' & u' & Hn & Hu' & Hk' & Hm' & Ht'). exists w', u'.
  split_and!; [| done | done | by rewrite Hm' | ].
  - rewrite run_bind, Hrun. cbv beta iota. rewrite run_bind, (get_handler_run _ _ _ Hu1). cbv beta iota.
    by rewrite decide_True.
  - rewrite Ht', Ht1, <- app_assoc. by destruct o.
Qed.

Section pool.
Context (told : outside_t → list (nat * option PoolFailureReason)) {RL : RequestCallbacksLaws told}.

Lemma onPoolReady_run hid w u conn host :
  handlers w !! hid = Some u →
  ∃ w' u', onPoolReady hid conn host w = (Return tt, w') ∧ handlers w' !! hid = Some u' ∧ connected u' ∧
    upstream_request_callbacks_ u' = [] ∧ upstream_handlers_ w' = upstream_handlers_ w ∧
    told (outside w') = told (outside w) ++ ((λ p, (p, None)) <$> omap id (upstream_request_callbacks_ u)).
Proof.
  intros Hu. unfold onPoolReady. rewrite run_bind, (get_handler_run _ _ _ Hu). cbv beta iota.
  set (w1 := (release_connection (conn_data_ u) w).2).
  assert (release_connection (conn_data_ u) w = (Return tt, w1) ∧ handlers w1 = handlers w ∧
    upstream_handlers_ w1 = upstream_handlers_ w ∧ outside w1 = outside w) as (Hr & Hh1 & Hm1 & Ho1)
    by (unfold w1; by destruct (conn_data_ u)). clearbody w1.
  rewrite run_bind, Hr. cbv beta iota. rewrite <- Hh1 in Hu. rewrite run_bind, (on_handler_run _ _ _ _ Hu). cbv beta iota.
  set (u2 := u <| upstream_host_ := _ |> <| conn_data_ := _ |> <| upstream_handle_ := _ |> <| pool_ready_ := _ |>).
  set (w2 := w1 <| handlers ::= _ |>). assert (handlers w2 !! hid = Some u2) as Hu2 by apply handlers_upd.
  destruct (notify_run (λ p, request_onPoolReady p host) told hid connected None
    (upstream_request_callbacks_ u) (upstream_request_callbacks_ u) w2 u2)
    as (w3 & u3 & Hn & Hu3 & Hk3 & Hm3 & Ht3); [intros; apply request_onPoolReady_tells | done | by repeat split | done |].
  exists (w3 <| handlers ::= <[hid := u3 <| upstream_request_callbacks_ := [] |>]> |>), (u3 <| upstream_request_callbacks_ := [] |>).
  split_and!; [| apply handlers_upd | done | done | | ].
  + rewrite run_bind, Hn. cbv beta iota. by rewrite (on_handler_run _ _ _ _ Hu3).
  + etrans; [exact Hm3 | exact Hm1].
  + etrans; [exact Ht3 |]. change (outside w2) with (outside w1). by rewrite Ho1.
Qed.

Lemma onPoolFailure_run hid w u reason host :
  handlers w !! hid = Some u → upstream_handlers_ w !! key_ u = Some hid →
  (∀ k, upstream_handlers_ w !! k = Some hid → k = key_ u) → owners u ≠ 0%nat →
  ∃ w' u', onPoolFailure hid reason host w = (Return tt, w') ∧ handlers w' !! hid = Some u' ∧
    upstream_request_callbacks_ u' = [] ∧ upstream_handlers_ w' = delete (key_ u) (upstream_handlers_ w) ∧
    told (outside w') = told (outside w) ++ ((λ p, (p, Some reason)) <$> omap id (upstream_request_callbacks_ u)).
Proof.
  intros Hu Hk Honly Hown. unfold onPoolFailure. rewrite run_bind, (on_handler_run _ _ _ _ Hu). cbv beta iota.
  set (u1 := u <| upstream_handle_ := None |>). set (w1 := w <| handlers ::= <[hid := u1]> |>).
  assert (handlers w1 !! hid = Some u1) as Hu1 by apply handlers_upd.
  set (w2 := w1 <| upstream_handlers_ ::= delete (key_ u) |>). assert (handlers w2 !! hid = Some u1) as Hu2 by exact Hu1.
  assert (delete_callback_ hid w1 = (Return tt, w2)) as Hdel.
  { rewrite (delete_callback_run hid w1 u1 Hu1 Hk Honly).
    change (owners u1) with (owners u). by rewrite (proj2 (Nat.eqb_neq _ _) Hown). }
  rewrite run_bind, Hdel. cbv beta iota. rewrite run_bind, (get_handler_run _ _ _ Hu2). cbv beta iota.
  destruct (notify_run (λ p, request_onPoolFailure p reason host) told hid (λ _, True) (Some reason)
    (upstream_request_callbacks_ u) (upstream_request_callbacks_ u) w2 u1)
    as (w3 & u3 & Hn & Hu3 & _ & Hm3 & Ht3); [intros; apply request_onPoolFailure_tells | done | done | done |].
  exists (w3 <| handlers ::= <[hid := u3 <| upstream_request_callbacks_ := [] |>]> |>), (u3 <| upstream_request_callbacks_ := [] |>).
  split_and!; [| apply handlers_upd | done | exact Hm3 | exact Ht3].
  change (upstream_request_callbacks_ u1) with (upstream_request_callbacks_ u).
  rewrite run_bind, Hn. cbv beta iota. by rewrite (on_handler_run _ _ _ _ Hu3).
Qed.
End pool.

(** when the pool has a connection, the handler is ready and every request that
    waited is told so, once and in the order they came; when the pool has failed, they
    are told that, and the handler is off the manager.  In both cases nobody waits any
    more. *)
Theorem handler_pool_notifies (told : outside_t → list (nat * option PoolFailureReason))
    {RL : RequestCallbacksLaws told} (hid : nat) (w : UpstreamWorld) (u : UpstreamHandlerImpl)
    (host : string) (Hu : handlers w !! hid = Some u) :
  let waiting := omap id (upstream_request_callbacks_ u) in
  (∀ conn, ∃ w' u', onPoolReady hid conn host w = (Return tt, w') ∧ handlers w' !! hid = Some u' ∧ connected u' ∧
     upstream_request_callbacks_ u' = [] ∧ upstream_handlers_ w' = upstream_handlers_ w ∧
     told (outside w') = told (outside w) ++ ((λ p, (p, None)) <$> waiting)) ∧
  (∀ reason, upstream_handlers_ w !! key_ u = Some hid →
     (∀ k, upstream_handlers_ w !! k = Some hid → k = key_ u) → owners u ≠ 0%nat →
   ∃ w' u', onPoolFailure hid reason host w = (Return tt, w') ∧ handlers w' !! hid = Some u' ∧
     upstream_request_callbacks_ u' = [] ∧ upstream_handlers_ w' = delete (key_ u) (upstream_handlers_ w) ∧
     told (outside w') = told (outside w) ++ ((λ p, (p, Some reason)) <$> waiting)).
Proof. intros waiting. split; intros; [by apply onPoolReady_run | by apply onPoolFailure_run]. Qed.
End lemmas.

(** *** Responses *)

Section responses.
Context {E : Envoy} {C : CodecOps E} {N : NetworkOps} {T : UpstreamTypes} {V : UpstreamEnv}.
Context {L : EnvoyLaws E} {K : CodecContract C}.
Implicit Types (hid : nat) (w : UpstreamWorld) (u : UpstreamHandlerImpl) (d : UpstreamHandlerResponseDecoder).

Definition host_of d (b : buffer) w : Host unit (UpstreamWorld * bool) :=
  {| h_decoder := ud_decoder_ d; h_codec := ud_codec_ d; h_buffer := b; h_world := (w, ud_complete_ d) |}.
Definition decoder_of (h : Host unit (UpstreamWorld * bool)) : UpstreamHandlerResponseDecoder :=
  {| ud_codec_ := h_codec h; ud_decoder_ := h_decoder h; ud_complete_ := (h_world h).2 |}.
Definition with_decoder d u : UpstreamHandlerImpl :=
  u <| upstream_response_ := Some {| response_decoder_ := Some d |} |>.

(** The decoder the next data goes to. *)
Definition current u : option UpstreamHandlerResponseDecoder :=
  match upstream_response_ u with Some r => response_decoder_ r | None => Some new_decoder end.

Lemma get_decoder_run hid w u d :
  handlers w !! hid = Some u → upstream_response_ u = Some {| response_decoder_ := Some d |} →
  get_decoder hid w = (Return d, w).
Proof. intros Hu Hd. unfold get_decoder. rewrite run_bind, (get_handler_run _ _ _ Hu). cbv beta iota. by rewrite Hd. Qed.

Definition finish (hid : nat) (status : UpstreamResponseStatus) : M (UpstreamWorld * buffer) unit :=
  match status with
  | UpstreamResponse_Complete | UpstreamResponse_Reset =>
      in_handler (on_handler hid (λ u, u <| upstream_response_ := None |>))
  | UpstreamResponse_MoreData | UpstreamResponse_Retry => mret tt
  end.

(** [onUpstreamData] once the response decoder is there. *)
Lemma onUpstreamData_started hid w u d b :
  handlers w !! hid = Some u → current u = Some d →
  onUpstreamData hid (w, b) =
    (status ← ud_decode hid; finish hid status) (w <| handlers ::= <[hid := with_decoder d u]> |>, b).
Proof.
  intros Hu Hd. unfold onUpstreamData. rewrite run_bind. unfold in_handler at 1. rewrite (get_handler_run _ _ _ Hu). cbv beta iota.
  rewrite run_bind. unfold current in Hd. set (w1 := w <| handlers ::= <[hid := with_decoder d u]> |>).
  assert (handlers w1 !! hid = Some (with_decoder d u)) as Hu1 by apply handlers_upd.
  assert ((match upstream_response_ u with
           | None =>
               _ ← in_handler (on_handler hid (λ u, u <| upstream_response_ := Some {| response_decoder_ := None |} |>));
               in_handler (handler_startUpstreamResponse hid)
           | Some _ => mret tt
           end) (w, b) = (Return tt, (w1, b))) as ->.
  { destruct (upstream_response_ u) as [[o]|] eqn:Hr; cbn in Hd; simplify_eq.
    - cbn [mret M_ret]. do 2 f_equal. unfold w1, with_decoder. rewrite <- Hr.
      assert (u <| upstream_response_ := upstream_response_ u |> = u) as -> by (by destruct u).
      destruct w. unfold upd. cbn in *. by rewrite insert_id.
    - rewrite run_bind. unfold in_handler at 1. rewrite (on_handler_run _ _ _ _ Hu). cbv beta iota.
      set (u0 := u <| upstream_response_ := Some {| response_decoder_ := None |} |>).
      set (w0 := w <| handlers ::= <[hid := u0]> |>). assert (handlers w0 !! hid = Some u0) as Hu0 by apply handlers_upd.
      unfold in_handler, handler_startUpstreamResponse. rewrite run_bind, (get_handler_run _ _ _ Hu0). cbv beta iota.
      rewrite run_bind. cbn [ASSERT lift assert_that]. cbv beta iota. unfold put_decoder. rewrite (on_handler_run _ _ _ _ Hu0).
      unfold w1, w0. destruct w. unfold upd. cbn. by rewrite insert_insert_eq. }
  cbv beta iota. rewrite run_bind. unfold handler_upstreamData. rewrite run_bind. unfold in_handler at 1.
  by rewrite (get_decoder_run _ _ _ d Hu1).
Qed.

(** [ud_decode], from a run of the decoder after which the handler is still there. *)
Lemma ud_decode_run hid w u d b (underflow : bool) h u' d' :
  handlers w !! hid = Some u → upstream_response_ u = Some {| response_decoder_ := Some d |} →
  onData (D := ud_callbacks hid) (host_of d b w) = (Return underflow, h) →
  handlers (h_world h).1 !! hid = Some u' → upstream_response_ u' = Some {| response_decoder_ := Some d' |} →
  (h_world h).2 || underflow = true →
  ud_decode hid (w, b) =
    (Return (if (h_world h).2 then UpstreamResponse_Complete else UpstreamResponse_MoreData),
     ((h_world h).1 <| handlers ::= <[hid := with_decoder (decoder_of h) u']> |>, h_buffer h)).
Proof.
  intros Hu Hd Hrun Hu' Hd' Hc. set (w1 := (h_world h).1 <| handlers ::= <[hid := with_decoder (decoder_of h) u']> |>).
  assert (handlers w1 !! hid = Some (with_decoder (decoder_of h) u')) as Hu1 by apply handlers_upd.
  assert (ud_run hid (w, b) = (Return underflow, (w1, h_buffer h))) as Hr.
  { unfold ud_run. rewrite (get_decoder_run _ _ _ _ Hu Hd). fold (host_of d b w). rewrite Hrun.
    rewrite run_bind, (get_decoder_run _ _ _ _ Hu' Hd'). cbv beta iota. unfold put_decoder.
    by rewrite (on_handler_run _ _ _ _ Hu'). }
  unfold ud_decode. rewrite run_bind. unfold catch_envoy, try_catch. rewrite run_bind, Hr. cbn [mret M_ret]. cbv beta iota.
  rewrite run_bind. unfold in_handler. rewrite (get_decoder_run _ _ _ (decoder_of h) Hu1) by done. cbv beta iota.
  rewrite run_bind. change (ud_complete_ (decoder_of h)) with (h_world h).2. by rewrite Hc.
Qed.

(** The decoder of a handler holds the bytes [l] of a response that is not complete. *)
Definition receiving u (b : buffer) (l : bytes) : Prop :=
  ∃ d, current u = Some d ∧ ud_complete_ d = uninitialised_bit ∧
    ∀ w, ready MessageType_Response (host_of d b w) l.

Lemma receiving_none u b : upstream_response_ u = None → receiving u b [].
Proof.
  intros Hr. exists new_decoder. unfold current. rewrite Hr. split_and!; [done | done |]. intros w.
  split_and!; try done. apply codec_rep_init. by right.
Qed.

Lemma receiving_add u b l (data : bytes) : is_bytes data → receiving u b l → receiving u (buf_add b data) l.
Proof.
  intros Hd (dd & Hc & Hb & Hr). exists dd. split_and!; [done | done |]. intros w. destruct (Hr w) as (Hrep & H1 & H2 & H3).
  split_and!; try done. unfold pending, host_of in *. cbn [h_buffer h_codec] in *.
  rewrite buf_add_spec, app_assoc by done. by apply codec_rep_app.
Qed.

(** Handlers that differ in their response decoder only. *)
Definition same_but_response u u' : Prop := u' = u <| upstream_response_ := upstream_response_ u' |>.
Definition same_but_handlers w w' : Prop :=
  upstream_handlers_ w' = upstream_handlers_ w ∧ client w' = client w ∧ cancelled w' = cancelled w ∧
  released w' = released w ∧ outside w' = outside w.
Lemma with_decoder_same d u : same_but_response u (with_decoder d u).
Proof. done. Qed.
Lemma same_but_response_trans u1 u2 u3 : same_but_response u1 u2 → same_but_response u2 u3 → same_but_response u1 u3.
Proof. unfold same_but_response. destruct u1, u2, u3. unfold upd. cbn. congruence. Qed.
Lemma same_but_handlers_trans w1 w2 w3 : same_but_handlers w1 w2 → same_but_handlers w2 w3 → same_but_handlers w1 w3.
Proof. unfold same_but_handlers. intuition congruence. Qed.

(** Data that does not complete a response: with a clear bit the decoder keeps what
    it has; with a set bit it is thrown away, and with it the bytes it has taken. *)
Lemma onUpstreamData_partial hid w u b l :
  handlers w !! hid = Some u → receiving u b l → frame MessageType_Response (l ++ contents b) = FWait →
  ∃ w' u' b' l', onUpstreamData hid (w, b) = (Return tt, (w', b')) ∧ handlers w' !! hid = Some u' ∧
    same_but_response u u' ∧ same_but_handlers w w' ∧ l' ++ contents b' = l ++ contents b ∧
    if uninitialised_bit then upstream_response_ u' = None else receiving u' b' l'.
Proof.
  intros Hu (d & Hd & Hbit & Hrdy) Hf.
  set (w1 := w <| handlers ::= <[hid := with_decoder d u]> |>).
  assert (handlers w1 !! hid = Some (with_decoder d u)) as Hu1 by apply handlers_upd.
  destruct (onData_wait (D := ud_callbacks hid) MessageType_Response (host_of d b w1) l (Hrdy w1) Hf)
    as (h & l' & Hrun & Hr' & Hp' & Hw').
  assert ((h_world h).1 = w1 ∧ (h_world h).2 = ud_complete_ d) as [Hw1 Hw2] by (by rewrite Hw').
  pose proof (ud_decode_run hid w1 _ d b true h (with_decoder d u) d Hu1 eq_refl Hrun) as Hdec.
  rewrite Hw1, Hw2, Hbit in Hdec. specialize (Hdec Hu1 eq_refl (orb_true_r _)).
  rewrite (onUpstreamData_started hid w u d b Hu Hd). fold w1. rewrite run_bind, Hdec. cbv beta iota.
  set (u2 := with_decoder (decoder_of h) (with_decoder d u)). set (w2 := w1 <| handlers ::= <[hid := u2]> |>).
  assert (handlers w2 !! hid = Some u2) as Hu2 by apply handlers_upd.
  destruct uninitialised_bit eqn:Hb; cbn [finish].
  - exists (w2 <| handlers ::= <[hid := u2 <| upstream_response_ := None |>]> |>), (u2 <| upstream_response_ := None |>), (h_buffer h), l'.
    split_and!; try done; [| apply handlers_upd]. unfold in_handler. by rewrite (on_handler_run _ _ _ _ Hu2).
  - exists w2, u2, (h_buffer h), l'. split_and!; try done. exists (decoder_of h). unfold decoder_of at 2.
    split_and!; [done | by cbn; rewrite Hw2, Hb |]. intros w'. exact Hr'.
Qed.

(** A complete message is handed over once, to the state the decoder has then; if this
    is the end of the process, it is the end of the decoder. *)
Lemma onData_message hid h l n v :
  ready MessageType_Response h l → frame MessageType_Response (pending h l) = FDone n v →
  message_type_ v.1 ≠ MessageType_Heartbeat →
  ∃ m h2, view m = v ∧ contents (h_buffer h2) = zdrop n (pending h l) ∧ h_world h2 = h_world h ∧
    (∀ h3, ud_onMessageDecoded hid m ∅ h2 = (Return tt, h3) → h_decoder h3 = h_decoder h2 →
      ∃ h4, onData (D := ud_callbacks hid) h = (Return (buf_length (h_buffer h3) =? 0), h4) ∧
        h_world h4 = h_world h3 ∧ h_buffer h4 = h_buffer h3) ∧
    (∀ p h3, ud_onMessageDecoded hid m ∅ h2 = (Panic p, h3) → onData (D := ud_callbacks hid) h = (Panic p, h3)).
Proof.
  intros (Hrep & Ht & Hs & Hst) Hf Hnh.
  pose proof (codec_decode_spec MessageType_Response (h_codec h) l (h_buffer h) Hrep) as Hsp.
  unfold pending in *. rewrite Hf in Hsp. destruct Hsp as (c & b & m & Hd & _ & Hb & Hv).
  destruct (onData_started (D := ud_callbacks hid) h Hst) as (h0 & s0 & Hh0 & Hon & Hne).
  assert (h_codec h0 = h_codec h ∧ h_buffer h0 = h_buffer h ∧ h_world h0 = h_world h ∧
    stream_ (h_decoder h0) = None ∧ state_machine_ (h_decoder h0) = Some s0 ∧
    messageType_ (h_decoder h0) = MessageType_Response) as (Hc0 & Hb0 & Hw0 & Hs0 & Hm0 & Ht0) by (by subst h0).
  clear Hh0. set (h1 := h0 <| h_codec := c |> <| h_buffer := b |>).
  set (s := {| as_handler := tt; as_metadata := m; as_mutation := ∅ |} : ActiveStream unit).
  set (h2 := h1 <| h_decoder ::= λ x : DecoderBase unit, x <| stream_ := Some s |> |>).
  exists m, h2.
  assert (onDecodeStream (D := ud_callbacks hid) h0 =
    (_ ← ud_onMessageDecoded hid m ∅; mret ProtocolState_Done) h2) as Hods.
  { assert (decode_with_codec (fresh_metadata MessageType_Response) h0 = (Return (DecodeStatus_Done, m), h1)) as Hdec.
    { unfold decode_with_codec. by rewrite Hc0, Hb0, Hd. }
    assert (message_type_ m ≠ MessageType_Heartbeat) by (by rewrite <- Hv in Hnh).
    unfold onDecodeStream. mstep. rewrite Ht0, Hdec. cbv beta iota. rewrite !decide_False by done. mstep.
    assert (newStream (D := ud_callbacks hid) m ∅ h1 = (Return s, h2)) as ->.
    { unfold newStream. mstep. rewrite bool_decide_true by exact Hs0. done. }
    cbv beta iota. rewrite run_bind. unfold onStreamDecoded. cbn [handler_onMessageDecoded ud_callbacks s as_metadata as_mutation].
    by destruct (ud_onMessageDecoded hid m ∅ h2) as [[] ?]. }
  rewrite run_bind in Hods. split_and!; [done | done | done | intros h3 Hh3 Hd3 | intros p h3 Hh3]; rewrite Hh3 in Hods.
  - rewrite Hon, run_bind, (run_state (D := ud_callbacks hid) h0 s0); try done.
    + rewrite Hods. eexists. split; [reflexivity |]. done.
    + intros st h' Hx. rewrite Hods in Hx. injection Hx as _ <-. rewrite Hd3. by exists s0.
  - rewrite Hon, run_bind, (run_state (D := ud_callbacks hid) h0 s0); try done; [by rewrite Hods |].
    intros st h' Hx. by rewrite Hods in Hx.
Qed.

(** What a handler relies on when it hands a response to the owner of a request: as long
    as this owner is [good] for the handler, it changes the outside as [deliver] says and
    lets go of the handler, which stays alive if the manager has it; or the process ends. *)
Class ResponseCallbackLaws (good : nat → ResponseCallback → outside_t → Prop)
    (deliver : ResponseCallback → MetadataImpl → outside_t → outcome outside_t) : Prop :=
  response_callback_spec hid callback m w u :
    handlers w !! hid = Some u → managed hid w = true → good hid callback (outside w) →
    match deliver callback m (outside w) with
    | Return o => ∃ w', response_callback callback m w = (Return tt, w') ∧ outside w' = o ∧
        client w' = client w ∧ upstream_handlers_ w' = upstream_handlers_ w ∧
        handlers w' !! hid = Some (u <| owners ::= pred |>)
    | Throw _ => False
    | Panic p => response_callback callback m w = (Panic p, w)
    end.

Context (good : nat → ResponseCallback → outside_t → Prop)
  (deliver : ResponseCallback → MetadataImpl → outside_t → outcome outside_t) {RL : ResponseCallbackLaws good deliver}.

(** The callback that waits for a response, if there is one. *)
Definition waiting_callback u (id : Z) : option ResponseCallback :=
  match response_callbacks_ u !! id with Some o => o | None => None end.
(** The handler after a response. *)
Definition answered u (id : Z) : UpstreamHandlerImpl :=
  if waiting_callback u id is Some _ then u <| owners ::= pred |> <| response_callbacks_ ::= delete id |> else u.
Definition delivered u (m : MetadataImpl) (o : outside_t) : outcome outside_t :=
  if waiting_callback u (request_id_ m) is Some callback then deliver callback m o else Return o.
Definition is_good hid u (m : MetadataImpl) (o : outside_t) : Prop :=
  ∀ callback, waiting_callback u (request_id_ m) = Some callback → good hid callback o.

Lemma handler_onMessage_run hid w u m (m1 := m <| origin_message_ := buf_new |>) :
  handlers w !! hid = Some u → managed hid w = true →
  message_type_ m = MessageType_Response ∨ message_type_ m = MessageType_Error → is_good hid u m1 (outside w) →
  match delivered u m1 (outside w) with
  | Return o => ∃ w', handler_onMessage hid m w = (Return tt, w') ∧
      handlers w' !! hid = Some (answered u (request_id_ m)) ∧ upstream_handlers_ w' = upstream_handlers_ w ∧
      client w' = conn_write (client w) (contents (origin_message_ m)) false ∧ outside w' = o
  | Throw _ => False
  | Panic p => ∃ w', handler_onMessage hid m w = (Panic p, w') ∧ handlers w' = handlers w
  end.
Proof using RL.
  intros Hu Hman Hm Hgood. unfold handler_onMessage. rewrite run_bind, bool_decide_true by done. cbn [ASSERT lift assert_that].
  cbv beta iota. rewrite run_bind. cbn [modify]. cbv beta iota.
  set (w1 := w <| client ::= _ |>). assert (handlers w1 !! hid = Some u) as Hu1 by exact Hu.
  rewrite run_bind, (get_handler_run _ _ _ Hu1). cbv beta iota.
  fold m1. change (request_id_ m) with (request_id_ m1). unfold is_good in Hgood.
  unfold answered, delivered, waiting_callback in *.
  destruct (response_callbacks_ u !! request_id_ m1) as [[callback|]|] eqn:Hcb; [| by exists w1 | by exists w1].
  pose proof (response_callback_spec hid callback m1 w1 u Hu1 Hman (Hgood _ eq_refl)) as Hsp.
  change (outside w1) with (outside w) in Hsp. destruct (deliver callback m1 (outside w)) as [o|e|p]; [| done |].
  2: { exists w1. by rewrite run_bind, Hsp. }
  destruct Hsp as (w2 & Hrun & Ho & Hc & Hh & Hu2). set (u2 := u <| owners ::= pred |>) in *.
  exists (w2 <| handlers ::= <[hid := u2 <| response_callbacks_ ::= delete (request_id_ m1) |>]> |>).
  split_and!; [| apply handlers_upd | exact Hh | exact Hc | exact Ho].
  rewrite run_bind, Hrun. cbv beta iota. rewrite run_bind, (get_handler_run _ _ _ Hu2). cbv beta iota.
  change (response_callbacks_ u2) with (response_callbacks_ u). rewrite Hcb.
  by rewrite (on_handler_run _ _ _ _ Hu2).
Qed.

(** What the codec makes of a response it has decoded when nothing is to be changed. *)
Definition encodes (v : MetadataImpl * bytes) (out : bytes) : Prop :=
  ∀ c m, view m = v → ∃ c' b', codec_encode m ∅ (c, origin_message_ m) = (Return tt, (c', b')) ∧ contents b' = out.

(** The decoder hands a complete response over. *)
Lemma ud_message_run hid w u d b l n v out :
  handlers w !! hid = Some u → managed hid w = true → (∀ w, ready MessageType_Response (host_of d b w) l) →
  frame MessageType_Response (l ++ contents b) = FDone n v →
  message_type_ v.1 = MessageType_Response ∨ message_type_ v.1 = MessageType_Error → encodes v out →
  is_good hid u v.1 (outside w) →
  match delivered u v.1 (outside w) with
  | Return o => ∃ w' h underflow, onData (D := ud_callbacks hid) (host_of d b w) = (Return underflow, h) ∧ h_world h = (w', true) ∧
      contents (h_buffer h) = zdrop n (l ++ contents b) ∧ handlers w' !! hid = Some (answered u (request_id_ v.1)) ∧
      upstream_handlers_ w' = upstream_handlers_ w ∧ client w' = conn_write (client w) out false ∧ outside w' = o
  | Throw _ => False
  | Panic p => ∃ h, onData (D := ud_callbacks hid) (host_of d b w) = (Panic p, h) ∧ handlers (h_world h).1 = handlers w
  end.
Proof using RL L.
  intros Hu Hman Hrdy Hf Hty Henc Hgood.
  destruct (onData_message hid (host_of d b w) l n v (Hrdy w) Hf) as (m & h2 & Hv & Hb2 & Hw2 & Hdone & Hpanic);
    [by destruct Hty as [-> | ->] |].
  destruct (Henc (h_codec h2) m Hv) as (c' & ob & Hec & Hob).
  set (m1 := m <| origin_message_ := ob |>).
  assert (m1 <| origin_message_ := buf_new |> = v.1) as Hm1 by (by rewrite <- Hv).
  assert (message_type_ m1 = MessageType_Response ∨ message_type_ m1 = MessageType_Error) as Hty1 by (by rewrite <- Hv in Hty).
  assert (ud_onMessageDecoded hid m ∅ h2 =
    let '(o, w3) := handler_onMessage hid m1 w in (o, h2 <| h_world := (w3, true) |> <| h_codec := c' |>)) as Hrun.
  { unfold ud_onMessageDecoded. rewrite run_bind. cbn [modify]. cbv beta iota. rewrite run_bind. unfold ud_encode.
    change (h_codec (h2 <| h_world ::= _ |>)) with (h_codec h2). rewrite Hec. cbn [fmap outcome_fmap]. cbv beta iota. fold m1.
    unfold in_state. change (h_world (h2 <| h_world ::= _ |> <| h_codec := c' |>)).1 with (h_world h2).1.
    rewrite Hw2. cbn [host_of h_world fst]. destruct (handler_onMessage hid m1 w) as [o w3]. by destruct h2. }
  rewrite <- Hm1 in Hgood. pose proof (handler_onMessage_run hid w u m1 Hu Hman Hty1 Hgood) as Hmsg. rewrite Hm1 in Hmsg.
  assert (request_id_ m1 = request_id_ v.1) as Hid by (by rewrite <- Hm1). rewrite Hid in Hmsg.
  destruct (delivered u v.1 (outside w)) as [o|e|p]; [| done |].
  - destruct Hmsg as (w3 & Hr3 & Hu3 & Hh3 & Hc3 & Ho3). rewrite Hr3 in Hrun.
    destruct (Hdone _ Hrun eq_refl) as (h4 & Hon & Hw4 & Hb4). exists w3, h4. eexists. split_and!; [exact Hon | exact Hw4 | | done | done | | done].
    + rewrite Hb4. exact Hb2.
    + rewrite Hc3. change (origin_message_ m1) with ob. by rewrite Hob.
  - destruct Hmsg as (w3 & Hr3 & Hh3). rewrite Hr3 in Hrun. eexists. split; [exact (Hpanic _ _ Hrun) | exact Hh3].
Qed.

Lemma onUpstreamData_complete hid w u b l n v out :
  handlers w !! hid = Some u → managed hid w = true → receiving u b l →
  frame MessageType_Response (l ++ contents b) = FDone n v →
  message_type_ v.1 = MessageType_Response ∨ message_type_ v.1 = MessageType_Error → encodes v out →
  is_good hid u v.1 (outside w) →
  match delivered u v.1 (outside w) with
  | Return o => ∃ w' b', onUpstreamData hid (w, b) = (Return tt, (w', b')) ∧
      handlers w' !! hid = Some ((answered u (request_id_ v.1)) <| upstream_response_ := None |>) ∧
      contents b' = zdrop n (l ++ contents b) ∧ upstream_handlers_ w' = upstream_handlers_ w ∧
      client w' = conn_write (client w) out false ∧ outside w' = o
  | Throw _ => False
  | Panic p => (onUpstreamData hid (w, b)).1 = Panic p
  end.
Proof using RL L.
  intros Hu Hman (d & Hd & Hbit & Hrdy) Hf Hty Henc Hgood.
  set (w1 := w <| handlers ::= <[hid := with_decoder d u]> |>).
  assert (handlers w1 !! hid = Some (with_decoder d u)) as Hu1 by apply handlers_upd.
  pose proof (ud_message_run hid w1 (with_decoder d u) d b l n v out Hu1 Hman Hrdy Hf Hty Henc Hgood) as Hrun.
  change (outside w1) with (outside w) in Hrun. change (delivered (with_decoder d u)) with (delivered u) in Hrun.
  rewrite (onUpstreamData_started hid w u d b Hu Hd). fold w1. rewrite run_bind.
  destruct (delivered u v.1 (outside w)) as [o|e|p]; [| done |].
  - destruct Hrun as (w3 & h & underflow & Hon & Hw & Hb & Hu3 & Hh & Hc & Ho).
    assert (answered (with_decoder d u) (request_id_ v.1) = with_decoder d (answered u (request_id_ v.1))) as Ha.
    { unfold answered. change (waiting_callback (with_decoder d u)) with (waiting_callback u). by destruct (waiting_callback u _). }
    rewrite Ha in Hu3. assert ((h_world h).1 = w3 ∧ (h_world h).2 = true) as [H1 H2] by (by rewrite Hw).
    pose proof (ud_decode_run hid w1 _ d b underflow h (with_decoder d (answered u (request_id_ v.1))) d Hu1 eq_refl Hon) as Hdec.
    rewrite H1, H2 in Hdec. rewrite (Hdec Hu3 eq_refl eq_refl). cbn [finish]. unfold in_handler.
    erewrite on_handler_run by apply handlers_upd. cbv beta iota.
    eexists _, _. split; [reflexivity |]. split; [apply handlers_upd |]. by split_and!.
  - destruct Hrun as (h & Hon & Hh). unfold ud_decode. rewrite run_bind. unfold catch_envoy, try_catch. rewrite run_bind.
    unfold ud_run. rewrite (get_decoder_run _ _ _ d Hu1) by done. fold (host_of d b w1). rewrite Hon. rewrite <- Hh in Hu1.
    rewrite run_bind, (get_decoder_run _ _ _ d Hu1) by done. cbv beta iota. unfold put_decoder. by rewrite (on_handler_run _ _ _ _ Hu1).
Qed.

Lemma reads_app hid chunks chunks' s : reads hid (chunks ++ chunks') s = (reads hid chunks ≫= λ _, reads hid chunks') s.
Proof.
  revert s. induction chunks as [|d chunks IH]; intros s; [done |]. cbn [app reads].
  rewrite !run_bind. cbn [modify]. cbv beta iota. rewrite !run_bind.
  destruct (onUpstreamData hid _) as [[] s']; [| done | done]. rewrite IH. done.
Qed.

(** Reads before the last of a response. *)
Lemma reads_partial hid chunks w u b l :
  uninitialised_bit = false → Forall is_bytes chunks → handlers w !! hid = Some u → receiving u b l →
  zlen (l ++ contents b ++ concat chunks) < 2 ^ 32 →
  frame MessageType_Response (l ++ contents b ++ concat chunks) = FWait →
  ∃ w' u' b' l', reads hid chunks (w, b) = (Return tt, (w', b')) ∧ handlers w' !! hid = Some u' ∧
    same_but_response u u' ∧ same_but_handlers w w' ∧ receiving u' b' l' ∧
    l' ++ contents b' = l ++ contents b ++ concat chunks.
Proof using L.
  intros Hbit Hch. revert w u b l. induction Hch as [|d chunks Hd Hch IH]; intros w u b l Hu Hr Hlen Hf.
  { exists w, u, b, l. cbn [concat]. rewrite app_nil_r. split_and!; try done. by destruct u. }
  pose proof (receiving_add u b l d Hd Hr) as Hr1. cbn [concat] in Hlen, Hf. 
  assert (l ++ contents b ++ d ++ concat chunks = (l ++ contents (buf_add b d)) ++ concat chunks) as Heq
    by (rewrite buf_add_spec, <- !app_assoc by done; done).
  assert (frame MessageType_Response (l ++ contents (buf_add b d)) = FWait) as Hf1.
  { rewrite Heq in Hf, Hlen. destruct (frame MessageType_Response (l ++ contents (buf_add b d))) eqn:Hx; [done | | |];
      by rewrite frame_app, Hx in Hf by (done || by rewrite Hx). }
  destruct (onUpstreamData_partial hid w u (buf_add b d) l Hu Hr1 Hf1) as (w1 & u1 & b1 & l1 & Hrun & Hu1 & Hs1 & Hw1 & Hl1 & Hres).
  rewrite Hbit in Hres. rewrite Heq, <- Hl1, <- app_assoc in Hlen, Hf.
  destruct (IH w1 u1 b1 l1 Hu1 Hres Hlen Hf) as (w' & u' & b' & l' & Hrun' & Hu' & Hs' & Hw' & Hr' & Hl').
  exists w', u', b', l'. split_and!; [| done | by eapply same_but_response_trans | by eapply same_but_handlers_trans | done |].
  - cbn [reads]. rewrite run_bind. cbn [modify]. cbv beta iota. rewrite run_bind, Hrun. exact Hrun'.
  - cbn [concat]. by rewrite Hl', Heq, <- Hl1, <- app_assoc.
Qed.

(** However a response is cut into reads, and whatever bytes of the next ones come with
    its end: what becomes of it. *)
Lemma reads_response (hid : nat) (w : UpstreamWorld) (u : UpstreamHandlerImpl) (b : buffer)
    (chunks : list bytes) (last : bytes) (n : Z) (v : MetadataImpl * bytes) (out : bytes) :
  chunks = [] ∨ uninitialised_bit = false →
  handlers w !! hid = Some u → managed hid w = true → upstream_response_ u = None →
  Forall is_bytes chunks → is_bytes last → zlen (contents b ++ concat chunks) < 2 ^ 32 →
  frame MessageType_Response (contents b ++ concat chunks) = FWait →
  frame MessageType_Response (contents b ++ concat chunks ++ last) = FDone n v →
  message_type_ v.1 = MessageType_Response ∨ message_type_ v.1 = MessageType_Error → encodes v out →
  is_good hid u v.1 (outside w) →
  match delivered u v.1 (outside w) with
  | Return o => ∃ w' b', reads hid (chunks ++ [last]) (w, b) = (Return tt, (w', b')) ∧
      handlers w' !! hid = Some (answered u (request_id_ v.1)) ∧ contents b' = zdrop n (contents b ++ concat chunks ++ last) ∧
      upstream_handlers_ w' = upstream_handlers_ w ∧ client w' = conn_write (client w) out false ∧ outside w' = o
  | Throw _ => False
  | Panic p => (reads hid (chunks ++ [last]) (w, b)).1 = Panic p
  end.
Proof using RL L.
  intros Hbit Hu Hman Hidle Hch Hlast Hlen Hwait Hdone Hty Henc Hgood.
  assert (∃ w1 u1 b1 l1, reads hid chunks (w, b) = (Return tt, (w1, b1)) ∧ handlers w1 !! hid = Some u1 ∧
    same_but_response u u1 ∧ same_but_handlers w w1 ∧ receiving u1 b1 l1 ∧ l1 ++ contents b1 = contents b ++ concat chunks)
    as (w1 & u1 & b1 & l1 & Hrun & Hu1 & Hs1 & (Hm1 & Hc1 & _ & _ & Ho1) & Hr1 & Hl1).
  { pose proof (receiving_none u b Hidle) as Hr0. destruct Hbit as [-> | Hbit].
    - exists w, u, b, []. cbn [concat]. rewrite app_nil_r. split_and!; try done. by destruct u.
    - exact (reads_partial hid chunks w u b [] Hbit Hch Hu Hr0 Hlen Hwait). }
  assert (l1 ++ contents (buf_add b1 last) = contents b ++ concat chunks ++ last) as Heq
    by (rewrite buf_add_spec, app_assoc, Hl1, <- app_assoc by done; done).
  rewrite <- Heq in Hdone. assert (managed hid w1 = true) as Hman1 by (unfold managed; by rewrite Hm1).
  assert (waiting_callback u1 = waiting_callback u) as Hcb by (unfold waiting_callback; by rewrite Hs1).
  assert (is_good hid u1 v.1 (outside w1)) as Hgood1 by (unfold is_good; by rewrite Hcb, Ho1).
  pose proof (onUpstreamData_complete hid w1 u1 (buf_add b1 last) l1 n v out Hu1 Hman1 (receiving_add _ _ _ _ Hlast Hr1)
    Hdone Hty Henc Hgood1) as Hend.
  unfold delivered in *. rewrite Hcb, Ho1 in Hend. rewrite reads_app, run_bind, Hrun. cbn [reads]. cbv beta iota.
  rewrite run_bind. cbn [modify]. cbv beta iota. rewrite run_bind.
  destruct (if waiting_callback u (request_id_ v.1) is Some callback then _ else _) as [o|e|p]; [| done |].
  - destruct Hend as (w' & b' & -> & Hu' & Hb' & Hm' & Hc' & Ho'). exists w', b'. cbv beta iota.
    split_and!; [done | | by rewrite Hb', Heq | congruence | congruence | done].
    rewrite Hu'. f_equal. unfold answered. rewrite Hcb. rewrite Hs1.
    destruct (waiting_callback u _); destruct u; unfold upd in *; cbn in *; by subst.
  - destruct (onUpstreamData hid (w1, buf_add b1 last)) as [? [? ?]]. cbn in Hend. by subst.
Qed.
End responses.

(** ** Witnesses *)

(** A router that writes down what it is told. *)
Definition recording_types : UpstreamTypes := {|
  outside_t := list (nat * option PoolFailureReason) * list (nat * Z);
  ResponseCallback := nat
|}.

Section recording.
Context {E : Envoy} {C : CodecOps E} {N : NetworkOps}.
#[local] Existing Instance recording_types.

Definition recording_env : UpstreamEnv := {|
  request_onPoolReady p host := modify (λ w, w <| outside ::= λ o, (o.1 ++ [(p, None)], o.2) |>);
  request_onPoolFailure p reason host := modify (λ w, w <| outside ::= λ o, (o.1 ++ [(p, Some reason)], o.2) |>);
  response_callback cb m := modify (λ w, w <| outside ::= λ o, (o.1, o.2 ++ [(cb, request_id_ m)]) |>);
  uninitialised_bit := false
|}.

Lemma recording_requests : RequestCallbacksLaws (V := recording_env) fst.
Proof. split; intros; intros w u Hu Hk; eexists _, u; (split; [reflexivity |]); done. Qed.
(** A handler with two requests waiting for their connection and one for a response. *)
Definition sample_handler (n : nat) : UpstreamHandlerImpl :=
  (new_UpstreamHandlerImpl "cluster_host") <| upstream_request_callbacks_ := [Some 4%nat; Some 2%nat] |>
    <| response_callbacks_ := {[ 8 := Some 5%nat ]} |> <| upstream_handle_ := Some 77 |> <| owners := n |>.
Definition sample_world (conn : connection) (n : nat) : UpstreamWorld :=
  {| handlers := {[ 1%nat := sample_handler n ]}; upstream_handlers_ := {[ "cluster_host" := 1%nat ]}; client := conn;
     cancelled := []; released := []; outside := ([], []) |}.
Lemma sample_only conn n k : upstream_handlers_ (sample_world conn n) !! k = Some 1%nat → k = key_ (sample_handler n).
Proof.
  intros Hk. change (({[ "cluster_host" := 1%nat ]} : gmap string nat) !! k = Some 1%nat) in Hk.
  by apply lookup_singleton_Some in Hk as [<- _].
Qed.
End recording.

Definition idle_connection : list_connection := {| lc_state := Connection_Open; lc_written := [] |}.
Definition sample (n : nat) : UpstreamWorld (C := toy_codec) (N := list_network) (T := recording_types) :=
  sample_world (N := list_network) idle_connection n.

Lemma handler_pool_notifies_witness :
  ∃ w', onPoolFailure (V := recording_env) 1 Timeout "host" (sample 2) = (Return tt, w') ∧
    (outside w').1 = [(4%nat, Some Timeout); (2%nat, Some Timeout)].
Proof.
  destruct (handler_pool_notifies (V := recording_env) (T := recording_types) fst (RL := recording_requests) 1 (sample 2)
    (sample_handler 2) "host") as [_ Hf]; [reflexivity |].
  destruct (Hf Timeout) as (w' & u' & Hrun & _ & _ & _ & Ht);
    [reflexivity | apply (sample_only (N := list_network) idle_connection) | discriminate |].
  exists w'. split; [exact Hrun | exact Ht].
Defined.

Lemma handler_closed_witness :
  (∃ w', handler_onEvent 1 RemoteClose (sample 0) = (Panic "use after free", w')) ∧
  (∃ w', handler_onEvent 1 RemoteClose (sample 2) = (Return tt, w') ∧ cancelled w' = [(77, CancelDefault)]).
Proof.
  split.
  - pose proof (handler_closed 1 (sample 0) (sample_handler 0) RemoteClose eq_refl eq_refl
      (sample_only (N := list_network) idle_connection 0) (or_intror eq_refl) ltac:(discriminate)) as Hc.
    rewrite decide_True in Hc by reflexivity. destruct Hc as (w' & Hrun & _). exists w'. exact Hrun.
  - pose proof (handler_closed 1 (sample 2) (sample_handler 2) RemoteClose eq_refl eq_refl
      (sample_only (N := list_network) idle_connection 2) (or_intror eq_refl) ltac:(discriminate)) as Hc.
    rewrite decide_False in Hc by discriminate. destruct Hc as (w' & Hrun & _ & _ & Hcan & _). exists w'.
    split; [exact Hrun | exact Hcan].
Defined.

