(* ===== verification/Thrift.v ===== *)
(** * The Thrift codec

    Model of [application_protocols/thrift]: the state machine that walks a Thrift
    message and writes it out again, and [ThriftCodec] around it
    ([thrift_codec.h], [thrift_codec.cc]), with the data of [thrift.h] and
    [metadata.h].

    [protocol.h] and [transport.h] declare the interfaces [Protocol] and
    [Transport]; the binary, compact and other implementations are Envoy's, so both
    are classes of operations here.  The functions of [Protocol] come in pairs, one
    that reads an item of a message and one that writes it: [kind] names the pair,
    and [item] is what is read or written.  A [double] is its 64 bits. *)

From S2P Require Import Prelude Envoy Metadata Codec.

(** ** Data of thrift.h *)

Inductive ProtocolType : Type := Binary | LaxBinary | Compact | Twitter | Auto.
#[global] Instance ProtocolType_eq_dec : EqDecision ProtocolType.
Proof. solve_decision. Defined.
Definition ProtocolNames_fromType (t : ProtocolType) : string :=
  match t with
  | Binary => "binary"
  | LaxBinary => "binary/non-strict"
  | Compact => "compact"
  | Twitter => "twitter"
  | Auto => "auto"
  end.

(** Enumerations that are cast from bytes of the wire may hold any number. *)
Inductive ThriftMessageType : Type := TM_Call | TM_Reply | TM_Exception | TM_Oneway | TM_Other (z : Z).
Inductive ReplyType : Type := ReplyType_Success | ReplyType_Error.

Inductive FieldType : Type :=
| FT_Stop | FT_Void | FT_Bool | FT_Byte | FT_Double | FT_I16 | FT_I32 | FT_I64 | FT_String | FT_Struct | FT_Map
| FT_Set | FT_List | FT_Other (z : Z).
#[global] Instance FieldType_eq_dec : EqDecision FieldType.
Proof. solve_decision. Defined.
Definition FieldType_value (t : FieldType) : Z :=
  match t with
  | FT_Stop => 0 | FT_Void => 1 | FT_Bool => 2 | FT_Byte => 3 | FT_Double => 4 | FT_I16 => 6 | FT_I32 => 8
  | FT_I64 => 10 | FT_String => 11 | FT_Struct => 12 | FT_Map => 13 | FT_Set => 14 | FT_List => 15
  | FT_Other z => z
  end.

(** [static_cast<int8_t>] *)
Definition to_i8 (z : Z) : Z := let w := u8 z in if w <? 128 then w else w - 256.

Definition AppExceptionType_InternalError : Z := 6.

(** ** MessageMetadata

    [headers_] and [spans_] are only touched by transports, as one opaque value. *)

Section metadata.
Context {attachments : Type}.

Record MessageMetadata : Type := {
  frame_size_ : option Z;
  proto_ : option ProtocolType;
  method_name_ : option string;
  header_flags_ : option Z;
  seq_id_ : option Z;
  msg_type_ : option ThriftMessageType;
  reply_type_ : option ReplyType;
  headers_and_spans_ : attachments;
  app_ex_type_ : option Z;
  app_ex_msg_ : option string;
  protocol_upgrade_message_ : bool;
  is_draining_ : bool;
  trace_id_ : option Z;
  trace_id_high_ : option Z;
  span_id_ : option Z;
  parent_span_id_ : option Z;
  flags_ : option Z;
  sampled_ : option bool
}.
#[global] Instance MessageMetadata_eta : Eta MessageMetadata := fun m =>
  {| frame_size_ := frame_size_ m; proto_ := proto_ m; method_name_ := method_name_ m;
     header_flags_ := header_flags_ m; seq_id_ := seq_id_ m; msg_type_ := msg_type_ m; reply_type_ := reply_type_ m;
     headers_and_spans_ := headers_and_spans_ m; app_ex_type_ := app_ex_type_ m; app_ex_msg_ := app_ex_msg_ m;
     protocol_upgrade_message_ := protocol_upgrade_message_ m; is_draining_ := is_draining_ m;
     trace_id_ := trace_id_ m; trace_id_high_ := trace_id_high_ m; span_id_ := span_id_ m;
     parent_span_id_ := parent_span_id_ m; flags_ := flags_ m; sampled_ := sampled_ m |}.
Definition new_MessageMetadata (a : attachments) : MessageMetadata :=
  {| frame_size_ := None; proto_ := None; method_name_ := None; header_flags_ := None; seq_id_ := None;
     msg_type_ := None; reply_type_ := None; headers_and_spans_ := a; app_ex_type_ := None; app_ex_msg_ := None;
     protocol_upgrade_message_ := false; is_draining_ := false; trace_id_ := None; trace_id_high_ := None;
     span_id_ := None; parent_span_id_ := None; flags_ := None; sampled_ := None |}.
End metadata.
Arguments MessageMetadata attachments : clear implicits.

(** ** Protocol and Transport *)

Inductive kind : Type :=
| K_MessageBegin | K_MessageEnd | K_StructBegin | K_StructEnd | K_FieldBegin | K_FieldEnd | K_MapBegin | K_MapEnd
| K_ListBegin | K_ListEnd | K_SetBegin | K_SetEnd
| K_Bool | K_Byte | K_Int16 | K_Int32 | K_Int64 | K_Double | K_String.

Definition item (k : kind) : Type :=
  match k with
  | K_MessageBegin => string * ThriftMessageType * Z
  | K_StructBegin | K_String => string
  | K_FieldBegin => string * FieldType * Z
  | K_MapBegin => FieldType * FieldType * Z
  | K_ListBegin | K_SetBegin => FieldType * Z
  | K_Bool => bool
  | K_Byte | K_Int16 | K_Int32 | K_Int64 | K_Double => Z
  | K_MessageEnd | K_StructEnd | K_FieldEnd | K_MapEnd | K_ListEnd | K_SetEnd => unit
  end.

(** Reads return [None] for [false]: more data is required. *)
Class ThriftProtocol (E : Envoy) := {
  protocol : Type;
  createProtocol : protocol;
  protocol_type : protocol → ProtocolType;
  setType : ProtocolType → protocol → protocol;
  proto_read : ∀ k, M (protocol * buffer) (option (item k));
  proto_write : ∀ k, item k → M (protocol * buffer) unit
}.

Class ThriftTransport (E : Envoy) := {
  transport : Type;
  createTransport : transport;
  attachments : Type;
  no_attachments : attachments;
  decodeFrameStart : M (transport * buffer * MessageMetadata attachments) bool;
  decodeFrameEnd : M (transport * buffer) bool;
  (** the output buffer and the message, which is empty after it *)
  encodeFrame : MessageMetadata attachments → M (transport * buffer * buffer) unit
}.

(** ** DecoderStateMachine *)

Inductive ProtocolState : Type :=
| StopIteration | WaitForData | PassthroughData | MessageBegin | MessageEnd | StructBegin | StructEnd
| FieldBegin | FieldValue | FieldEnd | MapBegin | MapKey | MapValue | MapEnd | ListBegin | ListValue | ListEnd
| SetBegin | SetValue | SetEnd | Done.
#[global] Instance ProtocolState_eq_dec : EqDecision ProtocolState.
Proof. solve_decision. Defined.

Record Frame : Type := {
  return_state_ : ProtocolState;
  elem_type_ : FieldType;
  value_type_ : FieldType;
  remaining_ : Z
}.
#[global] Instance Frame_eta : Eta Frame := fun f =>
  {| return_state_ := return_state_ f; elem_type_ := elem_type_ f; value_type_ := value_type_ f;
     remaining_ := remaining_ f |}.
(** The constructors; [FieldType{}] is the enumerator 0. *)
Definition Frame_state (s : ProtocolState) : Frame :=
  {| return_state_ := s; elem_type_ := FT_Stop; value_type_ := FT_Stop; remaining_ := 0 |}.
Definition Frame_elem (s : ProtocolState) (t : FieldType) : Frame :=
  {| return_state_ := s; elem_type_ := t; value_type_ := FT_Stop; remaining_ := 0 |}.
Definition Frame_list (s : ProtocolState) (t : FieldType) (n : Z) : Frame :=
  {| return_state_ := s; elem_type_ := t; value_type_ := FT_Stop; remaining_ := n |}.
Definition Frame_map (s : ProtocolState) (kt vt : FieldType) (n : Z) : Frame :=
  {| return_state_ := s; elem_type_ := kt; value_type_ := vt; remaining_ := n |}.

Section thrift.
Context {E : Envoy} {P : ThriftProtocol E} {T : ThriftTransport E}.

(** The back of the vector [stack_] is the end of the list. *)
Record DecoderStateMachine : Type := {
  state_ : ProtocolState;
  stack_ : list Frame;
  body_bytes_ : Z;
  passthrough_enabled_ : bool;
  origin_message : buffer
}.
#[global] Instance DecoderStateMachine_eta : Eta DecoderStateMachine := fun s =>
  {| state_ := state_ s; stack_ := stack_ s; body_bytes_ := body_bytes_ s;
     passthrough_enabled_ := passthrough_enabled_ s; origin_message := origin_message s |}.
Definition new_DecoderStateMachine : DecoderStateMachine :=
  {| state_ := MessageBegin; stack_ := []; body_bytes_ := 0; passthrough_enabled_ := false; origin_message := buf_new |}.

(** The machine with the objects it refers to and the buffer it is given. *)
Record Walk : Type := {
  machine : DecoderStateMachine;
  proto : protocol;
  metadata : MessageMetadata attachments;
  input : buffer
}.
#[global] Instance Walk_eta : Eta Walk := fun h =>
  {| machine := machine h; proto := proto h; metadata := metadata h; input := input h |}.

Definition read (k : kind) : M Walk (option (item k)) := λ h,
  match proto_read k (proto h, input h) with
  | (o, (p, b)) => (o, h <| proto := p |> <| input := b |>)
  end.
Definition write (k : kind) (x : item k) : M Walk unit := λ h,
  match proto_write k x (proto h, origin_message (machine h)) with
  | (o, (p, b)) => (o, h <| proto := p |> <| machine ::= λ s, s <| origin_message := b |> |>)
  end.
Definition on_machine (f : DecoderStateMachine → DecoderStateMachine) : M Walk unit := modify (λ h, h <| machine ::= f |>).
Definition get_stack : M Walk (list Frame) := gets (λ h, stack_ (machine h)).
Definition push (f : Frame) : M Walk unit := on_machine (λ s, s <| stack_ ::= λ l, l ++ [f] |>).

(** [if (!proto_.readX(buffer, x)) return WaitForData;] and the rest of a function *)
Definition reading (k : kind) (rest : item k → M Walk ProtocolState) : M Walk ProtocolState :=
  o ← read k;
  match o with Some x => rest x | None => mret WaitForData end.

(** [stack_.back()] *)
Definition back : M Walk Frame :=
  l ← get_stack;
  match last l with Some f => mret f | None => panic "!stack_.empty()" end.
Definition popReturnState : M Walk ProtocolState :=
  f ← back;
  _ ← on_machine (λ s, s <| stack_ ::= λ l, take (length l - 1) l |>);
  mret (return_state_ f).

(** [stack_[index].remaining_--] on a [uint32_t] *)
Definition dec_remaining (index : nat) : M Walk unit :=
  on_machine (λ s, s <| stack_ ::= alter (λ f, f <| remaining_ ::= λ n, u32 (n - 1) |>) index |>).

(** [proto_.writeMessageBegin(buffer, metadata)]; accessors of values that are not
    set throw [absl::bad_optional_access], which nobody catches. *)
Definition message_item (m : MessageMetadata attachments) : outcome (item K_MessageBegin) :=
  match method_name_ m, msg_type_ m, seq_id_ m with
  | Some name, Some t, Some seq => Return (name, t, seq)
  | _, _, _ => Panic "bad_optional_access"
  end.

Definition passthroughData : M Walk ProtocolState :=
  h ← gets id;
  if buf_length (input h) <? body_bytes_ (machine h) then mret WaitForData
  else
    '(o, b) ← lift (move (origin_message (machine h)) (input h) (body_bytes_ (machine h)));
    _ ← modify (λ h, h <| input := b |> <| machine ::= λ s, s <| origin_message := o |> |>);
    mret MessageEnd.

Definition messageBegin : M Walk ProtocolState :=
  total ← gets (λ h, buf_length (input h));
  reading K_MessageBegin (λ '(name, t, seq),
    _ ← modify (λ h, h <| metadata ::= λ m, m <| method_name_ := Some name |> <| msg_type_ := Some t |>
                                              <| seq_id_ := Some seq |> |>);
    _ ← on_machine (λ s, s <| stack_ := [Frame_state MessageEnd] |>);
    passthrough ← gets (λ h, passthrough_enabled_ (machine h));
    if (passthrough : bool) then
      frame_size ← gets (λ h, frame_size_ (metadata h));
      frame_size ← lift (match frame_size with Some n => Return n | None => Panic "bad_optional_access" end);
      length ← gets (λ h, buf_length (input h));
      _ ← on_machine (λ s, s <| body_bytes_ := u32 (frame_size - (total - length)) |>);
      mret PassthroughData
    else
      i ← gets (λ h, message_item (metadata h));
      i ← lift i;
      _ ← write K_MessageBegin i;
      mret StructBegin).

Definition messageEnd : M Walk ProtocolState :=
  reading K_MessageEnd (λ _, _ ← write K_MessageEnd tt; mret Done).

Definition structBegin : M Walk ProtocolState :=
  reading K_StructBegin (λ name, _ ← write K_StructBegin name; mret FieldBegin).

Definition structEnd : M Walk ProtocolState :=
  reading K_StructEnd (λ _,
    _ ← write K_FieldBegin ("", FT_Stop, 0);
    _ ← write K_StructEnd tt;
    popReturnState).

Definition fieldBegin : M Walk ProtocolState :=
  reading K_FieldBegin (λ '(name, field_type, field_id),
    if decide (field_type = FT_Stop) then mret StructEnd
    else
      _ ← push (Frame_elem FieldEnd field_type);
      _ ← write K_FieldBegin (name, field_type, field_id);
      mret FieldValue).

(** A value of a basic type is read and written. *)
Definition copy (k : kind) (return_state : ProtocolState) : M Walk ProtocolState :=
  reading k (λ x, _ ← write k x; mret return_state).

Definition handleValue (elem_type : FieldType) (return_state : ProtocolState) : M Walk ProtocolState :=
  match elem_type with
  | FT_Bool => copy K_Bool return_state
  | FT_Byte => copy K_Byte return_state
  | FT_I16 => copy K_Int16 return_state
  | FT_I32 => copy K_Int32 return_state
  | FT_I64 => copy K_Int64 return_state
  | FT_Double => copy K_Double return_state
  | FT_String => copy K_String return_state
  | FT_Struct => _ ← push (Frame_state return_state); mret StructBegin
  | FT_Map => _ ← push (Frame_state return_state); mret MapBegin
  | FT_List => _ ← push (Frame_state return_state); mret ListBegin
  | FT_Set => _ ← push (Frame_state return_state); mret SetBegin
  | _ => throw (EnvoyException ("unknown field type " +:+ pretty (to_i8 (FieldType_value elem_type))))
  end.

Definition fieldValue : M Walk ProtocolState :=
  f ← back;
  handleValue (elem_type_ f) (return_state_ f).

Definition fieldEnd : M Walk ProtocolState :=
  reading K_FieldEnd (λ _,
    _ ← popReturnState;
    _ ← write K_FieldEnd tt;
    mret FieldBegin).

Definition listBegin : M Walk ProtocolState :=
  reading K_ListBegin (λ '(elem_type, size),
    _ ← push (Frame_list ListEnd elem_type size);
    _ ← write K_ListBegin (elem_type, size);
    mret ListValue).

Definition listValue : M Walk ProtocolState :=
  f ← back;
  index ← gets (λ h, (length (stack_ (machine h)) - 1)%nat);
  if remaining_ f =? 0 then popReturnState
  else
    nextState ← handleValue (elem_type_ f) ListValue;
    _ ← (if decide (nextState ≠ WaitForData) then dec_remaining index else mret tt);
    mret nextState.

Definition listEnd : M Walk ProtocolState :=
  reading K_ListEnd (λ _, _ ← write K_ListEnd tt; popReturnState).

Definition mapBegin : M Walk ProtocolState :=
  reading K_MapBegin (λ '(key_type, value_type, size),
    _ ← push (Frame_map MapEnd key_type value_type size);
    _ ← write K_MapBegin (key_type, value_type, size);
    mret MapKey).

Definition mapKey : M Walk ProtocolState :=
  f ← back;
  if remaining_ f =? 0 then popReturnState
  else handleValue (elem_type_ f) MapValue.

Definition mapValue : M Walk ProtocolState :=
  f ← back;
  index ← gets (λ h, (length (stack_ (machine h)) - 1)%nat);
  _ ← ASSERT (negb (remaining_ f =? 0)) "stack_[index].remaining_ != 0";
  nextState ← handleValue (value_type_ f) MapKey;
  _ ← (if decide (nextState ≠ WaitForData) then dec_remaining index else mret tt);
  mret nextState.

Definition mapEnd : M Walk ProtocolState :=
  reading K_MapEnd (λ _, _ ← write K_MapEnd tt; popReturnState).

Definition setBegin : M Walk ProtocolState :=
  reading K_SetBegin (λ '(elem_type, size),
    _ ← push (Frame_list SetEnd elem_type size);
    _ ← write K_SetBegin (elem_type, size);
    mret SetValue).

Definition setValue : M Walk ProtocolState :=
  f ← back;
  index ← gets (λ h, (length (stack_ (machine h)) - 1)%nat);
  if remaining_ f =? 0 then popReturnState
  else
    nextState ← handleValue (elem_type_ f) SetValue;
    _ ← (if decide (nextState ≠ WaitForData) then dec_remaining index else mret tt);
    mret nextState.

Definition setEnd : M Walk ProtocolState :=
  reading K_SetEnd (λ _, _ ← write K_SetEnd tt; popReturnState).

Definition handleState : M Walk ProtocolState :=
  s ← gets (λ h, state_ (machine h));
  match s with
  | PassthroughData => passthroughData
  | MessageBegin => messageBegin
  | StructBegin => structBegin
  | StructEnd => structEnd
  | FieldBegin => fieldBegin
  | FieldValue => fieldValue
  | FieldEnd => fieldEnd
  | ListBegin => listBegin
  | ListValue => listValue
  | ListEnd => listEnd
  | MapBegin => mapBegin
  | MapKey => mapKey
  | MapValue => mapValue
  | MapEnd => mapEnd
  | SetBegin => setBegin
  | SetValue => setValue
  | SetEnd => setEnd
  | MessageEnd => messageEnd
  | StopIteration | WaitForData | Done => panic "not reachec"
  end.

Fixpoint run (fuel : nat) : M Walk ProtocolState :=
  match fuel with
  | O => panic "out of fuel"
  | S fuel =>
      s ← gets (λ h, state_ (machine h));
      if decide (s = Done) then mret Done
      else
        nextState ← handleState;
        if decide (nextState = WaitForData) then mret WaitForData
        else
          _ ← on_machine (λ s, s <| state_ := nextState |>);
          run fuel
  end.

(** ** ThriftCodec *)

Record ThriftCodec : Type := {
  transport_ : transport;
  protocol_ : protocol;
  metadata_ : option (MessageMetadata attachments);
  state_machine_ : option DecoderStateMachine;
  frame_started_ : bool;
  frame_ended_ : bool
}.
#[global] Instance ThriftCodec_eta : Eta ThriftCodec := fun c =>
  {| transport_ := transport_ c; protocol_ := protocol_ c; metadata_ := metadata_ c;
     state_machine_ := state_machine_ c; frame_started_ := frame_started_ c; frame_ended_ := frame_ended_ c |}.
Definition new_ThriftCodec : ThriftCodec :=
  {| transport_ := createTransport; protocol_ := createProtocol; metadata_ := None; state_machine_ := None;
     frame_started_ := false; frame_ended_ := false |}.

Abbreviation Dec := (ThriftCodec * buffer * MetadataImpl)%type.
Definition on_codec (f : ThriftCodec → ThriftCodec) : M Dec unit := modify (λ '(c, b, m), (f c, b, m)).
Definition get_codec {A} (f : ThriftCodec → A) : M Dec A := gets (λ '(c, _, _), f c).

Definition complete : M Dec unit :=
  on_codec (λ c, c <| state_machine_ := None |> <| frame_started_ := false |> <| frame_ended_ := false |>).

(** [transport_->decodeFrameStart(data, *metadata_)] *)
Definition frame_start (m : MessageMetadata attachments) : M Dec bool := λ '(c, b, md),
  match decodeFrameStart (transport_ c, b, m) with
  | (o, (t, b, m)) => (o, (c <| transport_ := t |> <| metadata_ := Some m |>, b, md))
  end.
Definition frame_end : M Dec bool := λ '(c, b, md),
  match decodeFrameEnd (transport_ c, b) with
  | (o, (t, b)) => (o, (c <| transport_ := t |>, b, md))
  end.

(** [state_machine_->run(data)] *)
Definition run_machine (fuel : nat) (s : DecoderStateMachine) (m : MessageMetadata attachments) : M Dec ProtocolState :=
  λ '(c, b, md),
  match run fuel {| machine := s; proto := protocol_ c; metadata := m; input := b |} with
  | (o, h) => (o, (c <| state_machine_ := Some (machine h) |> <| protocol_ := proto h |>
                     <| metadata_ := Some (metadata h) |>, input h, md))
  end.

(** [transport_->encodeFrame(metadata.originMessage(), msgMetadata, state_machine_->originalMessage())] *)
Definition frame_message (msgMetadata : MessageMetadata attachments) : M Dec unit := λ '(c, b, m),
  match state_machine_ c with
  | Some s =>
      match encodeFrame msgMetadata (transport_ c, origin_message_ m, origin_message s) with
      | (o, (t, out, msg)) => (o, (c <| transport_ := t |> <| state_machine_ := Some (s <| origin_message := msg |>) |>, b,
                                   m <| origin_message_ := out |>))
      end
  | None => (Panic "null state machine", (c, b, m))
  end.

(** [ThriftCodec::toMetadata] *)
Definition toMetadata (msgMetadata : MessageMetadata attachments) : M Dec unit :=
  _ ← modify (λ '(c, b, m), (c, b, match method_name_ msgMetadata with Some n => putString "method" n m | None => m end));
  _ ← modify (λ '(c, b, m), (c, b, match seq_id_ msgMetadata with Some i => setRequestId i m | None => m end));
  t ← lift (match msg_type_ msgMetadata with Some t => Return t | None => Panic "msgMetadata.hasMessageType()" end);
  t ← (match t with
       | TM_Call => mret MessageType_Request
       | TM_Reply => mret MessageType_Response
       | TM_Oneway => mret MessageType_Oneway
       | TM_Exception => mret MessageType_Error
       | TM_Other _ => panic "not reachec"
       end);
  _ ← modify (λ '(c, b, m), (c, b, setMessageType t m));
  frame_message msgMetadata.

Definition start_frame : M Dec (option (MessageMetadata attachments)) :=
  m ← get_codec metadata_;
  started ← frame_start (default (new_MessageMetadata no_attachments) m);
  if negb started then mret None
  else
    m ← get_codec metadata_;
    match m with
    | None => panic "null metadata"
    | Some m =>
        p ← get_codec protocol_;
        _ ← (match proto_ m with
             | Some t =>
                 if decide (protocol_type p = Auto) then on_codec (λ c, c <| protocol_ ::= setType t |>)
                 else if decide (t ≠ protocol_type p) then
                   throw (EnvoyException ("transport reports protocol " +:+ ProtocolNames_fromType t +:+
                     ", but configured for " +:+ ProtocolNames_fromType (protocol_type p)))
                 else mret tt
             | None => mret tt
             end);
        _ ← (match app_ex_type_ m with
             | Some ex_type =>
                 ex_msg ← lift (match app_ex_msg_ m with Some s => Return s | None => Panic "bad_optional_access" end);
                 _ ← on_codec (λ c, c <| metadata_ := None |>);
                 throw (EnvoyException ("thrift AppException: type: " +:+ pretty ex_type +:+ ", message: " +:+ ex_msg))
             | None => mret tt
             end);
        _ ← on_codec (λ c, c <| frame_started_ := true |> <| state_machine_ := Some new_DecoderStateMachine |>);
        mret (Some m)
    end.

(** [ThriftCodec::decode]; [fuel] is for the loop of the state machine. *)
Definition ThriftCodec_decode (fuel : nat) : M Dec DecodeStatus :=
  ended ← get_codec frame_ended_;
  if (ended : bool) then _ ← complete; mret DecodeStatus_Done
  else
    started ← get_codec frame_started_;
    m ← (if (started : bool) then get_codec metadata_ else start_frame);
    match m with
    | None => if started : bool then panic "null metadata" else mret DecodeStatus_WaitForData
    | Some m =>
        s ← get_codec state_machine_;
        match s with
        | None => panic "state_machine_ != nullptr"
        | Some s =>
            rv ← run_machine fuel s m;
            if decide (rv = WaitForData) then mret DecodeStatus_WaitForData
            else
              _ ← ASSERT (bool_decide (rv = Done)) "rv == ProtocolState::Done";
              ended ← frame_end;
              if negb ended then mret DecodeStatus_WaitForData
              else
                m ← get_codec metadata_;
                match m with
                | None => panic "null metadata"
                | Some m =>
                    _ ← toMetadata m;
                    _ ← on_codec (λ c, c <| frame_ended_ := true |> <| metadata_ := None |>);
                    _ ← complete;
                    mret DecodeStatus_Done
                end
        end
    end.

(** [ThriftCodec::encode] leaves the message as it is. *)
Definition ThriftCodec_encode (metadata : MetadataImpl) (mutation : Mutation) : M (ThriftCodec * buffer) unit :=
  match message_type_ metadata with
  | MessageType_Heartbeat | MessageType_Request | MessageType_Response | MessageType_Error => mret tt
  | _ => panic "not reachec"
  end.

Definition toMsgMetadata (metadata : MetadataImpl) (msgMetadata : MessageMetadata attachments) :
    outcome (MessageMetadata attachments) :=
  method ← getString "method" metadata;
  let msgMetadata := if bool_decide (method = "") then msgMetadata else msgMetadata <| method_name_ := Some method |> in
  Return (msgMetadata <| seq_id_ := Some (to_i32 (request_id_ metadata)) |>).

(** Writes to the local [response_buffer] of [onError]. *)
Definition respond (k : kind) (x : item k) : M (ThriftCodec * buffer) unit := λ '(c, b),
  match proto_write k x (protocol_ c, b) with
  | (o, (p, b)) => (o, (c <| protocol_ := p |>, b))
  end.

(** The body of the exception, into a new buffer. *)
Definition write_exception (msgMetadata : MessageMetadata attachments) (message : string) : M (ThriftCodec * buffer) unit :=
  i ← lift (message_item msgMetadata);
  _ ← respond K_MessageBegin i;
  _ ← respond K_StructBegin "TApplicationException";
  _ ← respond K_FieldBegin ("message", FT_String, 1);
  _ ← respond K_String message;
  _ ← respond K_FieldEnd tt;
  _ ← respond K_FieldBegin ("type", FT_I32, 2);
  _ ← respond K_Int32 AppExceptionType_InternalError;
  _ ← respond K_FieldEnd tt;
  _ ← respond K_FieldBegin ("", FT_Stop, 0);
  _ ← respond K_StructEnd tt;
  respond K_MessageEnd tt.

(** [transport_->encodeFrame(buffer, msgMetadata, response_buffer)] *)
Definition frame_response (msgMetadata : MessageMetadata attachments) (response_buffer : buffer) :
    M (ThriftCodec * buffer) unit := λ '(c, b),
  match encodeFrame msgMetadata (transport_ c, b, response_buffer) with
  | (o, (t, out, _)) => (o, (c <| transport_ := t |>, out))
  end.

(** The writes go to a buffer of their own. *)
Definition in_new_buffer (f : M (ThriftCodec * buffer) unit) : M (ThriftCodec * buffer) buffer := λ '(c, b),
  let '(o, (c, r)) := f (c, buf_new) in ((λ _, r) <$> o, (c, b)).

Definition ThriftCodec_onError (metadata : MetadataImpl) (error : Error) : M (ThriftCodec * buffer) unit :=
  b ← gets snd;
  _ ← ASSERT (buf_length b =? 0) "buffer.length() == 0";
  msgMetadata ← lift (toMsgMetadata metadata (new_MessageMetadata no_attachments));
  let msgMetadata := msgMetadata <| method_name_ ::= λ o, Some (default "" o) |> <| seq_id_ ::= λ o, Some (default 0 o) |>
                                 <| msg_type_ := Some TM_Exception |> in
  response_buffer ← in_new_buffer (write_exception msgMetadata (error_message error));
  frame_response msgMetadata response_buffer.

#[global] Instance thrift_codec (fuel : nat) : CodecOps E := {|
  codec_state := ThriftCodec;
  codec_init := new_ThriftCodec;
  codec_decode := ThriftCodec_decode fuel;
  codec_encode := ThriftCodec_encode;
  codec_onError := ThriftCodec_onError
|}.
End thrift.
