(* ===== verification/ThriftSpec.v ===== *)
(** * The Thrift state machine on byte strings

    What is relied on of a Thrift protocol ([ProtocolLaws]), the state machine run on
    byte strings with such a protocol, and the proof that the machine of the source
    does the same on its buffers.  The theorems about the machine are then proved on
    byte strings: its stack is always of the right shape and no assertion fails, and
    it comes to an end for every input. *)

From S2P Require Import Prelude Envoy Metadata Codec Thrift.

(** ** Protocols

    A read is a function of the state of the protocol and the bytes of the buffer: it
    takes an item off the front, or needs more bytes and leaves them there, or
    throws.  What it has decided does not change when more bytes arrive, and after it
    had to wait it decides as if it had not been called.  The headers of messages,
    fields and containers have at least one byte; sizes are [uint32_t], and the types
    of messages are those of the enumeration. *)

Definition header_kind (k : kind) : bool :=
  match k with K_MessageBegin | K_FieldBegin | K_MapBegin | K_ListBegin | K_SetBegin => true | _ => false end.
Definition valid_type (t : ThriftMessageType) : Prop := match t with TM_Other _ => False | _ => True end.
Definition item_ok (k : kind) : item k → Prop :=
  match k with
  | K_MessageBegin => λ x, valid_type x.1.2
  | K_MapBegin => λ x, 0 ≤ x.2 < 2 ^ 32
  | K_ListBegin | K_SetBegin => λ x, 0 ≤ x.2 < 2 ^ 32
  | _ => λ _, True
  end.

(** The same result with more bytes left, and the result without what is left. *)
Definition extend {A} (ext : bytes) (o : outcome (option (A * bytes))) : outcome (option (A * bytes)) :=
  match o with Return (Some (x, rest)) => Return (Some (x, rest ++ ext)) | o => o end.
Definition value_of {A} (o : outcome (option (A * bytes))) : outcome (option A) :=
  match o with
  | Return (Some (x, _)) => Return (Some x)
  | Return None => Return None
  | Throw e => Throw e
  | Panic w => Panic w
  end.

Class ProtocolLaws {E : Envoy} (P : ThriftProtocol E) := {
  parse : ∀ k, protocol → bytes → outcome (option (item k * bytes)) * protocol;
  emit : ∀ k, protocol → item k → bytes * protocol;
  proto_read_spec k p b :
    ∃ b', proto_read k (p, b) = (value_of (parse k p (contents b)).1, ((parse k p (contents b)).2, b')) ∧
      match (parse k p (contents b)).1 with
      | Return (Some (_, rest)) => contents b' = rest
      | Return None => contents b' = contents b
      | _ => True
      end;
  proto_write_spec k p b x :
    ∃ b', proto_write k x (p, b) = (Return tt, ((emit k p x).2, b')) ∧ contents b' = contents b ++ (emit k p x).1;
  parse_throws k p bs o p' : parse k p bs = (o, p') →
    match o with Return _ => True | Throw e => ∃ what, e = EnvoyException what | Panic _ => False end;
  parse_some k p bs x rest p' : parse k p bs = (Return (Some (x, rest)), p') →
    item_ok k x ∧ (∃ pre, bs = pre ++ rest ∧ (header_kind k = true → pre ≠ []));
  parse_done_app k p bs o p' ext : parse k p bs = (o, p') → o ≠ Return None → parse k p (bs ++ ext) = (extend ext o, p');
  parse_wait_app k p bs p' ext : parse k p bs = (Return None, p') → parse k p' (bs ++ ext) = parse k p (bs ++ ext)
}.

(** ** The machine on byte strings *)

Section pure.
Context {E : Envoy} {L : EnvoyLaws E} {P : ThriftProtocol E} {T : ThriftTransport E} {PL : ProtocolLaws P}.

Definition byte_buffer : BufferOps := {|
  buffer := bytes;
  contents b := b;
  buf_new := [];
  buf_length := zlen;
  buf_add b d := b ++ d;
  buf_drain b n := zdrop n b;
  buf_move dst src n := (dst ++ ztake n src, zdrop n src);
  buf_copyOut b off n := ztake n (zdrop off b);
  buf_peek n off b :=
    if off + n <=? zlen b then Return (be_at n off b) else Throw (EnvoyException "buffer underflow")
|}.
Definition pE : Envoy := {| envoy_buffer := byte_buffer; envoy_headers := envoy_headers; any_other := any_other |}.
Definition byte_read (k : kind) (s : protocol * bytes) : outcome (option (item k)) * (protocol * bytes) :=
  match parse k s.1 s.2 with
  | (Return (Some (x, rest)), p) => (Return (Some x), (p, rest))
  | (Return None, p) => (Return None, (p, s.2))
  | (Throw e, p) => (Throw e, (p, s.2))
  | (Panic w, p) => (Panic w, (p, s.2))
  end.
Definition byte_write (k : kind) (x : item k) (s : protocol * bytes) : outcome unit * (protocol * bytes) :=
  (Return tt, ((emit k s.1 x).2, s.2 ++ (emit k s.1 x).1)).
Definition pP : ThriftProtocol pE :=
  @Build_ThriftProtocol pE protocol createProtocol protocol_type setType byte_read byte_write.
(** Only the type of the attachments matters to the machine. *)
Definition pT : ThriftTransport pE :=
  @Build_ThriftTransport pE unit tt attachments no_attachments (mret false) (mret false) (λ _, mret tt).

Abbreviation W := (@Walk E P T).
Abbreviation PW := (@Walk pE pP pT).

(** ** The two machines do the same *)

Definition walk_eq (h : W) (a : PW) : Prop :=
  state_ (machine h) = state_ (machine a) ∧ stack_ (machine h) = stack_ (machine a) ∧
  body_bytes_ (machine h) = body_bytes_ (machine a) ∧ 0 ≤ body_bytes_ (machine a) ∧
  passthrough_enabled_ (machine h) = passthrough_enabled_ (machine a) ∧
  contents (origin_message (machine h)) = (origin_message (machine a) : bytes) ∧
  proto h = proto a ∧ metadata h = metadata a ∧ contents (input h) = (input a : bytes).

Definition sim {A} (m : M W A) (n : M PW A) : Prop :=
  ∀ h a, walk_eq h a →
    match n a with
    | (Return x, a') => ∃ h', m h = (Return x, h') ∧ walk_eq h' a'
    | (Throw e, _) => ∃ h', m h = (Throw e, h')
    | (Panic w, _) => ∃ h', m h = (Panic w, h')
    end.

Lemma sim_ret {A} (x : A) : sim (mret x) (mret x).
Proof. intros h a Hr. by exists h. Qed.
Lemma sim_lift {A} (o : outcome A) : sim (lift o) (lift o).
Proof. intros h a Hr. destruct o; by exists h. Qed.
Lemma sim_throw {A} e : sim (A := A) (throw e) (throw e).
Proof. intros h a Hr. by exists h. Qed.
Lemma sim_panic {A} w : sim (A := A) (panic w) (panic w).
Proof. intros h a Hr. by exists h. Qed.
Lemma sim_assert b w : sim (ASSERT b w) (ASSERT b w).
Proof. apply sim_lift. Qed.
Lemma sim_gets {A} (f : W → A) (g : PW → A) : (∀ h a, walk_eq h a → f h = g a) → sim (gets f) (gets g).
Proof. intros Hf h a Hr. exists h. by rewrite <- (Hf h a Hr). Qed.
Lemma sim_modify f g : (∀ h a, walk_eq h a → walk_eq (f h) (g a)) → sim (modify f) (modify g).
Proof. intros Hf h a Hr. exists (f h). split; [done |]. by apply Hf. Qed.
Lemma sim_bind {A B} (m : M W A) n (f : A → M W B) g : sim m n → (∀ x, sim (f x) (g x)) → sim (m ≫= f) (n ≫= g).
Proof.
  intros Hm Hf h a Hr. specialize (Hm h a Hr). rewrite !run_bind.
  destruct (n a) as [[x|e|w] a']; [| by destruct Hm as [h' ->]; exists h' ..].
  destruct Hm as (h' & -> & Hr'). exact (Hf x h' a' Hr').
Qed.
Lemma sim_read k : sim (read k) (read k).
Proof.
  intros h a Hr. pose proof Hr as (H1 & H2 & H3 & H0 & H4 & H5 & H6 & H7 & H8). unfold read.
  destruct (proto_read_spec k (proto h) (input h)) as (b' & Hread & Hb). rewrite Hread, H6, H8 in *.
  cbn [proto_read pP]. unfold byte_read. cbn [fst snd].
  destruct (@parse E P PL k (proto a) (input a)) as [[[[x rest]|]|e|w] p']; cbn in *; eexists; repeat split; done.
Qed.
Lemma sim_write k x : sim (write k x) (write k x).
Proof.
  intros h a Hr. pose proof Hr as (H1 & H2 & H3 & H0 & H4 & H5 & H6 & H7 & H8). unfold write.
  destruct (proto_write_spec k (proto h) (origin_message (machine h)) x) as (b' & Hw & Hb).
  rewrite Hw, H6, H5 in *. cbn [proto_write pP]. unfold byte_write. cbn [fst snd]. eexists. split; [done |]. by split_and!.
Qed.

Lemma sim_get_stack : sim get_stack get_stack.
Proof. apply sim_gets. intros h a Hr. apply Hr. Qed.
Lemma sim_on_machine f g :
  (∀ h a, walk_eq h a → walk_eq (h <| machine ::= f |>) (a <| machine ::= g |>)) → sim (on_machine f) (on_machine g).
Proof. intros Hf. by apply sim_modify. Qed.

Lemma sim_passthroughData : sim passthroughData passthroughData.
Proof using L.
  intros h a Hr. pose proof Hr as (H1 & H2 & H3 & H0 & H4 & H5 & H6 & H7 & H8).
  unfold passthroughData. rewrite !run_bind. cbn [gets id]. cbv beta iota.
  change (buf_length (input a)) with (zlen (input a : bytes)). rewrite buf_length_spec, H8, H3.
  destruct (Z.ltb_spec (zlen (input a : bytes)) (body_bytes_ (machine a))) as [Hl|Hl]; [by exists h |].
  rewrite !run_bind. unfold move. change (buf_length (input a)) with (zlen (input a : bytes)).
  rewrite buf_length_spec, H8, (proj2 (Z.leb_le _ _)) by done. cbn [lift]. cbv beta iota.
  pose proof (buf_move_dst (origin_message (machine h)) (input h) (body_bytes_ (machine a))) as Hd.
  pose proof (buf_move_src (origin_message (machine h)) (input h) (body_bytes_ (machine a))) as Hs. rewrite H8 in Hd, Hs.
  destruct (buf_move (origin_message (machine h)) (input h) _) as [o b]. cbn [fst snd] in *.
  eexists. split; [reflexivity |]. unfold walk_eq, upd. cbn. rewrite Hd, Hs, H5 by done. by split_and!.
Qed.

Ltac sim_step :=
  first
    [ apply sim_bind; [| intros]
    | apply sim_ret | apply sim_throw | apply sim_panic | apply sim_assert | apply sim_lift
    | apply sim_read | apply sim_write | apply sim_get_stack | apply sim_passthroughData
    | apply sim_gets; intros h a Hr; apply Hr
    | apply sim_on_machine; intros h a (? & ? & ? & ? & ? & ? & ? & ? & ?); unfold walk_eq, upd; cbn;
      split_and!; congruence || done ].

Lemma sim_reading k rest rest' : (∀ x, sim (rest x) (rest' x)) → sim (reading k rest) (reading k rest').
Proof. intros Hr. unfold reading. apply sim_bind; [apply sim_read |]. intros [x|]; [apply Hr | apply sim_ret]. Qed.
Lemma sim_back : sim back back.
Proof. unfold back. apply sim_bind; [apply sim_get_stack |]. intros l. destruct (last l); [apply sim_ret | apply sim_panic]. Qed.
Lemma sim_pop : sim popReturnState popReturnState.
Proof. unfold popReturnState. apply sim_bind; [apply sim_back |]. intros f. repeat sim_step. Qed.
Lemma sim_push f : sim (push f) (push f).
Proof. unfold push. repeat sim_step. Qed.
Lemma sim_dec i : sim (dec_remaining i) (dec_remaining i).
Proof. unfold dec_remaining. repeat sim_step. Qed.
Lemma sim_handleValue t r : sim (handleValue t r) (handleValue t r).
Proof.
  destruct t; unfold handleValue, copy; try apply sim_throw;
    try (apply sim_bind; [apply sim_push | intros; apply sim_ret]);
    (apply sim_reading; intros x; apply sim_bind; [apply sim_write | intros; apply sim_ret]).
Qed.

Create HintDb sim.
Hint Resolve sim_ret sim_throw sim_panic sim_assert sim_lift sim_read sim_write sim_get_stack sim_back sim_pop
  sim_push sim_dec sim_handleValue sim_passthroughData : sim.
Ltac sim_auto :=
  repeat first
    [ solve [eauto with sim]
    | simple apply sim_reading; intros
    | simple apply sim_bind; [| intros]
    | match goal with |- sim (match ?x with _ => _ end) _ => destruct x end
    | simple apply sim_gets; let h := fresh in let a := fresh in let Hr := fresh in
      intros h a Hr; solve [apply Hr | by rewrite (proj1 (proj2 Hr))] ].

Lemma sim_messageBegin : sim messageBegin messageBegin.
Proof using L.
  unfold messageBegin. apply sim_bind.
  { apply sim_gets. intros h a (_ & _ & _ & _ & _ & _ & _ & _ & H8). rewrite buf_length_spec. by f_equal. }
  intros total. apply sim_reading. intros [[name t] seq]. apply sim_bind.
  { apply sim_modify. intros h a (? & ? & ? & ? & ? & ? & ? & Hm & ?). unfold walk_eq, upd. cbn. by rewrite Hm. }
  intros _. apply sim_bind; [repeat sim_step |]. intros _. apply sim_bind; [sim_auto |]. intros [].
  - apply sim_bind.
    { apply sim_gets. intros h a (? & ? & ? & ? & ? & ? & ? & Hm & ?). by rewrite Hm. }
    intros o. apply sim_bind; [sim_auto |]. intros n. apply sim_bind.
    { apply sim_gets. intros h a (_ & _ & _ & _ & _ & _ & _ & _ & H8). rewrite buf_length_spec. by f_equal. }
    intros l. apply sim_bind; [| sim_auto]. apply sim_on_machine.
    intros h a (? & ? & ? & ? & ? & ? & ? & ? & ?). unfold walk_eq, upd. cbn. split_and!; try done. apply u32_range.
  - apply sim_bind.
    { apply sim_gets. intros h a (? & ? & ? & ? & ? & ? & ? & Hm & ?). by rewrite Hm. }
    intros o. sim_auto.
Qed.

Lemma sim_handleState : sim handleState handleState.
Proof using L.
  unfold handleState. apply sim_bind; [sim_auto |]. intros s.
  destruct s; unfold structBegin, structEnd, fieldBegin, fieldValue, fieldEnd, listBegin, listValue, listEnd, mapBegin,
    mapKey, mapValue, mapEnd, setBegin, setValue, setEnd, messageEnd; try apply sim_messageBegin; sim_auto.
Qed.

Lemma sim_run fuel : sim (run fuel) (run fuel).
Proof using L.
  pose proof sim_handleState. induction fuel as [|fuel IH]; cbn [run]; [sim_auto |]. sim_auto.
  apply sim_on_machine. intros h a (? & ? & ? & ? & ? & ? & ? & ? & ?). unfold walk_eq, upd. cbn. by split_and!.
Qed.
End pure.
Arguments pE {E}.
Arguments pP {E P PL}.
Arguments pT {E T}.

(** ** The transitions of the machine

    What the comments in front of the functions say of the states, with the stack.
    [true] marks the transitions that take bytes off the input. *)

Definition begin_state (t : FieldType) : option ProtocolState :=
  match t with
  | FT_Struct => Some StructBegin | FT_Map => Some MapBegin | FT_List => Some ListBegin | FT_Set => Some SetBegin
  | _ => None
  end.
Definition basic_kind (t : FieldType) : option kind :=
  match t with
  | FT_Bool => Some K_Bool | FT_Byte => Some K_Byte | FT_I16 => Some K_Int16 | FT_I32 => Some K_Int32
  | FT_I64 => Some K_Int64 | FT_Double => Some K_Double | FT_String => Some K_String
  | _ => None
  end.
Definition dec (f : Frame) : Frame := f <| remaining_ ::= λ n, u32 (n - 1) |>.

(** A value of type [t] that is followed by the state [r]. *)
Inductive value_step (t : FieldType) (r : ProtocolState) : ProtocolState → list Frame → Prop :=
| value_basic k : basic_kind t = Some k → value_step t r r []
| value_container s : begin_state t = Some s → value_step t r s [Frame_state r].

Inductive transition : bool → ProtocolState * list Frame → ProtocolState * list Frame → Prop :=
| t_messageBegin l : transition true (MessageBegin, l) (StructBegin, [Frame_state MessageEnd])
| t_messageEnd l : transition false (MessageEnd, l) (Done, l)
| t_structBegin l : transition false (StructBegin, l) (FieldBegin, l)
| t_structEnd l f : transition false (StructEnd, l ++ [f]) (return_state_ f, l)
| t_fieldStop l : transition true (FieldBegin, l) (StructEnd, l)
| t_fieldBegin l t : t ≠ FT_Stop → transition true (FieldBegin, l) (FieldValue, l ++ [Frame_elem FieldEnd t])
| t_fieldValue l f s new : value_step (elem_type_ f) (return_state_ f) s new →
    transition false (FieldValue, l ++ [f]) (s, l ++ f :: new)
| t_fieldEnd l f : transition false (FieldEnd, l ++ [f]) (FieldBegin, l)
| t_listBegin l t n : 0 ≤ n < 2 ^ 32 → transition true (ListBegin, l) (ListValue, l ++ [Frame_list ListEnd t n])
| t_setBegin l t n : 0 ≤ n < 2 ^ 32 → transition true (SetBegin, l) (SetValue, l ++ [Frame_list SetEnd t n])
| t_mapBegin l kt vt n : 0 ≤ n < 2 ^ 32 → transition true (MapBegin, l) (MapKey, l ++ [Frame_map MapEnd kt vt n])
| t_elements_end st l f : st = ListValue ∨ st = SetValue ∨ st = MapKey → remaining_ f = 0 →
    transition false (st, l ++ [f]) (return_state_ f, l)
| t_element st l f s new : st = ListValue ∨ st = SetValue → remaining_ f ≠ 0 → value_step (elem_type_ f) st s new →
    transition false (st, l ++ [f]) (s, l ++ dec f :: new)
| t_mapKey l f s new : remaining_ f ≠ 0 → value_step (elem_type_ f) MapValue s new →
    transition false (MapKey, l ++ [f]) (s, l ++ f :: new)
| t_mapValue l f s new : remaining_ f ≠ 0 → value_step (value_type_ f) MapKey s new →
    transition false (MapValue, l ++ [f]) (s, l ++ dec f :: new)
| t_end st l f : st = ListEnd ∨ st = SetEnd ∨ st = MapEnd → transition false (st, l ++ [f]) (return_state_ f, l).

(** The shape of the stack in each state: [ret_ok r l] if the machine may come back
    to the state [r] with the stack [l] (its back first). *)
Inductive ret_ok : ProtocolState → list Frame → Prop :=
| ret_message : ret_ok MessageEnd []
| ret_field f t l : ret_ok (return_state_ f) l → ret_ok FieldEnd (Frame_elem FieldEnd t :: f :: l)
| ret_list f t n l : 0 ≤ n < 2 ^ 32 → ret_ok (return_state_ f) l → ret_ok ListValue (Frame_list ListEnd t n :: f :: l)
| ret_set f t n l : 0 ≤ n < 2 ^ 32 → ret_ok (return_state_ f) l → ret_ok SetValue (Frame_list SetEnd t n :: f :: l)
| ret_key f kt vt n l : 0 ≤ n < 2 ^ 32 → ret_ok (return_state_ f) l → ret_ok MapKey (Frame_map MapEnd kt vt n :: f :: l)
| ret_value f kt vt n l : 0 < n < 2 ^ 32 → ret_ok (return_state_ f) l → ret_ok MapValue (Frame_map MapEnd kt vt n :: f :: l).

Definition stack_ok (s : ProtocolState) (l : list Frame) : Prop :=
  match s with
  | MessageBegin | MessageEnd | Done => True
  | StructBegin | StructEnd | FieldBegin | ListBegin | ListEnd | MapBegin | MapEnd | SetBegin | SetEnd =>
      ∃ f k, l = k ++ [f] ∧ ret_ok (return_state_ f) (rev k)
  | FieldValue => ret_ok FieldEnd (rev l)
  | FieldEnd | ListValue | SetValue | MapKey | MapValue => ret_ok s (rev l)
  | StopIteration | WaitForData | PassthroughData => False
  end.

Lemma ret_ok_stack_ok s l : ret_ok s (rev l) → stack_ok s l.
Proof. intros Hr. inversion Hr; subst; cbn; rewrite ?rev_involutive in *; try done; congruence. Qed.

Lemma rev_snoc {A} (l : list A) x : rev (l ++ [x]) = x :: rev l.
Proof. apply rev_unit. Qed.

Lemma value_step_ok t r s new l :
  value_step t r s new → ret_ok r (rev l) → stack_ok s (l ++ new).
Proof.
  intros [k Hk | st Hs] Hr.
  - rewrite app_nil_r. by apply ret_ok_stack_ok.
  - destruct t; cbn in Hs; simplify_eq; cbn; by exists (Frame_state r), l.
Qed.

(** What is below a frame that the machine is working in. *)
Lemma ret_ok_below s f l :
  ret_ok s (f :: rev l) → ∃ g k, l = k ++ [g] ∧ ret_ok (return_state_ g) (rev k).
Proof.
  intros Hr. assert (∃ g m, rev l = g :: m ∧ ret_ok (return_state_ g) m) as (g & m & Hl & Hg)
    by (inversion Hr; subst; eauto).
  exists g, (rev m). rewrite rev_involutive. split; [| done].
  apply (f_equal (@rev Frame)) in Hl. by rewrite rev_involutive in Hl.
Qed.

(** One element less. *)
Lemma dec_ok n : n ≠ 0 → 0 ≤ n < 2 ^ 32 → 0 ≤ u32 (n - 1) < 2 ^ 32.
Proof. intros. rewrite u32_small; lia. Qed.
Lemma ret_ok_dec s f l :
  (s = ListValue ∨ s = SetValue) → remaining_ f ≠ 0 → ret_ok s (f :: l) → ret_ok s (dec f :: l).
Proof.
  intros Hs Hn Hr. inversion Hr; subst; try (by destruct Hs); [apply (ret_list _ t (u32 (n - 1))) | apply (ret_set _ t (u32 (n - 1)))];
    try done; by apply dec_ok.
Qed.

Ltac ret_inv :=
  match goal with H : ret_ok _ (_ :: _) |- _ => inversion H; subst; clear H end.

(** Transitions keep the stack in shape. *)
Lemma transition_ok c s l s' l' : transition c (s, l) (s', l') → stack_ok s l → stack_ok s' l'.
Proof.
  inversion 1; subst; cbn [stack_ok]; rewrite ?rev_snoc; try done.
  - intros _. exists (Frame_state MessageEnd), []. split; [done | constructor].
  - intros (g & k & [-> [= ->]]%app_inj_tail & Hg). by apply ret_ok_stack_ok.
  - intros (g & k & -> & Hg). rewrite rev_snoc. by constructor.
  - intros Hr. rewrite (app_assoc l0 [f] new : l0 ++ f :: new = _). eapply value_step_ok; [done |].
    rewrite rev_snoc. assert (return_state_ f = FieldEnd) as -> by (by inversion Hr). exact Hr.
  - intros Hr. by eapply ret_ok_below.
  - intros (g & k & -> & Hg). rewrite rev_snoc. by constructor.
  - intros (g & k & -> & Hg). rewrite rev_snoc. by constructor.
  - intros (g & k & -> & Hg). rewrite rev_snoc. by constructor.
  - intros Hok. match goal with H : _ = _ ∨ _ |- _ => rename H into Hst end. assert (ret_ok s (f :: rev l')) as Hr by (destruct Hst as [-> | [-> | ->]]; cbn in Hok; by rewrite rev_snoc in Hok).
    pose proof (ret_ok_below _ _ _ Hr) as Hb. inversion Hr; subst; try exact Hb; by destruct Hst as [[=] | [[=] | [=]]].
  - intros Hok. match goal with H : _ = _ ∨ _ |- _ => rename H into Hst end. assert (ret_ok s (f :: rev l0)) as Hr by (destruct Hst as [-> | ->]; cbn in Hok; by rewrite rev_snoc in Hok).
    rewrite (app_assoc l0 [dec f] new : l0 ++ dec f :: new = _). eapply value_step_ok; [done |]. rewrite rev_snoc. by apply ret_ok_dec.
  - intros Hr. rewrite (app_assoc l0 [f] new : l0 ++ f :: new = _). eapply value_step_ok; [done |]. rewrite rev_snoc.
    destruct f as [r kt vt n]. inversion Hr; subst. apply ret_value; [cbn in *; lia | done].
  - intros Hr. rewrite (app_assoc l0 [dec f] new : l0 ++ dec f :: new = _). eapply value_step_ok; [done |]. rewrite rev_snoc.
    destruct f as [r kt vt n]. inversion Hr; subst. apply (ret_key _ kt vt (u32 (n - 1))); [| done]. apply dec_ok; lia.
  - intros Hok. match goal with H : _ = _ ∨ _ |- _ => rename H into Hst end. assert (∃ g k, l' ++ [f] = k ++ [g] ∧ ret_ok (return_state_ g) (rev k)) as (g & k & [-> [= ->]]%app_inj_tail & Hg)
      by (by destruct Hst as [-> | [-> | ->]]). by apply ret_ok_stack_ok.
Qed.

(** ** Steps of the machine are transitions *)

Section machine.
Context {E : Envoy} {P : ThriftProtocol E} {T : ThriftTransport E} {PL : ProtocolLaws P}.
Abbreviation PW := (@Walk pE pP pT).

(** What has been written, and what is to be read. *)
Definition out (a : PW) : bytes := origin_message (machine a).
Definition set_out (o : bytes) (a : PW) : PW :=
  {| machine := {| state_ := state_ (machine a); stack_ := stack_ (machine a); body_bytes_ := body_bytes_ (machine a);
                   passthrough_enabled_ := passthrough_enabled_ (machine a); origin_message := o : @buffer (@envoy_buffer pE) |};
     proto := proto a; metadata := metadata a; input := input a |}.
Definition inp (a : PW) : bytes := input a.
Definition pr (a : PW) : @protocol E P := proto a.
Definition after_read (p : @protocol E P) (r : bytes) (a : PW) : PW :=
  {| machine := machine a; proto := p : @protocol pE pP; metadata := metadata a; input := r : @buffer (@envoy_buffer pE) |}.
Definition after_write (k : kind) (x : item k) (a : PW) : PW :=
  after_read (emit k (pr a) x).2 (inp a) (set_out (out a ++ (emit k (pr a) x).1) a).

Lemma write_pure k x (a : PW) : write k x a = (Return tt, after_write k x a).
Proof. by destruct a as [[]]. Qed.

(** A machine that has to wait is as it was, but for the state of the protocol. *)
Definition waits (a a' : PW) : Prop := ∃ p, a' = after_read p (inp a) a.

(** How a function of the machine that was called in [a] ends: it waits, goes on to a
    state with [Q], or throws an [EnvoyException]. *)
Definition ends (a : PW) (Q : ProtocolState → PW → Prop) (res : outcome ProtocolState * PW) : Prop :=
  match res with
  | (Return s, a') => if decide (s = WaitForData) then waits a a' else Q s a'
  | (Throw e, _) => ∃ what, e = EnvoyException what
  | (Panic _, _) => False
  end.

Lemma reading_ends k rest (a : PW) Q :
  (∀ x p r pre, item_ok k x → inp a = pre ++ r → (header_kind k = true → pre ≠ []) →
     parse k (pr a) (inp a) = (Return (Some (x, r)), p) → ends a Q (rest x (after_read p r a))) →
  ends a Q (reading k rest a).
Proof.
  intros Hrest. unfold reading. rewrite run_bind. unfold read. cbn [proto_read pP]. unfold byte_read. cbn [fst snd].
  change (input a) with (inp a). change (proto a) with (pr a). destruct (parse k (pr a) (inp a)) as [[[[x r]|]|e|w] p] eqn:Hp.
  - destruct (parse_some _ _ _ _ _ _ Hp) as (Hok & pre & Hpre & Hne). by eapply Hrest.
  - cbn. by exists p.
  - by apply parse_throws in Hp.
  - by apply parse_throws in Hp.
Qed.

(** The bytes that are left are the end of those there were. *)
Definition takes (c : bool) (a a' : PW) : Prop :=
  ∃ pre, inp a = pre ++ inp a' ∧ (c = true → pre ≠ []).
Lemma takes_none a a' : inp a' = inp a → takes false a a'.
Proof. intros Hi. exists []. by rewrite Hi. Qed.

Definition same_mode (a a' : PW) : Prop :=
  passthrough_enabled_ (machine a') = passthrough_enabled_ (machine a) ∧ state_ (machine a') = state_ (machine a) ∧
  body_bytes_ (machine a') = body_bytes_ (machine a) ∧ metadata a' = metadata a.

(** The header of a message is known after [messageBegin], which nothing else changes. *)
Definition header_known {A} (m : MessageMetadata A) : Prop :=
  ∃ name t seq, method_name_ m = Some name ∧ msg_type_ m = Some t ∧ seq_id_ m = Some seq ∧ valid_type t.
Definition step_mode (a a' : PW) : Prop :=
  passthrough_enabled_ (machine a') = passthrough_enabled_ (machine a) ∧
  body_bytes_ (machine a') = body_bytes_ (machine a) ∧
  if decide (state_ (machine a) = MessageBegin) then header_known (metadata a') else metadata a' = metadata a.
Lemma same_mode_step a a' : state_ (machine a) ≠ MessageBegin → same_mode a a' → step_mode a a'.
Proof. intros Hs (H1 & H2 & H3 & H4). split_and!; [done | done |]. by rewrite decide_False. Qed.
Ltac stay := apply same_mode_step; [congruence | done].

Lemma ends_return a Q s (a' : PW) : s ≠ WaitForData → Q s a' → ends a Q (Return s, a').
Proof. intros Hs HQ. cbn. by rewrite decide_False. Qed.

Lemma back_snoc (a : PW) l f : stack_ (machine a) = l ++ [f] → back a = (Return f, a).
Proof. intros Hl. unfold back. mstep. unfold get_stack. cbn [gets]. cbv beta iota. by rewrite Hl, last_snoc. Qed.
Definition set_stack (l : list Frame) (a : PW) : PW :=
  {| machine := {| state_ := state_ (machine a); stack_ := l; body_bytes_ := body_bytes_ (machine a);
                   passthrough_enabled_ := passthrough_enabled_ (machine a); origin_message := origin_message (machine a) |};
     proto := proto a; metadata := metadata a; input := input a |}.
Lemma pop_snoc (a : PW) l f :
  stack_ (machine a) = l ++ [f] → popReturnState a = (Return (return_state_ f), set_stack l a).
Proof.
  intros Hl. unfold popReturnState. rewrite run_bind, (back_snoc _ _ _ Hl). cbv beta iota.
  assert (take (length (l ++ [f]) - 1) (l ++ [f]) = l) as Ht by (rewrite length_app, Nat.add_sub; apply take_app_length).
  rewrite run_bind. change ((Return (return_state_ f), set_stack (take (length (stack_ (machine a)) - 1) (stack_ (machine a))) a)
    = (Return (return_state_ f), set_stack l a)). by rewrite Hl, Ht.
Qed.
Lemma dec_snoc (a : PW) l f new :
  stack_ (machine a) = l ++ f :: new → dec_remaining (length l) a = (Return tt, set_stack (l ++ dec f :: new) a).
Proof.
  intros Hl. assert (alter dec (length l) (l ++ f :: new) = l ++ dec f :: new) as Ha
    by (rewrite alter_app_r_alt by done; by rewrite Nat.sub_diag).
  change ((Return tt, set_stack (alter dec (length l) (stack_ (machine a))) a) = (Return tt, set_stack (l ++ dec f :: new) a)).
  by rewrite Hl, Ha.
Qed.
Lemma push_pure f (a : PW) : push f a = (Return tt, set_stack (stack_ (machine a) ++ [f]) a).
Proof. reflexivity. Qed.

Lemma handleValue_ends t r (a : PW) :
  r ≠ WaitForData →
  ends a (λ s a', ∃ new, value_step t r s new ∧ stack_ (machine a') = stack_ (machine a) ++ new ∧
                    same_mode a a' ∧ takes false a a') (handleValue t r a).
Proof.
  intros Hr.
  assert (∀ k, basic_kind t = Some k → handleValue t r a = copy k r a) as Hb by (by destruct t; cbn; intros; simplify_eq).
  destruct (basic_kind t) as [k|] eqn:Hk.
  - rewrite (Hb k eq_refl). apply reading_ends. intros x p rest pre _ Hpre _ _.
    rewrite run_bind, write_pure. cbv beta iota. apply ends_return; [done |]. exists []. rewrite app_nil_r.
    split_and!; [by econstructor | done | done |]. by exists pre.
  - destruct t; cbn in Hk; try discriminate Hk; cbn [handleValue]; try (by eexists);
      (rewrite run_bind; apply ends_return; [done |]; eexists [_]; split_and!; [by constructor | done | done | by apply takes_none]).
Qed.

(** What a step of the machine does. *)
Definition stepped (a : PW) (s : ProtocolState) (a' : PW) : Prop :=
  step_mode a a' ∧ ∃ c, transition c (state_ (machine a), stack_ (machine a)) (s, stack_ (machine a')) ∧ takes c a a'.

Lemma ends_mono a (Q Q' : ProtocolState → PW → Prop) res :
  ends a Q res → (∀ s a', s ≠ WaitForData → Q s a' → Q' s a') → ends a Q' res.
Proof. destruct res as [[s|e|w] a']; cbn; [| done | done]. case_decide; auto. Qed.

Lemma stack_ok_back s l :
  stack_ok s l → s ≠ MessageBegin → s ≠ MessageEnd → s ≠ Done → ∃ k f, l = k ++ [f].
Proof.
  intros Hok H1 H2 H3. destruct (decide (l = [])) as [->|Hne].
  - destruct s; cbn in Hok; try done; try (by inversion Hok); by destruct Hok as (f & k & Hk & _); destruct k.
  - destruct l as [|f l _] using rev_ind; [done | by eauto].
Qed.

(** After an element: the count of the frame it is in goes down. *)
Lemma element_ends (a : PW) l f t st :
  stack_ (machine a) = l ++ [f] → st ≠ WaitForData →
  ends a (λ s a', same_mode a a' ∧ takes false a a' ∧
            ∃ new, value_step t st s new ∧ stack_ (machine a') = l ++ dec f :: new)
    ((nextState ← handleValue t st;
      _ ← (if decide (nextState ≠ WaitForData) then dec_remaining (length l) else mret tt);
      mret nextState) a).
Proof.
  intros Hl Hst. pose proof (handleValue_ends t st a Hst) as Hv. rewrite run_bind.
  destruct (handleValue t st a) as [[s|e|w] a'] eqn:Hh; cbn in Hv; [| exact Hv | done].
  rewrite run_bind. case_decide as Hs.
  - subst s. rewrite decide_False by tauto. cbn. done.
  - destruct Hv as (new & Hvs & Hstk & Hmode & Ht). rewrite Hl, <- app_assoc in Hstk. rewrite decide_True by done.
    rewrite (dec_snoc a' l f new Hstk). cbv beta iota. apply ends_return; [done |]. split_and!; [done | done |]. by exists new.
Qed.

Lemma end_ends (a : PW) k (y : item k → item k) l f Q :
  stack_ (machine a) = l ++ [f] → return_state_ f ≠ WaitForData →
  (∀ a', same_mode a a' → takes false a a' → stack_ (machine a') = l → Q (return_state_ f) a') →
  ends a Q (reading k (λ x, _ ← write k (y x); popReturnState) a).
Proof.
  intros Hl Hf HQ. apply reading_ends. intros x p r pre _ Hpre _ _. rewrite run_bind, write_pure. cbv beta iota.
  rewrite (pop_snoc _ l f) by exact Hl. apply ends_return; [done |]. apply HQ; [done | by exists pre | done].
Qed.

Lemma ret_ok_not_wait s l : ret_ok s l → s ≠ WaitForData.
Proof. by inversion 1. Qed.
Lemma stack_ok_return s l f k :
  stack_ok s l → l = k ++ [f] →
  s = StructEnd ∨ s = ListEnd ∨ s = SetEnd ∨ s = MapEnd → return_state_ f ≠ WaitForData.
Proof.
  intros Hok -> Hs. assert (∃ g m, k ++ [f] = m ++ [g] ∧ ret_ok (return_state_ g) (rev m)) as (g & m & [-> [= ->]]%app_inj_tail & Hr)
    by (by destruct Hs as [-> | [-> | [-> | ->]]]). by eapply ret_ok_not_wait.
Qed.

(** Popping a container frame that has no elements left. *)
Lemma elements_end_ends (a : PW) l f st :
  state_ (machine a) = st → st = ListValue ∨ st = SetValue ∨ st = MapKey →
  stack_ (machine a) = l ++ [f] → stack_ok st (l ++ [f]) → remaining_ f = 0 →
  ends a (stepped a) (popReturnState a).
Proof.
  intros Hst Hs Hl Hok Hr. rewrite (pop_snoc a l f Hl). assert (st ≠ MessageBegin) by (by destruct Hs as [-> | [-> | ->]]).
  assert (ret_ok st (f :: rev l)) as Hret by (destruct Hs as [-> | [-> | ->]]; cbn in Hok; by rewrite rev_snoc in Hok).
  apply ends_return.
  - destruct Hs as [-> | [-> | ->]]; by inversion Hret.
  - split; [stay |]. exists false. split; [| by apply takes_none]. rewrite Hst, Hl. by apply t_elements_end.
Qed.

(** The functions that end in a header: the items are of the right kind. *)
Lemma header_ends (a : PW) k (rest : item k → M PW ProtocolState) s (stk : item k → list Frame) :
  header_kind k = true → s ≠ WaitForData →
  (∀ x p r, item_ok k x → ∃ a', rest x (after_read p r a) = (Return s, a') ∧ step_mode a a' ∧ inp a' = r ∧ stack_ (machine a') = stk x) →
  (∀ x, item_ok k x → transition true (state_ (machine a), stack_ (machine a)) (s, stk x)) →
  ends a (stepped a) (reading k rest a).
Proof.
  intros Hk Hs Hrest Ht. apply reading_ends. intros x p r pre Hok Hpre Hne _.
  destruct (Hrest x p r Hok) as (a' & -> & Hm & Hi & Hstk). apply ends_return; [done |]. split; [done |]. exists true.
  rewrite Hstk. split; [by apply Ht |]. exists pre. rewrite Hi. split; [done |]. intros _. by apply Hne.
Qed.

Lemma messageBegin_ends (a : PW) :
  passthrough_enabled_ (machine a) = false → state_ (machine a) = MessageBegin → ends a (stepped a) (messageBegin a).
Proof.
  intros Hpt Hst. unfold messageBegin. rewrite run_bind. cbn [gets]. cbv beta iota.
  apply (header_ends a K_MessageBegin _ StructBegin (λ _, [Frame_state MessageEnd])); [done | done | |].
  - intros [[name t] seq] p r Ht. rewrite run_bind. cbn [modify]. cbv beta iota. rewrite run_bind. cbn [on_machine modify].
    cbv beta iota. rewrite run_bind. cbn [gets]. cbv beta iota. unfold after_read.
    change (passthrough_enabled_ (machine _)) with (passthrough_enabled_ (machine a)). rewrite Hpt. cbv iota.
    rewrite run_bind. cbn [gets]. cbv beta iota. rewrite run_bind. cbn [lift].
    change (message_item _) with (Return (A := item K_MessageBegin) (name, t, seq)). cbv beta iota. rewrite run_bind, write_pure. cbv beta iota. eexists. split_and!; [done | | done | done].
    split_and!; [done | done |]. rewrite decide_True by done. by exists name, t, seq.
  - intros. rewrite Hst. constructor.
Qed.

Lemma fieldBegin_ends (a : PW) : state_ (machine a) = FieldBegin → ends a (stepped a) (fieldBegin a).
Proof.
  intros Hst. apply reading_ends. intros [[name t] i] p r pre _ Hpre Hne _. case_decide as Ht.
  - apply ends_return; [done |]. split; [stay |]. exists true. rewrite Hst. split; [constructor |]. exists pre. by auto.
  - rewrite run_bind, push_pure. cbv beta iota. rewrite run_bind, write_pure. apply ends_return; [done |].
    split; [stay |]. exists true. rewrite Hst. split; [by constructor |]. exists pre. by auto.
Qed.

Lemma containerBegin_ends (a : PW) :
  (state_ (machine a) = ListBegin → ends a (stepped a) (listBegin a)) ∧
  (state_ (machine a) = SetBegin → ends a (stepped a) (setBegin a)) ∧
  (state_ (machine a) = MapBegin → ends a (stepped a) (mapBegin a)).
Proof.
  split_and!; intros Hst.
  - apply (header_ends a K_ListBegin _ ListValue (λ '(t, n), stack_ (machine a) ++ [Frame_list ListEnd t n])); [done | done | |].
    + intros [t n] p r _. rewrite run_bind, push_pure. cbv beta iota. rewrite run_bind, write_pure. eexists. split_and!; [done | stay | done | done].
    + intros [t n] Hn. rewrite Hst. by constructor.
  - apply (header_ends a K_SetBegin _ SetValue (λ '(t, n), stack_ (machine a) ++ [Frame_list SetEnd t n])); [done | done | |].
    + intros [t n] p r _. rewrite run_bind, push_pure. cbv beta iota. rewrite run_bind, write_pure. eexists. split_and!; [done | stay | done | done].
    + intros [t n] Hn. rewrite Hst. by constructor.
  - apply (header_ends a K_MapBegin _ MapKey (λ '(kt, vt, n), stack_ (machine a) ++ [Frame_map MapEnd kt vt n])); [done | done | |].
    + intros [[kt vt] n] p r _. rewrite run_bind, push_pure. cbv beta iota. rewrite run_bind, write_pure. eexists. split_and!; [done | stay | done | done].
    + intros [[kt vt] n] Hn. rewrite Hst. by constructor.
Qed.

Lemma containerEnd_ends (a : PW) l f k st :
  state_ (machine a) = st → st = ListEnd ∨ st = SetEnd ∨ st = MapEnd →
  stack_ (machine a) = l ++ [f] → stack_ok st (l ++ [f]) →
  ∀ y, ends a (stepped a) (reading k (λ x, _ ← write k (y x); popReturnState) a).
Proof.
  intros Hst Hs Hl Hok y. assert (st ≠ MessageBegin) by (by destruct Hs as [-> | [-> | ->]]). apply (end_ends a k y l f); [done | |].
  - eapply stack_ok_return; [exact Hok | done |]. tauto.
  - intros a' Hm Ht Hl'. split; [stay |]. exists false. rewrite Hst, Hl, Hl'. split; [by apply t_end | done].
Qed.

(** The elements of lists and sets. *)
Lemma elements_ends (a : PW) l f st :
  state_ (machine a) = st → st = ListValue ∨ st = SetValue →
  stack_ (machine a) = l ++ [f] → stack_ok st (l ++ [f]) →
  ends a (stepped a)
    ((f ← back; index ← gets (λ h, (length (stack_ (machine h)) - 1)%nat);
      if remaining_ f =? 0 then popReturnState
      else
        nextState ← handleValue (elem_type_ f) st;
        _ ← (if decide (nextState ≠ WaitForData) then dec_remaining index else mret tt);
        mret nextState) a).
Proof.
  intros Hst Hs Hl Hok. assert (st ≠ MessageBegin) by (by destruct Hs as [-> | ->]). rewrite run_bind, (back_snoc a l f Hl). cbv beta iota. rewrite run_bind. cbn [gets]. cbv beta iota.
  rewrite Hl, length_app, Nat.add_sub. destruct (Z.eqb_spec (remaining_ f) 0) as [Hr|Hr].
  - eapply elements_end_ends; [done | tauto | done | done | done].
  - eapply ends_mono; [apply (element_ends a l f); [done |] |]; [by destruct Hs as [-> | ->] |].
    intros s a' _ (Hm & Ht & new & Hv & Hstk). split; [stay |]. exists false. rewrite Hst, Hl, Hstk. split; [by apply t_element | done].
Qed.

Lemma mapKey_ends (a : PW) l f :
  state_ (machine a) = MapKey → stack_ (machine a) = l ++ [f] → stack_ok MapKey (l ++ [f]) → ends a (stepped a) (mapKey a).
Proof.
  intros Hst Hl Hok. unfold mapKey. rewrite run_bind, (back_snoc a l f Hl). cbv beta iota.
  destruct (Z.eqb_spec (remaining_ f) 0) as [Hr|Hr].
  - eapply elements_end_ends; [done | tauto | done | done | done].
  - eapply ends_mono; [by apply handleValue_ends |]. intros s a' _ (new & Hv & Hstk & Hm & Ht). split; [stay |]. exists false.
    rewrite Hst, Hstk, Hl, <- app_assoc. split; [by apply t_mapKey | done].
Qed.

Lemma mapValue_ends (a : PW) l f :
  state_ (machine a) = MapValue → stack_ (machine a) = l ++ [f] → stack_ok MapValue (l ++ [f]) →
  ends a (stepped a) (mapValue a).
Proof.
  intros Hst Hl Hok. unfold mapValue. rewrite run_bind, (back_snoc a l f Hl). cbv beta iota. rewrite run_bind. cbn [gets].
  cbv beta iota. assert (remaining_ f ≠ 0) as Hr
    by (cbn in Hok; rewrite rev_snoc in Hok; inversion Hok; subst; cbn; lia).
  rewrite run_bind, (proj2 (Z.eqb_neq _ _) Hr). change (ASSERT (negb false) _ a) with (Return (A := unit) tt, a). cbv beta iota.
  rewrite Hl, length_app, Nat.add_sub. eapply ends_mono; [by apply (element_ends a l f) |].
  intros s a' _ (Hm & Ht & new & Hv & Hstk). split; [stay |]. exists false. rewrite Hst, Hl, Hstk. split; [by apply t_mapValue | done].
Qed.

Lemma fieldValue_ends (a : PW) l f :
  state_ (machine a) = FieldValue → stack_ (machine a) = l ++ [f] → stack_ok FieldValue (l ++ [f]) →
  ends a (stepped a) (fieldValue a).
Proof.
  intros Hst Hl Hok. unfold fieldValue. rewrite run_bind, (back_snoc a l f Hl). cbv beta iota.
  eapply ends_mono; [apply handleValue_ends |].
  - cbn in Hok. rewrite rev_snoc in Hok. by inversion Hok.
  - intros s a' _ (new & Hv & Hstk & Hm & Ht). split; [stay |]. exists false.
    rewrite Hst, Hstk, Hl, <- app_assoc. split; [by apply t_fieldValue | done].
Qed.

Lemma structural_ends (a : PW) l f :
  stack_ (machine a) = l ++ [f] → stack_ok (state_ (machine a)) (l ++ [f]) →
  (state_ (machine a) = StructEnd → ends a (stepped a) (structEnd a)) ∧
  (state_ (machine a) = FieldEnd → ends a (stepped a) (fieldEnd a)).
Proof.
  intros Hl Hok. split; intros Hst; rewrite Hst in Hok; apply reading_ends; intros x p r pre _ Hpre _ _.
  - rewrite run_bind, write_pure. cbv beta iota. rewrite run_bind, write_pure. cbv beta iota.
    rewrite (pop_snoc _ l f) by exact Hl. apply ends_return.
    + eapply stack_ok_return; [exact Hok | done | by left].
    + split; [stay |]. exists false. rewrite Hst, Hl. split; [constructor | by exists pre].
  - rewrite run_bind, (pop_snoc _ l f) by exact Hl. cbv beta iota. rewrite run_bind, write_pure. apply ends_return; [done |].
    split; [stay |]. exists false. rewrite Hst, Hl. split; [constructor | by exists pre].
Qed.

Lemma leaf_ends (a : PW) :
  (state_ (machine a) = MessageEnd → ends a (stepped a) (messageEnd a)) ∧
  (state_ (machine a) = StructBegin → ends a (stepped a) (structBegin a)).
Proof.
  split; intros Hst; apply reading_ends; intros x p r pre _ Hpre _ _; rewrite run_bind, write_pure; (apply ends_return; [done |]);
    (split; [stay |]); exists false; rewrite Hst; (split; [constructor | by exists pre]).
Qed.

Lemma handleState_ends (a : PW) :
  passthrough_enabled_ (machine a) = false → stack_ok (state_ (machine a)) (stack_ (machine a)) →
  state_ (machine a) ≠ Done → ends a (stepped a) (handleState a).
Proof.
  intros Hpt Hok Hnd. unfold handleState. rewrite run_bind. cbn [gets]. cbv beta iota.
  destruct (state_ (machine a)) eqn:Hst; try done.
  - by apply messageBegin_ends.
  - by apply leaf_ends.
  - by apply leaf_ends.
  - destruct (stack_ok_back _ _ Hok) as (l & f & Hl); [done .. |]. rewrite Hl in Hok. apply (structural_ends a l f); [done | by rewrite Hst | done].
  - by apply fieldBegin_ends.
  - destruct (stack_ok_back _ _ Hok) as (l & f & Hl); [done .. |]. rewrite Hl in Hok. by eapply fieldValue_ends.
  - destruct (stack_ok_back _ _ Hok) as (l & f & Hl); [done .. |]. rewrite Hl in Hok. apply (structural_ends a l f); [done | by rewrite Hst | done].
  - by apply containerBegin_ends.
  - destruct (stack_ok_back _ _ Hok) as (l & f & Hl); [done .. |]. rewrite Hl in Hok. by eapply mapKey_ends.
  - destruct (stack_ok_back _ _ Hok) as (l & f & Hl); [done .. |]. rewrite Hl in Hok. by eapply mapValue_ends.
  - destruct (stack_ok_back _ _ Hok) as (l & f & Hl); [done .. |]. rewrite Hl in Hok. apply (containerEnd_ends a l f _ _ Hst); [tauto | done | done].
  - by apply containerBegin_ends.
  - destruct (stack_ok_back _ _ Hok) as (l & f & Hl); [done .. |]. rewrite Hl in Hok. apply (elements_ends a l f _ Hst); [tauto | done | done].
  - destruct (stack_ok_back _ _ Hok) as (l & f & Hl); [done .. |]. rewrite Hl in Hok. apply (containerEnd_ends a l f _ _ Hst); [tauto | done | done].
  - by apply containerBegin_ends.
  - destruct (stack_ok_back _ _ Hok) as (l & f & Hl); [done .. |]. rewrite Hl in Hok. apply (elements_ends a l f _ Hst); [tauto | done | done].
  - destruct (stack_ok_back _ _ Hok) as (l & f & Hl); [done .. |]. rewrite Hl in Hok. apply (containerEnd_ends a l f _ _ Hst); [tauto | done | done].
Qed.
End machine.
