(* ===== verification/ThriftBehaviour.v ===== *)
(** * What the Thrift state machine does

    From every state that [ThriftCodec::decode] can leave it in, the machine comes to
    an end within a number of steps that is known beforehand, its stack keeps the
    shape that the functions rely on, and it fails only with an [EnvoyException].
    Running it on a message in pieces is the same as running it on the whole
    message. *)

From S2P Require Import Prelude Envoy Metadata Codec Thrift ThriftSpec.

(** ** A bound for the steps

    Every step without input lowers the measure of the state and the stack, and a
    step that takes input raises it by less than the worth of a byte. *)

Definition rank (s : ProtocolState) : Z :=
  match s with
  | StructEnd => 10
  | FieldValue | MapKey => 13
  | StructBegin | FieldEnd | MessageEnd | ListBegin | SetBegin | MapBegin | ListValue | SetValue | MapValue => 1
  | ListEnd | SetEnd | MapEnd => 5
  | _ => 0
  end.
Definition weight (f : Frame) : Z := 10 + 30 * Z.max 0 (remaining_ f).
Fixpoint weights (l : list Frame) : Z := match l with [] => 0 | f :: l => weight f + weights l end.
Definition measure (s : ProtocolState) (l : list Frame) : Z := rank s + weights l.
Definition byte_worth : Z := 30 * 2 ^ 32.
Definition potential (s : ProtocolState) (l : list Frame) (i : bytes) : Z := measure s l + byte_worth * zlen i.

Lemma rank_range s : 0 ≤ rank s ≤ 13.
Proof. destruct s; cbn; lia. Qed.
Lemma weights_app l l' : weights (l ++ l') = weights l + weights l'.
Proof. induction l as [|f l IH]; cbn [weights app]; lia. Qed.
Lemma weights_nonneg l : 0 ≤ weights l.
Proof. induction l as [|f l IH]; cbn [weights]; unfold weight; lia. Qed.
Lemma weight_state r : weight (Frame_state r) = 10.
Proof. reflexivity. Qed.
Lemma weight_dec f : 0 < remaining_ f < 2 ^ 32 → weight (dec f) = weight f - 30.
Proof.
  intros Hf. unfold weight. change (remaining_ (dec f)) with (u32 (remaining_ f - 1)). rewrite u32_small; lia.
Qed.

Lemma value_step_measure t r s new :
  value_step t r s new → measure s new ≤ Z.max (rank r) 11.
Proof.
  intros [k Hk | st Hs]; unfold measure; cbn [weights]; rewrite ?weight_state; [lia |].
  destruct t; cbn in Hs; simplify_eq; cbn [rank]; lia.
Qed.

Lemma ret_ok_remaining s f l : ret_ok s (f :: l) → 0 ≤ remaining_ f < 2 ^ 32 ∧ (s = MapValue → remaining_ f ≠ 0).
Proof. inversion 1; subst; cbn; split; lia || done. Qed.
Lemma ret_ok_return s f l :
  ret_ok s (f :: l) → (s = ListValue ∨ s = SetValue ∨ s = MapKey → rank (return_state_ f) = 5) ∧
  (s = FieldEnd → return_state_ f = FieldEnd).
Proof. inversion 1; subst; cbn; split; try done; by intros [? | [? | ?]]. Qed.

Lemma measure_app s l new : measure s (l ++ new) = measure s new + weights l.
Proof. unfold measure. rewrite weights_app. lia. Qed.
Lemma measure_cons s f l : measure s (f :: l) = weight f + measure s l.
Proof. unfold measure. cbn [weights]. lia. Qed.
Lemma measure_nil s : measure s [] = rank s.
Proof. unfold measure. cbn. lia. Qed.

Lemma transition_measure c s l s' l' :
  transition c (s, l) (s', l') → stack_ok s l → measure s' l' < measure s l + (if c then byte_worth else 0).
Proof.
  assert (∀ f, 10 ≤ weight f) as Hw by (intros; unfold weight; lia). pose proof weights_nonneg as Hn.
  assert (∀ s, 0 ≤ rank s ≤ 13) as Hrank by (intros; apply rank_range).
  unfold byte_worth. inversion 1; subst; cbn [stack_ok]; rewrite ?rev_snoc, ?measure_app, ?measure_cons, ?measure_nil; intros Hok.
  - rewrite weight_state. unfold measure. cbn [rank]. specialize (Hn l). lia.
  - unfold measure. cbn. lia.
  - unfold measure. cbn. lia.
  - unfold measure. cbn [rank]. specialize (Hrank (return_state_ f)). specialize (Hw f). lia.
  - unfold measure. cbn [rank]. lia.
  - unfold measure, weight. cbn [rank remaining_ Frame_elem]. lia.
  - match goal with H : value_step _ _ _ _ |- _ => apply value_step_measure in H end.
    rewrite (proj2 (ret_ok_return _ _ _ Hok) eq_refl) in *. cbn [rank] in *. lia.
  - unfold measure. cbn [rank]. specialize (Hw f). lia.
  - unfold measure, weight. cbn [rank remaining_ Frame_list]. lia.
  - unfold measure, weight. cbn [rank remaining_ Frame_list]. lia.
  - unfold measure, weight. cbn [rank remaining_ Frame_map]. lia.
  - match goal with H : _ = _ ∨ _ |- _ => rename H into Hst end.
    assert (ret_ok s (f :: rev l')) as Hr by (destruct Hst as [-> | [-> | ->]]; cbn in Hok; by rewrite rev_snoc in Hok).
    pose proof (proj1 (ret_ok_return _ _ _ Hr) Hst). unfold measure. specialize (Hw f). specialize (Hrank s). lia.
  - match goal with H : _ = _ ∨ _ |- _ => rename H into Hst end.
    assert (ret_ok s (f :: rev l0)) as Hr by (destruct Hst as [-> | ->]; cbn in Hok; by rewrite rev_snoc in Hok).
    pose proof (ret_ok_remaining _ _ _ Hr). match goal with H : value_step _ _ _ _ |- _ => apply value_step_measure in H end.
    rewrite weight_dec by lia. specialize (Hrank s). lia.
  - match goal with H : value_step _ _ _ _ |- _ => apply value_step_measure in H end. cbn [rank] in *. lia.
  - pose proof (ret_ok_remaining _ _ _ Hok). match goal with H : value_step _ _ _ _ |- _ => apply value_step_measure in H end.
    rewrite weight_dec by lia. cbn [rank] in *. lia.
  - match goal with H : _ = _ ∨ _ |- _ => rename H into Hst end.
    assert (rank s = 5) by (by destruct Hst as [-> | [-> | ->]]). unfold measure. specialize (Hw f). specialize (Hrank (return_state_ f)). lia.
Qed.

(** ** Runs on byte strings *)

Section runs.
Context {E : Envoy} {P : ThriftProtocol E} {T : ThriftTransport E} {PL : ProtocolLaws P}.
Abbreviation PW := (@Walk pE pP pT).

(** A machine that does not pass bodies through, with a stack of the right shape, and
    the header of the message once it has been read. *)
Definition walk_ok {E : Envoy} {P : ThriftProtocol E} {T : ThriftTransport E} (h : @Walk E P T) : Prop :=
  passthrough_enabled_ (machine h) = false ∧ stack_ok (state_ (machine h)) (stack_ (machine h)) ∧
  0 ≤ body_bytes_ (machine h) ∧ (state_ (machine h) ≠ MessageBegin → header_known (metadata h)).
Definition left_steps (a : PW) : Z := potential (state_ (machine a)) (stack_ (machine a)) (inp a).
Definition set_state (s : ProtocolState) (a : PW) : PW :=
  {| machine := {| state_ := s; stack_ := stack_ (machine a); body_bytes_ := body_bytes_ (machine a);
                   passthrough_enabled_ := passthrough_enabled_ (machine a); origin_message := origin_message (machine a) |};
     proto := proto a; metadata := metadata a; input := input a |}.

Lemma run_S fuel (a : PW) :
  run (S fuel) a =
  if decide (state_ (machine a) = Done) then (Return Done, a)
  else
    match handleState a with
    | (Return s, a') => if decide (s = WaitForData) then (Return WaitForData, a') else run fuel (set_state s a')
    | (Throw e, a') => (Throw e, a')
    | (Panic w, a') => (Panic w, a')
    end.
Proof.
  cbn [run]. rewrite run_bind. cbn [gets]. cbv beta iota. case_decide; [done |]. rewrite run_bind.
  destruct (handleState a) as [[s|e|w] a']; [| done | done]. case_decide; [done |]. by rewrite run_bind.
Qed.

Lemma left_steps_nonneg (a : PW) : 0 ≤ left_steps a.
Proof.
  unfold left_steps, potential, measure, byte_worth. pose proof (rank_range (state_ (machine a))).
  pose proof (weights_nonneg (stack_ (machine a))). pose proof (zlen_nonneg (inp a)). lia.
Qed.

(** After a step the machine is in order, and there are fewer steps left. *)
Lemma stepped_ok (a : PW) s (a' : PW) :
  walk_ok a → stepped a s a' →
  walk_ok (set_state s a') ∧ left_steps (set_state s a') < left_steps a ∧ ∃ pre, inp a = pre ++ inp a'.
Proof.
  intros (Hpt & Hok & Hb & Hh) [(Hm1 & Hm2 & Hm3) (c & Ht & pre & Hpre & Hne)]. split_and!; [| | by eauto].
  - split_and!; cbn; [by rewrite Hm1 | by eapply transition_ok | by rewrite Hm2 |].
    intros _. case_decide as Hs; [done |]. rewrite Hm3. by apply Hh.
  - pose proof (transition_measure _ _ _ _ _ Ht Hok) as Hlt. unfold left_steps, potential.
    change (inp (set_state s a')) with (inp a'). cbn [set_state machine state_ stack_].
    rewrite Hpre, zlen_app. unfold byte_worth in *. destruct c; [| pose proof (zlen_nonneg pre); lia].
    assert (1 ≤ zlen pre) by (destruct pre; [by destruct Hne | unfold zlen; cbn; lia]). lia.
Qed.

Lemma run_ends fuel (a : PW) :
  walk_ok a →
  match run fuel a with
  | (Return s, a') => walk_ok a' ∧ (s = Done ∧ state_ (machine a') = Done ∨ s = WaitForData) ∧
      left_steps a' ≤ left_steps a ∧ ∃ pre, inp a = pre ++ inp a'
  | (Throw e, _) => ∃ what, e = EnvoyException what
  | (Panic w, _) => w = "out of fuel" ∧ Z.of_nat fuel ≤ left_steps a
  end.
Proof.
  revert a. induction fuel as [|fuel IH]; intros a Hok; [split; [done |]; apply left_steps_nonneg |].
  rewrite run_S. case_decide as Hd; [split_and!; [done | by left | done | by exists []] |].
  pose proof (handleState_ends a (proj1 Hok) (proj1 (proj2 Hok)) Hd) as He.
  destruct (handleState a) as [[s|e|w] a']; cbn in He; [| done | done]. case_decide as Hs.
  - destruct He as (p & ->). split_and!; [exact Hok | by right | done | by exists []].
  - destruct (stepped_ok a s a' Hok He) as (Hok' & Hlt & pre & Hpre). specialize (IH _ Hok').
    destruct (run fuel (set_state s a')) as [[s2|e|w] a2]; [| done |].
    + destruct IH as (H1 & H2 & H3 & pre2 & H4). split_and!; [done | done | lia |]. exists (pre ++ pre2).
      by rewrite <- app_assoc, <- H4.
    + destruct IH as [-> Hf]. split; [done | lia].
Qed.
End runs.

(** More fuel does not change how a run ends. *)
Lemma run_fuel_mono {E : Envoy} {P : ThriftProtocol E} {T : ThriftTransport E} fuel n (h : @Walk E P T) :
  (run fuel h).1 ≠ Panic "out of fuel" → run (fuel + n) h = run fuel h.
Proof.
  revert h. induction fuel as [|fuel IH]; intros h; [done |]. cbn [Nat.add run]. rewrite !run_bind. cbn [gets]. cbv beta iota.
  case_decide; [done |]. rewrite !run_bind. destruct (handleState h) as [[s|e|w] h']; [| done | done].
  case_decide; [done |]. rewrite !run_bind. apply IH.
Qed.

(** ** Runs on buffers *)

Section buffers.
Context {E : Envoy} {L : EnvoyLaws E} {P : ThriftProtocol E} {T : ThriftTransport E} {PL : ProtocolLaws P}.
Abbreviation W := (@Walk E P T).
Abbreviation PW := (@Walk pE pP pT).

Definition abstract (h : W) : PW :=
  {| machine := {| state_ := state_ (machine h); stack_ := stack_ (machine h); body_bytes_ := body_bytes_ (machine h);
                   passthrough_enabled_ := passthrough_enabled_ (machine h);
                   origin_message := contents (origin_message (machine h)) : @buffer (@envoy_buffer pE) |};
     proto := proto h : @protocol pE pP; metadata := metadata h : MessageMetadata (@attachments pE pT);
     input := contents (input h) : @buffer (@envoy_buffer pE) |}.
Lemma walk_eq_abstract h : walk_ok h → walk_eq h (abstract h).
Proof. intros (_ & _ & Hb & _). by split_and!. Qed.
Lemma walk_eq_abstracts h a : walk_eq h a → abstract h = a.
Proof.
  destruct h as [[] ? ? ?], a as [[] ? ? ?]. intros (H1 & H2 & H3 & _ & H5 & H6 & H7 & H8 & H9). cbn in *.
  unfold abstract. cbn. by subst.
Qed.
Lemma walk_eq_ok h a : walk_eq h a → walk_ok a ↔ walk_ok h.
Proof.
  intros (H1 & H2 & H3 & _ & H5 & _ & _ & H8 & _). unfold walk_ok. rewrite H1, H2, H3, H5, H8. reflexivity.
Qed.

(** How many steps the machine can take with the input it has. *)
Definition enough_fuel (h : W) : Z := potential (state_ (machine h)) (stack_ (machine h)) (contents (input h)).

Lemma run_buffers fuel (h : W) :
  walk_ok h →
  match run fuel h with
  | (Return s, h') => walk_ok h' ∧ (s = Done ∧ state_ (machine h') = Done ∨ s = WaitForData) ∧
      ∃ pre, contents (input h) = pre ++ contents (input h')
  | (Throw e, _) => ∃ what, e = EnvoyException what
  | (Panic w, _) => w = "out of fuel" ∧ Z.of_nat fuel ≤ enough_fuel h
  end.
Proof using L PL.
  intros Hok. pose proof (walk_eq_abstract h Hok) as Heq. pose proof (sim_run fuel h (abstract h) Heq) as Hs.
  pose proof (run_ends fuel (abstract h) (proj2 (walk_eq_ok _ _ Heq) Hok)) as He.
  destruct (run fuel (abstract h)) as [[s|e|w] a'].
  - destruct Hs as (h' & -> & Heq'). destruct He as (H1 & H2 & _ & pre & H3).
    pose proof Heq' as (Hst & _ & _ & _ & _ & _ & _ & _ & Hi). split_and!; [by eapply walk_eq_ok | by rewrite Hst |].
    exists pre. by rewrite Hi.
  - destruct Hs as (h' & ->). done.
  - destruct Hs as (h' & ->). done.
Qed.

(** C11: The state machine comes to an end on every input, also on sizes that the peer made up: the number of its steps is
    bounded by its stack and the bytes of the buffer, and with any fuel above the bound it gives one and the same result,
    which is the end of the message, waiting for more data, or an EnvoyException. *)
Theorem thrift_run_terminates (h : W) :
  walk_ok h →
  ∃ result, (∀ fuel : nat, enough_fuel h < Z.of_nat fuel → run fuel h = result) ∧
    match result with
    | (Return s, h') => (s = Done ∧ state_ (machine h') = Done ∨ s = WaitForData) ∧ walk_ok h'
    | (Throw e, _) => ∃ what, e = EnvoyException what
    | (Panic _, _) => False
    end.
Proof.
  intros Hok. set (n := Z.to_nat (enough_fuel h + 1)). exists (run n h).
  assert (enough_fuel h < Z.of_nat n) as Hn by (unfold n; lia). pose proof (run_buffers n h Hok) as Hr. split.
  - intros fuel Hf. replace fuel with (n + (fuel - n))%nat by (unfold n in *; lia). apply run_fuel_mono.
    destruct (run n h) as [[s|e|w] h']; [done | done |]. cbn. lia.
  - destruct (run n h) as [[s|e|w] h']; [by destruct Hr as (? & ? & _) | done | lia].
Qed.
End buffers.
