(* ===== verification/ThriftSegments.v ===== *)
(** * The Thrift state machine on messages in pieces

    In every state the machine reads one item at most, before it changes anything.
    So when it had to wait, it goes on as if all bytes had been there at first. *)

From S2P Require Import Prelude Envoy Metadata Codec Thrift ThriftSpec ThriftBehaviour.

Section segments.
Context {E : Envoy} {P : ThriftProtocol E} {T : ThriftTransport E} {PL : ProtocolLaws P}.
Abbreviation PW := (@Walk pE pP pT).

Definition set_inp (i : bytes) (a : PW) : PW := after_read (pr a) i a.
Definition more (ext : bytes) (a : PW) : PW := set_inp (inp a ++ ext) a.

(** The call [m] in [a] goes on to a state and does not look at the input. *)
Definition settled (a : PW) (p : @protocol E P) (m : M PW ProtocolState) : Prop :=
  ∃ o a0, o ≠ Return WaitForData ∧ ∀ i, m (after_read p i a) = (o, set_inp i a0).

(** The call [m] in [a] reads one item and then settles, or settles without. *)
Definition reads_first (a : PW) (m : M PW ProtocolState) : Prop :=
  (∃ k rest, (∀ p i, m (after_read p i a) = reading k rest (after_read p i a)) ∧ ∀ x p, settled a p (rest x)) ∨
  (∀ p, settled a p m).

Lemma settled_intro a p m o F :
  o ≠ Return WaitForData → (∀ i, m (after_read p i a) = (o, F i)) → (∀ i, F i = set_inp i (F [])) → settled a p m.
Proof. intros Ho Hm HF. exists o, (F []). split; [done |]. intros i. by rewrite Hm, <- HF. Qed.

Lemma reading_result k rest (a : PW) p i :
  reading k rest (after_read p i a) =
  match parse k p i with
  | (Return (Some (x, r)), p') => rest x (after_read p' r a)
  | (Return None, p') => (Return WaitForData, after_read p' i a)
  | (Throw e, p') => (Throw e, after_read p' i a)
  | (Panic w, p') => (Panic w, after_read p' i a)
  end.
Proof.
  unfold reading. rewrite run_bind. unfold read. cbn [proto_read pP]. unfold byte_read. cbn [fst snd after_read proto input].
  destruct (parse k p i) as [[[[x r]|]|e|w] p']; reflexivity.
Qed.

(** ** More input *)

Lemma settled_more a m ext :
  (∀ p, settled a p m) → m (more ext a) = ((m a).1, more ext (m a).2) ∧ (m a).1 ≠ Return WaitForData.
Proof.
  intros Hs. destruct (Hs (pr a)) as (o & a0 & Ho & Hm).
  assert (m a = (o, set_inp (inp a) a0)) as -> by (rewrite <- Hm; by destruct a).
  split; [| done]. unfold more, set_inp at 1. rewrite Hm. reflexivity.
Qed.

Lemma reads_first_more a m ext :
  reads_first a m →
  match m a with
  | (Return WaitForData, a') => waits a a' ∧ m (more ext a') = m (more ext a)
  | (Return s, a') => m (more ext a) = (Return s, more ext a')
  | (Throw e, _) => ∃ a', m (more ext a) = (Throw e, a')
  | (Panic w, _) => ∃ a', m (more ext a) = (Panic w, a')
  end.
Proof.
  assert (after_read (pr a) (inp a) a = a) as Ha by (by destruct a).
  intros [(k & rest & Hm & Hrest) | Hs].
  - pose proof (Hm (pr a) (inp a)) as Hma. rewrite reading_result, Ha in Hma. rewrite Hma.
    assert (∀ p, m (more ext (after_read p (inp a) a)) = m (after_read p (inp a ++ ext) a)) as Hmore by done.
    pose proof (Hm (pr a) (inp a ++ ext)) as Hme. rewrite reading_result in Hme.
    change (m (more ext a)) with (m (after_read (pr a) (inp a ++ ext) a)).
    destruct (parse k (pr a) (inp a)) as [o p'] eqn:Hp. destruct o as [[[x r]|]|e|w].
    + rewrite (parse_done_app _ _ _ _ _ ext Hp) in Hme by done. cbn [extend] in Hme. rewrite Hme.
      destruct (Hrest x p') as (o & a0 & Ho & Hr). rewrite !Hr. destruct o as [s|e|w]; [| by eexists | by eexists].
      by destruct s.
    + split; [by exists p' |]. rewrite Hmore, Hm, Hm, !reading_result. by rewrite (parse_wait_app _ _ _ _ ext Hp).
    + rewrite (parse_done_app _ _ _ _ _ ext Hp) in Hme by done. cbn [extend] in Hme. rewrite Hme. by eexists.
    + rewrite (parse_done_app _ _ _ _ _ ext Hp) in Hme by done. cbn [extend] in Hme. rewrite Hme. by eexists.
  - destruct (settled_more a m ext Hs) as [-> Hw]. destruct (m a) as [[s|e|w] a']; cbn in *; [| by eexists | by eexists].
    by destruct s.
Qed.

(** ** The functions of the machine *)

Ltac settles :=
  eapply settled_intro;
    [ | intros ?; repeat first [rewrite run_bind | rewrite write_pure | rewrite push_pure | progress cbv beta iota]; reflexivity
    | intros ?; reflexivity ]; try discriminate.

Lemma reads_reading a k rest : (∀ x p, settled a p (rest x)) → reads_first a (reading k rest).
Proof. intros Hr. left. by exists k, rest. Qed.

Lemma settled_pop a p l f :
  stack_ (machine a) = l ++ [f] → return_state_ f ≠ WaitForData → settled a p popReturnState.
Proof.
  intros Hl Hf. exists (Return (return_state_ f)), (set_stack l (after_read p [] a)). split; [congruence |].
  intros i. by rewrite (pop_snoc _ l f) by exact Hl.
Qed.

Lemma reads_end a k (y : item k → item k) l f :
  stack_ (machine a) = l ++ [f] → return_state_ f ≠ WaitForData →
  reads_first a (reading k (λ x, _ ← write k (y x); popReturnState)).
Proof.
  intros Hl Hf. apply reads_reading. intros x p. eapply (settled_intro _ _ _ (Return (return_state_ f))); [congruence | |].
  - intros i. rewrite run_bind, write_pure. cbv beta iota. rewrite (pop_snoc _ l f) by exact Hl. reflexivity.
  - reflexivity.
Qed.

(** A value, and what the caller does after it. *)
Lemma reads_value a t r (g : ProtocolState → M PW ProtocolState) :
  r ≠ WaitForData → (∀ b, g WaitForData b = (Return WaitForData, b)) →
  (∀ k p x, basic_kind t = Some k → settled a p (_ ← write k x; g r)) →
  (∀ p s, begin_state t = Some s → settled a p (_ ← push (Frame_state r); g s)) →
  reads_first a (handleValue t r ≫= g).
Proof.
  intros Hr Hwait Hbasic Hbegin. destruct (basic_kind t) as [k|] eqn:Hk.
  - left. exists k, (λ x, _ ← write k x; g r). split; [| by auto]. intros p i.
    assert ((handleValue t r : M PW _) = copy k r) as -> by (by destruct t; cbn in Hk; simplify_eq).
    rewrite run_bind. unfold copy. rewrite !reading_result. destruct (parse k p i) as [[[[x rest]|]|e|w] p']; [| | done | done].
    + rewrite run_bind, write_pure. cbv beta iota. rewrite run_bind, write_pure. reflexivity.
    + cbv beta iota. by rewrite Hwait.
  - right. intros p. destruct (begin_state t) as [s|] eqn:Hs.
    + destruct (Hbegin p s eq_refl) as (o & a0 & Ho & Hg). exists o, a0. split; [done |]. intros i. rewrite <- Hg.
      assert ((handleValue t r : M PW _) = (_ ← push (Frame_state r); mret s)) as -> by (by destruct t; cbn in Hs; simplify_eq).
      rewrite !run_bind, push_pure. reflexivity.
    + destruct t; cbn in Hk, Hs; try discriminate; cbn [handleValue]; settles.
Qed.
Lemma reads_value_only a t r : r ≠ WaitForData → reads_first a (handleValue t r).
Proof.
  intros Hr. assert (reads_first a (handleValue t r ≫= mret)) as Hv.
  { apply reads_value; [done | done | |]; intros.
    - eapply (settled_intro _ _ _ (Return r)); [congruence | |].
      + intros i. rewrite run_bind, write_pure. reflexivity.
      + reflexivity.
    - destruct t; cbn in *; simplify_eq; settles. }
  destruct Hv as [(k & rest & Hm & Hrest) | Hs].
  - left. exists k, rest. split; [| done]. intros p i. rewrite <- Hm, run_bind. by destruct (handleValue t r _) as [[] ?].
  - right. intros p. destruct (Hs p) as (o & a0 & Ho & Hm). exists o, a0. split; [done |]. intros i.
    rewrite <- Hm, run_bind. by destruct (handleValue t r _) as [[] ?].
Qed.

Lemma reads_element a l f t st :
  stack_ (machine a) = l ++ [f] → st ≠ WaitForData →
  reads_first a (nextState ← handleValue t st;
                 _ ← (if decide (nextState ≠ WaitForData) then dec_remaining (length l) else mret tt);
                 mret nextState).
Proof.
  intros Hl Hst. apply reads_value; [done | | |].
  - intros b. by rewrite decide_False by tauto.
  - intros k p x _. eapply (settled_intro _ _ _ (Return st)); [congruence | |].
    + intros i. rewrite run_bind, write_pure. cbv beta iota. rewrite decide_True by done.
      rewrite run_bind, (dec_snoc _ l f []) by exact Hl. reflexivity.
    + reflexivity.
  - intros p s Hs. assert (s ≠ WaitForData) by (by destruct t; cbn in Hs; simplify_eq).
    eapply (settled_intro _ _ _ (Return s)); [congruence | |].
    + intros i. rewrite run_bind, push_pure. cbv beta iota. rewrite decide_True by done. rewrite run_bind.
      rewrite (dec_snoc _ l f [Frame_state st]).
      2: { change (stack_ (machine a) ++ [Frame_state st] = l ++ [f; Frame_state st]). by rewrite Hl, <- app_assoc. }
      reflexivity.
    + reflexivity.
Qed.

Lemma reads_first_ext a m m' :
  (∀ p i, m (after_read p i a) = m' (after_read p i a)) → reads_first a m' → reads_first a m.
Proof.
  intros Hmm [(k & rest & Hm & Hrest) | Hs].
  - left. exists k, rest. split; [| done]. intros p i. by rewrite Hmm, Hm.
  - right. intros p. destruct (Hs p) as (o & a0 & Ho & Hm). exists o, a0. split; [done |]. intros i. by rewrite Hmm, Hm.
Qed.

Lemma reads_messageBegin a : passthrough_enabled_ (machine a) = false → reads_first a messageBegin.
Proof.
  intros Hpt. left.
  exists K_MessageBegin, (λ '(name, t, seq),
    _ ← modify (λ h : PW, h <| metadata ::= λ m, m <| method_name_ := Some name |> <| msg_type_ := Some t |>
                                              <| seq_id_ := Some seq |> |>);
    _ ← on_machine (λ s, s <| stack_ := [Frame_state MessageEnd] |>);
    _ ← write K_MessageBegin (name, t, seq); mret StructBegin). split.
  - intros p i. unfold messageBegin. rewrite run_bind. cbn [gets]. cbv beta iota. rewrite !reading_result.
    destruct (parse K_MessageBegin p i) as [[[[[[name t] seq] rest]|]|e|w] p']; [| done ..].
    rewrite run_bind. cbn [modify]. cbv beta iota. rewrite run_bind. cbn [on_machine modify].
    cbv beta iota. rewrite run_bind. cbn [gets]. cbv beta iota.
    change (passthrough_enabled_ (machine _)) with (passthrough_enabled_ (machine a)). rewrite Hpt. cbv iota.
    rewrite run_bind. cbn [gets]. cbv beta iota. rewrite run_bind. cbn [lift].
    change (message_item _) with (Return (A := item K_MessageBegin) (name, t, seq)). cbv beta iota. reflexivity.
  - intros [[name t] seq] p. settles.
Qed.

Lemma reads_elements a l f st :
  stack_ (machine a) = l ++ [f] → st ≠ WaitForData → return_state_ f ≠ WaitForData →
  reads_first a (f ← back; index ← gets (λ h, (length (stack_ (machine h)) - 1)%nat);
      if remaining_ f =? 0 then popReturnState
      else
        nextState ← handleValue (elem_type_ f) st;
        _ ← (if decide (nextState ≠ WaitForData) then dec_remaining index else mret tt);
        mret nextState).
Proof.
  intros Hl Hst Hf. eapply reads_first_ext.
  { intros p i. rewrite run_bind, (back_snoc _ l f) by exact Hl. cbv beta iota. rewrite run_bind. cbn [gets]. cbv beta iota.
    change (stack_ (machine (after_read p i a))) with (stack_ (machine a)). rewrite Hl, length_app, Nat.add_sub. reflexivity. }
  case_match.
  - right. intros p. by eapply settled_pop.
  - by eapply reads_element.
Qed.

Lemma reads_mapKey a l f :
  stack_ (machine a) = l ++ [f] → return_state_ f ≠ WaitForData → reads_first a mapKey.
Proof.
  intros Hl Hf. eapply reads_first_ext.
  { intros p i. unfold mapKey. rewrite run_bind, (back_snoc _ l f) by exact Hl. cbv beta iota. reflexivity. }
  case_match.
  - right. intros p. by eapply settled_pop.
  - by apply reads_value_only.
Qed.

Lemma reads_mapValue a l f : stack_ (machine a) = l ++ [f] → remaining_ f ≠ 0 → reads_first a mapValue.
Proof.
  intros Hl Hf. eapply reads_first_ext.
  { intros p i. unfold mapValue. rewrite run_bind, (back_snoc _ l f) by exact Hl. cbv beta iota. rewrite run_bind. cbn [gets].
    cbv beta iota. rewrite run_bind, (proj2 (Z.eqb_neq _ _) Hf).
    change (ASSERT (negb false) _ ?b) with (Return (A := unit) tt, b). cbv beta iota.
    change (stack_ (machine (after_read p i a))) with (stack_ (machine a)). rewrite Hl, length_app, Nat.add_sub. reflexivity. }
  by eapply reads_element.
Qed.

Lemma reads_fieldValue a l f :
  stack_ (machine a) = l ++ [f] → return_state_ f ≠ WaitForData → reads_first a fieldValue.
Proof.
  intros Hl Hf. eapply reads_first_ext.
  { intros p i. unfold fieldValue. rewrite run_bind, (back_snoc _ l f) by exact Hl. cbv beta iota. reflexivity. }
  by apply reads_value_only.
Qed.

Lemma reads_struct a l f :
  stack_ (machine a) = l ++ [f] → return_state_ f ≠ WaitForData → reads_first a structEnd ∧ reads_first a fieldEnd.
Proof.
  intros Hl Hf. split; apply reads_reading; intros x p.
  - eapply (settled_intro _ _ _ (Return (return_state_ f))); [congruence | |].
    + intros i. rewrite run_bind, write_pure. cbv beta iota. rewrite run_bind, write_pure. cbv beta iota.
      rewrite (pop_snoc _ l f) by exact Hl. reflexivity.
    + reflexivity.
  - eapply (settled_intro _ _ _ (Return FieldBegin)); [congruence | |].
    + intros i. rewrite run_bind, (pop_snoc _ l f) by exact Hl. cbv beta iota. rewrite run_bind, write_pure. reflexivity.
    + reflexivity.
Qed.

Lemma reads_begin a :
  reads_first a messageEnd ∧ reads_first a structBegin ∧ reads_first a fieldBegin ∧
  reads_first a listBegin ∧ reads_first a setBegin ∧ reads_first a mapBegin.
Proof.
  split_and!; apply reads_reading.
  - intros x p. settles.
  - intros x p. settles.
  - intros [[name t] i] p. case_decide; settles.
  - intros [t n] p. settles.
  - intros [t n] p. settles.
  - intros [[kt vt] n] p. settles.
Qed.

(** Frames of the stack never return to [WaitForData]. *)
Lemma ret_ok_clean s l : ret_ok s l → Forall (λ f, return_state_ f ≠ WaitForData) l.
Proof.
  induction 1 as [| | | | |]; [constructor | ..]; (constructor; [done |]); constructor; try done; by eapply ret_ok_not_wait.
Qed.
Lemma stack_ok_top s l f :
  stack_ok s (l ++ [f]) → s ≠ MessageBegin → s ≠ MessageEnd → s ≠ Done →
  return_state_ f ≠ WaitForData ∧ (s = MapValue → remaining_ f ≠ 0).
Proof.
  intros Hok H1 H2 H3.
  assert (ret_ok s (f :: rev l) ∨ s = FieldValue ∧ ret_ok FieldEnd (f :: rev l) ∨ s ≠ MapValue ∧ ∃ l', ret_ok (return_state_ f) l') as Hr.
  { destruct s; cbn in Hok; rewrite ?rev_snoc in Hok; try done; try (by left);
      try (right; right; split; [done |]; destruct Hok as (g & k & [-> [= ->]]%app_inj_tail & Hg); by eauto).
    right. left. done. }
  destruct Hr as [Hr | [[-> Hr] | [Hs [l' Hr]]]].
  - split; [apply ret_ok_clean in Hr; by inversion Hr |]. by eapply ret_ok_remaining.
  - split; [apply ret_ok_clean in Hr; by inversion Hr |]. done.
  - split; [by eapply ret_ok_not_wait | done].
Qed.

Lemma handleState_reads a : walk_ok a → state_ (machine a) ≠ Done → reads_first a handleState.
Proof.
  intros (Hpt & Hok & _ & _) Hnd.
  pose proof (λ l f, stack_ok_top (state_ (machine a)) l f) as Htop.
  pose proof (stack_ok_back _ _ Hok) as Hback.
  eapply reads_first_ext.
  { intros p i. unfold handleState. rewrite run_bind. cbn [gets]. cbv beta iota.
    change (state_ (machine (after_read p i a))) with (state_ (machine a)). reflexivity. }
  destruct (reads_begin a) as (R1 & R2 & R3 & R4 & R5 & R6).
  destruct (state_ (machine a)) eqn:Hst; try done; try (by apply reads_messageBegin);
    (destruct Hback as (l & f & Hl); [done .. |]; rewrite Hl in Hok;
     destruct (Htop l f Hok) as [Hf Hm]; [done .. |]);
    first [ by apply (reads_struct a l f Hl Hf) | by apply (reads_fieldValue a l f) | by apply (reads_mapKey a l f) | apply (reads_mapValue a l f); by auto
          | by apply (reads_elements a l f) | by apply (reads_end a K_MapEnd (λ _, tt) l f)
          | by apply (reads_end a K_ListEnd (λ _, tt) l f) | by apply (reads_end a K_SetEnd (λ _, tt) l f) ].
Qed.

(** ** Runs *)

Lemma run_waits fuel (a a1 : PW) ext :
  walk_ok a → run fuel a = (Return WaitForData, a1) →
  ∃ n, ∀ m, run (n + S m) (more ext a) = run (S m) (more ext a1).
Proof.
  revert a. induction fuel as [|fuel IH]; intros a Hok; [done |]. rewrite run_S. case_decide as Hd; [done |].
  pose proof (reads_first_more a handleState ext (handleState_reads a Hok Hd)) as Hm.
  pose proof (handleState_ends a (proj1 Hok) (proj1 (proj2 Hok)) Hd) as He.
  destruct (handleState a) as [[s|e|w] a']; [| done | done]. cbn in He. case_decide as Hs.
  - intros [= ->]. subst s. destruct Hm as [(p & ->) Hm]. exists O. intros m. cbn [Nat.add]. rewrite !run_S, Hm. by rewrite !decide_False.
  - intros Hrun. destruct (stepped_ok a s a' Hok He) as (Hok' & _ & _).
    destruct (IH _ Hok' Hrun) as [n Hn]. exists (S n). intros m. cbn [Nat.add]. rewrite run_S, decide_False by done.
    assert (handleState (more ext a) = (Return s, more ext a')) as -> by (by destruct s). rewrite decide_False by done.
    exact (Hn m).
Qed.

Lemma left_steps_more ext a : left_steps (more ext a) = left_steps a + byte_worth * zlen ext.
Proof. unfold left_steps, potential. change (inp (more ext a)) with (inp a ++ ext). rewrite zlen_app. cbn [more set_inp after_read machine]. lia. Qed.

Lemma run_resumes fuel fuel0 (a a1 : PW) ext :
  walk_ok a → run fuel0 a = (Return WaitForData, a1) → left_steps (more ext a) < Z.of_nat fuel →
  run fuel (more ext a) = run fuel (more ext a1).
Proof.
  intros Hok Hrun Hf. destruct (run_waits _ _ _ ext Hok Hrun) as [n Hn]. pose proof (run_ends fuel0 a Hok) as He.
  rewrite Hrun in He. destruct He as (Hok1 & _ & Hle & _).
  assert (∀ b, walk_ok b → left_steps b < Z.of_nat fuel → (run fuel b).1 ≠ Panic "out of fuel") as Hfuel.
  { intros b Hb Hl. pose proof (run_ends fuel b Hb) as Hb'. destruct (run fuel b) as [[] ?]; [done | done |]. cbn. lia. }
  destruct fuel as [|fuel]; [pose proof (left_steps_nonneg (more ext a)); lia |]. rewrite <- Hn, Nat.add_comm. symmetry.
  apply run_fuel_mono, Hfuel; [exact Hok | done].
Qed.
End segments.

(** ** On buffers *)

Section buffers.
Context {E : Envoy} {L : EnvoyLaws E} {P : ThriftProtocol E} {T : ThriftTransport E} {PL : ProtocolLaws P}.

(** A message may come in pieces: a machine that had to wait for data goes on, when more bytes arrive, as the machine
    would have gone on from the beginning if all bytes had been there: it ends with the same result, the same state and
    stack, the same header, the same bytes written and the same bytes left, or it throws the same exception. *)
Theorem thrift_run_segmented (fuel fuel0 : nat) (h h1 : @Walk E P T) (b b1 : buffer) (ext : bytes) :
  walk_ok h → run fuel0 h = (Return WaitForData, h1) →
  contents b = contents (input h) ++ ext → contents b1 = contents (input h1) ++ ext →
  enough_fuel (h <| input := b |>) < Z.of_nat fuel →
  match run fuel (h <| input := b |>), run fuel (h1 <| input := b1 |>) with
  | (Return s, x), (Return s', y) => s = s' ∧ abstract x = abstract y
  | (Throw e, _), (Throw e', _) => e = e'
  | _, _ => False
  end.
Proof.
  intros Hok Hrun Hb Hb1 Hf. pose proof (sim_run fuel0 h _ (walk_eq_abstract h Hok)) as Hs.
  assert (∃ a1, run fuel0 (abstract h) = (Return WaitForData, a1) ∧ walk_eq h1 a1) as (a1 & Ha1 & Heq1).
  { destruct (run fuel0 (abstract h)) as [[s|e|w] a1]; destruct Hs as (h' & Hh'); rewrite Hrun in Hh'; [| naive_solver ..].
    destruct Hh' as [[= -> ->] Heq]. eauto. }
  pose proof (walk_eq_abstract h Hok) as Heq.
  pose proof (sim_run fuel (h <| input := b |>) (more ext (abstract h))) as S1.
  pose proof (sim_run fuel (h1 <| input := b1 |>) (more ext a1)) as S2.
  assert (walk_ok (abstract h)) as Hoka by (by eapply walk_eq_ok).
  assert (left_steps (more ext (abstract h)) < Z.of_nat fuel) as Hf'.
  { unfold enough_fuel in Hf. cbn [input] in Hf. unfold left_steps.
    change (contents (input (h <| input := b |>))) with (contents b) in Hf. rewrite Hb in Hf. exact Hf. }
  rewrite (run_resumes fuel fuel0 _ a1 ext Hoka Ha1 Hf') in S1.
  pose proof (run_ends fuel (more ext (abstract h)) Hoka) as He. rewrite (run_resumes fuel fuel0 _ a1 ext Hoka Ha1 Hf') in He.
  assert (walk_eq (h <| input := b |>) (more ext (abstract h))) as Heq'.
  { destruct Heq as (? & ? & ? & ? & ? & ? & ? & ? & Hi). split_and!; done. }
  assert (walk_eq (h1 <| input := b1 |>) (more ext a1)) as Heq1'.
  { destruct Heq1 as (? & ? & ? & ? & ? & ? & ? & ? & Hi). split_and!; try done. cbn. by rewrite Hb1, Hi. }
  specialize (S1 Heq'). specialize (S2 Heq1'). destruct (run fuel (more ext a1)) as [[s|e|w] a'].
  - destruct S1 as (x & -> & Hx). destruct S2 as (y & -> & Hy). split; [done |].
    by rewrite (walk_eq_abstracts _ _ Hx), (walk_eq_abstracts _ _ Hy).
  - destruct S1 as (x & ->). by destruct S2 as (y & ->).
  - lia.
Qed.
End buffers.
