(* ===== verification/ThriftGrammar.v ===== *)
(** * Messages of Thrift

    The grammar of Thrift messages in a format that writes every item by itself, as the
    binary protocol does, and the proof that the state machine takes exactly one message
    off its input and writes the same bytes again. *)

From S2P Require Import Prelude Envoy Metadata Codec Thrift ThriftSpec ThriftBehaviour ThriftSegments.

(** ** Protocols that read a format

    The codec makes its protocol with [createProtocol], which gives an object that finds
    out what is on the wire when the first message begins, and then does as the protocol it
    has found.  So [before_message] are the states in which a message of this format can
    begin, the new one among them, and [in_message] those in which the format has been
    found: reading the header of a message leads to one, and reading or writing the other
    items, which do not depend on each other in the format, stays there.

    [enc_ok] are the items that can be on the wire.  The names of fields and structs are
    not.  The compact protocol is not such a format: it writes the difference of field ids,
    and booleans in the headers of their fields. *)

Class WireProtocol {E : Envoy} (P : ThriftProtocol E) {PL : ProtocolLaws P} := {
  enc : ∀ k, item k → bytes;
  enc_ok : ∀ k, item k → Prop;
  before_message : protocol → Prop;
  in_message : protocol → Prop;
  before_new : before_message createProtocol;
  in_before p : in_message p → before_message p;
  parse_begin p x r : before_message p → enc_ok K_MessageBegin x →
    ∃ p', parse K_MessageBegin p (enc K_MessageBegin x ++ r) = (Return (Some (x, r)), p') ∧ in_message p';
  parse_enc k p x r : in_message p → k ≠ K_MessageBegin → enc_ok k x → parse k p (enc k x ++ r) = (Return (Some (x, r)), p);
  emit_enc k p x : in_message p → emit k p x = (enc k x, p);
  enc_field_name name t i : enc K_FieldBegin (name, t, i) = enc K_FieldBegin ("", t, i);
  enc_struct_name name : enc K_StructBegin name = enc K_StructBegin "";
  stop_ok : enc_ok K_FieldBegin ("", FT_Stop, 0);
  markers_ok : enc_ok K_StructBegin "" ∧ enc_ok K_StructEnd tt ∧ enc_ok K_FieldEnd tt ∧ enc_ok K_MapEnd tt ∧
    enc_ok K_ListEnd tt ∧ enc_ok K_SetEnd tt ∧ enc_ok K_MessageEnd tt
}.

Section grammar.
Context {E : Envoy} {P : ThriftProtocol E} {PL : ProtocolLaws P} {PP : WireProtocol P}.

(** ** The grammar *)

Inductive value : FieldType → bytes → Prop :=
| value_basic_item t k x : basic_kind t = Some k → enc_ok k x → value t (enc k x)
| value_struct bs : fields bs →
    value FT_Struct (enc K_StructBegin "" ++ bs ++ enc K_FieldBegin ("", FT_Stop, 0) ++ enc K_StructEnd tt)
| value_list t n bs : enc_ok K_ListBegin (t, n) → values t n bs →
    value FT_List (enc K_ListBegin (t, n) ++ bs ++ enc K_ListEnd tt)
| value_set t n bs : enc_ok K_SetBegin (t, n) → values t n bs →
    value FT_Set (enc K_SetBegin (t, n) ++ bs ++ enc K_SetEnd tt)
| value_map kt vt n bs : enc_ok K_MapBegin (kt, vt, n) → entries kt vt n bs →
    value FT_Map (enc K_MapBegin (kt, vt, n) ++ bs ++ enc K_MapEnd tt)
with fields : bytes → Prop :=
| fields_nil : fields []
| fields_cons t i v bs : enc_ok K_FieldBegin ("", t, i) → t ≠ FT_Stop → value t v → fields bs →
    fields (enc K_FieldBegin ("", t, i) ++ v ++ enc K_FieldEnd tt ++ bs)
with values : FieldType → Z → bytes → Prop :=
| values_nil t : values t 0 []
| values_cons t n v bs : 0 ≤ n → n + 1 < 2 ^ 32 → value t v → values t n bs → values t (n + 1) (v ++ bs)
with entries : FieldType → FieldType → Z → bytes → Prop :=
| entries_nil kt vt : entries kt vt 0 []
| entries_cons kt vt n k v bs : 0 ≤ n → n + 1 < 2 ^ 32 → value kt k → value vt v → entries kt vt n bs →
    entries kt vt (n + 1) (k ++ v ++ bs).

Scheme value_mut := Minimality for value Sort Prop
with fields_mut := Minimality for fields Sort Prop
with values_mut := Minimality for values Sort Prop
with entries_mut := Minimality for entries Sort Prop.

Definition message (name : string) (t : ThriftMessageType) (seq : Z) (bs : bytes) : Prop :=
  enc_ok K_MessageBegin (name, t, seq) ∧
  ∃ body, value FT_Struct body ∧ bs = enc K_MessageBegin (name, t, seq) ++ body ++ enc K_MessageEnd tt.

(** ** Steps of the machine *)

Context {T : ThriftTransport E}.
Abbreviation PW := (@Walk pE pP pT).

(** The machine of [a] in another state, with another stack, output and input. *)
Definition placed (a : PW) (s : ProtocolState) (l : list Frame) (o i : bytes) : PW :=
  {| machine := {| state_ := s; stack_ := l; body_bytes_ := body_bytes_ (machine a);
                   passthrough_enabled_ := passthrough_enabled_ (machine a); origin_message := o : @buffer (@envoy_buffer pE) |};
     proto := proto a; metadata := metadata a; input := i : @buffer (@envoy_buffer pE) |}.

Definition steps (x y : PW) : Prop := ∃ n, ∀ fuel, run (n + fuel) x = run fuel y.
Lemma steps_refl x : steps x x.
Proof. by exists O. Qed.
Lemma steps_trans x y z : steps x y → steps y z → steps x z.
Proof. intros [n Hn] [m Hm]. exists (n + m)%nat. intros fuel. by rewrite <- Nat.add_assoc, Hn, Hm. Qed.
Lemma steps_one a s l o i s' l' o' i' :
  s ≠ Done → s' ≠ WaitForData → handleState (placed a s l o i) = (Return s', placed a s l' o' i') →
  steps (placed a s l o i) (placed a s' l' o' i').
Proof.
  intros Hs Hs' Hh. exists 1%nat. intros fuel. cbn [Nat.add]. rewrite run_S, decide_False by done. rewrite Hh.
  by rewrite decide_False.
Qed.

Lemma reading_placed k x rest a s l o i :
  in_message (pr a) → k ≠ K_MessageBegin → enc_ok k x →
  reading k rest (placed a s l o (enc k x ++ i)) = rest x (placed a s l o i).
Proof.
  intros Ha Hk Hx. change (placed a s l o (enc k x ++ i)) with (after_read (pr a) (enc k x ++ i) (placed a s l o i)).
  by rewrite reading_result, (parse_enc _ _ _ _ Ha Hk Hx).
Qed.
Lemma write_placed k x a s l o i :
  in_message (pr a) → write k x (placed a s l o i) = (Return tt, placed a s l (o ++ enc k x) i).
Proof.
  intros Ha. rewrite write_pure. unfold after_write. change (pr (placed a s l o i)) with (pr a).
  rewrite (emit_enc _ _ _ Ha). reflexivity.
Qed.
Lemma push_placed f a s l o i : push f (placed a s l o i) = (Return tt, placed a s (l ++ [f]) o i).
Proof. reflexivity. Qed.
Lemma pop_placed f a s l o i : popReturnState (placed a s (l ++ [f]) o i) = (Return (return_state_ f), placed a s l o i).
Proof. by rewrite (pop_snoc _ l f). Qed.
Lemma back_placed f a s l o i : back (placed a s (l ++ [f]) o i) = (Return f, placed a s (l ++ [f]) o i).
Proof. by rewrite (back_snoc _ l f). Qed.
Lemma dec_placed f new a s l o i :
  dec_remaining (length l) (placed a s (l ++ f :: new) o i) = (Return tt, placed a s (l ++ dec f :: new) o i).
Proof. by rewrite (dec_snoc _ l f new). Qed.
Lemma handle_placed a s l o i :
  handleState (placed a s l o i) =
  match s with
  | PassthroughData => passthroughData | MessageBegin => messageBegin | StructBegin => structBegin
  | StructEnd => structEnd | FieldBegin => fieldBegin | FieldValue => fieldValue | FieldEnd => fieldEnd
  | ListBegin => listBegin | ListValue => listValue | ListEnd => listEnd | MapBegin => mapBegin | MapKey => mapKey
  | MapValue => mapValue | MapEnd => mapEnd | SetBegin => setBegin | SetValue => setValue | SetEnd => setEnd
  | MessageEnd => messageEnd | StopIteration | WaitForData | Done => panic "not reachec"
  end (placed a s l o i).
Proof. by destruct s. Qed.

Ltac walk1 :=
  first [ rewrite reading_placed by (done || apply markers_ok || apply stop_ok)
        | rewrite run_bind | rewrite write_placed by done | rewrite push_placed | rewrite pop_placed | rewrite back_placed
        | progress cbv beta iota ].
Ltac walk :=
  rewrite handle_placed;
  cbv beta iota delta [structBegin structEnd fieldBegin fieldValue fieldEnd listBegin listValue listEnd mapBegin mapKey
                       mapValue mapEnd setBegin setValue setEnd messageEnd];
  repeat walk1; rewrite <- ?app_assoc.
(** One step, with the state, stack, output and input after it. *)
Ltac step s l o i :=
  eapply steps_trans;
    [ apply (steps_one _ _ _ _ _ s l o i); [discriminate | try discriminate | walk; try reflexivity] | ].

(** ** The machine copies values *)

Definition copies_value (t : FieldType) (bs : bytes) : Prop :=
  ∀ a s l o i r, in_message (pr a) → r ≠ WaitForData →
  ∃ s2 new o2 i2, handleValue t r (placed a s l o (bs ++ i)) = (Return s2, placed a s (l ++ new) o2 i2) ∧ s2 ≠ WaitForData ∧
    ∀ l', steps (placed a s2 (l' ++ new) o2 i2) (placed a r l' (o ++ bs) i).
Definition copies_container (st : ProtocolState) (bs : bytes) : Prop :=
  ∀ a r l o i, in_message (pr a) → r ≠ WaitForData → steps (placed a st (l ++ [Frame_state r]) o (bs ++ i)) (placed a r l (o ++ bs) i).
Definition copies_fields (bs : bytes) : Prop :=
  ∀ a l o i, in_message (pr a) → steps (placed a FieldBegin l o (bs ++ i)) (placed a FieldBegin l (o ++ bs) i).
Definition copies_values (t : FieldType) (n : Z) (bs : bytes) : Prop :=
  ∀ st, st = ListValue ∨ st = SetValue → ∀ a l r o i, in_message (pr a) →
  steps (placed a st (l ++ [Frame_list r t n]) o (bs ++ i)) (placed a st (l ++ [Frame_list r t 0]) (o ++ bs) i).
Definition copies_entries (kt vt : FieldType) (n : Z) (bs : bytes) : Prop :=
  ∀ a l r o i, in_message (pr a) →
  steps (placed a MapKey (l ++ [Frame_map r kt vt n]) o (bs ++ i)) (placed a MapKey (l ++ [Frame_map r kt vt 0]) (o ++ bs) i).

Lemma copies_basic t k x : basic_kind t = Some k → enc_ok k x → copies_value t (enc k x).
Proof.
  intros Hk Hx a s l o i r Ha Hr. assert (k ≠ K_MessageBegin) as Hne by (intros ->; by destruct t). exists r, [], (o ++ enc k x), i. split_and!; [| done |].
  - assert ((handleValue t r : M PW _) = copy k r) as -> by (by destruct t; cbn in Hk; simplify_eq).
    unfold copy. rewrite reading_placed, run_bind, write_placed by done. by rewrite app_nil_r.
  - intros l'. rewrite app_nil_r. apply steps_refl.
Qed.
Lemma copies_begin t st bs : begin_state t = Some st → copies_container st bs → copies_value t bs.
Proof.
  intros Hst Hc a s l o i r Ha Hr. exists st, [Frame_state r], o, (bs ++ i). split_and!.
  - by destruct t; cbn in Hst; simplify_eq.
  - by destruct t; cbn in Hst; simplify_eq.
  - intros l'. by apply Hc.
Qed.

Lemma copies_struct bs :
  copies_fields bs →
  copies_container StructBegin (enc K_StructBegin "" ++ bs ++ enc K_FieldBegin ("", FT_Stop, 0) ++ enc K_StructEnd tt).
Proof.
  intros Hf a r l o i Ha Hr. rewrite <- !app_assoc.
  step FieldBegin (l ++ [Frame_state r]) (o ++ enc K_StructBegin "")
    (bs ++ enc K_FieldBegin ("", FT_Stop, 0) ++ enc K_StructEnd tt ++ i).
  eapply steps_trans; [by apply Hf |]. rewrite <- !app_assoc.
  step StructEnd (l ++ [Frame_state r]) (o ++ enc K_StructBegin "" ++ bs) (enc K_StructEnd tt ++ i).
  step r l (o ++ enc K_StructBegin "" ++ bs ++ enc K_FieldBegin ("", FT_Stop, 0) ++ enc K_StructEnd tt) i.
  { done. }
  apply steps_refl.
Qed.

Lemma copies_field t j v :
  enc_ok K_FieldBegin ("", t, j) → t ≠ FT_Stop → copies_value t v →
  copies_fields (enc K_FieldBegin ("", t, j) ++ v ++ enc K_FieldEnd tt).
Proof.
  intros Hx Ht Hv a l o i Ha. rewrite <- !app_assoc.
  step FieldValue (l ++ [Frame_elem FieldEnd t]) (o ++ enc K_FieldBegin ("", t, j)) (v ++ enc K_FieldEnd tt ++ i).
  { rewrite decide_False by done. by repeat walk1. }
  destruct (Hv a FieldValue (l ++ [Frame_elem FieldEnd t]) (o ++ enc K_FieldBegin ("", t, j)) (enc K_FieldEnd tt ++ i) FieldEnd)
    as (s2 & new & o2 & i2 & Hh & Hs2 & Hsteps); [done | done |].
  eapply steps_trans; [apply steps_one with (s' := s2); [done | done |] |].
  { rewrite handle_placed. unfold fieldValue. rewrite run_bind, back_placed. exact Hh. }
  eapply steps_trans; [apply Hsteps |].
  step FieldBegin l ((o ++ enc K_FieldBegin ("", t, j) ++ v) ++ enc K_FieldEnd tt) i.
  rewrite <- !app_assoc. apply steps_refl.
Qed.

(** Elements: the count of the frame goes down to 0. *)
Lemma dec_list r t n : 0 ≤ n → n + 1 < 2 ^ 32 → dec (Frame_list r t (n + 1)) = Frame_list r t n.
Proof. intros. change (Frame_list r t (u32 (n + 1 - 1)) = Frame_list r t n). f_equal. rewrite u32_small; lia. Qed.
Lemma dec_map r kt vt n : 0 ≤ n → n + 1 < 2 ^ 32 → dec (Frame_map r kt vt (n + 1)) = Frame_map r kt vt n.
Proof. intros. change (Frame_map r kt vt (u32 (n + 1 - 1)) = Frame_map r kt vt n). f_equal. rewrite u32_small; lia. Qed.

(** A value in a container, whose frame [f] becomes [f']. *)
Lemma copies_element a st st' l f o v i t :
  in_message (pr a) → st ≠ Done → st' ≠ WaitForData → copies_value t v →
  (∀ i, handleState (placed a st (l ++ [f]) o i) =
    (nextState ← handleValue t st';
     _ ← (if decide (nextState ≠ WaitForData) then dec_remaining (length l) else mret tt);
     mret nextState) (placed a st (l ++ [f]) o i)) →
  steps (placed a st (l ++ [f]) o (v ++ i)) (placed a st' (l ++ [dec f]) (o ++ v) i).
Proof.
  intros Ha Hst Hst' Hv Hh. destruct (Hv a st (l ++ [f]) o i st' Ha Hst') as (s2 & new & o2 & i2 & Hval & Hs2 & Hsteps).
  eapply steps_trans; [| apply Hsteps]. apply steps_one; [done | done |]. rewrite Hh, run_bind, Hval. cbv beta iota.
  rewrite run_bind, decide_True by done. rewrite <- app_assoc. cbn [app]. rewrite dec_placed. cbv beta iota.
  by rewrite <- app_assoc.
Qed.

Lemma copies_values_cons t n v bs :
  0 ≤ n → n + 1 < 2 ^ 32 → copies_value t v → copies_values t n bs → copies_values t (n + 1) (v ++ bs).
Proof.
  intros Hn Hn' Hv Hbs st Hst a l r o i Ha. rewrite <- app_assoc.
  eapply steps_trans; [apply (copies_element a st st) with (t := t); [done | by destruct Hst as [-> | ->] .. | done |] |].
  - intros i'. rewrite handle_placed.
    destruct Hst as [-> | ->]; cbv beta iota delta [listValue setValue]; rewrite run_bind, back_placed; cbv beta iota;
      rewrite run_bind; cbn [gets]; cbv beta iota; cbn [placed machine stack_ remaining_ Frame_list elem_type_];
      rewrite (proj2 (Z.eqb_neq _ _)) by lia; by rewrite length_app, Nat.add_sub.
  - rewrite dec_list by done. rewrite (app_assoc o). by apply Hbs.
Qed.

Lemma copies_entries_cons kt vt n k v bs :
  0 ≤ n → n + 1 < 2 ^ 32 → copies_value kt k → copies_value vt v → copies_entries kt vt n bs →
  copies_entries kt vt (n + 1) (k ++ v ++ bs).
Proof.
  intros Hn Hn' Hk Hv Hbs a l r o i Ha. rewrite <- !app_assoc.
  destruct (Hk a MapKey (l ++ [Frame_map r kt vt (n + 1)]) o (v ++ bs ++ i) MapValue)
    as (s2 & new & o2 & i2 & Hh & Hs2 & Hsteps); [done | done |].
  eapply steps_trans; [apply steps_one with (s' := s2); [done | done |] |].
  { rewrite handle_placed. unfold mapKey. rewrite run_bind, back_placed. cbv beta iota.
    cbn [remaining_ Frame_map elem_type_]. rewrite (proj2 (Z.eqb_neq _ _)) by lia. exact Hh. }
  eapply steps_trans; [apply Hsteps |].
  eapply steps_trans; [apply (copies_element a MapValue MapKey) with (t := vt); [done .. |] |].
  - intros i'. rewrite handle_placed. cbv beta iota delta [mapValue]. rewrite run_bind, back_placed. cbv beta iota.
    rewrite run_bind. cbn [gets]. cbv beta iota. cbn [placed machine stack_ remaining_ Frame_map value_type_].
    rewrite run_bind, (proj2 (Z.eqb_neq _ _)) by lia. change (ASSERT (negb false) _ ?b) with (Return (A := unit) tt, b).
    cbv beta iota. by rewrite length_app, Nat.add_sub.
  - rewrite dec_map by done. rewrite (app_assoc o), (app_assoc (o ++ k)). by apply Hbs.
Qed.

(** ** Containers *)

Lemma copies_elements_end a st l f o i :
  st = ListValue ∨ st = SetValue ∨ st = MapKey → remaining_ f = 0 → return_state_ f ≠ WaitForData →
  steps (placed a st (l ++ [f]) o i) (placed a (return_state_ f) l o i).
Proof.
  intros Hst Hf Hr. apply steps_one; [by destruct Hst as [-> | [-> | ->]] | done |]. rewrite handle_placed.
  destruct Hst as [-> | [-> | ->]]; cbv beta iota delta [listValue setValue mapKey]; rewrite run_bind, back_placed; cbv beta iota;
    rewrite ?run_bind; cbn [gets]; cbv beta iota; by rewrite Hf, pop_placed.
Qed.

Lemma copies_list t n bs :
  enc_ok K_ListBegin (t, n) → copies_values t n bs → copies_container ListBegin (enc K_ListBegin (t, n) ++ bs ++ enc K_ListEnd tt).
Proof.
  intros Hx Hbs a r l o i Ha Hr. rewrite <- !app_assoc.
  step ListValue ((l ++ [Frame_state r]) ++ [Frame_list ListEnd t n]) (o ++ enc K_ListBegin (t, n)) (bs ++ enc K_ListEnd tt ++ i).
  eapply steps_trans; [apply Hbs; [by left | done] |]. eapply steps_trans; [apply copies_elements_end; by auto |].
  cbn [return_state_ Frame_list Frame_map].
  step r l (((o ++ enc K_ListBegin (t, n)) ++ bs) ++ enc K_ListEnd tt) i; [done |].
  rewrite <- !app_assoc. apply steps_refl.
Qed.
Lemma copies_set t n bs :
  enc_ok K_SetBegin (t, n) → copies_values t n bs → copies_container SetBegin (enc K_SetBegin (t, n) ++ bs ++ enc K_SetEnd tt).
Proof.
  intros Hx Hbs a r l o i Ha Hr. rewrite <- !app_assoc.
  step SetValue ((l ++ [Frame_state r]) ++ [Frame_list SetEnd t n]) (o ++ enc K_SetBegin (t, n)) (bs ++ enc K_SetEnd tt ++ i).
  eapply steps_trans; [apply Hbs; [by right | done] |]. eapply steps_trans; [apply copies_elements_end; by auto |].
  cbn [return_state_ Frame_list Frame_map].
  step r l (((o ++ enc K_SetBegin (t, n)) ++ bs) ++ enc K_SetEnd tt) i; [done |].
  rewrite <- !app_assoc. apply steps_refl.
Qed.
Lemma copies_map kt vt n bs :
  enc_ok K_MapBegin (kt, vt, n) → copies_entries kt vt n bs →
  copies_container MapBegin (enc K_MapBegin (kt, vt, n) ++ bs ++ enc K_MapEnd tt).
Proof.
  intros Hx Hbs a r l o i Ha Hr. rewrite <- !app_assoc.
  step MapKey ((l ++ [Frame_state r]) ++ [Frame_map MapEnd kt vt n]) (o ++ enc K_MapBegin (kt, vt, n)) (bs ++ enc K_MapEnd tt ++ i).
  eapply steps_trans; [by apply Hbs |]. eapply steps_trans; [apply copies_elements_end; by auto |].
  cbn [return_state_ Frame_list Frame_map].
  step r l (((o ++ enc K_MapBegin (kt, vt, n)) ++ bs) ++ enc K_MapEnd tt) i; [done |].
  rewrite <- !app_assoc. apply steps_refl.
Qed.

Lemma value_copied t bs : value t bs → copies_value t bs.
Proof.
  revert t bs. apply (value_mut copies_value copies_fields copies_values copies_entries).
  - intros t k x. apply copies_basic.
  - intros bs _ Hbs. eapply copies_begin; [done |]. by apply copies_struct.
  - intros t n bs Hx _ Hbs. eapply copies_begin; [done |]. by apply copies_list.
  - intros t n bs Hx _ Hbs. eapply copies_begin; [done |]. by apply copies_set.
  - intros kt vt n bs Hx _ Hbs. eapply copies_begin; [done |]. by apply copies_map.
  - intros a l o i _. rewrite app_nil_r. apply steps_refl.
  - intros t j v bs Hx Ht _ Hv _ Hbs a l o i Ha. eapply steps_trans.
    { rewrite !(app_assoc _ _ bs), <- (app_assoc _ bs i). by apply copies_field. }
    rewrite !(app_assoc _ _ bs), (app_assoc o). by apply Hbs.
  - intros t st _ a l r o i _. rewrite app_nil_r. apply steps_refl.
  - intros t n v bs Hn Hn' _ Hv _ Hbs. by apply copies_values_cons.
  - intros kt vt a l r o i _. rewrite app_nil_r. apply steps_refl.
  - intros kt vt n k v bs Hn Hn' _ Hk _ Hv _ Hbs. by apply copies_entries_cons.
Qed.

(** ** Messages *)

Definition with_header {A} (name : string) (t : ThriftMessageType) (seq : Z) (m : MessageMetadata A) : MessageMetadata A :=
  m <| method_name_ := Some name |> <| msg_type_ := Some t |> <| seq_id_ := Some seq |>.
(** The machine when the header of a message has been read. *)
Definition began (name : string) (t : ThriftMessageType) (seq : Z) (p : @protocol E P) (a : PW) : PW :=
  {| machine := machine a; proto := (p : @protocol pE pP); metadata := with_header name t seq (metadata a : MessageMetadata (@attachments pE pT));
     input := input a |}.

Lemma copies_messageBegin name t seq a l o i :
  before_message (pr a) → enc_ok K_MessageBegin (name, t, seq) → passthrough_enabled_ (machine a) = false →
  ∃ p, in_message p ∧
  handleState (placed a MessageBegin l o (enc K_MessageBegin (name, t, seq) ++ i)) =
  (Return StructBegin, placed (began name t seq p a) MessageBegin [Frame_state MessageEnd] (o ++ enc K_MessageBegin (name, t, seq)) i).
Proof.
  intros Ha Hx Hpt. destruct (parse_begin (pr a) (name, t, seq) i Ha Hx) as (p & Hp & Hin). exists p. split; [done |].
  rewrite handle_placed. unfold messageBegin. rewrite run_bind. cbn [gets]. cbv beta iota.
  change (placed a MessageBegin l o (enc K_MessageBegin (name, t, seq) ++ i))
    with (after_read (pr a) (enc K_MessageBegin (name, t, seq) ++ i) (placed a MessageBegin l o i)).
  rewrite reading_result, Hp. rewrite run_bind. cbn [modify]. cbv beta iota. rewrite run_bind. cbn [on_machine modify].
  cbv beta iota. rewrite run_bind. cbn [gets]. cbv beta iota.
  change (passthrough_enabled_ (machine _)) with (passthrough_enabled_ (machine a)). rewrite Hpt. cbv iota.
  rewrite run_bind. cbn [gets]. cbv beta iota. rewrite run_bind. cbn [lift].
  change (message_item _) with (Return (A := item K_MessageBegin) (name, t, seq)). cbv beta iota.
  rewrite run_bind. match goal with |- context [write _ _ ?x] =>
    change x with (placed (began name t seq p a) MessageBegin [Frame_state MessageEnd] o i) end.
  by rewrite write_placed.
Qed.

Lemma message_steps name t seq bs a l o i :
  before_message (pr a) → message name t seq bs → passthrough_enabled_ (machine a) = false →
  ∃ p, in_message p ∧ steps (placed a MessageBegin l o (bs ++ i)) (placed (began name t seq p a) Done [] (o ++ bs) i).
Proof.
  intros Ha (Hx & body & Hbody & ->) Hpt.
  destruct (copies_messageBegin name t seq a l o (body ++ enc K_MessageEnd tt ++ i) Ha Hx Hpt) as (p & Hin & Hbegin).
  exists p. split; [done |]. rewrite <- !app_assoc. set (b := began name t seq p a) in *.
  eapply (steps_trans _ (placed b StructBegin [Frame_state MessageEnd] _ (body ++ enc K_MessageEnd tt ++ i))).
  { exists 1%nat. intros fuel. cbn [Nat.add]. rewrite run_S, decide_False by done. by rewrite Hbegin. }
  destruct (value_copied _ _ Hbody b StructBegin [] (o ++ enc K_MessageBegin (name, t, seq)) (enc K_MessageEnd tt ++ i) MessageEnd)
    as (s2 & new & o2 & i2 & Hh & _ & Hsteps); [done | done |]. specialize (Hsteps []).
  change (handleValue FT_Struct MessageEnd (placed ?b ?s [] ?o ?i)) with
    (Return (A := ProtocolState) StructBegin, placed b s [Frame_state MessageEnd] o i) in Hh.
  cbn [app] in Hh, Hsteps. unfold placed at 1 2 in Hh. injection Hh as <- <- <- <-.
  assert (in_message (pr b)) as Hb by done.
  eapply steps_trans; [exact Hsteps |].
  step Done (@nil Frame) (((o ++ enc K_MessageBegin (name, t, seq)) ++ body) ++ enc K_MessageEnd tt) i.
  rewrite <- !app_assoc. apply steps_refl.
Qed.

Lemma message_run name t seq bs fuel (a : PW) i :
  before_message (pr a) → message name t seq bs → walk_ok a → state_ (machine a) = MessageBegin → inp a = bs ++ i →
  left_steps a < Z.of_nat fuel →
  ∃ p, in_message p ∧ run fuel a = (Return Done, placed (began name t seq p a) Done [] (out a ++ bs) i).
Proof.
  intros Hp Hm Hok Hst Hi Hf.
  destruct (message_steps name t seq bs a (stack_ (machine a)) (out a) i Hp Hm (proj1 Hok)) as (p & Hin & n & Hn).
  exists p. split; [done |]. assert (placed a MessageBegin (stack_ (machine a)) (out a) (bs ++ i) = a) as Ha.
  { rewrite <- Hi. destruct a as [[] ? ? ?]. cbn in *. by subst. }
  rewrite Ha in Hn. specialize (Hn (S fuel)). rewrite run_S, decide_True in Hn by done. rewrite <- Hn.
  replace (n + S fuel)%nat with (fuel + S n)%nat by lia. symmetry. apply run_fuel_mono.
  pose proof (run_ends fuel a Hok) as He. destruct (run fuel a) as [[] ?]; [done | done |]. cbn. lia.
Qed.
End grammar.

(** ** On buffers *)

Section buffers.
Context {E : Envoy} {L : EnvoyLaws E} {P : ThriftProtocol E} {T : ThriftTransport E} {PL : ProtocolLaws P}
  {PP : WireProtocol P}.

(** A whole message is taken off the input and written to [origin_message] as it was. *)
Lemma message_copied name t seq bs rest (fuel : nat) (h : @Walk E P T) :
  before_message (proto h) → message name t seq bs → walk_ok h → state_ (machine h) = MessageBegin →
  contents (input h) = bs ++ rest → enough_fuel h < Z.of_nat fuel →
  ∃ h', run fuel h = (Return Done, h') ∧ contents (origin_message (machine h')) = contents (origin_message (machine h)) ++ bs ∧
    contents (input h') = rest ∧ metadata h' = with_header name t seq (metadata h) ∧ in_message (proto h') ∧
    state_ (machine h') = Done.
Proof using L.
  intros Hp Hm Hok Hst Hi Hf. pose proof (walk_eq_abstract h Hok) as Heq. pose proof (sim_run fuel h _ Heq) as Hs.
  destruct (message_run name t seq bs fuel (abstract h) rest) as (p & Hin & Hrun0);
    [done | done | by eapply walk_eq_ok | done | done | exact Hf |]. rewrite Hrun0 in Hs.
  destruct Hs as (h' & Hrun & (H1 & _ & _ & _ & _ & H6 & H7 & H8 & H9)). exists h'. split; [exact Hrun |].
  split_and!; [done | done | done | by rewrite H7 | done].
Qed.
End buffers.
