(* ===== verification/ThriftDecode.v ===== *)
(** * What the Thrift codec promises

    [ThriftCodec] over any transport and protocol that keep what [transport.h] and
    [protocol.h] say: it never stops the process; and when the transport and the protocol
    find a format on the wire that they can read and write ([WireTransport],
    [WireProtocol]), it takes whole messages off the buffer, keeps their bytes and reports
    their headers. *)

From S2P Require Import Prelude Envoy Metadata Codec Thrift ThriftSpec ThriftBehaviour ThriftSegments ThriftGrammar.

(** ** Transports *)

Definition envoy_exception (e : exn) : Prop := ∃ what, e = EnvoyException what.

(** A transport that reports an exception of the application reports its message. *)
Definition exception_reported {A} (m : MessageMetadata A) : Prop := app_ex_type_ m ≠ None → app_ex_msg_ m ≠ None.

Class TransportLaws {E : Envoy} (T : ThriftTransport E) : Prop := {
  frame_start_spec t b m :
    match decodeFrameStart (t, b, m) with
    | (Return started, (_, b', m')) =>
        (∃ pre, contents b = pre ++ contents b') ∧ (exception_reported m → exception_reported m')
    | (Throw e, _) => envoy_exception e
    | (Panic _, _) => False
    end;
  frame_end_spec t b :
    match decodeFrameEnd (t, b) with
    | (Return _, _) => True
    | (Throw e, _) => envoy_exception e
    | (Panic _, _) => False
    end;
  frame_encode_spec t out msg m :
    match encodeFrame m (t, out, msg) with
    | (Return _, _) => True
    | (Throw e, _) => envoy_exception e
    | (Panic _, _) => False
    end
}.

(** ** The codec never stops the process *)

Section safe.
Context {E : Envoy} {L : EnvoyLaws E} {P : ThriftProtocol E} {T : ThriftTransport E} {PL : ProtocolLaws P}
  {TL : TransportLaws T}.

Abbreviation Dec := (@ThriftCodec E P T * buffer * MetadataImpl)%type.

(** Between calls: while a frame is being read, the state machine is in order. *)
Definition codec_ok (c : ThriftCodec) : Prop :=
  frame_ended_ c = false ∧
  (frame_started_ c = false → ∀ m, metadata_ c = Some m → exception_reported m) ∧
  (frame_started_ c = true → ∃ s m, state_machine_ c = Some s ∧ metadata_ c = Some m ∧
     ∀ p b, walk_ok {| machine := s; proto := p; metadata := m; input := b |}).
(** The steps that the state machine may take with the bytes in [b]. *)
Definition codec_fuel (c : ThriftCodec) (b : buffer) : Z :=
  match (if frame_started_ c then state_machine_ c else None) with
  | Some s => measure (state_ s) (stack_ s)
  | None => 0
  end + byte_worth * zlen (contents b).

(** How a part of [decode] ends: it returns with [Q] or throws an [EnvoyException]. *)
Definition safely {A} (Q : A → Dec → Prop) (res : outcome A * Dec) : Prop :=
  match res with
  | (Return x, d) => Q x d
  | (Throw e, _) => envoy_exception e
  | (Panic _, _) => False
  end.
Lemma safely_bind {A B} (m : M Dec A) (f : A → M Dec B) Q Q' d :
  safely Q' (m d) → (∀ x d', Q' x d' → safely Q (f x d')) → safely Q ((m ≫= f) d).
Proof. intros Hm Hf. rewrite run_bind. destruct (m d) as [[x|e|w] d']; cbn in Hm; [by apply Hf | done | done]. Qed.

Lemma start_frame_safe c b m :
  (∀ m, metadata_ c = Some m → exception_reported m) →
  safely (λ r '(c', b', _), (∃ pre, contents b = pre ++ contents b') ∧ frame_ended_ c' = frame_ended_ c ∧
            match r with
            | None => frame_started_ c' = frame_started_ c ∧ ∀ m, metadata_ c' = Some m → exception_reported m
            | Some md => frame_started_ c' = true ∧ state_machine_ c' = Some new_DecoderStateMachine ∧ metadata_ c' = Some md
            end) (start_frame (c, b, m)).
Proof using TL.
  intros Hrep. unfold start_frame. rewrite run_bind. cbn [get_codec gets]. cbv beta iota. rewrite run_bind.
  unfold frame_start at 1. set (md0 := default _ (metadata_ c)). pose proof (frame_start_spec (transport_ c) b md0) as Hs.
  destruct (decodeFrameStart (transport_ c, b, md0)) as [[started|e|w] [[t b'] md]]; [| done | done].
  assert (exception_reported md0) as H0 by (subst md0; destruct (metadata_ c); [by apply Hrep | by intros []]).
  destruct Hs as [Hpre Hex]. specialize (Hex H0).
  destruct started; cbn [negb]; [| split_and!; [done | done | done | by intros ? [= <-]]].
  rewrite run_bind. cbn [get_codec gets]. cbv beta iota. 
  match goal with |- context [match metadata_ ?x with _ => _ end] => change (metadata_ x) with (Some md) end. cbv iota.
  rewrite run_bind. cbn [get_codec gets]. cbv beta iota.
  (* the protocol that the transport reports *)
  eapply (safely_bind _ _ _ (λ _ '(c1, b1, _), b1 = b' ∧ frame_ended_ c1 = frame_ended_ c ∧ metadata_ c1 = Some md)).
  { destruct (proto_ md); [| done]. repeat case_decide; try done. by eexists. }
  intros _ [[c1 b1] m1] (-> & He & Hmd).
  eapply (safely_bind _ _ _ (λ _ '(c2, b2, _), b2 = b' ∧ frame_ended_ c2 = frame_ended_ c ∧ metadata_ c2 = Some md)).
  { destruct (app_ex_type_ md) as [ex|] eqn:Hx; [| done]. destruct (app_ex_msg_ md) as [msg|] eqn:Hmsg; [| by destruct (Hex ltac:(by rewrite Hx)) ].
    rewrite run_bind. cbn [lift]. cbv beta iota. rewrite run_bind. cbn. by eexists. }
  intros _ [[c2 b2] m2] (-> & He2 & Hmd2). rewrite run_bind. cbn. by split_and!.
Qed.

Lemma run_machine_safe fuel c b m s md :
  (∀ p b, walk_ok {| machine := s; proto := p; metadata := md; input := b |}) →
  measure (state_ s) (stack_ s) + byte_worth * zlen (contents b) < Z.of_nat fuel →
  safely (λ rv '(c', b', _), frame_ended_ c' = frame_ended_ c ∧ frame_started_ c' = frame_started_ c ∧
            ∃ s' md', state_machine_ c' = Some s' ∧ metadata_ c' = Some md' ∧
              (∀ p b, walk_ok {| machine := s'; proto := p; metadata := md'; input := b |}) ∧
              (rv = Done ∧ header_known md' ∨ rv = WaitForData)) (run_machine fuel s md (c, b, m)).
Proof using L PL.
  intros Hok Hf. unfold run_machine. set (h := {| machine := s; proto := protocol_ c; metadata := md; input := b |}).
  pose proof (run_buffers fuel h (Hok _ _)) as Hr. destruct (run fuel h) as [[rv|e|w] h'].
  - destruct Hr as (Hw & Hrv & _). split_and!; [done | done |]. exists (machine h'), (metadata h'). split_and!; [done | done | |].
    + intros. exact Hw.
    + destruct Hrv as [[-> Hd] | ->]; [left | by right]. split; [done |]. apply Hw. by rewrite Hd.
  - exact Hr.
  - cbn. unfold enough_fuel, potential in Hr. cbn in Hr. lia.
Qed.

Lemma toMetadata_safe c b m s md :
  header_known md → state_machine_ c = Some s → safely (λ _ '(c', _, m'), True) (toMetadata md (c, b, m)).
Proof using TL.
  intros (name & t & seq & _ & Ht & _ & Hv) Hs. unfold toMetadata. rewrite run_bind. cbn [modify]. cbv beta iota.
  rewrite run_bind. cbn [modify]. cbv beta iota. rewrite run_bind, Ht. cbn [lift]. cbv beta iota. rewrite run_bind.
  assert (∃ mt, ∀ d, (match t with
       | TM_Call => mret MessageType_Request
       | TM_Reply => mret MessageType_Response
       | TM_Oneway => mret MessageType_Oneway
       | TM_Exception => mret MessageType_Error
       | TM_Other _ => panic "not reachec"
       end : M Dec MessageType) d = (Return mt, d)) as [mt Hmt] by (destruct t; [by eexists .. | done]).
  rewrite Hmt. cbv beta iota. rewrite run_bind. cbn [modify]. cbv beta iota. unfold frame_message. rewrite Hs.
  match goal with |- context [encodeFrame md (?t, ?o, ?x)] => pose proof (frame_encode_spec t o x md) as He;
    destruct (encodeFrame md (t, o, x)) as [[[]|e|w] [[t' o'] x']] end; done.
Qed.

Lemma decode_rest_safe fuel c b m s md :
  frame_ended_ c = false → frame_started_ c = true → state_machine_ c = Some s →
  (∀ p b, walk_ok {| machine := s; proto := p; metadata := md; input := b |}) →
  measure (state_ s) (stack_ s) + byte_worth * zlen (contents b) < Z.of_nat fuel →
  safely (λ st '(c', _, _), codec_ok c' ∧ (st = DecodeStatus_Done → frame_started_ c' = false))
    ((rv ← run_machine fuel s md;
      if decide (rv = WaitForData) then mret DecodeStatus_WaitForData
      else
        _ ← ASSERT (bool_decide (rv = Done)) "rv == ProtocolState::Done";
        ended ← frame_end;
        if negb ended then mret DecodeStatus_WaitForData
        else
          m ← get_codec metadata_;
          match m with
          | None => panic "null metadata"
          | Some m =>
              _ ← toMetadata m;
              _ ← on_codec (λ c, c <| frame_ended_ := true |> <| metadata_ := None |>);
              _ ← complete;
              mret DecodeStatus_Done
          end) (c, b, m)).
Proof using L PL TL.
  intros He Hst Hs Hok Hf. eapply safely_bind; [by apply run_machine_safe |].
  intros rv [[c1 b1] m1] (He1 & Hst1 & s1 & md1 & Hs1 & Hmd1 & Hw1 & Hrv).
  assert (codec_ok c1) as Hc1 by (split_and!; [by rewrite He1 | by rewrite Hst1, Hst | by eauto]).
  destruct Hrv as [[-> Hh] | ->]; [| by rewrite decide_True]. rewrite decide_False by done.
  rewrite run_bind. rewrite bool_decide_true by done. change (ASSERT true _ ?d) with (Return (A := unit) tt, d). cbv beta iota.
  rewrite run_bind. unfold frame_end at 1. pose proof (frame_end_spec (transport_ c1) b1) as Hend.
  destruct (decodeFrameEnd (transport_ c1, b1)) as [[ended|e|w] [t b2]]; [| done | done].
  destruct ended; cbn [negb]; [| by split; [exact Hc1 |]].
  rewrite run_bind. cbn [get_codec gets]. cbv beta iota.
  match goal with |- context [match metadata_ ?x with _ => _ end] => change (metadata_ x) with (metadata_ c1) end.
  rewrite Hmd1. eapply safely_bind; [eapply toMetadata_safe; [done |]; exact Hs1 |].
  intros [] [[c3 b3] m3] _. by split_and!.
Qed.

(** C9: Type safety of the codec: from every state that calls of decode leave it in, over any buffer, with any transport and
    protocol that keep their contracts, decode returns or throws an EnvoyException and never fails an assertion, reads the
    back of an empty stack or an optional value that is not set; the state machine it keeps between calls has a stack of the
    shape its state needs, and after a complete message the codec is ready for the next frame. *)
Theorem thrift_decode_safe (fuel : nat) (c : @ThriftCodec E P T) (b : buffer) (m : MetadataImpl) :
  codec_ok c → codec_fuel c b < Z.of_nat fuel →
  match ThriftCodec_decode fuel (c, b, m) with
  | (Return st, (c', _, _)) => codec_ok c' ∧ (st = DecodeStatus_Done → frame_started_ c' = false)
  | (Throw e, _) => envoy_exception e
  | (Panic _, _) => False
  end.
Proof.
  intros (He & Hrep & Hst) Hf. change (safely (λ st '(c', _, _), codec_ok c' ∧ (st = DecodeStatus_Done → frame_started_ c' = false))
    (ThriftCodec_decode fuel (c, b, m))).
  unfold ThriftCodec_decode. rewrite run_bind. cbn [get_codec gets]. cbv beta iota. rewrite He. rewrite run_bind.
  cbn [get_codec gets]. cbv beta iota. unfold codec_fuel in Hf. destruct (frame_started_ c) eqn:Hs.
  - destruct (Hst eq_refl) as (s & md & Hsm & Hmd & Hw). rewrite run_bind. cbn [get_codec gets]. cbv beta iota. rewrite Hmd.
    rewrite run_bind. cbn [get_codec gets]. cbv beta iota. rewrite Hsm in Hf |- *. by apply decode_rest_safe.
  - eapply safely_bind; [by apply start_frame_safe; auto |]. intros [md|] [[c1 b1] m1] ([pre Hpre] & He1 & Hr).
    + destruct Hr as (Hst1 & Hsm1 & Hmd1). rewrite run_bind. cbn [get_codec gets]. cbv beta iota. rewrite Hsm1.
      apply decode_rest_safe; [by rewrite He1 | done | done | |].
      * intros p b2. by split_and!.
      * change (measure _ _) with 0. rewrite Hpre, zlen_app in Hf. unfold byte_worth in *. pose proof (zlen_nonneg pre). lia.
    + destruct Hr as [Hr Hmd]. split; [| done]. split_and!; [by rewrite He1 | done |]. rewrite Hr, Hs. done.
Qed.
End safe.

(** ** Whole messages *)

(** A transport that puts a header in front of a message, as the framed transport does, or
    nothing, as the unframed one.  The codec makes its transport with [createTransport], which
    gives an object that finds out how messages are framed when the first one begins
    ([before_frame]), and then does as the transport it has found ([in_frame]). *)
Class WireTransport {E : Envoy} (T : ThriftTransport E) := {
  frame_ok : bytes → Prop;
  frame_header : bytes → bytes;
  before_frame : transport → Prop;
  in_frame : transport → Prop;
  before_frame_new : before_frame createTransport;
  in_frame_before t : in_frame t → before_frame t;
  frame_start_wire t b m bs rest :
    before_frame t → frame_ok bs → contents b = frame_header bs ++ bs ++ rest →
    ∃ t' b' m', decodeFrameStart (t, b, m) = (Return true, (t', b', m')) ∧ in_frame t' ∧ contents b' = bs ++ rest ∧
      proto_ m' = proto_ m ∧ app_ex_type_ m' = app_ex_type_ m;
  frame_end_wire t b : in_frame t →
    ∃ t' b', decodeFrameEnd (t, b) = (Return true, (t', b')) ∧ in_frame t' ∧ contents b' = contents b;
  frame_encode_wire t out msg m :
    in_frame t → frame_ok (contents msg) →
    ∃ t' out' msg', encodeFrame m (t, out, msg) = (Return tt, (t', out', msg')) ∧ in_frame t' ∧
      contents out' = contents out ++ frame_header (contents msg) ++ contents msg
}.
Definition frame_of {E : Envoy} {T : ThriftTransport E} {PT : WireTransport T} (bs : bytes) : bytes := frame_header bs ++ bs.

Section messages.
Context {E : Envoy} {L : EnvoyLaws E} {P : ThriftProtocol E} {T : ThriftTransport E} {PL : ProtocolLaws P}
  {PP : WireProtocol P} {PT : WireTransport T}.

(** A codec that is not in the middle of a frame: a new one, or one that has decoded
    messages of the format. *)
Definition codec_ready (c : @ThriftCodec E P T) : Prop :=
  frame_started_ c = false ∧ frame_ended_ c = false ∧ metadata_ c = None ∧
  before_frame (transport_ c) ∧ before_message (protocol_ c).
(** A codec that knows the format. *)
Definition codec_knows (c : @ThriftCodec E P T) : Prop := in_frame (transport_ c) ∧ in_message (protocol_ c).

Lemma new_codec_ready : codec_ready new_ThriftCodec.
Proof. split_and!; [done | done | done | apply before_frame_new | apply before_new]. Qed.
Definition thrift_type (t : ThriftMessageType) : MessageType :=
  match t with
  | TM_Reply => MessageType_Response
  | TM_Oneway => MessageType_Oneway
  | TM_Exception => MessageType_Error
  | _ => MessageType_Request
  end.

(** What a decoded message reports. *)
Definition reports (name : string) (t : ThriftMessageType) (seq : Z) (bs : bytes) (m m' : MetadataImpl) : Prop :=
  getString "method" m' = Return name ∧ message_type_ m' = thrift_type t ∧ request_id_ m' = u64 seq ∧
  contents (origin_message_ m') = contents (origin_message_ m) ++ frame_of bs.

Lemma message_valid name t seq bs : message name t seq bs → valid_type t.
Proof. intros [Hx _]. destruct (parse_begin createProtocol _ [] before_new Hx) as (p & Hp & _). by apply parse_some in Hp as [Hv _]. Qed.

Lemma toMetadata_reports c b m s md name t seq bs :
  in_frame (transport_ c) → valid_type t → state_machine_ c = Some s → contents (origin_message s) = bs → frame_ok bs →
  ∃ c' m', toMetadata (with_header name t seq md) (c, b, m) = (Return tt, (c', b, m')) ∧ reports name t seq bs m m' ∧
    in_frame (transport_ c') ∧ protocol_ c' = protocol_ c.
Proof.
  intros Htr Hv Hs Hbs Hf. unfold toMetadata. rewrite run_bind. cbn [modify]. cbv beta iota.
  change (method_name_ (with_header name t seq md)) with (Some name). change (seq_id_ (with_header name t seq md)) with (Some seq).
  change (msg_type_ (with_header name t seq md)) with (Some t). cbv iota.
  rewrite run_bind. cbn [modify]. cbv beta iota. rewrite run_bind. cbn [lift]. cbv beta iota. rewrite run_bind.
  assert (∀ d, (match t with
       | TM_Call => mret MessageType_Request
       | TM_Reply => mret MessageType_Response
       | TM_Oneway => mret MessageType_Oneway
       | TM_Exception => mret MessageType_Error
       | TM_Other _ => panic "not reachec"
       end : M (@ThriftCodec E P T * buffer * MetadataImpl) MessageType) d = (Return (thrift_type t), d)) as Hmt by (by destruct t).
  rewrite Hmt. cbv beta iota. rewrite run_bind. cbn [modify]. cbv beta iota. unfold frame_message. rewrite Hs.
  match goal with |- context [encodeFrame ?md (?t, ?o, ?x)] =>
    destruct (frame_encode_wire t o x md) as (t' & o' & x' & -> & Ht' & Ho); [done | by rewrite Hbs |] end.
  eexists _, _. split; [reflexivity |]. split; [| by split]. split_and!; [| done | done |].
  - exact (getString_putString "method" name m).
  - cbn. rewrite Ho, Hbs. done.
Qed.

Lemma start_frame_wire c b m bs rest :
  codec_ready c → frame_ok bs → contents b = frame_of bs ++ rest →
  ∃ c' b' md, start_frame (c, b, m) = (Return (Some md), (c', b', m)) ∧ contents b' = bs ++ rest ∧
    frame_started_ c' = true ∧ frame_ended_ c' = false ∧ state_machine_ c' = Some new_DecoderStateMachine ∧
    in_frame (transport_ c') ∧ protocol_ c' = protocol_ c.
Proof.
  intros (Hst & He & Hmd & Htr & Hpr) Hf Hb. unfold start_frame. rewrite run_bind. cbn [get_codec gets]. cbv beta iota.
  rewrite run_bind. unfold frame_start at 1. rewrite Hmd. cbn [default].
  destruct (frame_start_wire (transport_ c) b (new_MessageMetadata no_attachments) bs rest Htr Hf)
    as (t' & b' & md & Hs & Ht' & Hb' & Hp & Hx).
  { rewrite Hb. unfold frame_of. by rewrite <- app_assoc. }
  change (@default _ _ None) with (new_MessageMetadata (attachments := attachments) no_attachments).
  rewrite Hs. cbn [negb]. rewrite run_bind. cbn [get_codec gets]. cbv beta iota.
  match goal with |- context [match metadata_ ?x with _ => _ end] => change (metadata_ x) with (Some md) end. cbv iota.
  rewrite run_bind. cbn [get_codec gets]. cbv beta iota. rewrite Hp, Hx. cbn [proto_ app_ex_type_ new_MessageMetadata].
  rewrite run_bind. cbn [mret M_ret]. cbv beta iota. rewrite run_bind. eexists _, _, _. split; [reflexivity |].
  by split_and!.
Qed.

Lemma decode_message (fuel : nat) c b m name t seq bs rest :
  codec_ready c → message name t seq bs → frame_ok bs → contents b = frame_of bs ++ rest →
  byte_worth * zlen (bs ++ rest) < Z.of_nat fuel →
  ∃ c' b' m', ThriftCodec_decode fuel (c, b, m) = (Return DecodeStatus_Done, (c', b', m')) ∧ codec_ready c' ∧ codec_knows c' ∧
    contents b' = rest ∧ reports name t seq bs m m'.
Proof using L.
  intros Hc Hm Hf Hb Hfuel.
  destruct (start_frame_wire c b m bs rest Hc Hf Hb) as (c1 & b1 & md & Hstart & Hb1 & Hst1 & He1 & Hs1 & Htr1 & Hpr1).
  destruct Hc as (Hst & He & Hmd & Htr & Hpr). unfold ThriftCodec_decode. rewrite run_bind. cbn [get_codec gets]. cbv beta iota. rewrite He.
  rewrite run_bind. cbn [get_codec gets]. cbv beta iota. rewrite Hst, run_bind, Hstart. cbv beta iota.
  rewrite run_bind. cbn [get_codec gets]. cbv beta iota. rewrite Hs1. rewrite run_bind. unfold run_machine at 1.
  destruct (message_copied name t seq bs rest fuel
    {| machine := new_DecoderStateMachine; proto := protocol_ c1; metadata := md; input := b1 |})
    as (h' & -> & Ho & Hi & Hmd' & Hin & _); [cbn; by rewrite Hpr1 | done | by split_and! | done | done | |].
  { unfold enough_fuel, potential. cbn [input]. rewrite Hb1. by change (measure _ _) with 0. }
  cbv beta iota. rewrite decide_False by done. rewrite run_bind. rewrite bool_decide_true by done.
  change (ASSERT true _ ?d) with (Return (A := unit) tt, d). cbv beta iota. rewrite run_bind. unfold frame_end at 1.
  match goal with |- context [decodeFrameEnd (?t, ?b)] => destruct (frame_end_wire t b Htr1) as (t2 & b2 & -> & Ht2 & Hb2) end.
  cbn [negb]. rewrite run_bind. cbn [get_codec gets]. cbv beta iota.
  match goal with |- context [match metadata_ ?x with _ => _ end] => change (metadata_ x) with (Some (metadata h')) end.
  cbv iota. rewrite run_bind, Hmd'. cbn [metadata] in *.
  match goal with |- context [toMetadata _ (?c, ?b, ?m)] =>
    destruct (toMetadata_reports c b m (machine h') md name t seq bs) as (c3 & m3 & -> & Hrep & Ht3 & Hp3) end.
  { exact Ht2. } { by eapply message_valid. } { done. } { rewrite Ho. cbn. by rewrite buf_new_spec. } { done. }
  assert (in_message (protocol_ c3)) as Hin3 by (rewrite Hp3; exact Hin).
  pose proof (in_frame_before _ Ht3) as Hbf. pose proof (in_before _ Hin3) as Hbm.
  cbv beta iota. eexists _, _, _. split; [reflexivity |]. split_and!; try done. by rewrite Hb2.
Qed.

(** C8: A complete Thrift message, with structs, maps, lists and sets nested to any depth, is decoded in one call, by a new
    codec that has yet to find out the format or by one that has decoded messages before: the codec takes exactly its frame
    off the buffer, whatever follows it, reports the method, the type and the sequence id of its header, keeps its bytes
    unchanged as the message to be forwarded, and is ready for the next frame. The message is in a format of which the items
    do not depend on each other, as in the binary protocol. *)
Theorem thrift_decode_message (fuel : nat) (c : @ThriftCodec E P T) (b : buffer) (m : MetadataImpl)
    (name : string) (t : ThriftMessageType) (seq : Z) (bs rest : bytes) :
  codec_ready c → message name t seq bs → frame_ok bs → contents b = frame_of bs ++ rest →
  byte_worth * zlen (bs ++ rest) < Z.of_nat fuel →
  ∃ c' b' m', ThriftCodec_decode fuel (c, b, m) = (Return DecodeStatus_Done, (c', b', m')) ∧ codec_ready c' ∧ codec_knows c' ∧
    contents b' = rest ∧ getString "method" m' = Return name ∧ message_type_ m' = thrift_type t ∧
    request_id_ m' = u64 seq ∧ contents (origin_message_ m') = contents (origin_message_ m) ++ frame_of bs.
Proof. apply decode_message. Qed.

(** ** Error replies *)

Lemma respond_wire k x (c : @ThriftCodec E P T) b :
  in_message (protocol_ c) → ∃ b', respond k x (c, b) = (Return tt, (c, b')) ∧ contents b' = contents b ++ enc k x.
Proof.
  intros Hc. unfold respond. destruct (proto_write_spec k (protocol_ c) b x) as (b' & -> & Hb).
  rewrite (emit_enc _ _ _ Hc) in Hb |- *.
  exists b'. split; [by destruct c | done].
Qed.

(** The exception that [onError] writes. *)
Definition exception_bytes (name : string) (seq : Z) (what : string) : bytes :=
  enc K_MessageBegin (name, TM_Exception, seq) ++
  (enc K_StructBegin "" ++
   (enc K_FieldBegin ("", FT_String, 1) ++ enc K_String what ++ enc K_FieldEnd tt ++
    enc K_FieldBegin ("", FT_I32, 2) ++ enc K_Int32 AppExceptionType_InternalError ++ enc K_FieldEnd tt) ++
   enc K_FieldBegin ("", FT_Stop, 0) ++ enc K_StructEnd tt) ++
  enc K_MessageEnd tt.

Lemma write_exception_bytes md name seq what (c : @ThriftCodec E P T) b :
  in_message (protocol_ c) → method_name_ md = Some name → msg_type_ md = Some TM_Exception → seq_id_ md = Some seq →
  ∃ b', write_exception md what (c, b) = (Return tt, (c, b')) ∧ contents b' = contents b ++ exception_bytes name seq what.
Proof.
  intros Hc Hn Ht Hs. unfold write_exception, message_item. rewrite Hn, Ht, Hs, run_bind. cbn [lift]. cbv beta iota.
  do 10 (rewrite run_bind; match goal with |- context [respond ?k ?x (c, ?b)] =>
    destruct (respond_wire k x c b Hc) as (? & -> & ?) end; cbv beta iota).
  destruct (respond_wire K_MessageEnd tt c x8 Hc) as (b' & -> & Hb'). exists b'. split; [done |]. rewrite Hb'.
  repeat match goal with H : contents ?x = _ |- context [contents ?x] => rewrite H; clear H end.
  unfold exception_bytes. rewrite (enc_struct_name "TApplicationException"), (enc_field_name "message"), (enc_field_name "type").
  by rewrite <- !app_assoc.
Qed.

(** What has to be encodable for an error to be reported. *)
Definition exception_encodable (name : string) (seq : Z) (what : string) : Prop :=
  enc_ok K_MessageBegin (name, TM_Exception, seq) ∧ enc_ok K_FieldBegin ("", FT_String, 1) ∧ enc_ok K_String what ∧
  enc_ok K_FieldBegin ("", FT_I32, 2) ∧ enc_ok K_Int32 AppExceptionType_InternalError ∧
  frame_ok (exception_bytes name seq what).

Lemma exception_message name seq what :
  exception_encodable name seq what → message name TM_Exception seq (exception_bytes name seq what).
Proof.
  intros (H1 & H2 & H3 & H4 & H5 & _). split; [done |]. eexists. split; [| reflexivity]. apply value_struct.
  apply (fields_cons FT_String 1 (enc K_String what)); [done | done | by econstructor |].
  rewrite <- (app_nil_r (enc K_FieldEnd tt)).
  apply (fields_cons FT_I32 2 (enc K_Int32 AppExceptionType_InternalError)); [done | done | by econstructor | constructor].
Qed.

(** The error reply that the proxy makes for a request, with a codec that has decoded one, is a complete Thrift exception: it is written to the empty
    buffer as one frame, and any codec that reads it gets an error message with the method of the request and, if the
    request id is a 32 bit number, its id, with nothing left over. *)
Theorem thrift_error_reply (fuel : nat) (c : @ThriftCodec E P T) (b : buffer) (request : MetadataImpl) (error : Error)
    (name : string) (reader : @ThriftCodec E P T) (m : MetadataImpl) :
  codec_knows c → contents b = [] → getString "method" request = Return name → 0 ≤ request_id_ request < 2 ^ 31 →
  exception_encodable name (request_id_ request) (error_message error) → codec_ready reader →
  byte_worth * zlen (exception_bytes name (request_id_ request) (error_message error)) < Z.of_nat fuel →
  ∃ c' b', ThriftCodec_onError request error (c, b) = (Return tt, (c', b')) ∧
  ∃ r' b2 m', ThriftCodec_decode fuel (reader, b', m) = (Return DecodeStatus_Done, (r', b2, m')) ∧ contents b2 = [] ∧
    message_type_ m' = MessageType_Error ∧ getString "method" m' = Return name ∧ request_id_ m' = request_id_ request.
Proof.
  intros [Htr Hpr] Hb Hname Hid Hx Hr Hf. unfold ThriftCodec_onError. rewrite run_bind. cbn [gets snd]. cbv beta iota.
  rewrite run_bind, buf_length_spec, Hb. change (ASSERT _ _ ?d) with (Return (A := unit) tt, d). cbv beta iota.
  rewrite run_bind. unfold toMsgMetadata. rewrite Hname. cbn [mbind outcome_bind lift]. cbv beta iota zeta.
  set (md := upd msg_type_ _ _).
  assert (to_i32 (request_id_ request) = request_id_ request) as Hi.
  { unfold to_i32. rewrite u32_small by lia. cbv zeta. by rewrite (proj2 (Z.ltb_lt _ _)) by lia. }
  assert (method_name_ md = Some name) as Hn by (by subst md; case_bool_decide; subst).
  assert (seq_id_ md = Some (request_id_ request)) as Hq by (subst md; rewrite Hi; by case_bool_decide).
  rewrite run_bind. unfold in_new_buffer.
  destruct (write_exception_bytes md name (request_id_ request) (error_message error) c buf_new Hpr Hn eq_refl Hq) as (r & -> & Hr').
  cbn [fmap outcome_fmap]. cbv beta iota. unfold frame_response. rewrite buf_new_spec in Hr'. cbn [app] in Hr'.
  destruct (frame_encode_wire (transport_ c) b r md Htr) as (t' & b' & r' & -> & _ & Hb'); [rewrite Hr'; by apply Hx |].
  eexists _, b'. split; [reflexivity |]. rewrite Hr', Hb in Hb'.
  destruct (decode_message fuel reader b' m name TM_Exception (request_id_ request)
    (exception_bytes name (request_id_ request) (error_message error)) []) as (c2 & b2 & m2 & -> & _ & _ & Hb2 & (R1 & R2 & R3 & _));
    [done | by apply exception_message | by apply Hx | by rewrite app_nil_r | by rewrite app_nil_r |].
  exists c2, b2, m2. split_and!; [done | done | done | done |]. rewrite R3. apply u64_small. lia.
Qed.
End messages.
