(* ===== verification/ThriftPieces.v ===== *)
(** * Thrift messages that arrive in pieces

    The bytes of a message come in any number of reads, of any size.  After each the
    machine runs as far as it can; the message is complete after the last byte. *)

From S2P Require Import Prelude Envoy Metadata Codec Thrift ThriftSpec ThriftBehaviour ThriftSegments ThriftGrammar.

(** One read after the other, until the message is complete. *)
Fixpoint feed {E : Envoy} {P : ThriftProtocol E} {T : ThriftTransport E} (fuel : nat) (pieces : list bytes) :
    M (@Walk E P T) ProtocolState :=
  match pieces with
  | [] => mret WaitForData
  | piece :: pieces =>
      _ ← modify (λ h, h <| input ::= λ b, buf_add b piece |>);
      s ← run fuel;
      if decide (s = Done) then mret Done else feed fuel pieces
  end.

Section pieces.
Context {E : Envoy} {P : ThriftProtocol E} {T : ThriftTransport E} {PL : ProtocolLaws P} {PP : WireProtocol P}.
Abbreviation PW := (@Walk pE pP pT).

Lemma more_nil (a : PW) : more [] a = a.
Proof. unfold more, set_inp. rewrite app_nil_r. by destruct a. Qed.
Lemma more_more x y (a : PW) : more y (more x a) = more (x ++ y) a.
Proof. unfold more at 1 3. change (inp (more x a)) with (inp a ++ x). by rewrite <- app_assoc. Qed.

(** What a run that ended does with more input. *)
Lemma run_more fuel (a : PW) ext :
  walk_ok a →
  match run fuel a with
  | (Return Done, a') => run fuel (more ext a) = (Return Done, more ext a')
  | (Throw e, _) => (run fuel (more ext a)).1 = Throw e
  | _ => True
  end.
Proof.
  revert a. induction fuel as [|fuel IH]; intros a Hok; [done |]. rewrite !run_S.
  change (state_ (machine (more ext a))) with (state_ (machine a)). case_decide as Hd; [done |].
  pose proof (reads_first_more a handleState ext (handleState_reads a Hok Hd)) as Hm.
  pose proof (handleState_ends a (proj1 Hok) (proj1 (proj2 Hok)) Hd) as He.
  destruct (handleState a) as [[s|e|w] a']; [| by destruct Hm as (a2 & ->) | done]. cbn in He. case_decide as Hs; [done |].
  destruct (stepped_ok a s a' Hok He) as (Hok' & _ & _).
  assert (handleState (more ext a) = (Return s, more ext a')) as -> by (by destruct s). rewrite decide_False by done.
  exact (IH _ Hok').
Qed.

Lemma message_nonempty name t seq bs : message name t seq bs → bs ≠ [].
Proof.
  intros (Hx & body & _ & ->). destruct (parse_begin createProtocol _ [] before_new Hx) as (p & Hp & _).
  apply parse_some in Hp as (_ & pre & Hpre & Hne). rewrite app_nil_r in Hpre. rewrite Hpre.
  intros [[? _]%app_eq_nil _]%app_eq_nil. by apply Hne.
Qed.

(** The machine after the first bytes [pre] of a message. *)
Definition fed (fuel : nat) (a0 : PW) (pre : bytes) (a : PW) : Prop :=
  pre = [] ∧ a = a0 ∨ run fuel (more pre a0) = (Return WaitForData, a).

Lemma fed_more fuel a0 pre a ext :
  walk_ok a0 → fed fuel a0 pre a → left_steps (more (pre ++ ext) a0) < Z.of_nat fuel →
  run fuel (more ext a) = run fuel (more (pre ++ ext) a0).
Proof.
  intros Hok [[-> ->] | Hrun] Hf; [done |]. rewrite <- more_more in Hf |- *. symmetry. by eapply run_resumes.
Qed.

Lemma feed_cons fuel piece pieces (a : PW) :
  feed fuel (piece :: pieces) a =
  match run fuel (more piece a) with
  | (Return s, a') => if decide (s = Done) then (Return Done, a') else feed fuel pieces a'
  | (Throw e, a') => (Throw e, a')
  | (Panic w, a') => (Panic w, a')
  end.
Proof.
  cbn [feed]. rewrite run_bind. cbn [modify]. cbv beta iota. rewrite run_bind.
  change (a <| input ::= λ b, buf_add b piece |>) with (more piece a).
  destruct (run fuel (more piece a)) as [[s|e|w] a']; [| done | done]. by case_decide.
Qed.

Lemma feed_message fuel name t seq bs pieces pre (a0 a : PW) :
  before_message (pr a0) → message name t seq bs → walk_ok a0 → state_ (machine a0) = MessageBegin → inp a0 = [] →
  left_steps (more bs a0) < Z.of_nat fuel → fed fuel a0 pre a → pre ++ concat pieces = bs →
  ∃ p, feed fuel pieces a = (Return Done, placed (began (E := E) (P := P) (T := T) name t seq p a0) Done [] (out a0 ++ bs) []).
Proof.
  intros Hp Hm Hok Hst Hi Hf Hfed Hcat.
  destruct (message_run name t seq bs fuel (more bs a0) []) as (p & _ & Hrun); [done | done | done | done | | done |].
  { change (inp (more bs a0)) with (inp a0 ++ bs). by rewrite Hi, app_nil_r. }
  exists p. set (z := placed _ _ _ _ _). change (run fuel (more bs a0) = (Return Done, z)) in Hrun.
  revert pre a Hfed Hcat. induction pieces as [|piece pieces IH]; intros pre a Hfed Hcat.
  - cbn in Hcat. rewrite app_nil_r in Hcat. subst pre. exfalso. apply message_nonempty in Hm.
    destruct Hfed as [[-> _] | Hw]; [done |]. by rewrite Hrun in Hw.
  - cbn [concat] in Hcat. rewrite app_assoc in Hcat. rewrite feed_cons.
    assert (left_steps (more (pre ++ piece) a0) < Z.of_nat fuel) as Hf'.
    { rewrite left_steps_more in Hf |- *. rewrite <- Hcat, zlen_app in Hf. unfold byte_worth in *.
      pose proof (zlen_nonneg (concat pieces)). lia. }
    rewrite (fed_more fuel a0 pre a piece Hok Hfed Hf').
    pose proof (run_ends fuel (more (pre ++ piece) a0) Hok) as He.
    pose proof (run_more fuel (more (pre ++ piece) a0) (concat pieces) Hok) as Hm'. rewrite more_more, Hcat, Hrun in Hm'.
    destruct (run fuel (more (pre ++ piece) a0)) as [[s|e|w] a'] eqn:Hr; [| done | lia].
    destruct He as (_ & [[-> _] | ->] & _).
    + rewrite decide_True by done. f_equal. assert (z = more (concat pieces) a') as Hz by congruence.
      assert (inp a' ++ concat pieces = []) as [_ Hc]%app_eq_nil by (change (inp (more (concat pieces) a') = []); by rewrite <- Hz).
      by rewrite Hz, Hc, more_nil.
    + rewrite decide_False by done. eapply IH; [right; exact Hr | done].
Qed.
End pieces.

(** ** On buffers *)

Section buffers.
Context {E : Envoy} {L : EnvoyLaws E} {P : ThriftProtocol E} {T : ThriftTransport E} {PL : ProtocolLaws P}
  {PP : WireProtocol P}.

Lemma sim_feed fuel pieces : Forall is_bytes pieces → sim (E := E) (P := P) (T := T) (feed fuel pieces) (feed fuel pieces).
Proof using L.
  induction 1 as [|piece pieces Hp _ IH]; cbn [feed]; [apply sim_ret |]. apply sim_bind.
  { apply sim_modify. intros h a (? & ? & ? & ? & ? & ? & ? & ? & Hi). split_and!; try done. cbn.
    by rewrite buf_add_spec, Hi. }
  intros _. apply sim_bind; [apply sim_run |]. intros s. case_decide; [apply sim_ret | done].
Qed.

(** C10: A Thrift message is delivered however its bytes are cut into reads, also if a cut is in the bytes that tell its
    format: the machine that is run after each read waits until the last byte is there, then it is done, has written exactly
    the bytes of the message, has left nothing of it in the buffer, and knows its method, type and sequence id. The message
    is in a format of which the items do not depend on each other, as in the binary protocol. *)
Theorem thrift_message_in_pieces (fuel : nat) (h : @Walk E P T) (name : string) (t : ThriftMessageType) (seq : Z)
    (bs : bytes) (pieces : list bytes) :
  before_message (proto h) → message name t seq bs → machine h = new_DecoderStateMachine → contents (input h) = [] →
  Forall is_bytes pieces → concat pieces = bs → byte_worth * zlen bs < Z.of_nat fuel →
  ∃ h', feed fuel pieces h = (Return Done, h') ∧ contents (origin_message (machine h')) = bs ∧ contents (input h') = [] ∧
    method_name_ (metadata h') = Some name ∧ msg_type_ (metadata h') = Some t ∧ seq_id_ (metadata h') = Some seq.
Proof.
  intros Hp Hm Hn Hi Hb Hc Hf.
  assert (walk_ok h) as Hok by (unfold walk_ok; rewrite Hn; by split_and!).
  pose proof (walk_eq_abstract h Hok) as Heq. pose proof (sim_feed fuel pieces Hb h _ Heq) as Hs.
  destruct (feed_message fuel name t seq bs pieces [] (abstract h) (abstract h)) as [p Hfeed];
    [done | done | by eapply walk_eq_ok | cbn; by rewrite Hn | done | | by left | done |].
  2: { rewrite Hfeed in Hs. destruct Hs as (h' & Hrun & (H1 & _ & _ & _ & _ & H6 & H7 & H8 & H9)). exists h'. rewrite H8.
    split_and!; [done | | done | done | done | done]. rewrite H6. cbn. rewrite Hn. cbn. by rewrite buf_new_spec. }
  rewrite left_steps_more. unfold left_steps, potential. cbn [abstract machine state_ stack_]. rewrite Hn.
  change (inp (abstract h)) with (contents (input h)). rewrite Hi. by change (measure _ _) with 0.
Qed.
End buffers.
