(* ===== verification/ThriftBinary.v ===== *)
(** * The binary protocol and the framed transport of Thrift, found on the wire

    Concrete implementations of the interfaces [Protocol] and [Transport], after the
    formats of the Thrift specification: objects that know nothing at first, recognise the
    binary protocol and the framed transport by the first bytes of a message, and then
    keep to them, as the ones do that the codec uses.  Any other beginning is an exception.
    They satisfy the laws of [ThriftSpec], [ThriftGrammar] and [ThriftDecode], and the
    witnesses compute with them. *)

From S2P Require Import Prelude Envoy Metadata Codec Thrift ThriftSpec ThriftBehaviour ThriftSegments ThriftGrammar ThriftDecode.

(** ** Parsers *)

Definition parser (A : Type) : Type := bytes → outcome (option (A * bytes)).
Definition p_ret {A} (x : A) : parser A := λ bs, Return (Some (x, bs)).
Definition p_throw {A} (what : string) : parser A := λ bs, Throw (EnvoyException what).
Definition p_bind {A B} (m : parser A) (f : A → parser B) : parser B := λ bs,
  match m bs with
  | Return (Some (x, r)) => f x r
  | Return None => Return None
  | Throw e => Throw e
  | Panic w => Panic w
  end.
Definition p_take (n : Z) : parser bytes := λ bs,
  if n <=? zlen bs then Return (Some (ztake n bs, zdrop n bs)) else Return None.

(** [Q] holds of what is parsed, and at least one byte is if [c]. *)
Definition good {A} (c : bool) (Q : A → Prop) (m : parser A) : Prop := ∀ bs,
  match m bs with
  | Return (Some (x, r)) => Q x ∧ (∃ pre, bs = pre ++ r ∧ (c = true → pre ≠ [])) ∧
                            ∀ ext, m (bs ++ ext) = Return (Some (x, r ++ ext))
  | Return None => True
  | Throw e => envoy_exception e ∧ ∀ ext, m (bs ++ ext) = Throw e
  | Panic _ => False
  end.

Lemma good_ret {A} (Q : A → Prop) x : Q x → good false Q (p_ret x).
Proof. intros Hx bs. split_and!; [done | | done]. by exists []. Qed.
Lemma good_throw {A} c (Q : A → Prop) what : good c Q (p_throw what).
Proof. intros bs. split; [| done]. by eexists. Qed.
Lemma good_weaken {A} c (Q Q' : A → Prop) m : good c Q m → (∀ x, Q x → Q' x) → good false Q' m.
Proof.
  intros Hm HQ bs. specialize (Hm bs). destruct (m bs) as [[[x r]|]|e|w]; [| done ..].
  destruct Hm as (H1 & (pre & H2 & _) & H3). split_and!; [by auto | by exists pre | done].
Qed.
Lemma good_bind {A B} c (Q : A → Prop) (Q' : B → Prop) m f :
  good c Q m → (∀ x, Q x → good false Q' (f x)) → good c Q' (p_bind m f).
Proof.
  intros Hm Hf bs. unfold p_bind. specialize (Hm bs). destruct (m bs) as [[[x r]|]|e|w]; [| done | | done].
  - destruct Hm as (Hx & (pre & -> & Hc) & Hext). specialize (Hf x Hx r).
    destruct (f x r) as [[[y r']|]|e|w]; [| done | | done].
    + destruct Hf as (Hy & (pre' & -> & _) & Hext'). split_and!; [done | |].
      * exists (pre ++ pre'). rewrite <- app_assoc. split; [done |]. intros Ht [? _]%app_eq_nil. by apply Hc.
      * intros ext. by rewrite Hext, Hext'.
    + destruct Hf as [He Hext']. split; [done |]. intros ext. by rewrite Hext, Hext'.
  - destruct Hm as [He Hext]. split; [done |]. intros ext. by rewrite Hext.
Qed.
Lemma good_take n : 0 ≤ n → good (0 <? n) (λ _, True) (p_take n).
Proof.
  intros Hn bs. unfold p_take. destruct (Z.leb_spec n (zlen bs)) as [Hle|]; [| done]. split_and!; [done | |].
  - exists (ztake n bs). rewrite ztake_zdrop. split; [done |]. intros Hp%Z.ltb_lt Hnil.
    apply (f_equal zlen) in Hnil. rewrite zlen_ztake, zlen_nil in Hnil; lia.
  - intros ext. rewrite zlen_app, (proj2 (Z.leb_le _ _)) by (pose proof (zlen_nonneg ext); lia).
    by rewrite ztake_app, zdrop_app by lia.
Qed.

Lemma p_bind_some {A B} (m : parser A) (f : A → parser B) bs x r :
  m bs = Return (Some (x, r)) → p_bind m f bs = f x r.
Proof. unfold p_bind. by intros ->. Qed.
Lemma p_take_app l r : p_take (zlen l) (l ++ r) = Return (Some (l, r)).
Proof.
  unfold p_take. rewrite zlen_app, (proj2 (Z.leb_le _ _)) by (pose proof (zlen_nonneg r); lia).
  by rewrite ztake_app_exact, zdrop_app_exact.
Qed.

(** Integers of [n] bytes, as [conv] reads them. *)
Definition p_int (n : nat) (conv : Z → Z) : parser Z :=
  p_bind (p_take (Z.of_nat n)) (λ l, p_ret (conv (be_combine l))).
Lemma good_int n conv (Q : Z → Prop) : (0 < n)%nat → (∀ z, Q (conv z)) → good true Q (p_int n conv).
Proof.
  intros Hn HQ. unfold p_int. pose proof (good_take (Z.of_nat n)) as Ht.
  rewrite (proj2 (Z.ltb_lt _ _)) in Ht by lia. eapply good_bind; [apply Ht; lia |]. intros l _. by apply good_ret.
Qed.
Lemma p_int_split n conv z r :
  p_int n conv (be_split n z ++ r) = Return (Some (conv (z `mod` 256 ^ Z.of_nat n), r)).
Proof.
  unfold p_int. rewrite <- (zlen_be_split n z) at 1. erewrite p_bind_some by apply p_take_app. by rewrite be_combine_split.
Qed.

(** Two's complement. *)
Lemma to_i16_mod z : - 2 ^ 15 ≤ z < 2 ^ 15 → to_i16 (z `mod` 256 ^ 2) = z.
Proof.
  intros. unfold to_i16, u16. change (256 ^ 2) with (2 ^ 16). cbv zeta. rewrite Z.mod_mod by lia.
  destruct (Z.ltb_spec (z `mod` 2 ^ 16) (2 ^ 15)) as [Hl|Hl];
    pose proof (Z.div_mod z (2 ^ 16)); pose proof (Z.mod_pos_bound z (2 ^ 16)); lia.
Qed.
Lemma to_i32_mod z : - 2 ^ 31 ≤ z < 2 ^ 31 → to_i32 (z `mod` 256 ^ 4) = z.
Proof.
  intros. unfold to_i32, u32. change (256 ^ 4) with (2 ^ 32). cbv zeta. rewrite Z.mod_mod by lia.
  destruct (Z.ltb_spec (z `mod` 2 ^ 32) (2 ^ 31)) as [Hl|Hl];
    pose proof (Z.div_mod z (2 ^ 32)); pose proof (Z.mod_pos_bound z (2 ^ 32)); lia.
Qed.
Lemma to_i64_mod z : - 2 ^ 63 ≤ z < 2 ^ 63 → to_i64 (z `mod` 256 ^ 8) = z.
Proof.
  intros. unfold to_i64, u64. change (256 ^ 8) with (2 ^ 64). cbv zeta. rewrite Z.mod_mod by lia.
  destruct (Z.ltb_spec (z `mod` 2 ^ 64) (2 ^ 63)) as [Hl|Hl];
    pose proof (Z.div_mod z (2 ^ 64)); pose proof (Z.mod_pos_bound z (2 ^ 64)); lia.
Qed.

(** ** Items *)

Definition string_bytes (s : string) : bytes := (λ a, Z.of_N (Ascii.N_of_ascii a)) <$> String.list_ascii_of_string s.
Definition bytes_string (bs : bytes) : string := String.string_of_list_ascii ((λ z, Ascii.ascii_of_N (Z.to_N z)) <$> bs).
Lemma bytes_string_bytes s : bytes_string (string_bytes s) = s.
Proof.
  unfold bytes_string, string_bytes. rewrite <- list_fmap_compose.
  rewrite <- (String.string_of_list_ascii_of_string s) at 2. f_equal.
  induction (String.list_ascii_of_string s) as [|a l IH]; cbn; [done |]. by rewrite IH, N2Z.id, Ascii.ascii_N_embedding.
Qed.
Lemma string_bytes_ok s : is_bytes (string_bytes s).
Proof.
  apply Forall_fmap, Forall_true. intros a. cbn. unfold is_byte. pose proof (Ascii.N_ascii_bounded a). lia.
Qed.

Definition FieldType_of (z : Z) : FieldType :=
  match z with
  | 0 => FT_Stop | 1 => FT_Void | 2 => FT_Bool | 3 => FT_Byte | 4 => FT_Double | 6 => FT_I16 | 8 => FT_I32 | 10 => FT_I64
  | 11 => FT_String | 12 => FT_Struct | 13 => FT_Map | 14 => FT_Set | 15 => FT_List
  | z => FT_Other z
  end.
(** Field types that are one of the enumeration. *)
Definition known_field (t : FieldType) : Prop := match t with FT_Other _ => False | _ => True end.
Definition message_type_value (t : ThriftMessageType) : Z :=
  match t with TM_Call => 1 | TM_Reply => 2 | TM_Exception => 3 | TM_Oneway => 4 | TM_Other z => z end.

Definition p_size : parser Z :=
  p_bind (p_int 4 to_i32) (λ n, if n <? 0 then p_throw "negative size" else p_ret n).
Definition p_string : parser string :=
  p_bind p_size (λ n, p_bind (p_take n) (λ l, p_ret (bytes_string l))).
Definition p_field : parser FieldType := p_bind (p_int 1 id) (λ z, p_ret (FieldType_of z)).
Definition p_message_type : parser ThriftMessageType :=
  p_bind (p_int 2 id) (λ z,
    match z with
    | 1 => p_ret TM_Call | 2 => p_ret TM_Reply | 3 => p_ret TM_Exception | 4 => p_ret TM_Oneway
    | _ => p_throw "invalid binary protocol message type"
    end).

Definition binary_parse (k : kind) : parser (item k) :=
  match k with
  | K_MessageBegin =>
      p_bind (p_int 2 id) (λ v,
        if v =? 0x8001 then
          p_bind p_message_type (λ t, p_bind p_string (λ name, p_bind (p_int 4 to_i32) (λ seq, p_ret (name, t, seq))))
        else p_throw "invalid binary protocol version")
  | K_StructBegin => p_ret ""
  | K_FieldBegin =>
      p_bind p_field (λ t, if decide (t = FT_Stop) then p_ret ("", t, 0) else p_bind (p_int 2 to_i16) (λ i, p_ret ("", t, i)))
  | K_MapBegin => p_bind p_field (λ kt, p_bind p_field (λ vt, p_bind p_size (λ n, p_ret (kt, vt, n))))
  | K_ListBegin => p_bind p_field (λ t, p_bind p_size (λ n, p_ret (t, n)))
  | K_SetBegin => p_bind p_field (λ t, p_bind p_size (λ n, p_ret (t, n)))
  | K_MessageEnd | K_StructEnd | K_FieldEnd | K_MapEnd | K_ListEnd | K_SetEnd => p_ret tt
  | K_Bool => p_bind (p_int 1 id) (λ z, p_ret (negb (z =? 0)))
  | K_Byte => p_int 1 id
  | K_Int16 => p_int 2 to_i16
  | K_Int32 => p_int 4 to_i32
  | K_Int64 => p_int 8 to_i64
  | K_Double => p_int 8 id
  | K_String => p_string
  end.

Definition string_item (s : string) : bytes := be_split 4 (zlen (string_bytes s)) ++ string_bytes s.
Definition binary_enc (k : kind) : item k → bytes :=
  match k with
  | K_MessageBegin => λ '(name, t, seq),
      be_split 2 0x8001 ++ be_split 2 (message_type_value t) ++ string_item name ++ be_split 4 seq
  | K_FieldBegin => λ '(_, t, i),
      if decide (t = FT_Stop) then be_split 1 0 else be_split 1 (FieldType_value t) ++ be_split 2 i
  | K_MapBegin => λ '(kt, vt, n), be_split 1 (FieldType_value kt) ++ be_split 1 (FieldType_value vt) ++ be_split 4 n
  | K_ListBegin => λ '(t, n), be_split 1 (FieldType_value t) ++ be_split 4 n
  | K_SetBegin => λ '(t, n), be_split 1 (FieldType_value t) ++ be_split 4 n
  | K_Bool => λ b, be_split 1 (if b : bool then 1 else 0)
  | K_Byte => λ z, be_split 1 z
  | K_Int16 => λ z, be_split 2 z
  | K_Int32 => λ z, be_split 4 z
  | K_Int64 | K_Double => λ z, be_split 8 z
  | K_String => string_item
  | K_StructBegin => λ _, []
  | K_MessageEnd | K_StructEnd | K_FieldEnd | K_MapEnd | K_ListEnd | K_SetEnd => λ _, []
  end.

Definition string_fits (s : string) : Prop := zlen (string_bytes s) < 2 ^ 31.
Definition binary_ok (k : kind) : item k → Prop :=
  match k with
  | K_MessageBegin => λ '(name, t, seq), string_fits name ∧ valid_type t ∧ - 2 ^ 31 ≤ seq < 2 ^ 31
  | K_StructBegin => λ name, name = ""
  | K_FieldBegin => λ '(name, t, i), name = "" ∧ known_field t ∧ (if decide (t = FT_Stop) then i = 0 else - 2 ^ 15 ≤ i < 2 ^ 15)
  | K_MapBegin => λ '(kt, vt, n), known_field kt ∧ known_field vt ∧ 0 ≤ n < 2 ^ 31
  | K_ListBegin => λ '(t, n), known_field t ∧ 0 ≤ n < 2 ^ 31
  | K_SetBegin => λ '(t, n), known_field t ∧ 0 ≤ n < 2 ^ 31
  | K_Byte => λ z, 0 ≤ z < 2 ^ 8
  | K_Int16 => λ z, - 2 ^ 15 ≤ z < 2 ^ 15
  | K_Int32 => λ z, - 2 ^ 31 ≤ z < 2 ^ 31
  | K_Int64 => λ z, - 2 ^ 63 ≤ z < 2 ^ 63
  | K_Double => λ z, 0 ≤ z < 2 ^ 64
  | K_String => string_fits
  | _ => λ _, True
  end.

(** ** The parsers are in order *)

Lemma to_i32_range z : - 2 ^ 31 ≤ to_i32 z < 2 ^ 31.
Proof. unfold to_i32. pose proof (u32_range z). cbv zeta. destruct (Z.ltb_spec (u32 z) (2 ^ 31)); lia. Qed.
Lemma good_size : good true (λ n, 0 ≤ n < 2 ^ 32) p_size.
Proof.
  eapply good_bind; [apply (good_int _ _ (λ z, - 2 ^ 31 ≤ z < 2 ^ 31)); [lia | apply to_i32_range] |]. intros n Hn.
  destruct (Z.ltb_spec n 0); [apply good_throw | apply good_ret; cbv beta in *; lia].
Qed.
Lemma good_string : good true (λ _, True) p_string.
Proof.
  eapply good_bind; [apply good_size |]. intros n Hn. cbv beta in Hn.
  eapply good_weaken; [| done]. eapply good_bind; [apply good_take; lia |]. intros l _. by apply (good_ret (λ _, True)).
Qed.
Lemma good_field : good true (λ _, True) p_field.
Proof. eapply good_bind; [by apply (good_int _ _ (λ _, True)); [lia |] |]. intros z _. by apply good_ret. Qed.
Lemma good_message_type : good true valid_type p_message_type.
Proof.
  eapply good_bind; [by apply (good_int _ _ (λ _, True)); [lia |] |]. intros z _.
  repeat case_match; (apply good_throw || by apply good_ret).
Qed.

Lemma good_binary k : good (header_kind k) (item_ok k) (binary_parse k).
Proof.
  destruct k; cbn [binary_parse header_kind item_ok]; try (by apply good_ret);
    try (eapply good_weaken; [by apply (good_int _ _ (λ _, True)); [lia |] | done]);
    try (eapply good_weaken; [apply good_string | done]);
    try (eapply good_bind; [apply good_field |]; intros t _; eapply good_weaken; [eapply good_bind; [apply good_size |];
      intros n Hn; by apply (good_ret (λ x, 0 ≤ x.2 < 2 ^ 32)) | done]).
  - eapply good_bind; [by apply (good_int _ _ (λ _, True)); [lia |] |]. intros v _. case_match; [| apply good_throw].
    eapply good_weaken; [| by intros x Hx; exact Hx]. eapply good_bind; [apply good_message_type |]. intros t Ht.
    eapply good_weaken; [| by intros x Hx; exact Hx]. eapply good_bind; [apply good_string |]. intros name _.
    eapply good_weaken; [| by intros x Hx; exact Hx].
    eapply good_bind; [by apply (good_int _ _ (λ _, True)); [lia |] |]. intros seq _. by apply good_ret.
  - eapply good_bind; [apply good_field |]. intros t _. case_decide; [by apply good_ret |].
    eapply good_weaken; [| by intros x Hx; exact Hx].
    eapply good_bind; [by apply (good_int _ _ (λ _, True)); [lia |] |]. intros i _. by apply good_ret.
  - eapply good_bind; [apply good_field |]. intros kt _. eapply good_weaken; [| by intros x Hx; exact Hx].
    eapply good_bind; [apply good_field |]. intros vt _. eapply good_weaken; [| by intros x Hx; exact Hx].
    eapply good_bind; [apply good_size |]. intros n Hn. by apply good_ret.
  - eapply good_weaken; [eapply good_bind; [by apply (good_int _ _ (λ _, True)); [lia |] |]; intros z _;
      by apply (good_ret (λ _, True)) | done].
Qed.

(** ** Reading what was written *)

Lemma p_size_split n r : 0 ≤ n < 2 ^ 31 → p_size (be_split 4 n ++ r) = Return (Some (n, r)).
Proof.
  intros Hn. unfold p_size. erewrite p_bind_some by apply p_int_split. change (256 ^ Z.of_nat 4) with (256 ^ 4).
  rewrite to_i32_mod by lia. by rewrite (proj2 (Z.ltb_ge _ _)) by lia.
Qed.
Lemma p_string_item s r : string_fits s → p_string (string_item s ++ r) = Return (Some (s, r)).
Proof.
  intros Hs. unfold p_string, string_item. rewrite <- app_assoc. pose proof (zlen_nonneg (string_bytes s)).
  erewrite p_bind_some by (apply p_size_split; unfold string_fits in Hs; lia). erewrite p_bind_some by apply p_take_app.
  by rewrite bytes_string_bytes.
Qed.
Lemma p_field_value t r : known_field t → p_field (be_split 1 (FieldType_value t) ++ r) = Return (Some (t, r)).
Proof. intros Ht. unfold p_field. erewrite p_bind_some by apply p_int_split. by destruct t. Qed.

Lemma binary_parse_enc k x r : binary_ok k x → binary_parse k (binary_enc k x ++ r) = Return (Some (x, r)).
Proof.
  destruct k; cbn [binary_ok binary_parse binary_enc item] in x |- *; intros Hx;
    try (by destruct x); try (by apply p_string_item); try (by subst x).
  - destruct x as [[name t] seq]. destruct Hx as (Hn & Ht & Hs). rewrite <- !app_assoc.
    erewrite p_bind_some by apply p_int_split. cbv beta.
    change (id (0x8001 `mod` 256 ^ Z.of_nat 2) =? 0x8001) with true. cbv iota. rewrite (p_bind_some _ _ _ t (string_item name ++ be_split 4 seq ++ r)).
    2: { unfold p_message_type. erewrite p_bind_some by apply p_int_split. by destruct t. }
    erewrite p_bind_some by (by apply p_string_item). erewrite p_bind_some by apply p_int_split.
    change (256 ^ Z.of_nat 4) with (256 ^ 4). by rewrite to_i32_mod by lia.
  - destruct x as [[name t] i]. destruct Hx as (-> & Ht & Hi). case_decide as Hst.
    + subst. erewrite p_bind_some by (by apply (p_field_value FT_Stop)). by rewrite decide_True.
    + rewrite <- app_assoc. erewrite p_bind_some by (by apply p_field_value). rewrite decide_False by done.
      erewrite p_bind_some by apply p_int_split. change (256 ^ Z.of_nat 2) with (256 ^ 2). by rewrite to_i16_mod by lia.
  - destruct x as [[kt vt] n]. destruct Hx as (Hk & Hv & Hn). rewrite <- !app_assoc.
    erewrite p_bind_some by (by apply p_field_value). erewrite p_bind_some by (by apply p_field_value).
    by erewrite p_bind_some by (by apply p_size_split).
  - destruct x as [t n]. destruct Hx as (Ht & Hn). rewrite <- !app_assoc. erewrite p_bind_some by (by apply p_field_value).
    by erewrite p_bind_some by (by apply p_size_split).
  - destruct x as [t n]. destruct Hx as (Ht & Hn). rewrite <- !app_assoc. erewrite p_bind_some by (by apply p_field_value).
    by erewrite p_bind_some by (by apply p_size_split).
  - erewrite p_bind_some by apply p_int_split. by destruct x.
  - rewrite p_int_split. change (256 ^ Z.of_nat 1) with (2 ^ 8). unfold id. by rewrite Z.mod_small by lia.
  - rewrite p_int_split. change (256 ^ Z.of_nat 2) with (256 ^ 2). by rewrite to_i16_mod by lia.
  - rewrite p_int_split. change (256 ^ Z.of_nat 4) with (256 ^ 4). by rewrite to_i32_mod by lia.
  - rewrite p_int_split. change (256 ^ Z.of_nat 8) with (256 ^ 8). by rewrite to_i64_mod by lia.
  - rewrite p_int_split. change (256 ^ Z.of_nat 8) with (2 ^ 64). unfold id. by rewrite Z.mod_small by lia.
Qed.

Lemma binary_enc_bytes k x : is_bytes (binary_enc k x).
Proof.
  assert (∀ s, is_bytes (string_item s)) as Hs.
  { intros s. apply Forall_app. split; [apply be_split_bytes | apply string_bytes_ok]. }
  destruct k; cbn [binary_enc item] in x |- *; 
    repeat match goal with x : _ * _ |- _ => destruct x end; repeat case_decide; rewrite ?Forall_app; eauto 6 using be_split_bytes, Forall_nil_2.
Qed.

(** ** The protocol *)

Section binary.
Context {E : Envoy} {L : EnvoyLaws E}.

(** Whether the format has been found; a message of the binary protocol begins with its
    version. *)
Definition auto_parse (k : kind) (found : bool) (bs : bytes) : outcome (option (item k * bytes)) * bool :=
  match k with
  | K_MessageBegin =>
      if found then (binary_parse k bs, true)
      else if zlen bs <? 2 then (Return None, false)
      else if be_at 2 0 bs =? 0x8001 then (binary_parse k bs, true)
      else (Throw (EnvoyException "unknown thrift auto protocol message start"), false)
  | _ => (binary_parse k bs, found)
  end.
Definition auto_read (k : kind) (s : bool * buffer) : outcome (option (item k)) * (bool * buffer) :=
  match auto_parse k s.1 (contents s.2) with
  | (Return (Some (x, r)), p) => (Return (Some x), (p, buf_drain s.2 (zlen (contents s.2) - zlen r)))
  | (Return None, p) => (Return None, (p, s.2))
  | (Throw e, p) => (Throw e, (p, s.2))
  | (Panic w, p) => (Panic w, (p, s.2))
  end.
Definition auto_protocol : ThriftProtocol E :=
  @Build_ThriftProtocol E bool false (λ found, if found then Binary else Auto) (λ t found, found || bool_decide (t = Binary))
    auto_read (λ k x s, (Return tt, (s.1, buf_add s.2 (binary_enc k x)))).

(** The parser is in order in both states. *)
Lemma auto_found k found bs :
  (∃ p, auto_parse k found bs = (binary_parse k bs, p)) ∨ auto_parse k found bs = (Return None, false) ∨
  auto_parse k found bs = (Throw (EnvoyException "unknown thrift auto protocol message start"), false).
Proof.
  destruct k, found; cbn [auto_parse]; try (left; by eexists). repeat case_match; [by right; left | left; by eexists | by right; right].
Qed.
Lemma auto_parse_app k found bs o found' ext :
  auto_parse k found bs = (o, found') → o ≠ Return None → auto_parse k found (bs ++ ext) = (extend ext o, found').
Proof.
  intros Hp Hne.
  assert (∀ k, binary_parse k bs ≠ Return None → binary_parse k (bs ++ ext) = extend ext (binary_parse k bs)) as Hext.
  { intros k0 Hk. pose proof (good_binary k0 bs) as Hg. destruct (binary_parse k0 bs) as [[[x r]|]|e|w]; [| done | | done]; apply Hg. }
  destruct k; cbn [auto_parse] in Hp |- *; try (injection Hp as <- <-; by rewrite Hext).
  destruct found; [injection Hp as <- <-; by rewrite Hext |]. rewrite zlen_app. pose proof (zlen_nonneg ext).
  destruct (Z.ltb_spec (zlen bs) 2) as [|Hl]; [by injection Hp as <- <- |]. rewrite (proj2 (Z.ltb_ge _ _)), be_at_app by lia.
  destruct (be_at 2 0 bs =? 0x8001); injection Hp as <- <-; [by rewrite Hext | done].
Qed.
Lemma auto_parse_wait k found bs found' ext :
  auto_parse k found bs = (Return None, found') → auto_parse k found' (bs ++ ext) = auto_parse k found (bs ++ ext).
Proof.
  intros Hp. destruct k; cbn [auto_parse] in Hp |- *; try by injection Hp as _ <-.
  destruct found; [by injection Hp as _ <- |].
  destruct (Z.ltb_spec (zlen bs) 2) as [|Hl]; [by injection Hp as <- |].
  destruct (be_at 2 0 bs =? 0x8001) eqn:Hm; [| done]. injection Hp as _ <-. rewrite zlen_app. pose proof (zlen_nonneg ext).
  by rewrite (proj2 (Z.ltb_ge _ _)), be_at_app, Hm by lia.
Qed.

#[export] Instance auto_laws : ProtocolLaws auto_protocol.
Proof.
  refine (@Build_ProtocolLaws E auto_protocol auto_parse (λ k p x, (binary_enc k x, p)) _ _ _ _ auto_parse_app auto_parse_wait).
  - intros k p b. cbn. unfold auto_read. cbn [fst snd]. pose proof (good_binary k (contents b)) as Hg.
    destruct (auto_found k p (contents b)) as [[p' ->] | [-> | ->]]; [| by exists b ..]. cbn [fst snd].
    destruct (binary_parse k (contents b)) as [[[x r]|]|e|w]; [| by exists b ..].
    destruct Hg as (_ & (pre & Hpre & _) & _). eexists. split; [reflexivity |].
    assert (zlen (contents b) - zlen r = zlen pre) as -> by (rewrite Hpre, zlen_app; lia).
    rewrite buf_drain_spec, Hpre; [apply zdrop_app_exact |].
    rewrite Hpre, zlen_app. pose proof (zlen_nonneg pre). pose proof (zlen_nonneg r). lia.
  - intros k p b x. eexists. split; [reflexivity |]. cbn. apply buf_add_spec, binary_enc_bytes.
  - intros k p bs o p' Hp. pose proof (good_binary k bs) as Hg.
    destruct (auto_found k p bs) as [[p2 Ha] | [Ha | Ha]]; rewrite Ha in Hp; injection Hp as <- _; [| done | by eexists].
    destruct (binary_parse k bs) as [[[x r]|]|e|w]; [done | done | apply Hg | done].
  - intros k p bs x rest p' Hp. pose proof (good_binary k bs) as Hg.
    destruct (auto_found k p bs) as [[p2 Ha] | [Ha | Ha]]; rewrite Ha in Hp; [| done | done]. injection Hp as Hp _.
    rewrite Hp in Hg. split; apply Hg.
Defined.

#[export] Instance auto_wire : WireProtocol auto_protocol.
Proof.
  refine (@Build_WireProtocol E auto_protocol auto_laws binary_enc binary_ok (λ _, True) (λ found, found = true) I (λ _ _, I) _ _ _ _ _ _ _).
  - intros p x r _ Hx. exists true. split; [| done].
    change (auto_parse K_MessageBegin p (binary_enc K_MessageBegin x ++ r) = (Return (Some (x, r)), true)).
    unfold auto_parse. rewrite (binary_parse_enc K_MessageBegin x r Hx). destruct p; [done |].
    assert (∃ l, binary_enc K_MessageBegin x ++ r = be_split 2 0x8001 ++ l) as [l ->].
    { destruct x as [[name t] seq]. cbn [binary_enc]. rewrite <- app_assoc. by eexists. }
    rewrite zlen_app, zlen_be_split. pose proof (zlen_nonneg l). rewrite (proj2 (Z.ltb_ge _ _)) by lia.
    unfold be_at. by rewrite zdrop_0, (ztake_app_exact (be_split 2 0x8001)).
  - intros k p x r -> Hk Hx. change (auto_parse k true (binary_enc k x ++ r) = (Return (Some (x, r)), true)).
    pose proof (binary_parse_enc k x r Hx) as Hb. unfold auto_parse. by destruct k; rewrite Hb.
  - by intros k p x ->.
  - done.
  - done.
  - done.
  - done.
Defined.
End binary.

(** ** The framed transport *)

Definition max_frame : Z := 0xFA0000.
Section framed.
Context {E : Envoy} {L : EnvoyLaws E}.

(** Whether the framed transport has been found: by the size of the message and its first
    bytes. *)
Definition frame_size (b : buffer) : Z := to_i32 (be_at 4 0 (contents b)).
Definition frame_fits (size : Z) : bool := (0 <? size) && (size <=? max_frame).
Definition auto_start (s : bool * buffer * MessageMetadata unit) : outcome bool * (bool * buffer * MessageMetadata unit) :=
  let '(found, b, m) := s in
  if buf_length b <? (if found then 4 else 8) then (Return false, s)
  else if negb (frame_fits (frame_size b)) then (Throw (EnvoyException "invalid thrift framed transport frame size"), s)
  else if found || (be_at 2 4 (contents b) =? 0x8001)
  then (Return true, (true, buf_drain b 4, m <| frame_size_ := Some (frame_size b) |>))
  else (Throw (EnvoyException "unknown thrift auto transport frame start"), s).
Definition framed_encode (m : MessageMetadata unit) (s : bool * buffer * buffer) : outcome unit * (bool * buffer * buffer) :=
  let '(found, out, msg) := s in
  if negb (frame_fits (buf_length msg)) then (Throw (EnvoyException "invalid thrift framed transport frame size"), s)
  else let '(out, msg) := buf_move_all (buf_writeBEInt 4 out (buf_length msg)) msg in (Return tt, (found, out, msg)).
Definition auto_transport : ThriftTransport E :=
  @Build_ThriftTransport E bool false unit tt auto_start (λ s, (Return true, s)) framed_encode.

#[export] Instance auto_transport_laws : TransportLaws auto_transport.
Proof using L.
  split.
  - intros t b m. cbn [decodeFrameStart auto_transport auto_start]. rewrite buf_length_spec.
    destruct (Z.ltb_spec (zlen (contents b)) (if t then 4 else 8)) as [|Hl]; [split; [by exists [] | done] |].
    destruct (negb (frame_fits (frame_size b))); [by eexists |].
    destruct (t || (be_at 2 4 (contents b) =? 0x8001)); [| by eexists].
    split; [| done]. exists (ztake 4 (contents b)). rewrite buf_drain_spec, ztake_zdrop by (destruct t; lia). done.
  - done.
  - intros t out msg m. cbn [encodeFrame auto_transport framed_encode].
    destruct (negb (frame_fits (buf_length msg))); [by eexists |]. by destruct (buf_move_all _ _).
Qed.

(** A message that the transport can recognise. *)
Definition auto_frame_ok (bs : bytes) : Prop := 4 ≤ zlen bs ≤ max_frame ∧ be_at 2 0 bs = 0x8001.
Lemma frame_fits_ok n : 0 < n ≤ max_frame → frame_fits n = true.
Proof. intros. unfold frame_fits. by rewrite (proj2 (Z.ltb_lt _ _)), (proj2 (Z.leb_le _ _)) by lia. Qed.
Lemma frame_size_prefix b bs rest :
  0 < zlen bs ≤ max_frame → contents b = be_split 4 (zlen bs) ++ bs ++ rest → frame_size b = zlen bs.
Proof.
  intros Hbs Hb. unfold frame_size, be_at. rewrite Hb, zdrop_0, (ztake_app_exact (be_split 4 (zlen bs))), be_combine_split.
  apply to_i32_mod. unfold max_frame in Hbs. lia.
Qed.

#[export] Instance auto_transport_wire : WireTransport auto_transport.
Proof using L.
  refine (@Build_WireTransport E auto_transport auto_frame_ok (λ bs, be_split 4 (zlen bs)) (λ _, True) (λ found, found = true)
            I (λ _ _, I) _ _ _).
  - intros t b m bs rest _ [Hbs Hmagic] Hb. pose proof (frame_size_prefix b bs rest ltac:(lia) Hb) as Hs.
    cbn [decodeFrameStart auto_transport auto_start]. rewrite Hs, frame_fits_ok, buf_length_spec by lia. cbn [negb].
    assert (zlen (contents b) = 4 + zlen bs + zlen rest) as Hlen by (rewrite Hb, !zlen_app, zlen_be_split; lia).
    pose proof (zlen_nonneg rest). rewrite (proj2 (Z.ltb_ge _ _)) by (destruct t; lia).
    assert (be_at 2 4 (contents b) = 0x8001) as ->.
    { rewrite Hb, <- Hmagic. unfold be_at. rewrite zdrop_0.
      rewrite (zdrop_app_exact (be_split 4 (zlen bs))). by rewrite ztake_app by lia. }
    rewrite orb_true_r. eexists _, _, _. split; [reflexivity |].
    split_and!; [done | | done | done]. rewrite buf_drain_spec, Hb; [apply (zdrop_app_exact (be_split 4 (zlen bs))) | lia].
  - intros t b Ht. by exists t, b.
  - intros t out msg m Ht [Hm _]. cbn [encodeFrame auto_transport framed_encode]. rewrite buf_length_spec, frame_fits_ok by lia.
    cbn [negb]. pose proof (buf_move_all_dst (buf_writeBEInt 4 out (zlen (contents msg))) msg) as Hd.
    destruct (buf_move_all _ _) as [out' msg']. cbn [fst] in Hd. exists t, out', msg'. split; [done |]. split; [done |].
    by rewrite Hd, buf_writeBEInt_spec, <- app_assoc.
Defined.
End framed.
