(* ===== verification/ThriftWitness.v ===== *)
(** * The theorems about Thrift on a concrete message

    A call of [ping] with a list of numbers and a map, in the binary protocol and the
    framed transport, which the codec finds out from its first bytes. *)

From S2P Require Import Prelude Envoy Metadata Codec Thrift ThriftSpec ThriftBehaviour ThriftSegments ThriftGrammar ThriftDecode ThriftBinary ThriftPieces.

Definition we : Envoy := list_envoy unit.
#[local] Instance we_laws : EnvoyLaws we := list_envoy_laws unit.
Definition wp : ThriftProtocol we := auto_protocol.
Definition wt : ThriftTransport we := auto_transport.
Definition wpl : ProtocolLaws wp := auto_laws.
Definition wpp : @WireProtocol we wp wpl := auto_wire.
Definition wtl : TransportLaws wt := auto_transport_laws.
Definition wpt : WireTransport wt := auto_transport_wire.

Abbreviation e := (@enc we wp wpl wpp).
Definition list_field : bytes :=
  e K_FieldBegin ("", FT_List, 1) ++
  (e K_ListBegin (FT_I32, 2) ++ (e K_Int32 10 ++ e K_Int32 (-1) ++ []) ++ e K_ListEnd tt) ++
  e K_FieldEnd tt.
Definition map_field : bytes :=
  e K_FieldBegin ("", FT_Map, 2) ++
  (e K_MapBegin (FT_String, FT_Bool, 1) ++ (e K_String "a" ++ e K_Bool true ++ []) ++
   e K_MapEnd tt) ++
  e K_FieldEnd tt.
Definition ping : bytes :=
  e K_MessageBegin ("ping", TM_Call, 7) ++
  (e K_StructBegin "" ++ (list_field ++ map_field ++ []) ++ e K_FieldBegin ("", FT_Stop, 0) ++
   e K_StructEnd tt) ++
  e K_MessageEnd tt.

Lemma ping_bytes :
  ping = [128; 1; 0; 1; 0; 0; 0; 4; 112; 105; 110; 103; 0; 0; 0; 7; 15; 0; 1; 8; 0; 0; 0; 2; 0; 0; 0; 10; 255; 255; 255; 255;
          13; 0; 2; 11; 2; 0; 0; 0; 1; 0; 0; 0; 1; 97; 1; 0].
Proof. vm_compute. reflexivity. Qed.

Lemma ping_message : @message we wp wpl wpp "ping" TM_Call 7 ping.
Proof.
  split; [by vm_compute |]. eexists. split; [| reflexivity]. apply (@value_struct we wp wpl wpp).
  unfold list_field, map_field. rewrite <- !(app_assoc (e K_FieldBegin _)), <- !(app_assoc _ (e K_FieldEnd tt)).
  apply (@fields_cons we wp wpl wpp FT_List 1); [by vm_compute | done | |].
  { apply (@value_list we wp wpl wpp FT_I32 2); [by vm_compute |].
    apply (@values_cons we wp wpl wpp FT_I32 1); [done | done | by apply (@value_basic_item we wp wpl wpp FT_I32 K_Int32); vm_compute |].
    apply (@values_cons we wp wpl wpp FT_I32 0); [done | done | by apply (@value_basic_item we wp wpl wpp FT_I32 K_Int32); vm_compute |].
    constructor. }
  apply (@fields_cons we wp wpl wpp FT_Map 2); [by vm_compute | done | | constructor].
  apply (@value_map we wp wpl wpp FT_String FT_Bool 1); [by vm_compute |].
  apply (@entries_cons we wp wpl wpp FT_String FT_Bool 0); [done | done | | | constructor].
  - by apply (@value_basic_item we wp wpl wpp FT_String K_String); vm_compute.
  - by apply (@value_basic_item we wp wpl wpp FT_Bool K_Bool); vm_compute.
Qed.

Definition fresh_walk (b : bytes) : @Walk we wp wt :=
  @Build_Walk we wp wt new_DecoderStateMachine createProtocol (new_MessageMetadata no_attachments) b.
Definition fresh_metadata0 : @MetadataImpl we := new_MetadataImpl.
(** Fuel for [n] bytes. *)
Definition fuel_for (n : Z) : nat := Z.to_nat (byte_worth * n + 1).
Lemma fuel_for_spec n : 0 ≤ n → byte_worth * n < Z.of_nat (fuel_for n).
Proof. unfold fuel_for, byte_worth. lia. Qed.

Lemma thrift_run_terminates_witness :
  walk_ok (fresh_walk ping) ∧
  ∃ result, (∀ fuel : nat, enough_fuel (fresh_walk ping) < Z.of_nat fuel → run fuel (fresh_walk ping) = result) ∧
    match result with
    | (Return s, h') => (s = Done ∧ state_ (machine h') = Done ∨ s = WaitForData) ∧ walk_ok h'
    | (Throw e, _) => ∃ what, e = EnvoyException what
    | (Panic _, _) => False
    end.
Proof. split; [by split_and! |]. apply (@thrift_run_terminates we we_laws wp wt wpl (fresh_walk ping)). by split_and!. Defined.

(** The first ten bytes do not have the whole header. *)
Definition waiting : @Walk we wp wt := (run 1 (fresh_walk (take 10 ping))).2.
Lemma waiting_waits : run 1 (fresh_walk (take 10 ping)) = (Return WaitForData, waiting).
Proof. apply pair_fst. vm_compute. reflexivity. Qed.
Definition whole : @buffer (@envoy_buffer we) := ping.
Lemma thrift_run_segmented_witness :
  contents (input waiting) = take 10 ping ∧
  match run (fuel_for 48) ((fresh_walk (take 10 ping)) <| input := whole |>), run (fuel_for 48) (waiting <| input := whole |>) with
  | (Return s, x), (Return s', y) => s = s' ∧ abstract (PL := wpl) x = abstract y
  | (Throw e, _), (Throw e', _) => e = e'
  | _, _ => False
  end.
Proof.
  split; [vm_compute; reflexivity |].
  apply (@thrift_run_segmented we we_laws wp wt wpl (fuel_for 48) 1 (fresh_walk (take 10 ping)) waiting whole whole (drop 10 ping)).
  - by split_and!.
  - exact waiting_waits.
  - vm_compute. reflexivity.
  - vm_compute. reflexivity.
  - change (byte_worth * 48 < Z.of_nat (fuel_for 48)). by apply fuel_for_spec.
Defined.

Definition fresh_codec : @ThriftCodec we wp wt := new_ThriftCodec.
Definition ping_frame : bytes := be_split 4 48 ++ ping.
Lemma thrift_decode_safe_witness :
  codec_ok fresh_codec ∧
  match ThriftCodec_decode (fuel_for 52) (fresh_codec, ping_frame, fresh_metadata0) with
  | (Return st, (c', _, _)) => codec_ok c' ∧ (st = DecodeStatus_Done → frame_started_ c' = false)
  | (Throw e, _) => envoy_exception e
  | (Panic _, _) => False
  end.
Proof.
  split; [by split_and! |].
  apply (@thrift_decode_safe we we_laws wp wt wpl wtl (fuel_for 52) fresh_codec ping_frame fresh_metadata0); [by split_and! |].
  change (0 + byte_worth * 52 < Z.of_nat (fuel_for 52)). by apply fuel_for_spec.
Defined.

Lemma thrift_decode_message_witness :
  ∃ c' b' m', ThriftCodec_decode (fuel_for 52) (fresh_codec, ping_frame ++ [0; 0; 0; 9], fresh_metadata0) =
      (Return DecodeStatus_Done, (c', b', m')) ∧ codec_ready (PP := wpp) (PT := wpt) c' ∧ codec_knows (PP := wpp) (PT := wpt) c' ∧
    contents b' = [0; 0; 0; 9] ∧ getString "method" m' = Return "ping" ∧ message_type_ m' = MessageType_Request ∧
    request_id_ m' = u64 7 ∧ contents (origin_message_ m') = [] ++ ping_frame.
Proof.
  apply (@thrift_decode_message we we_laws wp wt wpl wpp wpt (fuel_for 52) fresh_codec (ping_frame ++ [0; 0; 0; 9])
    fresh_metadata0 "ping" TM_Call 7 ping [0; 0; 0; 9]).
  - by split_and!.
  - apply ping_message.
  - vm_compute. repeat split; discriminate.
  - vm_compute. reflexivity.
  - change (byte_worth * 52 < Z.of_nat (fuel_for 52)). by apply fuel_for_spec.
Defined.

Lemma thrift_message_in_pieces_witness :
  ∃ h', feed (fuel_for 48) [take 1 ping; []; take 20 (drop 1 ping); drop 21 ping] (fresh_walk []) = (Return Done, h') ∧
    contents (origin_message (machine h')) = ping ∧ contents (input h') = [] ∧
    method_name_ (metadata h') = Some "ping" ∧ msg_type_ (metadata h') = Some TM_Call ∧ seq_id_ (metadata h') = Some 7.
Proof.
  apply (@thrift_message_in_pieces we we_laws wp wt wpl wpp (fuel_for 48) (fresh_walk []) "ping" TM_Call 7 ping).
  - done.
  - apply ping_message.
  - done.
  - done.
  - rewrite ping_bytes. cbn [take drop]. repeat constructor; vm_compute; intuition congruence.
  - vm_compute. reflexivity.
  - change (byte_worth * 48 < Z.of_nat (fuel_for 48)). by apply fuel_for_spec.
Defined.

(** An error for request 7, from a codec that has decoded a request. *)
Definition knowing_codec : @ThriftCodec we wp wt := fresh_codec <| transport_ := true : @transport we wt |> <| protocol_ := true : @protocol we wp |>.
Definition request7 : @MetadataImpl we := setRequestId 7 (putString "method" "ping" new_MetadataImpl).
Definition no_route : Error := {| error_type := ErrorType_RouteNotFound; error_message := "no route" |}.
Lemma thrift_error_reply_witness :
  ∃ c' b', ThriftCodec_onError request7 no_route (knowing_codec, []) = (Return tt, (c', b')) ∧
  ∃ r' b2 m', ThriftCodec_decode (fuel_for 39) (fresh_codec, b', fresh_metadata0) = (Return DecodeStatus_Done, (r', b2, m')) ∧
    contents b2 = [] ∧ message_type_ m' = MessageType_Error ∧ getString "method" m' = Return "ping" ∧ request_id_ m' = 7.
Proof.
  apply (@thrift_error_reply we we_laws wp wt wpl wpp wpt (fuel_for 39) knowing_codec [] request7 no_route "ping" fresh_codec
    fresh_metadata0).
  - done.
  - done.
  - done.
  - done.
  - by vm_compute.
  - by split_and!.
  - change (byte_worth * 39 < Z.of_nat (fuel_for 39)). by apply fuel_for_spec.
Defined.
