(* ===== verification/Tracing.v ===== *)
(** * Tracing

    Model of [tracing/tracer_impl.cc]: how a span is started, which of the tracing
    context goes into the mutation of the request, and the tags of a span.  The
    driver that creates spans is Envoy's; a span here is the record of what was done
    to it. *)

From S2P Require Import Prelude Envoy Metadata RequestId.

Inductive OperationName : Type := Ingress | Egress.
#[global] Instance OperationName_eq_dec : EqDecision OperationName.
Proof. solve_decision. Defined.

(** [TracingConfig]: a fraction is a numerator and a denominator. *)
Record TracingConfig : Type := {
  operationName : OperationName;
  verbose : bool;
  clientSampling : Z * Z;
  randomSampling : Z * Z;
  overallSampling : Z * Z
}.

Record Span : Type := {
  span_operation : string;
  span_decision : Reason * bool;
  span_tags : list (string * string);
  span_logs : list (Z * string);
  (** calls of [finishSpan] *)
  span_finished : nat
}.
#[global] Instance Span_eta : Eta Span := fun s =>
  {| span_operation := span_operation s; span_decision := span_decision s; span_tags := span_tags s;
     span_logs := span_logs s; span_finished := span_finished s |}.
Definition setTag (key value : string) (s : Span) : Span := s <| span_tags ::= λ l, l ++ [(key, value)] |>.
Definition span_log (time : Z) (event : string) (s : Span) : Span := s <| span_logs ::= λ l, l ++ [(time, event)] |>.
Definition finishSpan (s : Span) : Span := s <| span_finished ::= S |>.

(** What is read of [StreamInfo]. *)
Record StreamInfo : Type := {
  startTime : Z;
  healthCheck : bool;
  traceReason : Reason;
  (** the address of an IP peer or the logical name of another *)
  directRemoteAddress : string + string;
  (** name and observability name of the cluster of the upstream host *)
  upstreamHostCluster : option (string * string);
  lastDownstreamRxByteReceived : option Z;
  firstUpstreamTxByteSent : option Z;
  lastUpstreamTxByteSent : option Z;
  firstUpstreamRxByteReceived : option Z;
  lastUpstreamRxByteReceived : option Z;
  firstDownstreamTxByteSent : option Z;
  lastDownstreamTxByteSent : option Z
}.

Definition tracing_headers : list string :=
  ["x-request-id"; "x-b3-traceid"; "x-b3-spanid"; "x-b3-parentspanid"; "x-b3-sampled"; "x-b3-flags"; "x-ot-span-context";
   "x-cloud-trace-context"; "traceparent"; "grpc-trace-bin"].

Definition OperationName_toString (o : OperationName) : string :=
  match o with Ingress => "ingress" | Egress => "egress" end.

Definition shouldTraceRequest (stream_info : StreamInfo) : Reason * bool :=
  if healthCheck stream_info then (HealthCheck, false)
  else
    match traceReason stream_info with
    | ClientForced | ServiceForced | Sampling => (traceReason stream_info, true)
    | _ => (traceReason stream_info, false)
    end.

(** [if (timing.x()) span.log(start_time + *timing.x(), event);] *)
Definition annotate (stream_info : StreamInfo) (time : option Z) (event : string) (s : Span) : Span :=
  match time with Some t => span_log (startTime stream_info + t) event s | None => s end.
Definition annotateVerbose (stream_info : StreamInfo) (s : Span) : Span :=
  let s := annotate stream_info (lastDownstreamRxByteReceived stream_info) "last_downstream_rx_byte_received" s in
  let s := annotate stream_info (firstUpstreamTxByteSent stream_info) "first_upstream_tx_byte_sent" s in
  let s := annotate stream_info (lastUpstreamTxByteSent stream_info) "last_upstream_tx_byte_sent" s in
  let s := annotate stream_info (firstUpstreamRxByteReceived stream_info) "first_upstream_rx_byte_received" s in
  let s := annotate stream_info (lastUpstreamRxByteReceived stream_info) "last_upstream_rx_byte_received" s in
  let s := annotate stream_info (firstDownstreamTxByteSent stream_info) "first_downstream_tx_byte_sent" s in
  annotate stream_info (lastDownstreamTxByteSent stream_info) "last_downstream_tx_byte_sent" s.

Definition setCommonTags (stream_info : StreamInfo) (config : TracingConfig) (s : Span) : Span :=
  let s := match directRemoteAddress stream_info with
           | inl ip => setTag "peer.address" ip s
           | inr name => setTag "peer.address" name s
           end in
  let s := setTag "component" "proxy" s in
  let s := match upstreamHostCluster stream_info with
           | Some (name, observability_name) =>
               setTag "upstream_cluster.name" observability_name (setTag "upstream_cluster" name s)
           | None => s
           end in
  if verbose config then annotateVerbose stream_info s else s.

Section tracing.
Context {E : Envoy}.

(** [metadata.forEach] with a callback that tags the span *)
Definition tag_properties (prefix : string) (m : MetadataImpl) (s : Span) : Span :=
  forEach (λ key value s, (true, setTag (prefix +:+ key) value s)) m s.

Definition finalizeSpanWithResponse (response_metadata : MetadataImpl) (stream_info : StreamInfo) (config : TracingConfig)
    (s : Span) : Span :=
  let s := setCommonTags stream_info config s in
  let s := setTag "response_size" (pretty (u64 (header_size_ response_metadata + body_size_ response_metadata))) s in
  let s := tag_properties "response metadata: " response_metadata s in
  let s := if decide (response_status_ response_metadata = ResponseStatus_Error) then setTag "error" "true" s else s in
  finishSpan s.

Definition finalizeSpanWithoutResponse (stream_info : StreamInfo) (config : TracingConfig) (response_status : ResponseStatus)
    (s : Span) : Span :=
  let s := setCommonTags stream_info config s in
  let s := if decide (response_status = ResponseStatus_Error) then setTag "error" "true" s else s in
  finishSpan s.

(** The driver of Envoy, and [LocalInfo]. *)
Class TracingDriver := {
  injectContext : Span → MetadataImpl → MetadataImpl;
  nodeName : string;
  zoneName : string
}.
Context {D : TracingDriver}.

(** The loop over [tracing_headers] *)
Fixpoint copy_headers (l : list string) (m : MetadataImpl) (mutation : Mutation) : outcome Mutation :=
  match l with
  | [] => Return mutation
  | key :: l =>
      val ← getString key m;
      copy_headers l m (if bool_decide (val = "") then mutation else <[key := val]> mutation)
  end.

(** [if (val != "") active_span->setTag(tag, val);] *)
Definition tag_if (tag value : string) (s : Span) : Span := if bool_decide (value = "") then s else setTag tag value s.

(** The name is that of [OperationName()], the first enumerator. *)
Definition startSpan (config : TracingConfig) (request_metadata : MetadataImpl) (mutation : Mutation) (cluster_name : string)
    (tracing_decision : Reason * bool) : outcome (Span * MetadataImpl * Mutation) :=
  let span_name := OperationName_toString Ingress in
  let span_name := if decide (operationName config = Egress) then span_name +:+ " " +:+ operation_name_ request_metadata
                   else span_name in
  let s := {| span_operation := span_name; span_decision := tracing_decision; span_tags := []; span_logs := [];
              span_finished := 0 |} in
  let request_metadata := injectContext s request_metadata in
  mutation ← copy_headers tracing_headers request_metadata mutation;
  xRequestId ← getString RequestUUID request_metadata;
  let s := tag_if "guid:x-request-id" xRequestId s in
  clientTraceId ← getString ClientTraceId request_metadata;
  let s := tag_if "guid:x-client-trace-id" clientTraceId s in
  let s := setTag "upstream_cluster.name" cluster_name s in
  let s := setTag "request_size" (pretty (u64 (header_size_ request_metadata + body_size_ request_metadata))) s in
  let s := setTag "request_id" (pretty (request_id_ request_metadata)) s in
  let s := setTag "node_id" nodeName s in
  let s := setTag "zone" zoneName s in
  Return (tag_properties "request metadata: " request_metadata s, request_metadata, mutation).
End tracing.
