(* ===== verification/UpstreamRequest.v ===== *)
(** * Requests to the upstream

    Model of [filters/router/upstream_request.{h,cc}], of [RequestOwner] in
    [filters/router/router.h] and of its [prepareUpstreamRequest].  A request is owned
    by the router of a message or by a shadow router; [RequestOwner] is the interface
    it calls them through.  The metadata and the mutation are shared with the owner.

    What is called of the connection pool, of the hosts, of the upstream handlers and
    of the callbacks of the message is recorded in order as [call]s. *)

From S2P Require Import Prelude Envoy Metadata Codec Decoder Network ConnManager UpstreamHandler.

(** [Upstream::Outlier::Result] *)
Inductive OutlierResult : Type :=
| ExtOriginRequestFailed | ExtOriginRequestSuccess | LocalOriginConnectFailed | LocalOriginTimeout
| LocalOriginConnectSuccess.

Section calls.
Context {E : Envoy} {N : NetworkOps}.

Inductive call : Type :=
(** the connection pool *)
| C_newConnection | C_cancel (handle : Z) | C_addUpstreamCallbacks
(** a [ConnectionData] is destroyed, which gives the connection back *)
| C_release (conn : connection)
(** hosts *)
| C_putResult (host : string) (result : OutlierResult)
(** upstream handlers *)
| C_handler_onData (hid : nat) (data : bytes) | C_addUpsteamRequestCallbacks (hid : nat)
| C_removeUpsteamRequestCallbacks (hid : nat) | C_dropHandler (hid : nat) | C_addResponseCallback (hid : nat) (request_id : Z)
(** callbacks of the message *)
| C_sendLocalReply (response : DirectResponse) (end_stream : bool) | C_continueDecoding | C_resetStream
| C_setUpstreamConnection (conn : option connection) | C_hostSelected (host : string)
| C_startUpstreamResponse | C_onUpstreamResponse | C_setUpstreamClusterInfo (cluster : option string)
(** access logs, with the response code and its details *)
| C_log (response : bool) (code : ResponseStatus) (details : string)
(** [ShadowWriter::submit] *)
| C_submit (cluster_name : string) (metadata : MetadataImpl) (mutation : Mutation)
(** [ActiveRouters::remove] *)
| C_removed.

(** The address of the other end of a connection, whether a handler has a connection,
    and the clusters: whether one is in maintenance mode, and what its connection pool
    does when a connection is asked for, if it has a healthy host. *)
Class RequestEnv := {
  remoteAddress : connection → string;
  handler_isPoolReady : nat → bool;
  thread_local_cluster : string → option (bool * option new_connection)
}.

(** [UpstreamRequest] has a pool, [UpstreamRequestByHandler] a handler. *)
Inductive request_kind : Type :=
| ByPool (conn_pool_ : new_connection)
| ByHandler (upstream_handler_ : nat).

Record UpstreamRequestBase : Type := {
  ur_kind : request_kind;
  ur_upstream_host_ : option string;
  ur_upstream_request_buffer_ : buffer;
  ur_request_complete_ : bool;
  ur_response_started_ : bool;
  ur_response_complete_ : bool;
  ur_stream_reset_ : bool;
  ur_conn_pool_handle_ : option Z;
  ur_conn_data_ : option connection
}.
#[global] Instance UpstreamRequestBase_eta : Eta UpstreamRequestBase := fun r =>
  {| ur_kind := ur_kind r; ur_upstream_host_ := ur_upstream_host_ r;
     ur_upstream_request_buffer_ := ur_upstream_request_buffer_ r; ur_request_complete_ := ur_request_complete_ r;
     ur_response_started_ := ur_response_started_ r; ur_response_complete_ := ur_response_complete_ r;
     ur_stream_reset_ := ur_stream_reset_ r; ur_conn_pool_handle_ := ur_conn_pool_handle_ r;
     ur_conn_data_ := ur_conn_data_ r |}.
End calls.

(** The owner of a request: the objects it shares with it, and the calls of
    [RequestOwner]. *)
Class RequestOwner {E : Envoy} {C : CodecOps E} {N : NetworkOps} (S : Type) := {
  the_request : S → option UpstreamRequestBase;
  set_request : option UpstreamRequestBase → S → S;
  shared_metadata : S → MetadataImpl;
  set_shared_metadata : MetadataImpl → S → S;
  shared_mutation : S → Mutation;
  set_cluster_ : option string → S → S;
  record_call : call → M S unit;
  owner_continueDecoding : M S unit;
  owner_sendLocalReply : DirectResponse → bool → M S unit;
  owner_createCodec : M S codec_state;
  owner_resetStream : M S unit;
  owner_setUpstreamConnection : option connection → M S unit;
  owner_onUpstreamHostSelected : string → M S unit
}.

Section request.
Context {E : Envoy} {C : CodecOps E} {N : NetworkOps} {V : RequestEnv} {S : Type} {O : RequestOwner S}.

(** The request itself; its owner may have destroyed it. *)
Definition get_request : M S UpstreamRequestBase :=
  o ← gets the_request;
  match o with Some r => mret r | None => panic "null upstream request" end.
Definition on_request (f : UpstreamRequestBase → UpstreamRequestBase) : M S unit :=
  r ← get_request;
  modify (set_request (Some (f r))).

(** [RequestOwner::prepareUpstreamRequest]; an exception comes with the detail for the
    access log. *)
Definition prepareUpstreamRequest (cluster_name : string) : M S ((Error * string) + new_connection) :=
  match thread_local_cluster cluster_name with
  | None =>
      mret (inl ({| error_type := ErrorType_ClusterNotFound;
                    error_message := "meta protocol router: unknown cluster '" +:+ cluster_name +:+ "'" |}, "unknown_cluster"))
  | Some (maintenanceMode, conn_pool_data) =>
      _ ← modify (set_cluster_ (Some cluster_name));
      if (maintenanceMode : bool) then
        mret (inl ({| error_type := ErrorType_Unspecified;
                      error_message := "meta protocol router: maintenance mode for cluster '" +:+ cluster_name +:+ "'" |},
                   "cluster_in_maintenance_mode"))
      else
        match conn_pool_data with
        | None =>
            mret (inl ({| error_type := ErrorType_NoHealthyUpstream;
                          error_message := "meta protocol router: no healthy upstream for '" +:+ cluster_name +:+ "'" |},
                       "no_healthy_upstream"))
        | Some pool => mret (inr pool)
        end
  end.

(** The constructors, which take the message out of the metadata. *)
Definition new_UpstreamRequest (k : request_kind) : M S unit :=
  m ← gets shared_metadata;
  let '(upstream_request_buffer, origin_message) := buf_move_all buf_new (origin_message_ m) in
  _ ← modify (set_shared_metadata (m <| origin_message_ := origin_message |>));
  modify (set_request (Some
    {| ur_kind := k; ur_upstream_host_ := None; ur_upstream_request_buffer_ := upstream_request_buffer;
       ur_request_complete_ := false; ur_response_started_ := false; ur_response_complete_ := false;
       ur_stream_reset_ := false; ur_conn_pool_handle_ := None; ur_conn_data_ := None |})).

(** [host->address()->asString()] *)
Definition host_address : M S string :=
  r ← get_request;
  match ur_upstream_host_ r with Some host => mret host | None => panic "null upstream host" end.

Definition onUpstreamHostSelected (host : string) : M S unit := on_request (λ r, r <| ur_upstream_host_ := Some host |>).
Definition onRequestStart (continue_decoding : bool) : M S unit :=
  if continue_decoding then owner_continueDecoding else mret tt.
Definition onRequestComplete : M S unit := on_request (λ r, r <| ur_request_complete_ := true |>).
Definition onResponseStarted : M S unit := on_request (λ r, r <| ur_response_started_ := true |>).

(** The destructor of a [ConnectionDataPtr] *)
Definition release (c : option connection) : M S unit :=
  match c with Some c => record_call (C_release c) | None => mret tt end.

(** [UpstreamRequest::onResponseComplete] and that of the base class *)
Definition onResponseComplete : M S unit :=
  r ← get_request;
  _ ← on_request (λ r, r <| ur_response_complete_ := true |>);
  match ur_kind r with
  | ByPool _ =>
      _ ← on_request (λ r, r <| ur_conn_data_ := None |>);
      release (ur_conn_data_ r)
  | ByHandler _ => mret tt
  end.

Definition unspecified (message : string) : DirectResponse :=
  AppException {| error_type := ErrorType_Unspecified; error_message := message |}.

Definition onUpstreamConnectionReset (reason : PoolFailureReason) : M S unit :=
  m ← gets shared_metadata;
  if decide (message_type_ m = MessageType_Oneway) then owner_resetStream
  else
    _ ← (match reason with
         | Overflow => owner_sendLocalReply (unspecified "meta protocol upstream request: too many connections") false
         | LocalConnectionFailure =>
             host ← host_address;
             owner_sendLocalReply
               (unspecified ("meta protocol upstream request: local connection failure '" +:+ host +:+ "'")) false
         | RemoteConnectionFailure =>
             host ← host_address;
             owner_sendLocalReply
               (unspecified ("meta protocol upstream request: remote connection failure '" +:+ host +:+ "'")) false
         | Timeout =>
             host ← host_address;
             owner_sendLocalReply
               (unspecified ("meta protocol upstream request: connection failure '" +:+ host +:+ "' due to timeout")) false
         end);
    r ← get_request;
    if negb (ur_response_complete_ r) then owner_resetStream else mret tt.

Definition onUpstreamConnectionEvent (event : ConnectionEvent) : M S unit :=
  r ← get_request;
  _ ← ASSERT (negb (ur_response_complete_ r)) "!response_complete_";
  match event with
  | RemoteClose =>
      _ ← onUpstreamConnectionReset RemoteConnectionFailure;
      host ← host_address;
      record_call (C_putResult host LocalOriginConnectFailed)
  | LocalClose => onUpstreamConnectionReset LocalConnectionFailure
  | Connected => panic "not reached"
  end.

Definition UpstreamRequestByHandler_releaseUpStreamConnection (hid : nat) : M S unit :=
  record_call (C_removeUpsteamRequestCallbacks hid).

(** [releaseUpStreamConnection]; [raise] is what the callbacks of the connection do
    when closing it raises [LocalClose]. *)
Definition releaseUpStreamConnection (raise : M S unit) (close : bool) : M S unit :=
  r ← get_request;
  match ur_kind r with
  | ByHandler hid => UpstreamRequestByHandler_releaseUpStreamConnection hid
  | ByPool _ =>
      _ ← on_request (λ r, r <| ur_stream_reset_ := true |>);
      _ ← (match ur_conn_pool_handle_ r with
           | Some handle =>
               _ ← ASSERT (if ur_conn_data_ r is None then true else false) "!conn_data_";
               _ ← record_call (C_cancel handle);
               on_request (λ r, r <| ur_conn_pool_handle_ := None |>)
           | None => mret tt
           end);
      _ ← on_request (λ r, r <| ur_conn_data_ := None |>);
      match ur_conn_data_ r with
      | None => mret tt
      | Some conn =>
          if close then
            let '(conn, raised) := conn_close conn NoFlush in
            _ ← (if (raised : bool) then raise else mret tt);
            release (Some conn)
          else release (Some conn)
      end
  end.

(** [codec->encode] of the message with the shared metadata and mutation, by a codec of
    its own *)
Definition encode_request : M S bytes :=
  r ← get_request;
  codec ← owner_createCodec;
  m ← gets shared_metadata;
  mutation ← gets shared_mutation;
  match codec_encode m mutation (codec, ur_upstream_request_buffer_ r) with
  | (Return _, (_, b)) => _ ← on_request (λ r, r <| ur_upstream_request_buffer_ := b |>); mret (contents b)
  | (Throw e, (_, b)) => _ ← on_request (λ r, r <| ur_upstream_request_buffer_ := b |>); throw e
  | (Panic w, _) => panic w
  end.

(** [write] drains the buffer, and so does the [onData] of a handler. *)
Definition UpstreamRequestByHandler_encodeData (hid : nat) : M S unit :=
  data ← encode_request;
  _ ← record_call (C_handler_onData hid data);
  on_request (λ r, r <| ur_upstream_request_buffer_ := buf_new |>).
Definition encodeData : M S unit :=
  r ← get_request;
  match ur_kind r with
  | ByPool _ =>
      _ ← ASSERT (if ur_conn_data_ r is Some _ then true else false) "conn_data_";
      _ ← ASSERT (bool_decide (ur_conn_pool_handle_ r = None)) "!conn_pool_handle_";
      data ← encode_request;
      on_request (λ r, r <| ur_upstream_request_buffer_ := buf_new |>
                         <| ur_conn_data_ ::= option_map (λ c, conn_write c data false) |>)
  | ByHandler hid => UpstreamRequestByHandler_encodeData hid
  end.

(** The destructor, with the pointers the request holds. *)
Definition destroy_request : M S unit :=
  o ← gets the_request;
  match o with
  | None => mret tt
  | Some r =>
      _ ← modify (set_request None);
      _ ← release (ur_conn_data_ r);
      if ur_kind r is ByHandler hid then record_call (C_dropHandler hid) else mret tt
  end.

Definition connection_error (reason : PoolFailureReason) : bool := match reason with Overflow => false | _ => true end.

(** [UpstreamRequest::onPoolFailure] and [UpstreamRequestByHandler::onPoolFailure] *)
Definition UpstreamRequest_onPoolFailure (reason : PoolFailureReason) (host : string) : M S unit :=
  r ← get_request;
  _ ← owner_onUpstreamHostSelected host;
  _ ← (if ur_kind r is ByPool _ then on_request (λ r, r <| ur_conn_pool_handle_ := None |>) else mret tt);
  _ ← onUpstreamHostSelected host;
  _ ← onUpstreamConnectionReset reason;
  _ ← on_request (λ r, r <| ur_upstream_request_buffer_ := buf_new |>);
  if connection_error reason then
    _ ← (match ur_kind r, reason with
         | ByPool _, Timeout => record_call (C_putResult host LocalOriginTimeout)
         | ByPool _, RemoteConnectionFailure => record_call (C_putResult host LocalOriginConnectFailed)
         | _, _ => mret tt
         end);
    owner_continueDecoding
  else mret tt.

(** [UpstreamRequest::onPoolReady] *)
Definition UpstreamRequest_onPoolReady (conn : connection) (host : string) : M S unit :=
  _ ← owner_onUpstreamHostSelected host;
  r ← get_request;
  let continue_decoding := bool_decide (ur_conn_pool_handle_ r ≠ None) in
  _ ← onUpstreamHostSelected host;
  _ ← record_call (C_putResult host LocalOriginConnectSuccess);
  _ ← release (ur_conn_data_ r);
  _ ← on_request (λ r, r <| ur_conn_data_ := Some conn |>);
  m ← gets shared_metadata;
  _ ← (if decide (message_type_ m = MessageType_Request) then record_call C_addUpstreamCallbacks else mret tt);
  _ ← on_request (λ r, r <| ur_conn_pool_handle_ := None |>);
  _ ← modify (λ s, set_shared_metadata (putString RealServerAddress (remoteAddress conn) (shared_metadata s)) s);
  _ ← onRequestStart continue_decoding;
  _ ← encodeData;
  m ← gets shared_metadata;
  _ ← (if decide (message_type_ m = MessageType_Stream_Init) then
         _ ← owner_resetStream;
         r ← get_request;
         _ ← on_request (λ r, r <| ur_conn_data_ := None |>);
         owner_setUpstreamConnection (ur_conn_data_ r)
       else mret tt);
  onRequestComplete.

(** [UpstreamRequestByHandler::onPoolReady] *)
Definition UpstreamRequestByHandler_onPoolReady (host : string) : M S unit :=
  _ ← owner_onUpstreamHostSelected host;
  _ ← onUpstreamHostSelected host;
  _ ← onRequestStart true;
  _ ← encodeData;
  onRequestComplete.

Definition UpstreamRequestByHandler_start (hid : nat) : M S FilterStatus :=
  if handler_isPoolReady hid then _ ← encodeData; mret FilterStatus_ContinueIteration
  else _ ← record_call (C_addUpsteamRequestCallbacks hid); mret FilterStatus_PauseIteration.

Definition UpstreamRequest_start : M S FilterStatus :=
  r ← get_request;
  match ur_kind r with
  | ByPool conn_pool =>
      _ ← record_call C_newConnection;
      match conn_pool with
      | NC_Pending handle => _ ← on_request (λ r, r <| ur_conn_pool_handle_ := Some handle |>); mret FilterStatus_PauseIteration
      | NC_Ready conn host => _ ← UpstreamRequest_onPoolReady conn host; mret FilterStatus_ContinueIteration
      | NC_Failure reason host => _ ← UpstreamRequest_onPoolFailure reason host; mret FilterStatus_ContinueIteration
      end
  | ByHandler hid => UpstreamRequestByHandler_start hid
  end.
End request.
