(* ===== verification/Router.v ===== *)
(** * The router filter

    Model of [filters/router/router_impl.{h,cc}].  A [Router] is the state of the filter of one message
    with the objects it shares with its upstream request, and the record of the calls
    it has made.

    The reference [conn_pool_] of an [UpstreamRequest] is to an object of a block
    that has ended when [start] is called; the model uses the value it had. *)

From S2P Require Import Prelude Envoy Metadata Codec Decoder Network ConnManager UpstreamHandler Route RequestId Tracing UpstreamRequest.

(** What a router sees of its surroundings.  [cb_route] and the others are the
    callbacks of the message; [featureEnabledAny] draws a random number, [rand] gives
    the results of [rand()], in their order. *)
Class RouterEnv {E : Envoy} {R : RouteEnv E} := {
  cb_route : option Route;
  cb_tracingConfig : option TracingConfig;
  cb_streamInfo : StreamInfo;
  cb_multiplexing : bool;
  cb_getUpstreamHandler : string → (Error * string) + nat;
  random_uuid : string;
  useRequestIdForTraceSampling : bool;
  atoull_16 : string → option Z;
  featureEnabledAny : string → Z * Z → bool;
  rand : nat → Z
}.

Section router.
Context {E : Envoy} {C : CodecOps E} {N : NetworkOps} {V : RequestEnv} {R : RouteEnv E} {D : TracingDriver} {X : RouterEnv}.

Record Router : Type := {
  ro_request_metadata_ : MetadataImpl;
  ro_request_mutation : Mutation;
  ro_response_metadata_ : option MetadataImpl;
  ro_route_ : option Route;
  ro_upstream_request_ : option UpstreamRequestBase;
  ro_active_span_ : option Span;
  ro_is_first_span_ : bool;
  ro_cluster_ : option string;
  ro_calls : list call
}.
#[global] Instance Router_eta : Eta Router := fun r =>
  {| ro_request_metadata_ := ro_request_metadata_ r; ro_request_mutation := ro_request_mutation r;
     ro_response_metadata_ := ro_response_metadata_ r; ro_route_ := ro_route_ r;
     ro_upstream_request_ := ro_upstream_request_ r; ro_active_span_ := ro_active_span_ r;
     ro_is_first_span_ := ro_is_first_span_ r; ro_cluster_ := ro_cluster_ r; ro_calls := ro_calls r |}.

(** The constructor, with the message the filter will be given. *)
Definition new_Router (m : MetadataImpl) (mutation : Mutation) : Router :=
  {| ro_request_metadata_ := m; ro_request_mutation := mutation; ro_response_metadata_ := None; ro_route_ := None;
     ro_upstream_request_ := None; ro_active_span_ := None; ro_is_first_span_ := false; ro_cluster_ := None; ro_calls := [] |}.

Definition made (c : call) : M Router unit := modify (λ r, r <| ro_calls ::= λ l, l ++ [c] |>).

(** [RequestOwner] *)
#[global] Instance router_owner : RequestOwner Router := {|
  the_request := ro_upstream_request_;
  set_request q r := r <| ro_upstream_request_ := q |>;
  shared_metadata := ro_request_metadata_;
  set_shared_metadata m r := r <| ro_request_metadata_ := m |>;
  shared_mutation := ro_request_mutation;
  set_cluster_ o r := r <| ro_cluster_ := o |>;
  record_call := made;
  owner_continueDecoding := made C_continueDecoding;
  owner_sendLocalReply response end_stream := made (C_sendLocalReply response end_stream);
  owner_createCodec := mret codec_init;
  owner_resetStream := made C_resetStream;
  owner_setUpstreamConnection conn := made (C_setUpstreamConnection conn);
  owner_onUpstreamHostSelected host := made (C_hostSelected host)
|}.

(** ** Request ids and the decision to trace *)

Definition setXRequestID : M Router bool :=
  m ← gets ro_request_metadata_;
  '(modified, m) ← lift (UUID_set random_uuid false m);
  _ ← modify (λ r, r <| ro_request_metadata_ := m |>);
  _ ← (if (modified : bool) then
         id ← lift (UUID_get m);
         modify (λ r, r <| ro_request_mutation ::= <[RequestUUID := id]> |>)
       else mret tt);
  mret modified.

(** The decision for the first span, and the reason written to the request id. *)
Definition first_span_reason (config : TracingConfig) (result : Z) (reason : Reason) (m : MetadataImpl) :
    outcome (Reason * MetadataImpl) :=
  client_id ← getString ClientTraceId m;
  force ← getString EnvoyForceTrace m;
  '(reason, m) ←
    (if negb (bool_decide (client_id = "")) && featureEnabledAny "tracing.client_enabled" (clientSampling config) then
       m ← setTraceReason ClientForced m; Return (ClientForced, m)
     else if negb (bool_decide (force = "")) then
       m ← setTraceReason ServiceForced m; Return (ServiceForced, m)
     else if featureEnabled "tracing.random_sampling" (randomSampling config) result then
       m ← setTraceReason Sampling m; Return (Sampling, m)
     else Return (reason, m));
  if negb (bool_decide (reason = NotTraceable)) &&
     negb (featureEnabled "tracing.global_enabled" (overallSampling config) result) then
    m ← setTraceReason NotTraceable m; Return (NotTraceable, m)
  else Return (reason, m).

Definition mutateTracingRequestMetadata (config : TracingConfig) : M Router Reason :=
  if negb useRequestIdForTraceSampling then mret Sampling
  else
    m ← gets ro_request_metadata_;
    rid_to_integer ← lift (toInteger atoull_16 m);
    match rid_to_integer with
    | None => mret NotTraceable
    | Some rid =>
        let result := rid `mod` 10000 in
        final_reason ← lift (getTraceReason m);
        first ← gets ro_is_first_span_;
        if (first : bool) then
          '(final_reason, m) ← lift (first_span_reason config result final_reason m);
          _ ← modify (λ r, r <| ro_request_metadata_ := m |>);
          mret final_reason
        else mret final_reason
    end.

Definition traceRequest (config : TracingConfig) (cluster_name : string) : M Router unit :=
  reason ← mutateTracingRequestMetadata config;
  if decide (reason = NotTraceable ∨ reason = HealthCheck) then mret tt
  else
    m ← gets ro_request_metadata_;
    mutation ← gets ro_request_mutation;
    '(span, m, mutation) ← lift (startSpan config m mutation cluster_name (reason, true));
    modify (λ r, r <| ro_request_metadata_ := m |> <| ro_request_mutation := mutation |> <| ro_active_span_ := Some span |>).

(** ** The request path *)

Definition emitLogEntry (response : bool) (response_code : ResponseStatus) (response_code_detail : string) : M Router unit :=
  made (C_log response response_code response_code_detail).

(** [emitLogEntry], [sendLocalReply] and the status *)
Definition reject (error : Error) (detail : string) : M Router FilterStatus :=
  _ ← emitLogEntry false ResponseStatus_Error detail;
  _ ← made (C_sendLocalReply (AppException error) false);
  mret FilterStatus_AbortIteration.

(** The loop over the mirror policies; [n] counts the calls of [rand()]. *)
Fixpoint mirror (policies : list RequestMirrorPolicyImpl) (n : nat) (copy : MetadataImpl) : M Router unit :=
  match policies with
  | [] => mret tt
  | policy :: policies =>
      _ ← (if shouldShadow policy (rand n) then
             mutation ← gets ro_request_mutation;
             made (C_submit (mirror_cluster_name_ policy) (clone copy) mutation)
           else mret tt);
      mirror policies (S n) copy
  end.

(** The upstream request, or the reason there is none. *)
Definition create_upstream_request (cluster_name : string) : M Router (option (Error * string)) :=
  if cb_multiplexing then
    match cb_getUpstreamHandler cluster_name with
    | inl error => mret (Some error)
    | inr hid =>
        id ← gets (λ r, request_id_ (ro_request_metadata_ r));
        _ ← made (C_addResponseCallback hid id);
        _ ← new_UpstreamRequest (ByHandler hid);
        mret None
    end
  else
    prepared ← prepareUpstreamRequest cluster_name;
    match prepared with
    | inl error => mret (Some error)
    | inr pool => _ ← new_UpstreamRequest (ByPool pool); mret None
    end.

(** The request id, which tells whether this is the first span, and the tracing *)
Definition identify_and_trace (cluster_name : string) : M Router unit :=
  first ← setXRequestID;
  _ ← modify (λ r, r <| ro_is_first_span_ := first |>);
  match cb_tracingConfig with Some config => traceRequest config cluster_name | None => mret tt end.

Definition Router_onMessageDecoded : M Router FilterStatus :=
  t ← gets (λ r, message_type_ (ro_request_metadata_ r));
  _ ← ASSERT (bool_decide (t = MessageType_Request ∨ t = MessageType_Stream_Init)) "Request or Stream_Init";
  _ ← modify (λ r, r <| ro_route_ := cb_route |>);
  match cb_route with
  | None =>
      id ← gets (λ r, request_id_ (ro_request_metadata_ r));
      reject {| error_type := ErrorType_RouteNotFound;
                error_message := "meta protocol router: no matched route for request '" +:+ pretty id +:+ "'" |}
        "no_matched_route"
  | Some route =>
      let cluster_name := clusterName route in
      _ ← identify_and_trace cluster_name;
      copy ← gets (λ r, clone (ro_request_metadata_ r));
      _ ← modify (λ r, r <| ro_request_mutation ::= requestMutation route |>);
      failed ← create_upstream_request cluster_name;
      match failed with
      | Some (error, detail) => reject error detail
      | None =>
          cluster ← gets ro_cluster_;
          _ ← made (C_setUpstreamClusterInfo cluster);
          filter_status ← UpstreamRequest_start;
          _ ← mirror (requestMirrorPolicies route) 0 copy;
          mret filter_status
      end
  end.

(** ** The response path *)

Definition Router_onMessageEncoded (metadata : MetadataImpl) : M Router FilterStatus :=
  o ← gets ro_upstream_request_;
  match o with
  | None => mret FilterStatus_ContinueIteration
  | Some q =>
      _ ← modify (λ r, r <| ro_response_metadata_ := Some metadata |>);
      let put_result result :=
        match ur_upstream_host_ q with
        | Some host => made (C_putResult host result)
        | None => panic "null upstream host"
        end in
      _ ← (match response_status_ metadata with
           | ResponseStatus_Ok =>
               if decide (message_type_ metadata = MessageType_Error) then put_result ExtOriginRequestFailed
               else put_result ExtOriginRequestSuccess
           | ResponseStatus_Error => put_result ExtOriginRequestFailed
           end);
      mret FilterStatus_ContinueIteration
  end.

(** [finalizeSpanWithoutResponse] of the active span, if there is one *)
Definition finish_span (f : StreamInfo → TracingConfig → Span → Span) : M Router unit :=
  o ← gets ro_active_span_;
  match o, cb_tracingConfig with
  | None, _ => mret tt
  | Some span, Some config => modify (λ r, r <| ro_active_span_ := Some (f cb_streamInfo config span) |>)
  | Some _, None => panic "null tracing config"
  end.
Definition failed_span : M Router unit :=
  finish_span (λ info config, finalizeSpanWithoutResponse info config ResponseStatus_Error).

Definition cleanUpstreamRequest : M Router unit := destroy_request.

Definition onUpstreamResponseComplete (response_metadata : option MetadataImpl) : M Router unit :=
  _ ← onResponseComplete;
  _ ← cleanUpstreamRequest;
  span ← gets ro_active_span_;
  _ ← (match span, response_metadata with
       | Some _, None => panic "response_metadata"
       | Some _, Some m => finish_span (finalizeSpanWithResponse m)
       | None, _ => mret tt
       end);
  match response_metadata with
  | None => panic "response_metadata"
  | Some _ => emitLogEntry true ResponseStatus_Ok ""
  end.

Definition onUpstreamResponseCallback (response_metadata : MetadataImpl) : M Router unit :=
  _ ← onUpstreamResponseComplete (Some response_metadata);
  made C_onUpstreamResponse.

Definition Router_onEvent (event : ConnectionEvent) : M Router unit :=
  o ← gets ro_upstream_request_;
  _ ← ASSERT (if o is Some _ then true else false) "upstream_request_";
  _ ← onUpstreamConnectionEvent event;
  failed_span.

(** [status] is what [upstreamData] of the message returns and [response] the
    response it gives to the encoder filters before that, of which this is one. *)
Definition Router_onUpstreamData (status : UpstreamResponseStatus) (response : option MetadataImpl) (end_stream : bool) :
    M Router unit :=
  q ← get_request;
  _ ← ASSERT (negb (ur_response_complete_ q)) "!upstream_request_->responseCompleted()";
  _ ← (if ur_response_started_ q then mret tt
       else _ ← made C_startUpstreamResponse; onResponseStarted);
  _ ← (match response with Some m => _ ← Router_onMessageEncoded m; mret tt | None => mret tt end);
  match status with
  | UpstreamResponse_Complete =>
      m ← gets ro_response_metadata_;
      onUpstreamResponseComplete m
  | UpstreamResponse_Reset =>
      _ ← releaseUpStreamConnection (Router_onEvent LocalClose) true;
      _ ← failed_span;
      emitLogEntry false ResponseStatus_Error "upstream_reset"
  | UpstreamResponse_MoreData =>
      if end_stream then
        _ ← onUpstreamConnectionReset RemoteConnectionFailure;
        _ ← onResponseComplete;
        _ ← cleanUpstreamRequest;
        _ ← failed_span;
        emitLogEntry false ResponseStatus_Error "upstream_response_incomplete"
      else mret tt
  | UpstreamResponse_Retry => panic "not reached"
  end.

Definition Router_onDestroy : M Router unit :=
  o ← gets ro_upstream_request_;
  _ ← (if o is Some _ then releaseUpStreamConnection (Router_onEvent LocalClose) false else mret tt);
  cleanUpstreamRequest.

(** [Router::computeHashKey] *)
Definition computeHashKey : M Router (option Z) :=
  r ← gets id;
  match ro_route_ r with
  | None => panic "null route entry"
  | Some route =>
      match hash_policy_ (r_entry route) with
      | Some policy => lift (generateHash policy (ro_request_metadata_ r))
      | None => mret None
      end
  end.
End router.
