(* ===== verification/RouterTracing.v ===== *)
(** * The decision to trace a request

    The first proxy of a request decides whether it is traced, writes the decision
    into the request id and sends that on.  The proxies after it read it there. *)

From Stdlib Require Import Ascii.
From S2P Require Import Prelude Envoy Metadata Codec Decoder Network ConnManager UpstreamHandler Route RequestId Tracing UpstreamRequest Router.

(** The decision, by what the client asked for and what the operator allows. *)
Definition trace_decision (client forced sampled allowed : bool) : Reason :=
  if (client || forced || sampled) && allowed then
    if client then ClientForced else if forced then ServiceForced else Sampling
  else NotTraceable.

Lemma trace_decision_health client forced sampled allowed : trace_decision client forced sampled allowed ≠ HealthCheck.
Proof. by destruct client, forced, sampled, allowed. Qed.

Section decision.
Context {E : Envoy}.

(** The strings a tracer reads can be read. *)
Definition traced_keys : list string := RequestUUID :: ClientTraceId :: EnvoyForceTrace :: tracing_headers.
Definition readable (m : MetadataImpl) : Prop := ∀ key, key ∈ traced_keys → ∃ v, getString key m = Return v.

(** A driver writes the context of the span beside the request id. *)
Class TracingDriverLaws (D : TracingDriver) : Prop := {
  inject_request_id s m : getString RequestUUID (injectContext s m) = getString RequestUUID m;
  inject_readable s m : readable m → readable (injectContext s m)
}.

Lemma copy_headers_spec l m mutation :
  (∀ key, key ∈ l → ∃ v, getString key m = Return v) →
  ∃ mutation', copy_headers l m mutation = Return mutation' ∧
    ∀ key v, getString key m = Return v → mutation' !! key = if decide (key ∈ l ∧ v ≠ "") then Some v else mutation !! key.
Proof.
  revert mutation. induction l as [|k l IH]; intros mutation Hl.
  - exists mutation. split; [done |]. intros key v _. rewrite decide_False; [done |]. by intros [?%elem_of_nil _].
  - destruct (Hl k) as [w Hw]; [constructor |]. cbn [copy_headers]. rewrite Hw. cbn [mbind outcome_bind].
    destruct (IH (if bool_decide (w = "") then mutation else <[k := w]> mutation)) as (mutation' & -> & Hm).
    { intros key Hk. apply Hl. by constructor. }
    exists mutation'. split; [done |]. intros key v Hv. rewrite (Hm key v Hv). destruct (decide (key = k)) as [->|Hne].
    + assert (w = v) as -> by congruence. case_bool_decide as Hw0.
      * subst v. by rewrite !decide_False by tauto.
      * rewrite (decide_True (P := k ∈ k :: l ∧ v ≠ "")) by (split; [constructor | done]). rewrite lookup_insert_eq.
        by case_decide.
    + assert (key ∈ k :: l ↔ key ∈ l) as Hkl by (rewrite elem_of_cons; split; [by intros [?|?] | by right]).
      rewrite (decide_ext (key ∈ k :: l ∧ v ≠ "") (key ∈ l ∧ v ≠ "")) by tauto. destruct (decide (key ∈ l ∧ v ≠ "")) as [Hd|Hd]; [done |].
      case_bool_decide; [done |]. by rewrite lookup_insert_ne.
Qed.

(** An id of the usual length that says why the request is traced. *)
Definition carries (m : MetadataImpl) (reason : Reason) : Prop :=
  ∃ id, getString RequestUUID m = Return id ∧ String.length id = 36%nat ∧ getTraceReason m = Return reason.

Lemma getTraceReason_id m m' :
  getString RequestUUID m = getString RequestUUID m' → getTraceReason m = getTraceReason m'.
Proof. unfold getTraceReason. by intros ->. Qed.
Lemma getByKey_getString key m m' : getByKey key m = getByKey key m' → getString key m = getString key m'.
Proof. unfold getString. by intros ->. Qed.

Lemma toInteger_id atoull m m' :
  getString RequestUUID m = getString RequestUUID m' → toInteger atoull m = toInteger atoull m'.
Proof. unfold toInteger. by intros ->. Qed.

(** Everything but the reason stays. *)
Definition same_request (atoull : string → option Z) (m m' : MetadataImpl) : Prop :=
  toInteger atoull m' = toInteger atoull m ∧ ∀ key, key ≠ RequestUUID → getString key m' = getString key m.

Lemma set_reason atoull reason m r0 :
  reason ≠ HealthCheck → carries m r0 →
  ∃ m', setTraceReason reason m = Return m' ∧ carries m' reason ∧ same_request atoull m m'.
Proof.
  intros Hr (id & Hid & Hlen & _). destruct (set_trace_reason atoull reason m id Hid Hr) as (m' & id' & Hs & Hid' & Hi & Hk & Hc).
  rewrite decide_True in Hc by done. destruct Hc as (Hg & Hl & _). exists m'. split_and!; [done | by exists id' |].
  split; [done |]. intros key Hne. by apply getByKey_getString, Hk.
Qed.

Context {N : NetworkOps} {R : RouteEnv E} {X : RouterEnv}.

Lemma first_span_reason_spec config result m client force :
  carries m NotTraceable → getString ClientTraceId m = Return client → getString EnvoyForceTrace m = Return force →
  ∃ m', first_span_reason config result NotTraceable m =
      Return (trace_decision
        (negb (bool_decide (client = "")) && featureEnabledAny "tracing.client_enabled" (clientSampling config))
        (negb (bool_decide (force = "")))
        (featureEnabled "tracing.random_sampling" (randomSampling config) result)
        (featureEnabled "tracing.global_enabled" (overallSampling config) result), m') ∧
    carries m' (trace_decision
        (negb (bool_decide (client = "")) && featureEnabledAny "tracing.client_enabled" (clientSampling config))
        (negb (bool_decide (force = "")))
        (featureEnabled "tracing.random_sampling" (randomSampling config) result)
        (featureEnabled "tracing.global_enabled" (overallSampling config) result)) ∧
    same_request atoull_16 m m'.
Proof.
  intros Hm Hc Hf. unfold first_span_reason. rewrite Hc, Hf. cbn [mbind outcome_bind].
  set (c := _ && featureEnabledAny _ _). set (f := negb (bool_decide (force = ""))).
  set (s := featureEnabled "tracing.random_sampling" _ _). set (g := featureEnabled "tracing.global_enabled" _ _).
  assert (∀ reason, reason ≠ HealthCheck → reason ≠ NotTraceable → ∃ m', (
      '(reason, m) ← (m ← setTraceReason reason m; Return (reason, m));
      if negb (bool_decide (reason = NotTraceable)) && negb g then m ← setTraceReason NotTraceable m; Return (NotTraceable, m)
      else Return (reason, m)) = Return (if g then reason else NotTraceable, m') ∧
      carries m' (if g then reason else NotTraceable) ∧ same_request atoull_16 m m') as Hset.
  { intros reason H1 H2. destruct (set_reason atoull_16 reason m NotTraceable H1 Hm) as (m1 & -> & Hm1 & Hi1 & Hk1). cbn [mbind outcome_bind].
    rewrite (bool_decide_false _ H2). destruct g; cbn [negb andb]; [by exists m1 |].
    destruct (set_reason atoull_16 NotTraceable m1 reason) as (m2 & -> & Hm2 & Hi2 & Hk2); [done | done |]. exists m2.
    split_and!; [done | done |]. split; [by rewrite Hi2 |]. intros key Hne. by rewrite Hk2, Hk1. }
  unfold trace_decision. destruct c; [destruct (Hset ClientForced) as (m' & -> & H1 & H2); [done | done |]; by destruct g; exists m' |].
  destruct f; [destruct (Hset ServiceForced) as (m' & -> & H1 & H2); [done | done |]; by destruct g; exists m' |].
  destruct s; [destruct (Hset Sampling) as (m' & -> & H1 & H2); [done | done |]; by destruct g; exists m' |].
  by exists m.
Qed.
End decision.

Section theorems.
Context {E : Envoy} {C : CodecOps E} {N : NetworkOps} {V : RequestEnv} {R : RouteEnv E} {D : TracingDriver} {DL : TracingDriverLaws D}
  {X : RouterEnv}.

Lemma setXRequestID_first (r : Router) :
  getString RequestUUID (ro_request_metadata_ r) = Return "" → random_uuid ≠ "" →
  setXRequestID r = (Return true, r <| ro_request_metadata_ ::= putString RequestUUID random_uuid |>
                                    <| ro_request_mutation ::= <[RequestUUID := random_uuid]> |>).
Proof.
  intros Hid Hu. unfold setXRequestID. rewrite run_bind. cbn [gets]. cbv beta iota. rewrite run_bind.
  rewrite (UUID_set_spec random_uuid false _ "" Hid Hu). cbn [negb andb lift]. rewrite bool_decide_true by done. cbn [negb andb lift].
  cbv beta iota. rewrite run_bind. cbn [modify]. cbv beta iota. rewrite run_bind. unfold UUID_get.
  rewrite run_bind, getString_putString. cbn [lift modify]. cbv beta iota. reflexivity.
Qed.

(** The other proxies read the decision from the id and leave it as it is. *)
Lemma follows_decision config (r : Router) m reason rid :
  useRequestIdForTraceSampling = true → ro_is_first_span_ r = false →
  getString RequestUUID (ro_request_metadata_ r) = getString RequestUUID m → carries m reason →
  toInteger atoull_16 (ro_request_metadata_ r) = Return (Some rid) →
  mutateTracingRequestMetadata config r = (Return reason, r).
Proof.
  intros Hu Hf Hid (id & Hm & Hlen & Hg) Hrid. unfold mutateTracingRequestMetadata. rewrite Hu. cbn [negb].
  rewrite run_bind. cbn [gets]. cbv beta iota. rewrite run_bind, Hrid. cbn [lift]. cbv beta iota zeta.
  rewrite run_bind, (getTraceReason_id _ m Hid), Hg. cbn [lift]. cbv beta iota. rewrite run_bind. cbn [gets]. cbv beta iota.
  by rewrite Hf.
Qed.

Lemma new_id_carries (m : MetadataImpl) :
  String.length random_uuid = 36%nat → String.get 14 random_uuid = Some "4"%char →
  carries (putString RequestUUID random_uuid m) NotTraceable.
Proof.
  intros Hl Hv. exists random_uuid. rewrite getString_putString. split_and!; [done | done |].
  unfold getTraceReason. rewrite getString_putString. cbn [mbind outcome_bind].
  assert (random_uuid ≠ "") by (by intros Hu; rewrite Hu in Hl). rewrite bool_decide_false by done.
  change TRACE_BYTE_POSITION with 14%nat. by rewrite Hl, Hv.
Qed.

Lemma startSpan_copies config m mutation cluster decision id :
  readable m → getString RequestUUID m = Return id → id ≠ "" →
  ∃ span m' mutation', startSpan config m mutation cluster decision = Return (span, m', mutation') ∧
    mutation' !! RequestUUID = Some id.
Proof using DL.
  intros Hr Hid Hne. unfold startSpan. set (s := {| span_operation := _ |}). pose proof (inject_readable s m Hr) as Hr'.
  pose proof (inject_request_id s m) as Hi. rewrite Hid in Hi.
  destruct (copy_headers_spec tracing_headers (injectContext s m) mutation) as (mutation' & -> & Hm').
  { intros key Hk. apply Hr'. do 3 right. done. }
  cbn [mbind outcome_bind]. rewrite Hi. cbn [mbind outcome_bind].
  destruct (Hr' ClientTraceId) as [v ->]; [right; left |]. cbn [mbind outcome_bind]. eexists _, _, _. split; [reflexivity |].
  rewrite (Hm' RequestUUID id Hi). rewrite decide_True; [done |]. split; [left | done].
Qed.

(** The decision of this proxy. *)
Definition router_decision (config : TracingConfig) (client force : string) (rid : Z) : Reason :=
  trace_decision
    (negb (bool_decide (client = "")) && featureEnabledAny "tracing.client_enabled" (clientSampling config))
    (negb (bool_decide (force = "")))
    (featureEnabled "tracing.random_sampling" (randomSampling config) (rid `mod` 10000))
    (featureEnabled "tracing.global_enabled" (overallSampling config) (rid `mod` 10000)).

Lemma mutate_first config client force rid (r : Router) :
  useRequestIdForTraceSampling = true → ro_is_first_span_ r = true → carries (ro_request_metadata_ r) NotTraceable →
  toInteger atoull_16 (ro_request_metadata_ r) = Return (Some rid) →
  getString ClientTraceId (ro_request_metadata_ r) = Return client →
  getString EnvoyForceTrace (ro_request_metadata_ r) = Return force →
  ∃ m', mutateTracingRequestMetadata config r = (Return (router_decision config client force rid), r <| ro_request_metadata_ := m' |>) ∧
    carries m' (router_decision config client force rid) ∧ same_request atoull_16 (ro_request_metadata_ r) m'.
Proof.
  intros Huse Hf Hc Hrid Hcl Hfo. unfold mutateTracingRequestMetadata. rewrite Huse. cbn [negb].
  rewrite run_bind. cbn [gets]. cbv beta iota. rewrite run_bind, Hrid. cbn [lift]. cbv beta iota zeta.
  destruct (first_span_reason_spec config (rid `mod` 10000) _ client force Hc Hcl Hfo) as (m' & Hm' & Hc' & Hs).
  destruct Hc as (id & Hid & _ & Hg). rewrite run_bind, Hg. cbn [lift]. cbv beta iota. rewrite run_bind. cbn [gets]. cbv beta iota.
  rewrite Hf, run_bind, Hm'. cbn [lift]. cbv beta iota. exists m'. by split_and!.
Qed.

(** C27: The decision to trace is made once and travels with the request: the first proxy gives the request an id, decides by
    the trace id of the client, the force header, the sampling rate and the overall limit, opens a span exactly if the
    request is traced, and the id it sends to the upstream makes every later proxy come to the same decision, whatever
    its own configuration, without changing the request. *)
Theorem router_trace_propagated (config : TracingConfig) (cluster client force : string) (rid : Z) (r : Router) :
  cb_tracingConfig = Some config → useRequestIdForTraceSampling = true → ro_active_span_ r = None →
  getString RequestUUID (ro_request_metadata_ r) = Return "" → readable (ro_request_metadata_ r) →
  getString ClientTraceId (ro_request_metadata_ r) = Return client →
  getString EnvoyForceTrace (ro_request_metadata_ r) = Return force →
  String.length random_uuid = 36%nat → String.get 14 random_uuid = Some "4"%char →
  atoull_16 (String.substring 0 8 random_uuid) = Some rid →
  let decision := router_decision config client force rid in
  ∃ r' id, identify_and_trace cluster r = (Return tt, r') ∧ ro_request_mutation r' !! RequestUUID = Some id ∧
    (ro_active_span_ r' = None ↔ decision = NotTraceable) ∧
    ∀ config' (next : Router), ro_is_first_span_ next = false → getString RequestUUID (ro_request_metadata_ next) = Return id →
      mutateTracingRequestMetadata config' next = (Return decision, next).
Proof.
  intros Hcfg Huse Hspan Hid Hread Hcl Hfo Hlen Hver Hrid decision.
  assert (random_uuid ≠ "") as Hne by (by intros Hu; rewrite Hu in Hlen).
  unfold identify_and_trace. rewrite run_bind, setXRequestID_first by done. cbv beta iota. rewrite run_bind. cbn [modify].
  cbv beta iota. rewrite Hcfg. set (r1 := upd ro_is_first_span_ _ _).
  assert (ro_request_metadata_ r1 = putString RequestUUID random_uuid (ro_request_metadata_ r)) as Hm1 by done.
  assert (∀ key, key ≠ RequestUUID → getString key (ro_request_metadata_ r1) = getString key (ro_request_metadata_ r)) as Hkeys.
  { intros key Hk. rewrite Hm1. by apply getByKey_getString, getByKey_putString_ne. }
  assert (carries (ro_request_metadata_ r1) NotTraceable) as Hc1 by (rewrite Hm1; by apply new_id_carries).
  assert (toInteger atoull_16 (ro_request_metadata_ r1) = Return (Some rid)) as Hi1.
  { unfold toInteger. rewrite Hm1, getString_putString. cbn [mbind outcome_bind]. rewrite bool_decide_false, Hlen by done. by rewrite <- Hrid. }
  unfold traceRequest. destruct (mutate_first config client force rid r1) as (m2 & Hm2 & Hc2 & Hi2 & Hk2);
    [done | done | done | done | by rewrite Hkeys | by rewrite Hkeys |].
  rewrite run_bind, Hm2. cbv beta iota. fold decision in Hc2 |- *.
  assert (∀ config' (next : Router) m, ro_is_first_span_ next = false →
    getString RequestUUID (ro_request_metadata_ next) = getString RequestUUID m → carries m decision →
    toInteger atoull_16 m = Return (Some rid) → mutateTracingRequestMetadata config' next = (Return decision, next)) as Hfollow.
  { intros config' next m Hnf Hnid Hcm Him. eapply follows_decision; [done | done | exact Hnid | done |].
    by rewrite (toInteger_id _ _ m Hnid). }
  case_decide as Hd.
  - assert (decision = NotTraceable) as Hd' by (destruct Hd as [? | Hh]; [done | by apply trace_decision_health in Hh]).
    eexists _, random_uuid. split; [reflexivity |]. split_and!; [apply lookup_insert_eq | done |].
    intros config' next Hnf Hnid. apply (Hfollow config' next (ro_request_metadata_ r1)); [done | | by rewrite Hd' | done].
    by rewrite Hnid, Hm1, getString_putString.
  - destruct Hc2 as (id & Hid2 & Hlen2 & Hg2). rewrite run_bind. cbn [gets]. cbv beta iota. rewrite run_bind. cbn [gets]. cbv beta iota.
    rewrite run_bind. change (ro_request_metadata_ (r1 <| ro_request_metadata_ := m2 |>)) with m2.
    destruct (startSpan_copies config m2 (ro_request_mutation (r1 <| ro_request_metadata_ := m2 |>)) cluster (decision, true) id)
      as (span & m3 & mutation3 & -> & Hmut).
    { intros key Hk. destruct (decide (key = RequestUUID)) as [->|Hne']; [by eauto |]. rewrite Hk2, Hkeys by done. by apply Hread. }
    { done. } { by intros ->. }
    cbn [lift]. cbv beta iota. eexists _, id. split; [reflexivity |]. split_and!; [exact Hmut | |].
    + split; [done |]. tauto.
    + intros config' next Hnf Hnid. apply (Hfollow config' next m2); [done | by rewrite Hnid, Hid2 | by exists id | by rewrite Hi2].
Qed.
End theorems.
