(* ===== verification/RouterAccount.v ===== *)
(** * The connections of a router

    The account of the connections a router gets from the pool, over every sequence of
    events: each is held, was given back, or was handed over to a stream. *)

From S2P Require Import Prelude Envoy Metadata Codec Decoder Network ConnManager UpstreamHandler Route RequestId Tracing UpstreamRequest Router.

Section behaviour.
Context {E : Envoy} {C : CodecOps E} {N : NetworkOps} {V : RequestEnv} {R : RouteEnv E} {D : TracingDriver} {X : RouterEnv}.
Implicit Types (r : Router) (q : UpstreamRequestBase).

(** ** Steps *)

Definition with_request (o : option UpstreamRequestBase) r : Router :=
  {| ro_request_metadata_ := ro_request_metadata_ r; ro_request_mutation := ro_request_mutation r;
     ro_response_metadata_ := ro_response_metadata_ r; ro_route_ := ro_route_ r; ro_upstream_request_ := o;
     ro_active_span_ := ro_active_span_ r; ro_is_first_span_ := ro_is_first_span_ r; ro_cluster_ := ro_cluster_ r;
     ro_calls := ro_calls r |}.
Definition add_calls (l : list call) r : Router :=
  {| ro_request_metadata_ := ro_request_metadata_ r; ro_request_mutation := ro_request_mutation r;
     ro_response_metadata_ := ro_response_metadata_ r; ro_route_ := ro_route_ r;
     ro_upstream_request_ := ro_upstream_request_ r; ro_active_span_ := ro_active_span_ r;
     ro_is_first_span_ := ro_is_first_span_ r; ro_cluster_ := ro_cluster_ r; ro_calls := ro_calls r ++ l |}.
Definition with_metadata m r : Router :=
  {| ro_request_metadata_ := m; ro_request_mutation := ro_request_mutation r;
     ro_response_metadata_ := ro_response_metadata_ r; ro_route_ := ro_route_ r;
     ro_upstream_request_ := ro_upstream_request_ r; ro_active_span_ := ro_active_span_ r;
     ro_is_first_span_ := ro_is_first_span_ r; ro_cluster_ := ro_cluster_ r; ro_calls := ro_calls r |}.

Lemma made_run c r : made c r = (Return tt, add_calls [c] r).
Proof. reflexivity. Qed.
Lemma get_request_run q r : ro_upstream_request_ r = Some q → get_request r = (Return q, r).
Proof. intros Hq. unfold get_request. rewrite run_bind. cbn [gets]. cbv beta iota. cbn [the_request router_owner]. by rewrite Hq. Qed.
Lemma get_request_none r : ro_upstream_request_ r = None → get_request r = (Panic "null upstream request", r).
Proof. intros Hq. unfold get_request. rewrite run_bind. cbn [gets]. cbv beta iota. cbn [the_request router_owner]. by rewrite Hq. Qed.
Lemma on_request_run f q r : ro_upstream_request_ r = Some q → on_request f r = (Return tt, with_request (Some (f q)) r).
Proof. intros Hq. unfold on_request. by rewrite run_bind, (get_request_run q). Qed.

(** ** Triples

    What holds after a program that started in [P], by how it ends; nothing is said of
    a program that stops the process. *)

Definition triple (P : Router → Prop) {A} (m : M Router A) (Q : A → Router → Prop) (F : Router → Prop) : Prop :=
  ∀ r, P r → match m r with (Return a, r') => Q a r' | (Throw _, r') => F r' | (Panic _, _) => True end.

Lemma triple_bind {A B} P (m : M Router A) (f : A → M Router B) Q Q' F :
  triple P m Q F → (∀ a, triple (Q a) (f a) Q' F) → triple P (m ≫= f) Q' F.
Proof. intros Hm Hf r Hr. specialize (Hm r Hr). rewrite run_bind. destruct (m r) as [[a|e|w] r']; [by apply Hf | done | done]. Qed.
Lemma triple_weaken {A} (P P' : Router → Prop) (m : M Router A) (Q Q' : A → Router → Prop) (F F' : Router → Prop) :
  triple P m Q F → (∀ r, P' r → P r) → (∀ a r, Q a r → Q' a r) → (∀ r, F r → F' r) → triple P' m Q' F'.
Proof. intros Hm HP HQ HX r Hr. specialize (Hm r (HP r Hr)). destruct (m r) as [[a|e|w] r']; auto. Qed.

(** ** The account of connections

    A connection the pool has given is held by the request, or was given back, or was
    handed over to a stream.  The request tells the outlier detector of the host of
    each connection it is given. *)

Definition conn_count (c : option connection) : nat := if c is Some _ then 1 else 0.
Definition conn_of r : option connection := q ← ro_upstream_request_ r; ur_conn_data_ q.
Definition held r : nat := conn_count (conn_of r).
Definition settled_call (c : call) : nat :=
  match c with C_release _ | C_setUpstreamConnection (Some _) => 1 | _ => 0 end.
Definition obtained_call (c : call) : nat :=
  match c with C_putResult _ LocalOriginConnectSuccess => 1 | _ => 0 end.
Definition tally (f : call → nat) (l : list call) : nat := sum_list (f <$> l).
Definition settled r : nat := tally settled_call (ro_calls r).
Definition obtained r : nat := tally obtained_call (ro_calls r).

(** A request does not wait for a connection while it holds one; [k] connections are
    held by no one. *)
Definition one_connection q : Prop := ur_conn_pool_handle_ q = None ∨ ur_conn_data_ q = None.
Definition counted (k : Z) r : Prop := Z.of_nat (obtained r) = Z.of_nat (held r) + Z.of_nat (settled r) + k.
Definition balanced (k : Z) r : Prop := counted k r ∧ ∀ q, ro_upstream_request_ r = Some q → one_connection q.

Lemma tally_app f l l' : tally f (l ++ l') = (tally f l + tally f l')%nat.
Proof. unfold tally. rewrite fmap_app. induction (f <$> l) as [|x xs IH]; [done |]. cbn. lia. Qed.
Lemma tally_one f c : tally f [c] = f c.
Proof. unfold tally. cbn. lia. Qed.

Lemma counted_calls l k r :
  counted k (add_calls l r) ↔ counted (k - Z.of_nat (tally obtained_call l) + Z.of_nat (tally settled_call l)) r.
Proof.
  unfold counted, obtained, settled, held, conn_of. cbn [add_calls ro_calls ro_upstream_request_]. rewrite !tally_app. lia.
Qed.
Lemma counted_request k q q' r :
  ro_upstream_request_ r = Some q →
  counted k (with_request (Some q') r) ↔ counted (k + Z.of_nat (conn_count (ur_conn_data_ q')) - Z.of_nat (conn_count (ur_conn_data_ q))) r.
Proof. intros Hq. unfold counted, obtained, settled, held, conn_of. cbn [with_request ro_calls ro_upstream_request_]. rewrite Hq. cbn [mbind option_bind]. lia. Qed.

(** A program keeps the account, whatever is held elsewhere; [T] tells whether it may
    throw. *)
Definition keeps (T : Prop) {A} (m : M Router A) : Prop :=
  ∀ k, triple (balanced k) m (λ _, balanced k) (λ r, T ∧ balanced k r).

Lemma keeps_weaken {A} (T T' : Prop) (m : M Router A) : keeps T m → (T → T') → keeps T' m.
Proof. intros Hm HT k. eapply triple_weaken; [apply Hm | done | done |]. intros r [? ?]. by split; [apply HT |]. Qed.
Lemma keeps_quiet {A} T (m : M Router A) : keeps False m → keeps T m.
Proof. intros Hm. by eapply keeps_weaken. Qed.
Lemma keeps_bind {A B} T (m : M Router A) (f : A → M Router B) : keeps T m → (∀ a, keeps T (f a)) → keeps T (m ≫= f).
Proof. intros Hm Hf k. eapply triple_bind; [apply Hm |]. intros a. apply Hf. Qed.
Lemma keeps_ret {A} T (a : A) : keeps T (mret a).
Proof. by intros k r Hr. Qed.
Lemma keeps_gets {A} T (f : Router → A) : keeps T (gets f).
Proof. by intros k r Hr. Qed.
Lemma keeps_panic {A} T w : keeps T (panic (A := A) w).
Proof. by intros k r Hr. Qed.
Lemma keeps_throw {A} e : keeps True (throw (A := A) e).
Proof. by intros k r Hr. Qed.
Lemma keeps_lift {A} (o : outcome A) : keeps True (lift o).
Proof. intros k r Hr. by destruct o. Qed.
Lemma keeps_ASSERT T b w : keeps T (ASSERT b w).
Proof. intros k r Hr. by destruct b. Qed.
Lemma keeps_modify T f :
  (∀ r, ro_upstream_request_ (f r) = ro_upstream_request_ r ∧ ro_calls (f r) = ro_calls r) → keeps T (modify f).
Proof.
  intros Hf k r [Ha Hw]. destruct (Hf r) as [Hq Hc]. cbn [modify]. unfold balanced, counted, obtained, settled, held, conn_of in *. rewrite Hq, Hc. by split.
Qed.
Lemma keeps_made T c : settled_call c = 0%nat → obtained_call c = 0%nat → keeps T (made c).
Proof.
  intros Hs Ho k r [Ha Hw]. rewrite made_run. split; [| done]. rewrite (counted_calls [c]). rewrite !tally_one, Hs, Ho. unfold counted in *. lia.
Qed.
Lemma keeps_get_request T : keeps T get_request.
Proof. intros k r Hr. destruct (ro_upstream_request_ r) as [q|] eqn:Hq; [by rewrite (get_request_run q) | by rewrite get_request_none]. Qed.
(** Setting a field of the request other than the connection and the handle *)
Definition same_connection (f : UpstreamRequestBase → UpstreamRequestBase) : Prop :=
  ∀ q, ur_conn_data_ (f q) = ur_conn_data_ q ∧ (ur_conn_pool_handle_ (f q) = ur_conn_pool_handle_ q ∨ ur_conn_pool_handle_ (f q) = None).
Lemma keeps_on_request T f :
  (∀ q, conn_count (ur_conn_data_ (f q)) = conn_count (ur_conn_data_ q) ∧ (one_connection q → one_connection (f q))) →
  keeps T (on_request f).
Proof.
  intros Hf k r [Ha Hw]. destruct (ro_upstream_request_ r) as [q|] eqn:Hq.
  - rewrite (on_request_run f q) by done. destruct (Hf q) as [Hh Ho]. split.
    + rewrite (counted_request k q) by done. rewrite Hh. by replace (k + _ - _) with k by lia.
    + intros q' [= <-]. by apply Ho, Hw.
  - unfold on_request. by rewrite run_bind, get_request_none.
Qed.
Lemma keeps_on_request_same T f : same_connection f → keeps T (on_request f).
Proof.
  intros Hf. apply keeps_on_request. intros q. destruct (Hf q) as [Hc Hh]. unfold one_connection. rewrite Hc.
  split; [done |]. destruct Hh as [-> | ->]; tauto.
Qed.
End behaviour.

Create HintDb keeps.
#[export] Hint Resolve keeps_ret keeps_gets keeps_panic keeps_throw keeps_lift keeps_ASSERT keeps_get_request : keeps.
Ltac keeps_step :=
  match goal with
  | |- keeps _ (@mbind _ _ _ _ _ _) => simple apply keeps_bind; [| intros]
  | |- keeps _ (made _) => simple apply keeps_made; reflexivity
  | |- keeps _ (on_request _) => simple apply keeps_on_request_same; intros ?q; split; [reflexivity | first [left; reflexivity | right; reflexivity]]
  | |- keeps _ (modify _) => simple apply keeps_modify; intros ?; split; reflexivity
  | |- keeps _ (let '(_, _) := ?x in _) => destruct x
  | |- keeps _ (match ?x with _ => _ end) => destruct x
  | |- keeps _ _ => solve [eauto with keeps nocore]
  end.
Ltac keeps_auto := cbn [record_call owner_continueDecoding owner_sendLocalReply owner_createCodec owner_resetStream
    owner_onUpstreamHostSelected router_owner]; repeat keeps_step.

Section operations.
Context {E : Envoy} {C : CodecOps E} {N : NetworkOps} {V : RequestEnv} {R : RouteEnv E} {D : TracingDriver} {X : RouterEnv}.
Implicit Types (r : Router) (q : UpstreamRequestBase).

(** ** What keeps the account *)

Lemma keeps_host_address T : keeps T host_address.
Proof. unfold host_address. keeps_auto. Qed.
#[local] Hint Resolve keeps_host_address : keeps.
Lemma keeps_onUpstreamHostSelected T host : keeps T (onUpstreamHostSelected host).
Proof. unfold onUpstreamHostSelected. keeps_auto. Qed.
Lemma keeps_onUpstreamConnectionReset T reason : keeps T (onUpstreamConnectionReset reason).
Proof. unfold onUpstreamConnectionReset. keeps_auto. Qed.
#[local] Hint Resolve keeps_onUpstreamHostSelected keeps_onUpstreamConnectionReset : keeps.
Lemma keeps_onUpstreamConnectionEvent T event : keeps T (onUpstreamConnectionEvent event).
Proof. unfold onUpstreamConnectionEvent. keeps_auto. Qed.
#[local] Hint Resolve keeps_onUpstreamConnectionEvent : keeps.
Lemma keeps_finish_span T f : keeps T (finish_span f).
Proof. unfold finish_span. keeps_auto. Qed.
#[local] Hint Resolve keeps_finish_span : keeps.
Lemma keeps_Router_onEvent T event : keeps T (Router_onEvent event).
Proof. unfold Router_onEvent, failed_span. keeps_auto. Qed.
Lemma keeps_emitLogEntry T response code details : keeps T (emitLogEntry response code details).
Proof. unfold emitLogEntry. keeps_auto. Qed.
#[local] Hint Resolve keeps_Router_onEvent keeps_emitLogEntry : keeps.
Lemma keeps_Router_onMessageEncoded T m : keeps T (Router_onMessageEncoded m).
Proof. unfold Router_onMessageEncoded. keeps_auto. Qed.
Lemma keeps_encodeData : keeps True encodeData.
Proof.
  unfold encodeData, UpstreamRequestByHandler_encodeData, encode_request. keeps_auto.
  apply keeps_on_request. intros q. unfold one_connection. destruct q as [? ? ? ? ? ? ? ? [c|]]; cbn; (split; [done |]); intros [?|?]; by (left + right).
Qed.
#[local] Hint Resolve keeps_Router_onMessageEncoded keeps_encodeData : keeps.

(** ** What moves a connection

    [opened k c]: the request has the connection [c], and may still have the handle it
    waited with. *)

Definition opened (k : Z) (c : option connection) r : Prop := counted k r ∧ conn_of r = c.

Definition owns (k : Z) (c : option connection) r : Prop := balanced k r ∧ conn_of r = c.
Lemma owns_opened k c r : owns k c r → opened k c r.
Proof. by intros [[??]?]. Qed.

Lemma owns_get F k : triple (balanced k) get_request (λ q, owns k (ur_conn_data_ q)) F.
Proof.
  intros r Ha. destruct (ro_upstream_request_ r) as [q|] eqn:Hq; [| by rewrite get_request_none].
  rewrite (get_request_run q) by done. split; [done |]. unfold conn_of. by rewrite Hq.
Qed.
Lemma opened_on_request F k c f :
  triple (opened k c) (on_request f) (λ _ r', ∃ q, ur_conn_data_ q = c ∧ ro_upstream_request_ r' = Some (f q) ∧
    counted (k + Z.of_nat (conn_count c) - Z.of_nat (conn_count (ur_conn_data_ (f q)))) r') F.
Proof.
  intros r [Ha Hc]. unfold conn_of in Hc. destruct (ro_upstream_request_ r) as [q|] eqn:Hq; [| unfold on_request; by rewrite run_bind, get_request_none].
  cbn in Hc. rewrite (on_request_run f q) by done. exists q. split_and!; [done | done |]. rewrite (counted_request _ q), Hc by done.
  by replace (k + _ - _ + _ - _) with k by lia.
Qed.
Lemma opened_same F k c f : same_connection f → triple (opened k c) (on_request f) (λ _, opened k c) F.
Proof.
  intros Hf. eapply triple_weaken; [apply (opened_on_request F) | done | | done]. intros _ r (q & Hq & Hr & Ha).
  destruct (Hf q) as [Hd _]. rewrite Hd, Hq in Ha. split; [by replace (k + _ - _) with k in Ha by lia |]. unfold conn_of. by rewrite Hr, <- Hq, <- Hd.
Qed.
Lemma owns_same F k c f : same_connection f → triple (owns k c) (on_request f) (λ _, owns k c) F.
Proof.
  intros Hf r Hr. pose proof (opened_same F k c f Hf r (owns_opened _ _ _ Hr)) as Ho.
  pose proof (keeps_on_request_same False f Hf k r (proj1 Hr)) as Hk. destruct (on_request f r) as [[a|e|w] r'] eqn:Hrun.
  - by split; [| apply Ho].
  - by destruct Hk.
  - done.
Qed.
(** The handle is gone, or the connection is. *)
Lemma opened_close F k c f :
  (∀ q, ur_conn_data_ (f q) = ur_conn_data_ q ∧ ur_conn_pool_handle_ (f q) = None) →
  triple (opened k c) (on_request f) (λ _, balanced k) F.
Proof.
  intros Hf. eapply triple_weaken; [apply (opened_on_request F) | done | | done]. intros _ r (q & Hq & Hr & Ha).
  destruct (Hf q) as [Hd Hh]. rewrite Hd, Hq in Ha. split; [by replace (k + _ - _) with k in Ha by lia |]. intros q' Hq'.
  left. congruence.
Qed.
Lemma opened_take F k c :
  triple (opened k c) (on_request (λ q, q <| ur_conn_data_ := None |>)) (λ _, balanced (k + Z.of_nat (conn_count c))) F.
Proof.
  eapply triple_weaken; [apply (opened_on_request F) | done | | done]. intros _ r (q & Hq & Hr & Ha). split.
  - cbn in Ha. by replace (k + _ - 0) with (k + Z.of_nat (conn_count c)) in Ha by lia.
  - intros q' Hq'. right. rewrite Hr in Hq'. by simplify_eq.
Qed.
Lemma owns_take F k c :
  triple (owns k c) (on_request (λ q, q <| ur_conn_data_ := None |>)) (λ _, balanced (k + Z.of_nat (conn_count c))) F.
Proof. intros r Hr. apply (opened_take F k c r), owns_opened, Hr. Qed.
Lemma opened_put F k c conn :
  triple (opened k c) (on_request (λ q, q <| ur_conn_data_ := Some conn |>)) (λ _, opened (k + Z.of_nat (conn_count c) - 1) (Some conn)) F.
Proof.
  eapply triple_weaken; [apply (opened_on_request F) | done | | done]. intros _ r (q & Hq & Hr & Ha). split; [done |].
  unfold conn_of. by rewrite Hr.
Qed.
Lemma opened_made F k c a :
  triple (opened k c) (made a) (λ _, opened (k + Z.of_nat (obtained_call a) - Z.of_nat (settled_call a)) c) F.
Proof.
  intros r [Ha Hc]. rewrite made_run. split; [| done]. rewrite (counted_calls [a]). rewrite !tally_one. unfold counted in *. lia.
Qed.
Lemma balanced_release F k c : triple (balanced (k + Z.of_nat (conn_count c))) (release c) (λ _, balanced k) F.
Proof.
  intros r [Ha Hw]. destruct c as [c|]; cbn [release].
  - cbn [record_call router_owner]. rewrite made_run. split; [| done]. rewrite (counted_calls [_]), !tally_one.
    unfold counted in *. cbn [settled_call obtained_call conn_count] in *. lia.
  - cbn in *. by rewrite Z.add_0_r in Ha.
Qed.
Lemma opened_release F k c c' : triple (opened k c) (release c') (λ _, opened (k - Z.of_nat (conn_count c')) c) F.
Proof.
  destruct c' as [c'|]; cbn [release].
  - eapply triple_weaken; [apply opened_made | done | | done]. intros ? r Hr. cbn in *. by rewrite Z.add_0_r in Hr.
  - intros r Hr. cbn. by rewrite Z.sub_0_r.
Qed.


Lemma opened_get F k : triple (balanced k) get_request (λ q, opened k (ur_conn_data_ q)) F.
Proof. eapply triple_weaken; [apply (owns_get F) | done | | done]. intros q r. apply owns_opened. Qed.

Lemma keeps_onResponseComplete T : keeps T onResponseComplete.
Proof.
  intros k. unfold onResponseComplete. eapply triple_bind; [apply owns_get |]. intros q. cbn beta.
  eapply (triple_bind _ _ _ (λ _, owns k (ur_conn_data_ q))); [by apply owns_same; intros ?; split; [| left] |].
  intros _. destruct (ur_kind q).
  - eapply (triple_bind _ _ _ (λ _, balanced (k + Z.of_nat (conn_count (ur_conn_data_ q))))); [| intros _; apply balanced_release].
    apply owns_take.
  - by intros r [Ha Hc].
Qed.

Lemma keeps_destroy_request T : keeps T destroy_request.
Proof.
  intros k. unfold destroy_request. intros r Hr. rewrite run_bind. cbn [gets the_request router_owner]. cbv beta iota.
  destruct (ro_upstream_request_ r) as [q|] eqn:Hq; [| done]. rewrite run_bind. cbn [modify]. cbv beta iota.
  assert (balanced (k + Z.of_nat (conn_count (ur_conn_data_ q))) (with_request None r)) as Hb.
  { split; [| done]. destruct Hr as [Ha _]. unfold counted, held, conn_of, obtained, settled in *. rewrite Hq in Ha.
    cbn [with_request ro_calls ro_upstream_request_ mbind option_bind conn_count] in *. lia. }
  revert Hb. change (set_request None r) with (with_request None r). generalize (with_request None r).
  eapply (triple_bind _ _ _ (λ _, balanced k)); [apply balanced_release |]. intros _. revert k Hr.
  assert (keeps T (if ur_kind q is ByHandler hid then record_call (C_dropHandler hid) else mret tt)) as Hk by keeps_auto.
  intros k _. apply Hk.
Qed.

Lemma keeps_releaseUpStreamConnection T raise close : keeps False raise → keeps T (releaseUpStreamConnection raise close).
Proof.
  intros Hraise k. unfold releaseUpStreamConnection. eapply triple_bind; [apply owns_get |]. intros q. cbn beta.
  destruct (ur_kind q) as [pool|hid].
  - set (c := ur_conn_data_ q).
    eapply (triple_bind _ _ _ (λ _, owns k c)); [by apply owns_same; intros ?; split; [| left] |]. intros _.
    eapply (triple_bind _ _ _ (λ _, owns k c)).
    { destruct (ur_conn_pool_handle_ q) as [h|]; [| by intros r Hr].
      eapply (triple_bind _ _ _ (λ _, owns k c)); [intros r Hr; by destruct (ur_conn_data_ q) |]. intros _.
      eapply (triple_bind _ _ _ (λ _, owns k c)).
      - intros r [Hb Hc]. split; [| done]. exact (keeps_made False (C_cancel h) eq_refl eq_refl k r Hb).
      - intros _. apply owns_same. intros ?. by split; [| right]. }
    intros _. eapply (triple_bind _ _ _ (λ _, balanced (k + Z.of_nat (conn_count c)))); [apply owns_take |]. intros _.
    assert (∀ c', triple (balanced (k + 1)) (release (Some c')) (λ _, balanced k) (λ r, T ∧ balanced k r)) as Hrel
      by (intros c'; apply (balanced_release _ k (Some c'))).
    destruct c as [conn|]; [| intros r Hr; cbn in *; by rewrite Z.add_0_r in Hr].
    destruct close; [| apply Hrel]. destruct (conn_close conn NoFlush) as [conn' raised].
    eapply (triple_bind _ _ _ (λ _, balanced (k + 1))); [| intros _; apply Hrel].
    destruct raised; [| by intros r Hr]. eapply triple_weaken; [apply (Hraise (k + 1)) | done | done | by intros r []].
  - intros r [Hb _]. exact (keeps_made T (C_removeUpsteamRequestCallbacks hid) eq_refl eq_refl k r Hb).
Qed.
#[local] Hint Resolve keeps_onResponseComplete keeps_destroy_request keeps_releaseUpStreamConnection : keeps.

(** A connection is taken over from the pool, and the handle is forgotten. *)
Lemma keeps_take_connection {A} T conn host (rest : UpstreamRequestBase → M Router A) :
  (∀ q, keeps T (rest q)) →
  keeps T (q ← get_request;
           _ ← onUpstreamHostSelected host;
           _ ← made (C_putResult host LocalOriginConnectSuccess);
           _ ← release (ur_conn_data_ q);
           _ ← on_request (λ q, q <| ur_conn_data_ := Some conn |>);
           m ← gets shared_metadata;
           _ ← (if decide (message_type_ m = MessageType_Request) then made C_addUpstreamCallbacks else mret tt);
           _ ← on_request (λ q, q <| ur_conn_pool_handle_ := None |>);
           rest q).
Proof.
  intros Hrest k. eapply triple_bind; [apply opened_get |]. intros q. cbn beta. set (c := ur_conn_data_ q).
  eapply (triple_bind _ _ _ (λ _, opened k c)); [by apply opened_same; intros ?; split; [| left] |]. intros _.
  eapply triple_bind; [apply opened_made |]. intros ?. cbn [obtained_call settled_call]. cbn beta.
  eapply triple_bind; [apply opened_release |]. intros ?. cbn beta.
  eapply triple_bind; [apply opened_put |]. intros ?. cbn beta.
  match goal with |- triple (opened ?k' _) _ _ _ => replace k' with k by lia end.
  eapply (triple_bind _ _ _ (λ _, opened k (Some conn))); [by intros r Hr |]. intros m.
  eapply (triple_bind _ _ _ (λ _, opened k (Some conn))).
  { case_decide; [| by intros r Hr]. eapply triple_weaken; [apply (opened_made (λ _, False)) | done | | done]. intros ? r Hr. cbn in Hr.
    by rewrite Z.add_0_r, Z.sub_0_r in Hr. }
  intros _. eapply triple_bind; [by apply opened_close |]. intros ?. apply Hrest.
Qed.

(** The connection is handed over to a stream. *)
Lemma keeps_hand_over T :
  keeps T (q ← get_request;
           _ ← on_request (λ q, q <| ur_conn_data_ := None |>);
           made (C_setUpstreamConnection (ur_conn_data_ q))).
Proof.
  intros k. eapply triple_bind; [apply owns_get |]. intros q. cbn beta. set (c := ur_conn_data_ q).
  eapply (triple_bind _ _ _ (λ _, balanced (k + Z.of_nat (conn_count c)))); [apply owns_take |]. intros _ r [Ha Hw].
  rewrite made_run. split; [| done]. rewrite (counted_calls [_]), !tally_one. unfold counted in *.
  destruct c; cbn [settled_call obtained_call conn_count] in *; lia.
Qed.

Lemma keeps_UpstreamRequest_onPoolReady conn host : keeps True (UpstreamRequest_onPoolReady conn host).
Proof.
  unfold UpstreamRequest_onPoolReady. cbn [record_call owner_onUpstreamHostSelected router_owner].
  apply keeps_bind; [by apply keeps_made |]. intros _. cbv zeta. simple apply (keeps_take_connection True conn host). intros q.
  unfold onRequestStart, onRequestComplete. cbn [owner_continueDecoding owner_resetStream owner_setUpstreamConnection router_owner].
  repeat first [simple apply keeps_hand_over | keeps_step].
Qed.

Lemma keeps_UpstreamRequest_onPoolFailure T reason host : keeps T (UpstreamRequest_onPoolFailure reason host).
Proof. unfold UpstreamRequest_onPoolFailure. keeps_auto. Qed.
Lemma keeps_UpstreamRequestByHandler_onPoolReady host : keeps True (UpstreamRequestByHandler_onPoolReady host).
Proof. unfold UpstreamRequestByHandler_onPoolReady, onRequestStart, onRequestComplete. keeps_auto. Qed.
Lemma keeps_onUpstreamResponseComplete T m : keeps T (onUpstreamResponseComplete m).
Proof. unfold onUpstreamResponseComplete, cleanUpstreamRequest. keeps_auto. Qed.
#[local] Hint Resolve keeps_onUpstreamResponseComplete : keeps.
Lemma keeps_onUpstreamResponseCallback T m : keeps T (onUpstreamResponseCallback m).
Proof. unfold onUpstreamResponseCallback. keeps_auto. Qed.
Lemma keeps_Router_onUpstreamData T status response end_stream : keeps T (Router_onUpstreamData status response end_stream).
Proof. unfold Router_onUpstreamData, onResponseStarted, cleanUpstreamRequest, failed_span. keeps_auto. Qed.
Lemma keeps_Router_onDestroy T : keeps T Router_onDestroy.
Proof. unfold Router_onDestroy, cleanUpstreamRequest. keeps_auto. Qed.

(** ** The first message *)

(** Steps that neither touch the request nor call anything *)
Definition private r r' : Prop := ro_upstream_request_ r' = ro_upstream_request_ r ∧ ro_calls r' = ro_calls r.
#[local] Instance private_preorder : PreOrder private.
Proof. split; [by split | intros ??? [??] [??]; split; congruence]. Qed.

Definition idle r : Prop := ro_upstream_request_ r = None ∧ ro_calls r = [].
Definition fresh r : Prop := balanced 0 r ∧ conn_of r = None.

Lemma idle_balanced r : idle r → balanced 0 r.
Proof. intros [Hq Hc]. split; [| by rewrite Hq]. unfold counted, obtained, settled, held, conn_of. by rewrite Hq, Hc. Qed.
Lemma private_idle {A} F (m : M Router A) : frames private m → (∀ r, idle r → F r) → triple idle m (λ _, idle) F.
Proof.
  intros Hm HF r [Hq Hc]. specialize (Hm r). destruct (m r) as [[a|e|w] r']; cbn in Hm; destruct Hm as [Hq' Hc'];
    [| apply HF | done]; split; congruence.
Qed.

Lemma private_identify cluster : frames private (identify_and_trace cluster).
Proof.
  unfold identify_and_trace, setXRequestID, traceRequest, mutateTracingRequestMetadata.
  frames_auto; intros ?; by split.
Qed.

Lemma new_request_fresh F k : triple idle (new_UpstreamRequest k) (λ _, fresh) F.
Proof.
  intros r [Hq Hc]. unfold new_UpstreamRequest. rewrite run_bind. cbn [gets]. cbv beta iota. destruct (buf_move_all _ _) as [b o].
  mstep. split; [| done]. split; [| by intros ? [= <-]; left]. unfold counted, obtained, settled, held, conn_of. cbn. by rewrite Hc.
Qed.

Lemma start_balanced : triple fresh UpstreamRequest_start (λ _, balanced 0) (balanced 0).
Proof.
  intros r [Hb Hc]. unfold UpstreamRequest_start. rewrite run_bind.
  destruct (ro_upstream_request_ r) as [q|] eqn:Hq; [| by rewrite get_request_none]. rewrite (get_request_run q) by done.
  unfold conn_of in Hc. rewrite Hq in Hc. cbn in Hc.
  assert (∀ A (m : M Router A), keeps True m → match m r with
    | (Return _, r') => balanced 0 r' | (Throw _, r') => balanced 0 r' | (Panic _, _) => True end) as Hrun.
  { intros A m Hm. specialize (Hm 0 r Hb). destruct (m r) as [[a|e|w] r']; [done | by destruct Hm | done]. }
  destruct (ur_kind q) as [[h|conn host|reason host]|hid].
  - rewrite run_bind. cbn [record_call router_owner]. rewrite made_run, run_bind, (on_request_run _ q) by done.
    cbn [mret M_ret]. split; [| intros q' [= <-]; by right]. rewrite (counted_request _ q) by done.
    change (ur_conn_data_ (q <| ur_conn_pool_handle_ := Some h |>)) with (ur_conn_data_ q).
    rewrite (counted_calls [_]), !tally_one. cbn [settled_call obtained_call]. destruct Hb as [Hb _]. unfold counted in *. lia.
  - apply Hrun. cbn [record_call router_owner]. keeps_auto. apply keeps_UpstreamRequest_onPoolReady.
  - apply Hrun. cbn [record_call router_owner]. keeps_auto. apply keeps_UpstreamRequest_onPoolFailure.
  - apply Hrun. unfold UpstreamRequestByHandler_start. cbn [record_call router_owner]. keeps_auto.
Qed.

Lemma keeps_mirror T policies n copy : keeps T (mirror policies n copy).
Proof. revert n. induction policies as [|p l IH]; intros n; cbn [mirror]; keeps_auto. Qed.

Lemma keeps_reject T error detail : keeps T (reject error detail).
Proof. unfold reject. keeps_auto. Qed.

Lemma private_prepare cluster : frames private (prepareUpstreamRequest cluster).
Proof. unfold prepareUpstreamRequest. frames_auto. intros ?. by split. Qed.

Lemma create_fresh cluster :
  triple idle (create_upstream_request cluster) (λ o r, if o is Some _ then balanced 0 r else fresh r) (balanced 0).
Proof.
  unfold create_upstream_request. destruct cb_multiplexing.
  - destruct (cb_getUpstreamHandler cluster) as [e|hid]; [intros r Hr; by apply idle_balanced |].
    intros r [Hq Hc]. rewrite run_bind. cbn [gets]. cbv beta iota. rewrite run_bind, made_run. unfold new_UpstreamRequest. mstep.
    destruct (buf_move_all _ _) as [b o]. mstep. split; [| done]. split; [| by intros ? [= <-]; left].
    unfold counted, obtained, settled, held, conn_of. cbn. by rewrite Hc.
  - eapply triple_bind; [apply private_idle; [apply private_prepare | apply idle_balanced] |]. intros [e|pool].
    + intros r Hr. by apply idle_balanced.
    + eapply triple_bind; [apply new_request_fresh |]. by intros ? r Hr.
Qed.

Lemma decoded_balanced : triple idle Router_onMessageDecoded (λ _, balanced 0) (balanced 0).
Proof.
  unfold Router_onMessageDecoded.
  assert (∀ A (m : M Router A), keeps True m → triple (balanced 0) m (λ _, balanced 0) (balanced 0)) as Hkeeps.
  { intros A m Hm. eapply triple_weaken; [apply (Hm 0) | done | done | by intros r []]. }
  eapply triple_bind; [apply private_idle; [frames_auto | apply idle_balanced] |]. intros t.
  eapply triple_bind; [apply private_idle; [frames_auto | apply idle_balanced] |]. intros ?.
  eapply triple_bind; [apply private_idle; [intros ?; by split | apply idle_balanced] |]. intros ?.
  destruct cb_route as [route|].
  - cbv zeta. eapply triple_bind; [apply private_idle; [apply private_identify | apply idle_balanced] |]. intros ?.
    eapply triple_bind; [apply private_idle; [frames_auto | apply idle_balanced] |]. intros copy.
    eapply triple_bind; [apply private_idle; [intros ?; by split | apply idle_balanced] |]. intros ?.
    eapply triple_bind; [apply create_fresh |]. intros [[e detail]|]; [apply Hkeeps, keeps_reject |].
    eapply (triple_bind _ _ _ (λ _, fresh)); [by intros r Hr |]. intros cluster.
    eapply (triple_bind _ _ _ (λ _, fresh)).
    { intros r [Hb Hc]. split; [| done]. exact (keeps_made False (C_setUpstreamClusterInfo cluster) eq_refl eq_refl 0 r Hb). }
    intros ?. eapply triple_bind; [apply start_balanced |]. intros st. apply Hkeeps.
    apply keeps_bind; [apply keeps_mirror |]. intros ?. apply keeps_ret.
  - eapply triple_bind; [apply private_idle; [frames_auto | apply idle_balanced] |]. intros id.
    eapply triple_weaken; [apply Hkeeps, keeps_reject | apply idle_balanced | done | done].
Qed.

(** ** The life of a router

    The message first; then what the pool, the connection, the handler and the
    connection manager tell it, in any order. *)

Inductive router_event : Type :=
| Ev_PoolReady (conn : connection) (host : string)
| Ev_PoolFailure (reason : PoolFailureReason) (host : string)
| Ev_HandlerReady (host : string)
| Ev_Data (status : UpstreamResponseStatus) (response : option MetadataImpl) (end_stream : bool)
| Ev_Connection (event : ConnectionEvent)
| Ev_Response (response_metadata : MetadataImpl)
| Ev_Destroy.

Definition handle_event (ev : router_event) : M Router unit :=
  match ev with
  | Ev_PoolReady conn host => UpstreamRequest_onPoolReady conn host
  | Ev_PoolFailure reason host => UpstreamRequest_onPoolFailure reason host
  | Ev_HandlerReady host => UpstreamRequestByHandler_onPoolReady host
  | Ev_Data status response end_stream => Router_onUpstreamData status response end_stream
  | Ev_Connection event => Router_onEvent event
  | Ev_Response response_metadata => onUpstreamResponseCallback response_metadata
  | Ev_Destroy => Router_onDestroy
  end.

Inductive router_reachable : Router → Prop :=
| reach_message m mutation o r :
    Router_onMessageDecoded (new_Router m mutation) = (o, r) → (∀ w, o ≠ Panic w) → router_reachable r
| reach_event ev r o r' :
    router_reachable r → handle_event ev r = (o, r') → (∀ w, o ≠ Panic w) → router_reachable r'.

Lemma keeps_handle_event ev : keeps True (handle_event ev).
Proof.
  destruct ev; cbn [handle_event]; auto using keeps_UpstreamRequest_onPoolReady, keeps_UpstreamRequest_onPoolFailure,
    keeps_UpstreamRequestByHandler_onPoolReady, keeps_Router_onUpstreamData, keeps_Router_onEvent, keeps_onUpstreamResponseCallback,
    keeps_Router_onDestroy.
Qed.

Lemma reachable_balanced r : router_reachable r → balanced 0 r.
Proof.
  induction 1 as [m mutation o r Hr Hp | ev r o r' _ IH Hr Hp].
  - pose proof (decoded_balanced (new_Router m mutation) ltac:(done)) as Hb. rewrite Hr in Hb. destruct o; [done | done | by edestruct Hp].
  - pose proof (keeps_handle_event ev 0 r IH) as Hb. rewrite Hr in Hb. destruct o; [done | by destruct Hb | by edestruct Hp].
Qed.

(** What [onDestroy] calls. *)
Definition release_calls (c : option connection) : list call := if c is Some c then [C_release c] else [].
Definition destroy_calls (o : option UpstreamRequestBase) : list call :=
  match o with
  | None => []
  | Some q =>
      match ur_kind q with
      | ByPool _ => (if ur_conn_pool_handle_ q is Some h then [C_cancel h] else []) ++ release_calls (ur_conn_data_ q)
      | ByHandler hid => C_removeUpsteamRequestCallbacks hid :: release_calls (ur_conn_data_ q) ++ [C_dropHandler hid]
      end
  end.

Lemma add_calls_nil r : add_calls [] r = r.
Proof. destruct r. unfold add_calls. cbn. by rewrite app_nil_r. Qed.
Lemma add_calls_app l l' r : add_calls l' (add_calls l r) = add_calls (l ++ l') r.
Proof. unfold add_calls. cbn. by rewrite app_assoc. Qed.
Lemma release_run c r : release c r = (Return tt, add_calls (release_calls c) r).
Proof. destruct c; cbn; [done | by rewrite add_calls_nil]. Qed.

Lemma app_cons_cons {A} (l : list A) a b l' : l ++ a :: b :: l' = (l ++ [a]) ++ b :: l'.
Proof. by rewrite <- app_assoc. Qed.

Lemma destroy_run r :
  balanced 0 r → Router_onDestroy r = (Return tt, add_calls (destroy_calls (ro_upstream_request_ r)) (with_request None r)).
Proof.
  intros [_ Hw]. destruct r as [m mutation rm route [q|] span first cluster calls].
  - specialize (Hw q eq_refl). destruct q as [[pool|hid] ub buf rc rs rd sr [h|] [conn|]]; destruct Hw as [Hw | Hw]; try done;
      cbn; rewrite ?add_calls_nil; unfold add_calls; cbn; rewrite ?app_cons_cons; done.
  - cbn. unfold add_calls, with_request. cbn. by rewrite app_nil_r.
Qed.

(** C25: The account of a router closes. Whatever the pool, the upstream and the connection manager have done to it, in whatever
    order, the router has either no connection or no pending request for one; destroying it fails no assertion, cancels
    the pending request for a connection if there is one and gives back the connection if it holds one, and then as
    many connections have been given back or handed over to a stream as were obtained. *)
Theorem router_connections_settled r :
  router_reachable r →
  (∀ q, ro_upstream_request_ r = Some q → one_connection q) ∧
  ∃ r', Router_onDestroy r = (Return tt, r') ∧ ro_upstream_request_ r' = None ∧
    ro_calls r' = ro_calls r ++ destroy_calls (ro_upstream_request_ r) ∧ obtained r' = obtained r ∧ settled r' = obtained r'.
Proof.
  intros Hr%reachable_balanced. split; [apply Hr |]. eexists. split; [by apply destroy_run |]. split_and!; [done | done | |].
  - unfold obtained. cbn [add_calls ro_calls with_request]. rewrite tally_app.
    assert (tally obtained_call (destroy_calls (ro_upstream_request_ r)) = 0%nat) as ->; [| lia].
    destruct (ro_upstream_request_ r) as [[[pool|hid] ub buf rc rs rd sr [h|] [conn|]]|]; reflexivity.
  - pose proof (keeps_Router_onDestroy False 0 r Hr) as Hb. rewrite destroy_run in Hb by done. destruct Hb as [Hb _].
    unfold counted in Hb. cbn in Hb |- *. lia.
Qed.
End operations.
