(* ===== verification/RouterOutcome.v ===== *)
(** * What becomes of a request

    The outcomes of a request in the router: refused with one reply, sent on a
    connection, at once or when the pool has one, or failed with one reply; and what
    the router does when the response cannot be decoded. *)

From S2P Require Import Prelude Envoy Metadata Codec Decoder Network ConnManager UpstreamHandler Route RequestId Tracing UpstreamRequest Router RouterAccount.

Section outcome.
Context {E : Envoy} {C : CodecOps E} {N : NetworkOps} {V : RequestEnv} {R : RouteEnv E} {D : TracingDriver} {X : RouterEnv}.
Implicit Types (r : Router) (q : UpstreamRequestBase).

(** ** Where a request goes *)

Definition destination (cluster_name : string) : (Error * string) + new_connection :=
  match thread_local_cluster cluster_name with
  | None => inl ({| error_type := ErrorType_ClusterNotFound;
                    error_message := "meta protocol router: unknown cluster '" +:+ cluster_name +:+ "'" |}, "unknown_cluster")
  | Some (true, _) =>
      inl ({| error_type := ErrorType_Unspecified;
              error_message := "meta protocol router: maintenance mode for cluster '" +:+ cluster_name +:+ "'" |},
           "cluster_in_maintenance_mode")
  | Some (false, None) =>
      inl ({| error_type := ErrorType_NoHealthyUpstream;
              error_message := "meta protocol router: no healthy upstream for '" +:+ cluster_name +:+ "'" |}, "no_healthy_upstream")
  | Some (false, Some pool) => inr pool
  end.

Definition with_cluster (o : option string) r : Router :=
  {| ro_request_metadata_ := ro_request_metadata_ r; ro_request_mutation := ro_request_mutation r;
     ro_response_metadata_ := ro_response_metadata_ r; ro_route_ := ro_route_ r;
     ro_upstream_request_ := ro_upstream_request_ r; ro_active_span_ := ro_active_span_ r;
     ro_is_first_span_ := ro_is_first_span_ r; ro_cluster_ := o; ro_calls := ro_calls r |}.

Lemma prepare_run cluster_name r :
  prepareUpstreamRequest cluster_name r =
    (Return (destination cluster_name),
     if thread_local_cluster cluster_name is Some _ then with_cluster (Some cluster_name) r else r).
Proof. unfold prepareUpstreamRequest, destination. by destruct (thread_local_cluster cluster_name) as [[[] [pool|]]|]. Qed.

Definition rejected (error : Error) (detail : string) : list call :=
  [C_log false ResponseStatus_Error detail; C_sendLocalReply (AppException error) false].
Lemma reject_run error detail r : reject error detail r = (Return FilterStatus_AbortIteration, add_calls (rejected error detail) r).
Proof. unfold reject, emitLogEntry. rewrite run_bind, made_run, run_bind, made_run. by rewrite add_calls_app. Qed.

(** The copies of the request that go to the mirrors *)
Fixpoint mirror_calls (policies : list RequestMirrorPolicyImpl) (n : nat) (copy : MetadataImpl) (mutation : Mutation) : list call :=
  match policies with
  | [] => []
  | policy :: policies =>
      (if shouldShadow policy (rand n) then [C_submit (mirror_cluster_name_ policy) (clone copy) mutation] else []) ++
      mirror_calls policies (S n) copy mutation
  end.
Lemma mirror_run policies n copy r :
  mirror policies n copy r = (Return tt, add_calls (mirror_calls policies n copy (ro_request_mutation r)) r).
Proof.
  revert n r. induction policies as [|p l IH]; intros n r; cbn [mirror mirror_calls]; [by rewrite add_calls_nil |].
  rewrite run_bind. destruct (shouldShadow p (rand n)).
  - rewrite run_bind. cbn [gets]. cbv beta iota. rewrite made_run, IH, add_calls_app. reflexivity.
  - cbn [mret M_ret]. cbv beta iota. rewrite IH. reflexivity.
Qed.

(** ** The request until it has a connection *)

Definition new_request (pool : new_connection) (message : buffer) : UpstreamRequestBase :=
  {| ur_kind := ByPool pool; ur_upstream_host_ := None; ur_upstream_request_buffer_ := message;
     ur_request_complete_ := false; ur_response_started_ := false; ur_response_complete_ := false;
     ur_stream_reset_ := false; ur_conn_pool_handle_ := None; ur_conn_data_ := None |}.
Lemma new_request_run pool r :
  new_UpstreamRequest (ByPool pool) r =
    (Return tt, let '(message, rest) := buf_move_all buf_new (origin_message_ (ro_request_metadata_ r)) in
                with_request (Some (new_request pool message)) (with_metadata ((ro_request_metadata_ r) <| origin_message_ := rest |>) r)).
Proof.
  unfold new_UpstreamRequest. rewrite run_bind. cbn [gets]. cbv beta iota. cbn [shared_metadata router_owner].
  by destruct (buf_move_all _ _).
Qed.
(** The router with the request, whose message has left the metadata. *)
Definition requesting (pool : new_connection) (cluster_name : string) (route : Route) r : Router :=
  let '(message, rest) := buf_move_all buf_new (origin_message_ (ro_request_metadata_ r)) in
  {| ro_request_metadata_ := (ro_request_metadata_ r) <| origin_message_ := rest |>;
     ro_request_mutation := requestMutation route (ro_request_mutation r); ro_response_metadata_ := ro_response_metadata_ r;
     ro_route_ := ro_route_ r; ro_upstream_request_ := Some (new_request pool message);
     ro_active_span_ := ro_active_span_ r; ro_is_first_span_ := ro_is_first_span_ r; ro_cluster_ := Some cluster_name;
     ro_calls := ro_calls r ++ [C_setUpstreamClusterInfo (Some cluster_name)] |}.

Definition with_route (o : option Route) r : Router :=
  {| ro_request_metadata_ := ro_request_metadata_ r; ro_request_mutation := ro_request_mutation r;
     ro_response_metadata_ := ro_response_metadata_ r; ro_route_ := o;
     ro_upstream_request_ := ro_upstream_request_ r; ro_active_span_ := ro_active_span_ r;
     ro_is_first_span_ := ro_is_first_span_ r; ro_cluster_ := ro_cluster_ r; ro_calls := ro_calls r |}.
Definition requests (m : MetadataImpl) : Prop := message_type_ m = MessageType_Request ∨ message_type_ m = MessageType_Stream_Init.

Lemma decoded_run route r r1 :
  cb_route = Some route → cb_multiplexing = false → requests (ro_request_metadata_ r) →
  identify_and_trace (clusterName route) (with_route (Some route) r) = (Return tt, r1) →
  match destination (clusterName route) with
  | inl (error, detail) => ∃ r2, Router_onMessageDecoded r = reject error detail r2 ∧ private r1 r2 ∧ ro_request_metadata_ r2 = ro_request_metadata_ r1
  | inr pool =>
      Router_onMessageDecoded r =
        (filter_status ← UpstreamRequest_start;
         _ ← mirror (requestMirrorPolicies route) 0 (clone (ro_request_metadata_ r1));
         mret filter_status) (requesting pool (clusterName route) route r1)
  end.
Proof.
  intros Hroute Hmux Ht Hid. unfold Router_onMessageDecoded. rewrite Hroute, run_bind. cbn [gets]. cbv beta iota.
  rewrite run_bind. unfold ASSERT. rewrite bool_decide_true by done. cbn [assert_that lift]. cbv beta iota.
  rewrite run_bind. cbn [modify]. cbv beta iota zeta. change (r <| ro_route_ := Some route |>) with (with_route (Some route) r).
  rewrite run_bind, Hid. cbv beta iota. rewrite run_bind. cbn [gets]. cbv beta iota. rewrite run_bind. cbn [modify]. cbv beta iota.
  unfold create_upstream_request. rewrite Hmux, run_bind, run_bind, prepare_run. cbv beta iota. unfold destination.
  destruct (thread_local_cluster (clusterName route)) as [[[] [pool|]]|]; cbv beta iota zeta; try (eexists; by split_and!).
  unfold requesting. rewrite run_bind, new_request_run. cbn [with_cluster ro_request_metadata_].
  change (ro_request_metadata_ (r1 <| ro_request_mutation ::= requestMutation route |>)) with (ro_request_metadata_ r1).
  by destruct (buf_move_all _ _).
Qed.

(** ** A connection is ready *)

(** States are written as a request, then the metadata, then the calls. *)
Lemma with_request_twice o o' r : with_request o (with_request o' r) = with_request o r.
Proof. reflexivity. Qed.
Lemma with_metadata_request m o r : with_metadata m (with_request o r) = with_request o (with_metadata m r).
Proof. reflexivity. Qed.
Lemma add_calls_request l o r : add_calls l (with_request o r) = with_request o (add_calls l r).
Proof. reflexivity. Qed.
Lemma add_calls_metadata l m r : add_calls l (with_metadata m r) = with_metadata m (add_calls l r).
Proof. reflexivity. Qed.

Ltac tidy_state :=
  repeat progress rewrite ?with_request_twice, ?add_calls_request, ?with_metadata_request, ?add_calls_metadata, ?add_calls_app.

Lemma made_if {A} (P : Prop) `{Decision P} c (rest : unit → M Router A) r :
  ((if decide P then made c else mret tt) ≫= rest) r = rest tt (add_calls (if decide P then [c] else []) r).
Proof. rewrite run_bind. case_decide; [done | by rewrite add_calls_nil]. Qed.
Lemma request_start_run {A} b (rest : unit → M Router A) r :
  (onRequestStart b ≫= rest) r = rest tt (add_calls (if b then [C_continueDecoding] else []) r).
Proof. rewrite run_bind. destruct b; [done | cbn; by rewrite add_calls_nil]. Qed.

(** The metadata as it is encoded: it has got the address of the upstream. *)
Definition addressed (conn : connection) (m : MetadataImpl) : MetadataImpl := putString RealServerAddress (remoteAddress conn) m.
Definition streams (m : MetadataImpl) : bool := bool_decide (message_type_ m = MessageType_Stream_Init).

(** The request with the message written to its connection; that of a stream is handed
    over. *)
Definition sent_request (host : string) (sent : connection) (stream : bool) q : UpstreamRequestBase :=
  {| ur_kind := ur_kind q; ur_upstream_host_ := Some host; ur_upstream_request_buffer_ := buf_new;
     ur_request_complete_ := true; ur_response_started_ := ur_response_started_ q; ur_response_complete_ := ur_response_complete_ q;
     ur_stream_reset_ := ur_stream_reset_ q; ur_conn_pool_handle_ := None; ur_conn_data_ := if stream then None else Some sent |}.
Definition sent_calls (host : string) (sent : connection) (stream waited : bool) : list call :=
  [C_hostSelected host; C_putResult host LocalOriginConnectSuccess] ++ (if stream then [] else [C_addUpstreamCallbacks]) ++
  (if waited then [C_continueDecoding] else []) ++ (if stream then [C_resetStream; C_setUpstreamConnection (Some sent)] else []).

Definition encodes (m : MetadataImpl) (mutation : Mutation) (message : buffer) (data : bytes) : Prop :=
  ∃ codec b, codec_encode m mutation (codec_init, message) = (Return tt, (codec, b)) ∧ contents b = data.

Lemma encode_request_run q data r :
  ro_upstream_request_ r = Some q → encodes (ro_request_metadata_ r) (ro_request_mutation r) (ur_upstream_request_buffer_ q) data →
  ∃ b, encode_request r = (Return data, with_request (Some (q <| ur_upstream_request_buffer_ := b |>)) r).
Proof.
  intros Hq (codec & b & He & Hd). exists b. unfold encode_request. rewrite run_bind, (get_request_run q) by done. rewrite run_bind.
  cbn [owner_createCodec router_owner mret M_ret]. cbv beta iota. rewrite run_bind. cbn [gets]. cbv beta iota. rewrite run_bind.
  cbn [gets]. cbv beta iota. cbn [shared_metadata shared_mutation router_owner]. rewrite He, run_bind, (on_request_run _ q) by done.
  cbv beta iota. by rewrite Hd.
Qed.

Lemma encodeData_run pool conn q data r :
  ro_upstream_request_ r = Some q → ur_kind q = ByPool pool → ur_conn_data_ q = Some conn → ur_conn_pool_handle_ q = None →
  encodes (ro_request_metadata_ r) (ro_request_mutation r) (ur_upstream_request_buffer_ q) data →
  encodeData r = (Return tt, with_request (Some (q <| ur_upstream_request_buffer_ := buf_new |>
                                                   <| ur_conn_data_ := Some (conn_write conn data false) |>)) r).
Proof.
  intros Hq Hk Hc Hh He. destruct (encode_request_run q data r Hq He) as [b Hb]. unfold encodeData.
  rewrite run_bind, (get_request_run q) by done. cbv beta iota. rewrite Hk, Hc, Hh, run_bind. cbn [ASSERT assert_that lift]. cbv beta iota.
  rewrite run_bind. cbn [ASSERT assert_that lift bool_decide]. cbv beta iota. rewrite run_bind, Hb. cbv beta iota.
  erewrite on_request_run by reflexivity. destruct q. cbn in Hc. by rewrite Hc.
Qed.

Lemma pool_ready_run pool conn host q data r :
  ro_upstream_request_ r = Some q → ur_kind q = ByPool pool → ur_conn_data_ q = None → requests (ro_request_metadata_ r) →
  encodes (addressed conn (ro_request_metadata_ r)) (ro_request_mutation r) (ur_upstream_request_buffer_ q) data →
  let sent := conn_write conn data false in
  let stream := streams (ro_request_metadata_ r) in
  UpstreamRequest_onPoolReady conn host r =
    (Return tt, with_request (Some (sent_request host sent stream q)) (with_metadata (addressed conn (ro_request_metadata_ r))
                  (add_calls (sent_calls host sent stream (bool_decide (ur_conn_pool_handle_ q ≠ None))) r))).
Proof.
  intros Hq Hk Hc Ht He sent stream. unfold UpstreamRequest_onPoolReady. rewrite run_bind.
  cbn [record_call owner_onUpstreamHostSelected router_owner]. rewrite made_run, run_bind, (get_request_run q) by done. cbv beta iota zeta.
  rewrite run_bind. unfold onUpstreamHostSelected. rewrite (on_request_run _ q) by done. rewrite run_bind, made_run, run_bind, release_run, Hc.
  rewrite run_bind. erewrite on_request_run by reflexivity. rewrite run_bind. cbn [gets]. cbv beta iota.
  cbn [shared_metadata router_owner with_request add_calls ro_request_metadata_].
  rewrite made_if, run_bind. erewrite on_request_run by reflexivity. cbv beta iota.
  rewrite run_bind. cbn [modify]. cbv beta iota.
  match goal with |- context [set_shared_metadata _ ?s] =>
    change (set_shared_metadata _ s) with (with_metadata (addressed conn (ro_request_metadata_ r)) s) end.
  assert (message_type_ (addressed conn (ro_request_metadata_ r)) = message_type_ (ro_request_metadata_ r)) as Hmt by done.
  generalize dependent (addressed conn (ro_request_metadata_ r)). intros m' He Hmt.
  rewrite request_start_run, run_bind.
  erewrite (encodeData_run pool conn _ data) by (reflexivity || done). cbv beta iota.
  rewrite run_bind. cbn [gets]. cbv beta iota.
  match goal with |- context [decide (message_type_ (ro_request_metadata_ ?s) = MessageType_Stream_Init)] =>
    change (message_type_ (ro_request_metadata_ s)) with (message_type_ m') end.
  rewrite Hmt.
  unfold stream, streams. destruct Ht as [Ht | Ht]; rewrite Ht.
  - rewrite decide_False, bind_ret_l by done. unfold onRequestComplete. erewrite on_request_run by reflexivity.
    tidy_state. repeat f_equal. unfold sent_calls. by destruct (bool_decide (ur_conn_pool_handle_ q ≠ None)).
  - rewrite decide_True, run_bind, run_bind by done. cbn [owner_resetStream owner_setUpstreamConnection router_owner]. rewrite made_run, run_bind.
    erewrite get_request_run by reflexivity. rewrite run_bind. erewrite on_request_run by reflexivity. rewrite made_run. cbv beta iota.
    unfold onRequestComplete. erewrite on_request_run by reflexivity.
    tidy_state. by repeat f_equal.
Qed.

(** ** No connection *)

Definition reset_message (reason : PoolFailureReason) (host : string) : string :=
  match reason with
  | Overflow => "meta protocol upstream request: too many connections"
  | LocalConnectionFailure => "meta protocol upstream request: local connection failure '" +:+ host +:+ "'"
  | RemoteConnectionFailure => "meta protocol upstream request: remote connection failure '" +:+ host +:+ "'"
  | Timeout => "meta protocol upstream request: connection failure '" +:+ host +:+ "' due to timeout"
  end.
(** The client gets a reply and the message is dropped. *)
Definition reset_calls (reason : PoolFailureReason) (host : string) : list call :=
  [C_sendLocalReply (unspecified (reset_message reason host)) false; C_resetStream].

Lemma reset_run reason host q r :
  ro_upstream_request_ r = Some q → ur_upstream_host_ q = Some host → ur_response_complete_ q = false →
  message_type_ (ro_request_metadata_ r) ≠ MessageType_Oneway →
  onUpstreamConnectionReset reason r = (Return tt, add_calls (reset_calls reason host) r).
Proof.
  intros Hq Hh Hc Ht. unfold onUpstreamConnectionReset. rewrite run_bind. cbn [gets]. cbv beta iota. cbn [shared_metadata router_owner].
  rewrite decide_False, run_bind by done. cbn [owner_sendLocalReply owner_resetStream router_owner].
  assert (host_address r = (Return host, r)) as Ha by (unfold host_address; by rewrite run_bind, (get_request_run q), Hh).
  destruct reason; rewrite ?run_bind, ?Ha; cbv beta iota; rewrite made_run, run_bind, (get_request_run q) by done; cbv beta iota;
    rewrite Hc; cbn [negb]; rewrite made_run; by tidy_state.
Qed.

(** What the failure says of the host, and whether the filter chain was left waiting. *)
Definition failure_calls (reason : PoolFailureReason) (host : string) : list call :=
  C_hostSelected host :: reset_calls reason host ++
  match reason with
  | Overflow => []
  | LocalConnectionFailure => [C_continueDecoding]
  | RemoteConnectionFailure => [C_putResult host LocalOriginConnectFailed; C_continueDecoding]
  | Timeout => [C_putResult host LocalOriginTimeout; C_continueDecoding]
  end.
Definition failed_request (host : string) q : UpstreamRequestBase :=
  {| ur_kind := ur_kind q; ur_upstream_host_ := Some host; ur_upstream_request_buffer_ := buf_new;
     ur_request_complete_ := ur_request_complete_ q; ur_response_started_ := ur_response_started_ q;
     ur_response_complete_ := ur_response_complete_ q; ur_stream_reset_ := ur_stream_reset_ q; ur_conn_pool_handle_ := None;
     ur_conn_data_ := ur_conn_data_ q |}.

Lemma pool_failure_run pool reason host q r :
  ro_upstream_request_ r = Some q → ur_kind q = ByPool pool → ur_response_complete_ q = false →
  message_type_ (ro_request_metadata_ r) ≠ MessageType_Oneway →
  UpstreamRequest_onPoolFailure reason host r =
    (Return tt, with_request (Some (failed_request host q)) (add_calls (failure_calls reason host) r)).
Proof.
  intros Hq Hk Hc Ht. unfold UpstreamRequest_onPoolFailure. rewrite run_bind, (get_request_run q) by done. cbv beta iota.
  rewrite Hk, run_bind. cbn [record_call owner_onUpstreamHostSelected owner_continueDecoding router_owner]. rewrite made_run, run_bind.
  rewrite (on_request_run _ q) by done. rewrite run_bind. unfold onUpstreamHostSelected. erewrite on_request_run by reflexivity.
  rewrite run_bind. erewrite (reset_run reason host) by (reflexivity || done). cbv beta iota. rewrite run_bind.
  erewrite on_request_run by reflexivity. cbv beta iota.
  destruct reason; cbn [connection_error]; rewrite ?run_bind, ?made_run; cbv beta iota; cbn [mret M_ret]; rewrite ?made_run; tidy_state;
    by repeat f_equal.
Qed.

(** ** The outcomes *)

Lemma requesting_state pool cluster_name route r :
  let '(message, rest) := buf_move_all buf_new (origin_message_ (ro_request_metadata_ r)) in
  ro_upstream_request_ (requesting pool cluster_name route r) = Some (new_request pool message) ∧
  ro_request_metadata_ (requesting pool cluster_name route r) = (ro_request_metadata_ r) <| origin_message_ := rest |> ∧
  ro_request_mutation (requesting pool cluster_name route r) = requestMutation route (ro_request_mutation r) ∧
  ro_calls (requesting pool cluster_name route r) = ro_calls r ++ [C_setUpstreamClusterInfo (Some cluster_name)].
Proof. unfold requesting. by destruct (buf_move_all _ _). Qed.

Lemma start_run pool q r :
  ro_upstream_request_ r = Some q → ur_kind q = ByPool pool →
  UpstreamRequest_start r =
    match pool with
    | NC_Pending h => (Return FilterStatus_PauseIteration,
                       with_request (Some (q <| ur_conn_pool_handle_ := Some h |>)) (add_calls [C_newConnection] r))
    | NC_Ready conn host => (_ ← UpstreamRequest_onPoolReady conn host; mret FilterStatus_ContinueIteration) (add_calls [C_newConnection] r)
    | NC_Failure reason host => (_ ← UpstreamRequest_onPoolFailure reason host; mret FilterStatus_ContinueIteration) (add_calls [C_newConnection] r)
    end.
Proof.
  intros Hq Hk. unfold UpstreamRequest_start. rewrite run_bind, (get_request_run q) by done. cbv beta iota. rewrite Hk, run_bind.
  cbn [record_call router_owner]. rewrite made_run. cbv beta iota. destruct pool; [| done | done]. by rewrite run_bind, (on_request_run _ q).
Qed.

Definition outset (cluster_name : string) : list call := [C_setUpstreamClusterInfo (Some cluster_name); C_newConnection].
Definition reply_call (c : call) : nat := match c with C_sendLocalReply _ _ => 1 | _ => 0 end.

Lemma mirror_no_reply policies n copy mutation : tally reply_call (mirror_calls policies n copy mutation) = 0%nat.
Proof.
  revert n. induction policies as [|p l IH]; intros n; cbn [mirror_calls]; [done |]. rewrite tally_app, IH.
  by destruct (shouldShadow _ _).
Qed.

Lemma identified_calls cluster_name r r1 :
  idle r → identify_and_trace cluster_name r = (Return tt, r1) → idle r1.
Proof. intros [Hq Hc] Hid. pose proof (private_identify cluster_name r) as Hp. rewrite Hid in Hp. destruct Hp. split; cbn in *; congruence. Qed.

Section routed.
(** A request the connection manager gives to the router, on the path without multiplexing *)
Context (route : Route) (r r1 : Router).
Context (Hroute : cb_route = Some route) (Hmux : cb_multiplexing = false) (Hidle : idle r).
Context (Ht : requests (ro_request_metadata_ r)) (Ht1 : requests (ro_request_metadata_ r1)).
Context (Hid : identify_and_trace (clusterName route) (with_route (Some route) r) = (Return tt, r1)).
Let cluster := clusterName route.
Let mirrored := mirror_calls (requestMirrorPolicies route) 0 (clone (ro_request_metadata_ r1)) (requestMutation route (ro_request_mutation r1)).

Lemma routed_idle : idle r1.
Proof. exact (identified_calls _ (with_route (Some route) r) r1 Hidle Hid). Qed.

Lemma routed_refused error detail :
  destination cluster = inl (error, detail) →
  ∃ r', Router_onMessageDecoded r = (Return FilterStatus_AbortIteration, r') ∧ ro_upstream_request_ r' = None ∧
    ro_calls r' = rejected error detail ∧ ro_request_metadata_ r' = ro_request_metadata_ r1.
Proof.
  intros Hd. pose proof (decoded_run route r r1 Hroute Hmux Ht Hid) as Hrun. fold cluster in Hrun. rewrite Hd in Hrun.
  destruct Hrun as (r2 & -> & [Hq Hc] & Hm). rewrite reject_run. eexists. split; [reflexivity |]. cbn [add_calls ro_upstream_request_ ro_calls ro_request_metadata_].
  destruct routed_idle as [-> ->] in Hq, Hc. by rewrite Hq, Hc, Hm.
Qed.

Let message := fst (buf_move_all buf_new (origin_message_ (ro_request_metadata_ r1))).
Let rest := snd (buf_move_all buf_new (origin_message_ (ro_request_metadata_ r1))).

Lemma routed_started pool :
  destination cluster = inr pool →
  ∃ r2, Router_onMessageDecoded r = (filter_status ← UpstreamRequest_start;
         _ ← mirror (requestMirrorPolicies route) 0 (clone (ro_request_metadata_ r1)); mret filter_status) r2 ∧
    ro_upstream_request_ r2 = Some (new_request pool message) ∧
    ro_request_metadata_ r2 = (ro_request_metadata_ r1) <| origin_message_ := rest |> ∧
    ro_request_mutation r2 = requestMutation route (ro_request_mutation r1) ∧
    ro_calls r2 = [C_setUpstreamClusterInfo (Some cluster)].
Proof.
  intros Hd. pose proof (decoded_run route r r1 Hroute Hmux Ht Hid) as Hrun. fold cluster in Hrun. rewrite Hd in Hrun. rewrite Hrun.
  eexists. split; [reflexivity |]. pose proof (requesting_state pool cluster route r1) as Hs. unfold message, rest.
  destruct (buf_move_all _ _) as [b o]. destruct Hs as (Hq & Hm & Hmut & Hc). destruct routed_idle as [_ ->] in Hc. by split_and!.
Qed.

(** The metadata the request shares with the router *)
Let metadata := (ro_request_metadata_ r1) <| origin_message_ := rest |>.
Let mutation := requestMutation route (ro_request_mutation r1).

Lemma routed_waits h :
  destination cluster = inr (NC_Pending h) →
  ∃ r', Router_onMessageDecoded r = (Return FilterStatus_PauseIteration, r') ∧
    ro_upstream_request_ r' = Some ((new_request (NC_Pending h) message) <| ur_conn_pool_handle_ := Some h |>) ∧
    ro_request_metadata_ r' = metadata ∧ ro_request_mutation r' = mutation ∧ ro_calls r' = outset cluster ++ mirrored.
Proof.
  intros Hd. destruct (routed_started _ Hd) as (r2 & -> & Hq & Hm & Hmut & Hc). rewrite run_bind, (start_run _ _ _ Hq eq_refl).
  cbv beta iota. rewrite run_bind, mirror_run. cbn [mret M_ret]. cbv beta iota. eexists. split; [reflexivity |].
  cbn [with_request add_calls ro_upstream_request_ ro_request_metadata_ ro_request_mutation ro_calls]. rewrite Hm, Hmut, Hc. by split_and!.
Qed.

Lemma routed_sent conn host data :
  destination cluster = inr (NC_Ready conn host) → encodes (addressed conn metadata) mutation message data →
  let sent := conn_write conn data false in let stream := streams (ro_request_metadata_ r1) in
  ∃ r', Router_onMessageDecoded r = (Return FilterStatus_ContinueIteration, r') ∧
    ro_upstream_request_ r' = Some (sent_request host sent stream (new_request (NC_Ready conn host) message)) ∧
    ro_calls r' = outset cluster ++ sent_calls host sent stream false ++ mirrored ∧
    ro_request_metadata_ r' = addressed conn metadata.
Proof.
  intros Hd He sent stream. destruct (routed_started _ Hd) as (r2 & -> & Hq & Hm & Hmut & Hc).
  rewrite run_bind, (start_run _ _ _ Hq eq_refl), run_bind.
  rewrite (pool_ready_run (NC_Ready conn host) conn host (new_request (NC_Ready conn host) message) data (add_calls [C_newConnection] r2) Hq eq_refl eq_refl).
  - cbv beta iota. cbn [mret M_ret]. rewrite run_bind, mirror_run. cbv beta iota. cbn [mret M_ret]. eexists. split; [reflexivity |].
    cbn [with_request with_metadata add_calls ro_upstream_request_ ro_request_metadata_ ro_request_mutation ro_calls].
    rewrite Hm, Hmut, Hc, <- !app_assoc. by split_and!.
  - cbn [add_calls ro_request_metadata_]. by rewrite Hm.
  - cbn [add_calls ro_request_metadata_ ro_request_mutation ur_upstream_request_buffer_ new_request]. by rewrite Hm, Hmut.
Qed.

Lemma routed_failed reason host :
  destination cluster = inr (NC_Failure reason host) →
  ∃ r', Router_onMessageDecoded r = (Return FilterStatus_ContinueIteration, r') ∧ conn_of r' = None ∧
    ro_calls r' = outset cluster ++ failure_calls reason host ++ mirrored ∧ ro_request_metadata_ r' = metadata.
Proof.
  intros Hd. destruct (routed_started _ Hd) as (r2 & -> & Hq & Hm & Hmut & Hc).
  rewrite run_bind, (start_run _ _ _ Hq eq_refl), run_bind.
  rewrite (pool_failure_run (NC_Failure reason host) reason host (new_request (NC_Failure reason host) message) (add_calls [C_newConnection] r2) Hq eq_refl eq_refl).
  - cbv beta iota. cbn [mret M_ret]. rewrite run_bind, mirror_run. cbv beta iota. cbn [mret M_ret]. eexists. split; [reflexivity |].
    cbn [with_request with_metadata add_calls ro_upstream_request_ ro_request_metadata_ ro_request_mutation ro_calls].
    rewrite Hmut, Hc, <- !app_assoc. by split_and!.
  - cbn [add_calls ro_request_metadata_]. rewrite Hm. cbn. destruct Ht1 as [-> | ->]; done.
Qed.
End routed.

(** A pool that has the connection now or gives it later *)
Definition pool_gives (pool : new_connection) (conn : connection) (host : string) : Prop :=
  match pool with NC_Ready conn' host' => conn' = conn ∧ host' = host | NC_Pending _ => True | NC_Failure _ _ => False end.

(** C24: A request that has a route and a healthy cluster is encoded and written to the upstream exactly once: with the metadata
    that has the address of the upstream, the mutation of the route and the message of the client, by a codec of its own.
    If the pool has a connection this happens at once and the filter chain goes on; otherwise nothing is written, the
    chain pauses, and the same bytes are written when the connection comes, which also resumes the chain. The connection
    of a stream is handed over to it. Every mirror that is enabled gets a copy of the request as it was before. *)
Theorem router_request_sent (route : Route) r r1 (pool : new_connection) (conn : connection) (host : string) (data : bytes) :
  cb_route = Some route → cb_multiplexing = false → idle r → requests (ro_request_metadata_ r) → requests (ro_request_metadata_ r1) →
  identify_and_trace (clusterName route) (with_route (Some route) r) = (Return tt, r1) →
  destination (clusterName route) = inr pool → pool_gives pool conn host →
  let '(message, rest) := buf_move_all buf_new (origin_message_ (ro_request_metadata_ r1)) in
  let mutation := requestMutation route (ro_request_mutation r1) in
  encodes (addressed conn ((ro_request_metadata_ r1) <| origin_message_ := rest |>)) mutation message data →
  let sent := conn_write conn data false in
  let stream := streams (ro_request_metadata_ r1) in
  let mirrored := mirror_calls (requestMirrorPolicies route) 0 (clone (ro_request_metadata_ r1)) mutation in
  ∃ r', conn_of r' = (if stream then None else Some sent) ∧
    match pool with
    | NC_Pending _ =>
        ∃ rp, Router_onMessageDecoded r = (Return FilterStatus_PauseIteration, rp) ∧ conn_of rp = None ∧
          ro_calls rp = outset (clusterName route) ++ mirrored ∧
          UpstreamRequest_onPoolReady conn host rp = (Return tt, r') ∧
          ro_calls r' = ro_calls rp ++ sent_calls host sent stream true
    | _ =>
        Router_onMessageDecoded r = (Return FilterStatus_ContinueIteration, r') ∧
        ro_calls r' = outset (clusterName route) ++ sent_calls host sent stream false ++ mirrored
    end.
Proof.
  intros Hroute Hmux Hidle Ht Ht1 Hid Hd Hg. rewrite (surjective_pairing (buf_move_all _ _)). intros mutation He sent stream mirrored.
  destruct pool as [h|conn' host'|]; [| destruct Hg as [-> ->] | done].
  - destruct (routed_waits route r r1 Hroute Hmux Hidle Ht Hid h Hd) as (rp & Hrp & Hq & Hm & Hmut & Hc).
    assert (requests (ro_request_metadata_ rp)) as Htp by by rewrite Hm.
    epose proof (pool_ready_run (NC_Pending h) conn host _ data rp Hq eq_refl eq_refl Htp ltac:(by rewrite Hm, Hmut)) as Hready.
    rewrite Hm in Hready. eexists. split; [| exists rp; split_and!; [exact Hrp | unfold conn_of; by rewrite Hq | exact Hc | exact Hready | done]].
    unfold conn_of. cbn. by destruct (streams _).
  - destruct (routed_sent route r r1 Hroute Hmux Hidle Ht Ht1 Hid conn host data Hd He) as (r' & Hr' & Hq & Hc & _).
    exists r'. split_and!; [| done | done]. unfold conn_of. by rewrite Hq.
Qed.

(** C26: A request that cannot be sent is answered exactly once. Without a route, with an unknown cluster, a cluster in maintenance
    mode or one without a healthy host, the router writes one access log entry, sends one reply that names the cause and
    stops the filter chain, without a request to the upstream; when the pool fails, at once or later, it sends one reply
    that names the reason, drops the message and holds no connection. *)
Theorem router_request_refused r :
  cb_multiplexing = false → idle r → requests (ro_request_metadata_ r) →
  match cb_route with
  | None =>
      ∃ r', Router_onMessageDecoded r = (Return FilterStatus_AbortIteration, r') ∧ ro_upstream_request_ r' = None ∧
        ro_calls r' = rejected {| error_type := ErrorType_RouteNotFound;
          error_message := "meta protocol router: no matched route for request '" +:+ pretty (request_id_ (ro_request_metadata_ r)) +:+ "'" |}
          "no_matched_route"
  | Some route =>
      ∀ r1, requests (ro_request_metadata_ r1) → identify_and_trace (clusterName route) (with_route (Some route) r) = (Return tt, r1) →
      let mirrored := mirror_calls (requestMirrorPolicies route) 0 (clone (ro_request_metadata_ r1))
                        (requestMutation route (ro_request_mutation r1)) in
      match destination (clusterName route) with
      | inl (error, detail) =>
          ∃ r', Router_onMessageDecoded r = (Return FilterStatus_AbortIteration, r') ∧ ro_upstream_request_ r' = None ∧
            ro_calls r' = rejected error detail
      | inr (NC_Failure reason host) =>
          ∃ r', Router_onMessageDecoded r = (Return FilterStatus_ContinueIteration, r') ∧ conn_of r' = None ∧
            ro_calls r' = outset (clusterName route) ++ failure_calls reason host ++ mirrored ∧ tally reply_call (ro_calls r') = 1%nat
      | inr (NC_Pending _) =>
          ∃ rp, Router_onMessageDecoded r = (Return FilterStatus_PauseIteration, rp) ∧ tally reply_call (ro_calls rp) = 0%nat ∧
            ∀ reason host, ∃ r', UpstreamRequest_onPoolFailure reason host rp = (Return tt, r') ∧ conn_of r' = None ∧
              ro_calls r' = outset (clusterName route) ++ mirrored ++ failure_calls reason host ∧ tally reply_call (ro_calls r') = 1%nat
      | inr (NC_Ready _ _) => True
      end
  end.
Proof.
  intros Hmux Hidle Ht. destruct cb_route as [route|] eqn:Hroute.
  - intros r1 Ht1 Hid mirrored. destruct (destination (clusterName route)) as [[error detail]|[h|conn host|reason host]] eqn:Hd; [| | done |].
    + destruct (routed_refused route r r1 Hroute Hmux Hidle Ht Hid error detail Hd) as (r' & ? & ? & ? & _). by exists r'.
    + destruct (routed_waits route r r1 Hroute Hmux Hidle Ht Hid h Hd) as (rp & Hrp & Hq & Hm & Hmut & Hc). exists rp.
      split_and!; [done | rewrite Hc, tally_app; unfold mirrored; by rewrite mirror_no_reply |]. intros reason host. eexists. split.
      { eapply (pool_failure_run (NC_Pending h)); [exact Hq | done | done |]. rewrite Hm. cbn. by destruct Ht1 as [-> | ->]. }
      cbn [with_request add_calls ro_calls]. rewrite Hc, <- !app_assoc. split_and!; [done | done |].
      rewrite !tally_app. unfold mirrored. rewrite mirror_no_reply. by destruct reason.
    + destruct (routed_failed route r r1 Hroute Hmux Hidle Ht Ht1 Hid reason host Hd) as (r' & Hr' & Hn & Hc & _). exists r'.
      split_and!; [done | done | done |]. rewrite Hc, !tally_app. rewrite mirror_no_reply. by destruct reason.
  - unfold Router_onMessageDecoded. rewrite Hroute, run_bind. cbn [gets]. cbv beta iota.
    rewrite run_bind. unfold ASSERT. rewrite bool_decide_true by done. cbn [assert_that lift]. cbv beta iota.
    rewrite run_bind. cbn [modify]. cbv beta iota. rewrite run_bind. cbn [gets]. cbv beta iota. rewrite reject_run.
    eexists. split; [reflexivity |]. destruct Hidle as [Hq Hc]. split; [done |]. cbn [add_calls ro_calls].
    change (ro_calls (r <| ro_route_ := None |>)) with (ro_calls r). by rewrite Hc.
Qed.

(** ** A response that cannot be decoded *)

Definition with_span (o : option Span) r : Router :=
  {| ro_request_metadata_ := ro_request_metadata_ r; ro_request_mutation := ro_request_mutation r;
     ro_response_metadata_ := ro_response_metadata_ r; ro_route_ := ro_route_ r;
     ro_upstream_request_ := ro_upstream_request_ r; ro_active_span_ := o;
     ro_is_first_span_ := ro_is_first_span_ r; ro_cluster_ := ro_cluster_ r; ro_calls := ro_calls r |}.
Definition failed (config : TracingConfig) : Span → Span := finalizeSpanWithoutResponse cb_streamInfo config ResponseStatus_Error.
Lemma failed_span_run config r :
  cb_tracingConfig = Some config → failed_span r = (Return tt, with_span (failed config <$> ro_active_span_ r) r).
Proof. intros Hc. unfold failed_span, finish_span. rewrite run_bind, Hc. destruct r as [? ? ? ? ? [span|] ? ? ?]; done. Qed.

Lemma event_run config host q r :
  cb_tracingConfig = Some config → ro_upstream_request_ r = Some q → ur_upstream_host_ q = Some host →
  ur_response_complete_ q = false → message_type_ (ro_request_metadata_ r) ≠ MessageType_Oneway →
  Router_onEvent LocalClose r =
    (Return tt, with_span (failed config <$> ro_active_span_ r) (add_calls (reset_calls LocalConnectionFailure host) r)).
Proof.
  intros Hcfg Hq Hh Hc Ht. unfold Router_onEvent, onUpstreamConnectionEvent. rewrite run_bind. cbn [gets]. cbv beta iota. rewrite Hq.
  rewrite run_bind. cbn [ASSERT assert_that lift]. cbv beta iota. rewrite run_bind, run_bind, (get_request_run q) by done. cbv beta iota.
  rewrite Hc, run_bind. cbn [negb ASSERT assert_that lift]. cbv beta iota. rewrite (reset_run _ host q) by done. cbv beta iota.
  by rewrite (failed_span_run config).
Qed.

(** C28: What happens to a response that cannot be decoded: by then the connection manager has answered the client, but the
    router closes the connection to the upstream with its own callbacks still on it, so that the close comes back to it
    as a failure of the connection: it sends a second reply, resets the message again, and finishes the span twice. *)
Theorem router_reset_replies_again (config : TracingConfig) (pool : new_connection) (host : string) (conn conn' : connection) q r end_stream :
  cb_tracingConfig = Some config → message_type_ (ro_request_metadata_ r) ≠ MessageType_Oneway →
  ro_upstream_request_ r = Some q → ur_kind q = ByPool pool → ur_upstream_host_ q = Some host → ur_response_complete_ q = false →
  ur_conn_pool_handle_ q = None → ur_conn_data_ q = Some conn → conn_close conn NoFlush = (conn', true) →
  ∃ r', Router_onUpstreamData UpstreamResponse_Reset None end_stream r = (Return tt, r') ∧ conn_of r' = None ∧
    ro_active_span_ r' = (λ span, failed config (failed config span)) <$> ro_active_span_ r ∧
    ro_calls r' = ro_calls r ++ (if ur_response_started_ q then [] else [C_startUpstreamResponse]) ++
      reset_calls LocalConnectionFailure host ++ [C_release conn'; C_log false ResponseStatus_Error "upstream_reset"].
Proof.
  intros Hcfg Ht Hq Hk Hh Hc Hw Hd Hclose. unfold Router_onUpstreamData. rewrite run_bind, (get_request_run q) by done. cbv beta iota.
  rewrite Hc, run_bind. cbn [negb ASSERT assert_that lift]. cbv beta iota. rewrite run_bind.
  set (q1 := if ur_response_started_ q then q else q <| ur_response_started_ := true |>).
  set (l1 := if ur_response_started_ q then [] else [C_startUpstreamResponse]).
  assert ((if ur_response_started_ q then mret tt else _ ← made C_startUpstreamResponse; onResponseStarted) r =
          (Return tt, with_request (Some q1) (add_calls l1 r))) as ->.
  { unfold q1, l1. destruct (ur_response_started_ q).
    - rewrite add_calls_nil. destruct r. cbn in Hq. by rewrite Hq.
    - rewrite run_bind, made_run. unfold onResponseStarted. by rewrite (on_request_run _ q). }
  assert (ur_kind q1 = ByPool pool ∧ ur_upstream_host_ q1 = Some host ∧ ur_response_complete_ q1 = false ∧
          ur_conn_pool_handle_ q1 = None ∧ ur_conn_data_ q1 = Some conn) as (Hk1 & Hh1 & Hc1 & Hw1 & Hd1)
    by (unfold q1; by destruct (ur_response_started_ q)).
  clearbody q1 l1. cbv beta iota. rewrite run_bind. cbn [mret M_ret]. cbv beta iota. rewrite run_bind. unfold releaseUpStreamConnection.
  rewrite run_bind. erewrite get_request_run by reflexivity. cbv beta iota. rewrite Hk1, run_bind. erewrite on_request_run by reflexivity.
  cbv beta iota. rewrite Hw1, run_bind. cbn [mret M_ret]. cbv beta iota. rewrite run_bind. erewrite on_request_run by reflexivity.
  cbv beta iota. rewrite Hd1, Hclose, run_bind. erewrite (event_run config host) by (reflexivity || done). cbv beta iota.
  rewrite release_run. cbv beta iota. rewrite run_bind, (failed_span_run config) by done. cbv beta iota. unfold emitLogEntry. rewrite made_run.
  eexists. split; [reflexivity |]. split_and!; [done | |].
  - cbn [add_calls with_span with_request ro_active_span_]. by destruct (ro_active_span_ r).
  - cbn [add_calls with_span with_request ro_calls release_calls]. by rewrite <- !app_assoc.
Qed.
End outcome.
