(* ===== verification/RouterWitness.v ===== *)
(** * The theorems about the router on concrete requests

    A router with one route, one mirror and a pool whose state the examples choose; the
    protocol is the small one of the connection manager. *)

From Stdlib Require Import Ascii.
From S2P Require Import Prelude Envoy Metadata Codec Decoder Network ConnManager ConnInvariant UpstreamHandler Route RequestId Tracing UpstreamRequest Router RouterTracing RouterAccount RouterOutcome.

Definition rw_E : Envoy := toy_E.
Definition rw_R : RouteEnv rw_E := list_route_env rw_E.
Definition rw_N : NetworkOps := list_network.
Definition rw_conn : @connection rw_N := {| lc_state := Connection_Open; lc_written := [] |}.
Definition rw_V (pool : option (@new_connection rw_N)) : @RequestEnv rw_N :=
  {| remoteAddress _ := "10.0.0.1:80"; handler_isPoolReady _ := false; thread_local_cluster _ := Some (false, pool) |}.
#[local] Instance rw_D : @TracingDriver rw_E := {| injectContext _ m := m; nodeName := "node"; zoneName := "zone" |}.
Definition rw_config : TracingConfig :=
  {| operationName := Ingress; verbose := false; clientSampling := (100, 100); randomSampling := (100, 100); overallSampling := (100, 100) |}.
Definition rw_info : StreamInfo :=
  {| startTime := 0; healthCheck := false; traceReason := NotTraceable; directRemoteAddress := inl "10.0.0.9"; upstreamHostCluster := None;
     lastDownstreamRxByteReceived := None; firstUpstreamTxByteSent := None; lastUpstreamTxByteSent := None;
     firstUpstreamRxByteReceived := None; lastUpstreamRxByteReceived := None; firstDownstreamTxByteSent := None;
     lastDownstreamTxByteSent := None |}.
Definition rw_route : @Route rw_E rw_R :=
  @Build_Route rw_E rw_R
    (@Build_RouteEntryImplBase rw_E rw_R 0 "r" "cluster" [] [] [("k", "v")] [] None
       [{| mirror_cluster_name_ := "mirror"; runtime_key_ := "m"; default_value_ := (100, 100) |}]) None.
Definition rw_uuid : string := "f47ac10b-58cc-4372-a567-0e02b2c3d479".
#[local] Instance rw_X : @RouterEnv rw_E rw_R := {|
  cb_route := Some rw_route; cb_tracingConfig := Some rw_config; cb_streamInfo := rw_info; cb_multiplexing := false;
  cb_getUpstreamHandler _ := inr 0%nat; random_uuid := rw_uuid; useRequestIdForTraceSampling := true;
  atoull_16 _ := Some 4101685515; featureEnabledAny _ _ := true; rand _ := 0
|}.
Definition rw_message : @MetadataImpl rw_E := setMessageType MessageType_Request new_MetadataImpl.
Definition rw_request : @MetadataImpl rw_E := rw_message <| origin_message_ := buf_add buf_new [6; 1] |>.
Definition rw_start : @Router rw_E rw_N rw_R := @new_Router rw_E rw_N rw_R rw_request ∅.

Section tracing.
#[local] Instance rw_laws : TracingDriverLaws rw_D.
Proof. by split. Qed.

Lemma rw_readable : readable rw_request.
Proof.
  intros key Hk. unfold traced_keys, tracing_headers in Hk. repeat (apply elem_of_cons in Hk as [-> | Hk]; [eexists; vm_compute; reflexivity |]).
  by apply elem_of_nil in Hk.
Qed.

Lemma router_trace_propagated_witness :
  ∃ r' id, identify_and_trace "cluster" rw_start = (Return tt, r') ∧ ro_request_mutation r' !! RequestUUID = Some id ∧
    ro_active_span_ r' ≠ None.
Proof.
  destruct (@router_trace_propagated rw_E rw_N rw_R rw_D rw_laws rw_X rw_config "cluster" "" "" 4101685515 rw_start) as (r' & id & Hr & Hm & Hs & _).
  - reflexivity.
  - reflexivity.
  - reflexivity.
  - vm_compute. reflexivity.
  - exact rw_readable.
  - vm_compute. reflexivity.
  - vm_compute. reflexivity.
  - reflexivity.
  - reflexivity.
  - reflexivity.
  - exists r', id. split; [exact Hr |]. split; [exact Hm |]. rewrite Hs. vm_compute. discriminate.
Defined.
End tracing.

Lemma rw_encodes (m : @MetadataImpl rw_E) mutation message :
  contents message = [6; 1] → @encodes rw_E toy_codec m mutation message [6; 1].
Proof.
  intros Hm. change (list Z) in message. cbn in Hm. exists tt, message. split; [| exact Hm]. cbn. destruct message; [discriminate |]. done.
Qed.

Section waiting.
(** The pool has no connection yet. *)
#[local] Instance rw_waiting : @RequestEnv rw_N := rw_V (Some (NC_Pending 7)).

Definition rw_decoded : outcome FilterStatus * Router := @Router_onMessageDecoded rw_E toy_codec rw_N rw_waiting rw_R rw_D rw_X rw_start.
Definition rw_ready : outcome unit * Router :=
  @handle_event rw_E toy_codec rw_N rw_waiting rw_R rw_X (Ev_PoolReady rw_conn "host") rw_decoded.2.

Lemma rw_ready_reachable : @router_reachable rw_E toy_codec rw_N rw_waiting rw_R rw_D rw_X rw_ready.2.
Proof.
  eapply (reach_event (Ev_PoolReady rw_conn "host") rw_decoded.2 rw_ready.1); [| apply surjective_pairing |].
  - eapply (reach_message rw_request ∅ rw_decoded.1); [apply surjective_pairing |]. intros w Hw. vm_compute in Hw. discriminate.
  - intros w Hw. vm_compute in Hw. discriminate.
Qed.

Lemma router_connections_settled_witness :
  held rw_ready.2 = 1%nat ∧ ∃ r', Router_onDestroy rw_ready.2 = (Return tt, r') ∧ settled r' = 1%nat.
Proof.
  split; [vm_compute; reflexivity |].
  destruct (@router_connections_settled rw_E toy_codec rw_N rw_waiting rw_R rw_D rw_X rw_ready.2 rw_ready_reachable)
    as (_ & r' & Hr & _ & _ & Ho & Hs).
  exists r'. split; [exact Hr |]. rewrite Hs, Ho. vm_compute. reflexivity.
Defined.

Definition rw_identified : Router := (@identify_and_trace rw_E rw_N rw_R rw_D rw_X (clusterName rw_route) (with_route (Some rw_route) rw_start)).2.

Lemma rw_moved : contents (buf_move_all buf_new (origin_message_ (ro_request_metadata_ rw_identified))).1 = [6; 1].
Proof. vm_compute. reflexivity. Qed.

Lemma router_request_sent_witness :
  ∃ r' rp, @Router_onMessageDecoded rw_E toy_codec rw_N rw_waiting rw_R rw_D rw_X rw_start = (Return FilterStatus_PauseIteration, rp) ∧
    @UpstreamRequest_onPoolReady rw_E toy_codec rw_N rw_waiting _ (@router_owner rw_E toy_codec rw_N rw_R) rw_conn "host" rp = (Return tt, r') ∧
    conn_of r' = Some (conn_write rw_conn [6; 1] false).
Proof.
  pose proof (@router_request_sent rw_E toy_codec rw_N rw_waiting rw_R rw_D rw_X rw_route rw_start rw_identified (NC_Pending 7) rw_conn "host" [6; 1]) as H.
  rewrite (surjective_pairing (buf_move_all _ _)) in H. destruct H as (r' & Hc & rp & Hrp & _ & _ & Hr & _).
  - reflexivity.
  - reflexivity.
  - split; reflexivity.
  - left. reflexivity.
  - left. vm_compute. reflexivity.
  - unfold rw_identified. apply pair_fst. vm_compute. reflexivity.
  - reflexivity.
  - exact I.
  - apply rw_encodes. apply rw_moved.
  - exists r', rp. split; [exact Hrp |]. split; [exact Hr |]. rewrite Hc. vm_compute. reflexivity.
Defined.
End waiting.

(** The response cannot be decoded: a request with an open connection. *)
Definition rw_sent_request : @UpstreamRequestBase rw_E rw_N :=
  @sent_request rw_E rw_N "host" (conn_write rw_conn [6; 1] false) false (@new_request rw_E rw_N (NC_Pending 7) buf_new).
Definition rw_resetting : @Router rw_E rw_N rw_R := with_request (Some rw_sent_request) rw_ready.2.
Definition rw_none : @RequestEnv rw_N := rw_V None.

Lemma router_reset_replies_again_witness :
  ∃ r', @Router_onUpstreamData rw_E toy_codec rw_N rw_R rw_X UpstreamResponse_Reset None false rw_resetting = (Return tt, r') ∧
    tally reply_call (ro_calls r') = 1%nat ∧ option_map span_finished (ro_active_span_ r') = Some 2%nat.
Proof.
  destruct (@router_reset_replies_again rw_E toy_codec rw_N rw_R rw_X rw_config (NC_Pending 7) "host"
    (conn_write rw_conn [6; 1] false) {| lc_state := Connection_Closed; lc_written := [([6; 1], false)] |} rw_sent_request rw_resetting false)
    as (r' & Hr & _ & Hs & Hc).
  - reflexivity.
  - vm_compute. discriminate.
  - reflexivity.
  - reflexivity.
  - reflexivity.
  - reflexivity.
  - reflexivity.
  - reflexivity.
  - reflexivity.
  - exists r'. split; [exact Hr |]. rewrite Hs, Hc. split; vm_compute; reflexivity.
Defined.

(** No host is healthy. *)
Definition rw_refused : @Router rw_E rw_N rw_R := (@identify_and_trace rw_E rw_N rw_R rw_D rw_X (clusterName rw_route) (with_route (Some rw_route) rw_start)).2.
Lemma router_request_refused_witness :
  ∃ r', @Router_onMessageDecoded rw_E toy_codec rw_N rw_none rw_R rw_D rw_X rw_start = (Return FilterStatus_AbortIteration, r') ∧
    tally reply_call (ro_calls r') = 1%nat.
Proof.
  destruct (@router_request_refused rw_E toy_codec rw_N rw_none rw_R rw_D rw_X rw_start eq_refl
    (conj eq_refl eq_refl) (or_introl eq_refl) rw_refused) as (r' & Hr & _ & Hc).
  - left. vm_compute. reflexivity.
  - unfold rw_refused. apply pair_fst. vm_compute. reflexivity.
  - exists r'. split; [exact Hr |]. rewrite Hc. vm_compute. reflexivity.
Defined.
