(* ===== verification/HandlerRouter.v ===== *)
(** * Responses of multiplexed connections, from the handler to the router

    [UpstreamHandler] leaves open what the functions do that wait for a connection or a
    response.  They belong to routers ([router_impl.cc], the lambda given to
    [addResponseCallback], and [UpstreamRequestByHandler] in [upstream_request.cc]): here
    the outside of the handlers is the routers that are alive, by the identity of their
    messages, and the functions are those of [Router] and [UpstreamRequest].

    A router records the calls it makes; the ones to handlers are made on the handlers
    here, after the router's own operation, which does not look at them.  Nothing takes the
    function of a router off its handler when the router is destroyed: calling it then is
    the outcome [Panic "use after free"]. *)

From S2P Require Import Prelude Envoy Metadata Codec Decoder Network ConnManager ConnInvariant UpstreamHandler Route RequestId Tracing UpstreamRequest Router RouterWitness.

(** A router is known by a number, which its lambda captures. *)
Definition router_types {E : Envoy} {N : NetworkOps} {R : RouteEnv E} : UpstreamTypes :=
  {| outside_t := gmap nat Router; ResponseCallback := nat |}.
#[local] Existing Instance router_types.

Section environment.
Context {E : Envoy} {C : CodecOps E} {N : NetworkOps} {R : RouteEnv E}.

(** What the routers see of their messages, and what happens to be in the memory of
    [complete_]. *)
Context (X : nat → RouterEnv) (bit : bool).

(** A call that a router has made, on the handlers *)
Definition handler_call (rid : nat) (c : call) : M UpstreamWorld unit :=
  match c with
  | C_handler_onData hid data => handler_onData hid data false
  | C_addUpsteamRequestCallbacks hid => addUpsteamRequestCallbacks hid (Some rid)
  | C_removeUpsteamRequestCallbacks hid => removeUpsteamRequestCallbacks hid (Some rid)
  | C_dropHandler hid => release_handler hid
  | C_addResponseCallback hid id => addResponseCallback hid id (Some rid)
  | _ => mret tt
  end.
Fixpoint handler_calls (rid : nat) (l : list call) : M UpstreamWorld unit :=
  match l with [] => mret tt | c :: l => _ ← handler_call rid c; handler_calls rid l end.

(** An operation of a router *)
Definition router_runs (rid : nat) (operation : M Router unit) : M UpstreamWorld unit :=
  o ← gets (λ w, (outside w : gmap nat Router) !! rid);
  match o with
  | None => panic "use after free"
  | Some r =>
      let '(result, r') := operation r in
      _ ← modify (λ w, w <| outside ::= (<[rid := r']> : gmap nat Router → gmap nat Router) |>);
      _ ← handler_calls rid (drop (length (ro_calls r)) (ro_calls r'));
      lift result
  end.

Definition router_env : UpstreamEnv := {|
  request_onPoolReady rid host := router_runs rid (UpstreamRequestByHandler_onPoolReady host);
  request_onPoolFailure rid reason host := router_runs rid (UpstreamRequest_onPoolFailure reason host);
  response_callback rid m := router_runs rid (onUpstreamResponseCallback (X := X rid) m);
  uninitialised_bit := bit
|}.
#[local] Existing Instance router_env.

(** ** A router that is told of its response *)

(** The request of a router is on the handler, and the router can finish its span. *)
Definition waits_on (hid : nat) (rid : nat) (r : Router) : Prop :=
  ∀ q, ro_upstream_request_ r = Some q →
    ur_kind q = ByHandler hid ∧ ur_conn_data_ q = None ∧
    (ro_active_span_ r = None ∨ is_Some (cb_tracingConfig (RouterEnv := X rid))).

(** The router afterwards: the request is gone and with it the pointer to the handler, the
    span is finished, the access log is written and the message is told. *)
Definition answered_router (hid : nat) (rid : nat) (m : MetadataImpl) (r : Router) : Router :=
  r <| ro_upstream_request_ := None |>
    <| ro_active_span_ ::= option_map (λ span,
         if cb_tracingConfig (RouterEnv := X rid) is Some config
         then finalizeSpanWithResponse m (cb_streamInfo (RouterEnv := X rid)) config span else span) |>
    <| ro_calls ::= λ l, l ++ [C_dropHandler hid; C_log true ResponseStatus_Ok ""; C_onUpstreamResponse] |>.

(** The request is completed and destroyed. *)
Lemma complete_request_run hid r q :
  ro_upstream_request_ r = Some q → ur_kind q = ByHandler hid → ur_conn_data_ q = None →
  (_ ← onResponseComplete; cleanUpstreamRequest) r =
    (Return tt, r <| ro_upstream_request_ := None |> <| ro_calls ::= λ l, l ++ [C_dropHandler hid] |>).
Proof using Type.
  intros Hq Hk Hd. set (q1 := q <| ur_response_complete_ := true |>).
  assert (onResponseComplete r = (Return tt, r <| ro_upstream_request_ := Some q1 |>)) as Hc.
  { assert (get_request r = (Return q, r)) as Hg.
    { unfold get_request. rewrite run_bind. cbn [gets the_request router_owner]. cbv beta iota. by rewrite Hq. }
    unfold onResponseComplete, on_request. rewrite run_bind, Hg. cbv beta iota. rewrite run_bind, run_bind, Hg. cbv beta iota.
    cbn [modify]. cbv beta iota. by rewrite Hk. }
  rewrite run_bind, Hc. cbv beta iota. unfold cleanUpstreamRequest, destroy_request. rewrite run_bind. cbn [gets]. cbv beta iota.
  change (the_request (r <| ro_upstream_request_ := Some q1 |>)) with (Some q1). cbv beta iota. rewrite run_bind. cbn [modify]. cbv beta iota.
  change (ur_conn_data_ q1) with (ur_conn_data_ q). change (ur_kind q1) with (ur_kind q). rewrite Hd, Hk.
  rewrite run_bind. cbn [release mret M_ret]. cbv beta iota. by destruct r.
Qed.

Lemma onUpstreamResponseCallback_run hid rid m r q :
  ro_upstream_request_ r = Some q → waits_on hid rid r →
  onUpstreamResponseCallback (X := X rid) m r = (Return tt, answered_router hid rid m r).
Proof using Type.
  intros Hq Hw. destruct (Hw q Hq) as (Hk & Hd & Hs). pose proof (complete_request_run hid r q Hq Hk Hd) as Hc.
  rewrite run_bind in Hc. unfold onUpstreamResponseCallback, onUpstreamResponseComplete. rewrite !run_bind.
  destruct (onResponseComplete r) as [[[]|e|w] r1]; [| done | done]. cbv beta iota in Hc |- *. rewrite run_bind, Hc. cbv beta iota.
  rewrite run_bind. cbn [gets]. cbv beta iota. unfold answered_router. set (r2 := r <| ro_upstream_request_ := None |>).
  change (ro_active_span_ (r2 <| ro_calls ::= _ |>)) with (ro_active_span_ r).
  destruct r as [m0 mu0 rm route q0 span first cluster calls]. cbn [ro_active_span_] in Hs |- *. destruct span as [span|].
  - destruct Hs as [[=] | [config Hx]]. rewrite run_bind. unfold finish_span. rewrite run_bind. cbn [gets]. cbv beta iota.
    cbn [ro_active_span_ r2]. unfold r2, upd. cbn. rewrite Hx. cbn. unfold made, modify, upd. cbn. by rewrite <- !app_assoc.
  - rewrite run_bind. cbn [mret M_ret]. cbv beta iota. unfold r2, made, modify, upd. cbn. unfold made, modify, upd. cbn. by rewrite <- !app_assoc.
Qed.

Lemma onUpstreamResponseCallback_null rid m r :
  ro_upstream_request_ r = None → onUpstreamResponseCallback (X := X rid) m r = (Panic "null upstream request", r).
Proof using Type.
  intros Hq. unfold onUpstreamResponseCallback, onUpstreamResponseComplete, onResponseComplete, get_request.
  rewrite !run_bind. cbn [gets]. cbv beta iota. cbn [the_request router_owner]. by rewrite Hq.
Qed.

(** A handler that the manager has stays when a pointer to it goes. *)
Lemma release_handler_run hid w u :
  handlers w !! hid = Some u → managed hid w = true →
  release_handler hid w = (Return tt, w <| handlers ::= <[hid := u <| owners ::= pred |>]> |>).
Proof using Type.
  intros Hu Hm. unfold release_handler. rewrite run_bind, (on_handler_run _ _ _ _ Hu). cbv beta iota.
  unfold drop_pointer. rewrite run_bind. cbn [gets]. cbv beta iota. rewrite run_bind. cbn [gets]. cbv beta iota.
  rewrite handlers_upd. match goal with |- context [managed hid ?x] => change (managed hid x) with (managed hid w) end.
  by rewrite Hm, andb_false_r.
Qed.

(** ** The law of the handlers *)

Definition good_router (hid : nat) (rid : nat) (routers : gmap nat Router) : Prop :=
  ∀ r, routers !! rid = Some r → waits_on hid rid r.
Definition deliver_to_router (rid : nat) (m : MetadataImpl) (routers : gmap nat Router) : outcome (gmap nat Router) :=
  match routers !! rid with
  | None => Panic "use after free"
  | Some r =>
      match ro_upstream_request_ r with
      | None => Panic "null upstream request"
      | Some q =>
          if ur_kind q is ByHandler hid then Return (<[rid := answered_router hid rid m r]> routers) else Panic ""
      end
  end.

#[global] Instance router_callback_laws : ResponseCallbackLaws (good_router : nat → ResponseCallback → outside_t → Prop) deliver_to_router.
Proof using Type.
  intros hid rid m w u Hu Hman Hgood. cbn [response_callback router_env]. unfold deliver_to_router, router_runs.
  rewrite run_bind. cbn [gets]. cbv beta iota. unfold good_router in Hgood.
  destruct ((outside w : gmap nat Router) !! rid) as [r|] eqn:Hr; cbn in Hr; rewrite Hr; [| done].
  specialize (Hgood r Hr). destruct (ro_upstream_request_ r) as [q|] eqn:Hq.
  - destruct (Hgood q Hq) as (Hk & _ & _). rewrite Hk, (onUpstreamResponseCallback_run hid rid m r q Hq Hgood).
    cbn [answered_router ro_calls]. rewrite run_bind. cbn [modify]. cbv beta iota. rewrite run_bind.
    change (ro_calls (answered_router hid rid m r))
      with (ro_calls r ++ [C_dropHandler hid; C_log true ResponseStatus_Ok ""; C_onUpstreamResponse]).
    rewrite drop_app_length. cbn [handler_calls handler_call]. rewrite run_bind.
    rewrite (release_handler_run hid _ u) by done. cbv beta iota. rewrite !run_bind. cbn [mret M_ret]. cbv beta iota.
    eexists. split; [reflexivity |]. split_and!; try done. apply lookup_insert_eq.
  - rewrite (onUpstreamResponseCallback_null rid m r Hq). rewrite run_bind. cbn [modify]. cbv beta iota.
    rewrite drop_all. cbn [handler_calls]. rewrite run_bind. cbn [mret M_ret]. cbv beta iota. unfold lift.
    f_equal. destruct w. unfold upd. cbn in *. by rewrite insert_id.
Qed.

(** ** Responses *)

Context {L : EnvoyLaws E} {K : CodecContract C}.

(** C33: however a response of a multiplexed connection is cut into reads, and whatever
    bytes of the next ones come with its end, it is written to the client once, as the codec
    encodes it, and exactly its bytes are taken: a second response in the same read stays in
    the buffer until more data arrives.  The router that waits for it finishes its request
    and lets go of the handler, finishes its span, writes its log and tells its message, once;
    the handler forgets it, and no other router is touched.  If nobody waits, this is all.
    But a router that has been destroyed meanwhile is called too, and so is one that has lost
    its request: then the process ends.  A response that needs more than one read is received
    if the bit that the code does not initialise is clear. *)
Theorem handler_delivers_responses (hid : nat) (w : UpstreamWorld) (u : UpstreamHandlerImpl) (b : buffer)
    (chunks : list bytes) (last : bytes) (n : Z) (v : MetadataImpl * bytes) (out : bytes)
    (Hbit : chunks = [] ∨ bit = false)
    (Hu : handlers w !! hid = Some u) (Hman : managed hid w = true) (Hidle : upstream_response_ u = None)
    (Hch : Forall is_bytes chunks) (Hlast : is_bytes last)
    (Hlen : zlen (contents b ++ concat chunks) < 2 ^ 32)
    (Hwait : frame MessageType_Response (contents b ++ concat chunks) = FWait)
    (Hdone : frame MessageType_Response (contents b ++ concat chunks ++ last) = FDone n v)
    (Hty : message_type_ v.1 = MessageType_Response ∨ message_type_ v.1 = MessageType_Error)
    (Henc : encodes v out) (id := request_id_ v.1)
    (Hrouter : ∀ rid r, waiting_callback u id = Some rid → (outside w : gmap nat Router) !! rid = Some r → waits_on hid rid r) :
  let result := reads hid (chunks ++ [last]) (w, b) in
  let forwarded u' routers := ∃ w' b', result = (Return tt, (w', b')) ∧
    client w' = conn_write (client w) out false ∧ contents b' = zdrop n (contents b ++ concat chunks ++ last) ∧
    handlers w' !! hid = Some u' ∧ upstream_handlers_ w' = upstream_handlers_ w ∧ outside w' = (routers : gmap nat Router) in
  match waiting_callback u id with
  | None => forwarded u (outside w)
  | Some rid =>
      match (outside w : gmap nat Router) !! rid with
      | None => result.1 = Panic "use after free"
      | Some r =>
          if ro_upstream_request_ r is Some _
          then forwarded (u <| owners ::= pred |> <| response_callbacks_ ::= delete id |>)
                         (<[rid := answered_router hid rid v.1 r]> (outside w))
          else result.1 = Panic "null upstream request"
      end
  end.
Proof.
  cbv zeta. assert (is_good good_router hid u v.1 (outside w)) as Hgood by (intros rid Hcb r Hr; by eapply Hrouter).
  pose proof (reads_response good_router deliver_to_router hid w u b chunks last n v out Hbit Hu Hman Hidle Hch Hlast Hlen
    Hwait Hdone Hty Henc Hgood) as Hend. unfold delivered, answered in Hend. fold id in Hend.
  destruct (waiting_callback u id) as [rid|] eqn:Hcb.
  2: { destruct Hend as (w' & b' & Hrun & Hu' & Hb & Hm & Hc & Ho). exists w', b'. by split_and!. }
  unfold deliver_to_router in Hend. specialize (Hrouter rid).
  destruct ((outside w : gmap nat Router) !! rid) as [r|] eqn:Hr; cbn in Hr; rewrite Hr in Hend; [| exact Hend].
  destruct (ro_upstream_request_ r) as [q|] eqn:Hq; [| exact Hend].
  destruct (Hrouter r eq_refl eq_refl q Hq) as (Hk & _). rewrite Hk in Hend.
  destruct Hend as (w' & b' & Hrun & Hu' & Hb & Hm & Hc & Ho). exists w', b'. by split_and!.
Qed.
End environment.

(** ** Witness *)

(** A protocol of two bytes, the id of the request and a payload, whose codec takes the
    first byte as soon as it is there. *)
Definition pair_message (x : Z) (m : MetadataImpl (E := rw_E)) : MetadataImpl (E := rw_E) :=
  setRequestId x (setMessageType MessageType_Response m).
Definition pair_codec : CodecOps rw_E := {|
  codec_state := option Z;
  codec_init := None;
  codec_decode := λ '(c, b, m),
    match c, contents b with
    | None, [] | Some _, [] => (Return DecodeStatus_WaitForData, (c, b, m))
    | None, [x] => (Return DecodeStatus_WaitForData, (Some x, buf_new, m))
    | None, x :: y :: rest =>
        (Return DecodeStatus_Done, (None, buf_add buf_new rest, pair_message x m <| origin_message_ := buf_add buf_new [x; y] |>))
    | Some x, y :: rest =>
        (Return DecodeStatus_Done, (None, buf_add buf_new rest, pair_message x m <| origin_message_ := buf_add buf_new [x; y] |>))
    end;
  codec_encode m mu := λ '(c, b), (Return tt, (c, b));
  codec_onError m e := λ '(c, b), (Return tt, (c, b))
|}.
Definition pair_frame (t : MessageType) (bs : bytes) : framing (E := rw_E) :=
  match bs with
  | x :: y :: _ => FDone 2 (pair_message x (fresh_metadata t), [x; y])
  | _ => FWait
  end.
#[local] Instance pair_laws : EnvoyLaws rw_E := list_envoy_laws _.
Lemma pair_contents (l : bytes) : is_bytes l → contents (buf_add (buf_new (BufferOps := @envoy_buffer rw_E)) l) = l.
Proof. intros Hl. by rewrite buf_add_spec, buf_new_spec by done. Qed.
Definition pair_rep (t : MessageType) (c : option Z) (l s : bytes) : Prop :=
  decoder_type t ∧ l = option_list c ∧ is_bytes l.
Definition pair_contract : CodecContract pair_codec.
Proof.
  refine {| frame := pair_frame; codec_rep := (pair_rep : MessageType → codec_state (CodecOps := pair_codec) → bytes → bytes → Prop) |}.
  - intros t s Ht. split_and!; [done | done | constructor].
  - by intros ???? [].
  - by intros ????? ?.
  - intros t [|x [|y bs]] n v; [done | done |]. intros [= <- _]. rewrite !zlen_cons. pose proof (zlen_nonneg bs). lia.
  - by intros t [|x [|y bs]] k.
  - done.
  - intros t c l b (Ht & -> & Hl). pose proof (contents_bytes b) as Hb.
    cbn [codec_decode pair_codec]. destruct c as [x|]; cbn [option_list] in *.
    + destruct (contents b) as [|y rest] eqn:Hc; cbn [app pair_frame].
      * exists (Some x), b, (fresh_metadata t), [x]. by rewrite Hc.
      * apply Forall_cons in Hb as [Hy Hr]. apply Forall_cons in Hl as [Hx _].
        do 3 eexists. split; [reflexivity |]. split; [intros s; split_and!; try done; constructor |].
        split; [by rewrite pair_contents |]. unfold view. cbn [origin_message_]. f_equal.
        apply pair_contents. apply Forall_cons_2; [done |]. apply Forall_cons_2; [done | apply Forall_nil_2].
    + destruct (contents b) as [|x [|y rest]] eqn:Hc; cbn [app pair_frame].
      * exists None, b, (fresh_metadata t), []. by rewrite Hc.
      * exists (Some x), buf_new, (fresh_metadata t), [x]. split; [done |]. split; [| done]. by split_and!.
      * apply Forall_cons in Hb as [Hx Hb]. apply Forall_cons in Hb as [Hy Hr].
        do 3 eexists. split; [reflexivity |]. split; [intros s; split_and!; try done; constructor |].
        split; [by rewrite pair_contents |]. unfold view. cbn [origin_message_]. f_equal.
        apply pair_contents. apply Forall_cons_2; [done |]. apply Forall_cons_2; [done | apply Forall_nil_2].
Defined.

(** A message of which only the first byte has come, then the rest with the beginning of
    another. *)
Definition hr_request : UpstreamRequestBase (E := rw_E) (N := rw_N) :=
  {| ur_kind := ByHandler 1; ur_upstream_host_ := Some "10.0.0.1:80"; ur_upstream_request_buffer_ := buf_new;
     ur_request_complete_ := true; ur_response_started_ := false; ur_response_complete_ := false; ur_stream_reset_ := false;
     ur_conn_pool_handle_ := None; ur_conn_data_ := None |}.
Definition hr_router : Router (E := rw_E) (N := rw_N) (R := rw_R) := rw_start <| ro_upstream_request_ := Some hr_request |>.
Definition hr_types : UpstreamTypes := router_types (E := rw_E) (N := rw_N) (R := rw_R).
Definition hr_handler : UpstreamHandlerImpl (C := pair_codec) (N := rw_N) (T := hr_types) :=
  (new_UpstreamHandlerImpl "cluster_host") <| conn_data_ := Some rw_conn |> <| pool_ready_ := true |>
    <| response_callbacks_ := {[ 8 := Some 5%nat ]} |>.
Definition hr_world (routers : gmap nat (Router (E := rw_E) (N := rw_N) (R := rw_R))) :
    UpstreamWorld (C := pair_codec) (N := rw_N) (T := hr_types) :=
  {| handlers := {[ 1%nat := hr_handler ]}; upstream_handlers_ := {[ "cluster_host" := 1%nat ]}; client := rw_conn;
     cancelled := []; released := []; outside := (routers : @outside_t hr_types) |}.
Definition hr_env : UpstreamEnv (C := pair_codec) (N := rw_N) (T := hr_types) :=
  router_env (C := pair_codec) (λ _, rw_X) false.
Definition hr_view : MetadataImpl (E := rw_E) * bytes := (pair_message 8 (fresh_metadata MessageType_Response), [8; 1]).
Lemma hr_encodes : encodes (C := pair_codec) hr_view [8; 1].
Proof. intros c m Hv. exists c, (origin_message_ m). split; [done |]. exact (f_equal snd Hv). Qed.
Lemma hr_waits rid r : ({[ 5%nat := hr_router ]} : gmap nat Router) !! rid = Some r → waits_on (λ _, rw_X) 1 rid r.
Proof. intros [_ <-]%lookup_singleton_Some q [= <-]. split_and!; [done | done | by left]. Qed.

Lemma handler_delivers_responses_witness :
  (∃ w' b', reads (V := hr_env) 1 [[8]; [1; 9]] (hr_world {[ 5%nat := hr_router ]}, buf_new) = (Return tt, (w', b')) ∧
    conn_written (client w') = [([8; 1], false)] ∧ contents b' = [9] ∧
    (outside w' : gmap nat Router) !! 5%nat = Some (answered_router (λ _, rw_X) 1 5 hr_view.1 hr_router)) ∧
  (reads (V := hr_env) 1 [[8]; [1; 9]] (hr_world ∅, buf_new)).1 = Panic "use after free".
Proof.
  assert (Forall is_bytes [[8]] ∧ is_bytes [1; 9]) as [H1 H2] by (split; apply (bool_decide_unpack _); vm_compute; exact I).
  split.
  - destruct (handler_delivers_responses (C := pair_codec) (λ _, rw_X) false (K := pair_contract)
      1 (hr_world {[ 5%nat := hr_router ]}) hr_handler buf_new [[8]] [1; 9] 2 hr_view [8; 1])
      as (w' & b' & Hrun & Hc & Hb & _ & _ & Ho);
      [by right | reflexivity | vm_compute; reflexivity | reflexivity | done | done | reflexivity | reflexivity | reflexivity |
       by left | exact hr_encodes | intros rid r _; apply hr_waits |].
    exists w', b'. split; [exact Hrun |]. split; [exact (f_equal conn_written Hc) |]. split; [exact Hb |].
    etrans; [exact (f_equal (λ g : gmap nat Router, g !! 5%nat) Ho) |].
    exact (lookup_insert_eq ({[ 5%nat := hr_router ]} : gmap nat Router) 5%nat _).
  - refine (handler_delivers_responses (C := pair_codec) (λ _, rw_X) false (K := pair_contract)
      1 (hr_world ∅) hr_handler buf_new [[8]] [1; 9] 2 hr_view [8; 1] _ _ _ _ _ _ _ _ _ _ _ _);
      [by right | reflexivity | vm_compute; reflexivity | reflexivity | done | done | reflexivity | reflexivity | reflexivity |
       by left | exact hr_encodes | intros rid r _ Hr; by destruct (lookup_empty_Some (M := gmap nat) rid r Hr)].
Defined.
