(* ===== verification/ShadowWriter.v ===== *)
(** * Mirrored requests

    Model of [filters/router/shadow_writer_impl.{h,cc}]: a shadow router owns the
    request to a mirror, decodes the response and throws it away.  The state is the
    [ActiveRouters] of one worker thread with the shadow routers that are alive, by
    their numbers, those whose deletion is deferred included. *)

From S2P Require Import Prelude Envoy Metadata Codec Decoder Network ConnManager UpstreamHandler UpstreamRequest.

Section shadow.
Context {E : Envoy} {C : CodecOps E} {N : NetworkOps} {V : RequestEnv}.

(** ** The decoder of the response *)

Record NullResponseDecoder : Type := {
  nd_codec_ : codec_state;
  nd_decoder_ : DecoderBase unit;
  nd_complete_ : bool
}.

(** The constructor does not initialise [complete_]. *)
Definition new_NullResponseDecoder (codec : codec_state) (uninitialised : bool) : NullResponseDecoder :=
  {| nd_codec_ := codec; nd_decoder_ := new_DecoderBase MessageType_Response; nd_complete_ := uninitialised |}.

(** [ResponseDecoderCallbacks] and [MessageHandler]; the world is [complete_]. *)
#[local] Instance null_callbacks : DecoderCallbacks unit bool := {|
  newMessageHandler := mret tt;
  handler_onMessageDecoded _ _ _ := modify (λ h, h <| h_world := true |>);
  onHeartbeat _ := mret true
|}.

Definition NullResponseDecoder_decode (d : NullResponseDecoder) (data : buffer) :
    outcome UpstreamResponseStatus * (NullResponseDecoder * buffer) :=
  let result o (h : Host unit bool) :=
    (o, ({| nd_codec_ := h_codec h; nd_decoder_ := h_decoder h; nd_complete_ := h_world h |}, h_buffer h)) in
  match onData {| h_decoder := nd_decoder_ d; h_codec := nd_codec_ d; h_buffer := data; h_world := nd_complete_ d |} with
  | (Return underflow, h) =>
      result (if h_world h || underflow
              then Return (if h_world h then UpstreamResponse_Complete else UpstreamResponse_MoreData)
              else Panic "complete_ || underflow") h
  | (Throw BadAnyCast, h) => result (Throw BadAnyCast) h
  | (Throw _, h) => result (Return UpstreamResponse_Reset) h
  | (Panic w, h) => result (Panic w) h
  end.

(** ** Shadow routers *)

Record ShadowRouterImpl : Type := {
  sr_cluster_name_ : string;
  sr_metadata_ : MetadataImpl;
  sr_mutation_ : Mutation;
  sr_cluster_ : option string;
  sr_upstream_request_ : option UpstreamRequestBase;
  sr_removed_ : bool;
  (** none after it was moved *)
  sr_codec_ : option codec_state;
  sr_decoder_ : NullResponseDecoder
}.
#[global] Instance ShadowRouterImpl_eta : Eta ShadowRouterImpl := fun s =>
  {| sr_cluster_name_ := sr_cluster_name_ s; sr_metadata_ := sr_metadata_ s; sr_mutation_ := sr_mutation_ s;
     sr_cluster_ := sr_cluster_ s; sr_upstream_request_ := sr_upstream_request_ s; sr_removed_ := sr_removed_ s;
     sr_codec_ := sr_codec_ s; sr_decoder_ := sr_decoder_ s |}.

Definition new_ShadowRouterImpl (cluster_name : string) (metadata : MetadataImpl) (mutation : Mutation) (uninitialised : bool) :
    ShadowRouterImpl :=
  {| sr_cluster_name_ := cluster_name; sr_metadata_ := metadata; sr_mutation_ := mutation; sr_cluster_ := None;
     sr_upstream_request_ := None; sr_removed_ := false; sr_codec_ := Some codec_init;
     sr_decoder_ := new_NullResponseDecoder codec_init uninitialised |}.

Record ActiveRouters : Type := {
  ar_routers : gmap nat ShadowRouterImpl;
  active_routers_ : list nat;
  (** [dispatcher_.deferredDelete] *)
  ar_deferred : list nat;
  ar_next : nat;
  ar_calls : list (nat * call)
}.
#[global] Instance ActiveRouters_eta : Eta ActiveRouters := fun w =>
  {| ar_routers := ar_routers w; active_routers_ := active_routers_ w; ar_deferred := ar_deferred w; ar_next := ar_next w;
     ar_calls := ar_calls w |}.

Definition get_shadow (sid : nat) : M ActiveRouters ShadowRouterImpl :=
  o ← gets (λ w, ar_routers w !! sid);
  match o with Some s => mret s | None => panic "use after free" end.
Definition on_shadow (sid : nat) (f : ShadowRouterImpl → ShadowRouterImpl) : M ActiveRouters unit :=
  modify (λ w, w <| ar_routers ::= alter f sid |>).
Definition shadow_call (sid : nat) (c : call) : M ActiveRouters unit := modify (λ w, w <| ar_calls ::= λ l, l ++ [(sid, c)] |>).

(** [ActiveRouters::remove], with what [removeFromList] asserts *)
Definition remove (sid : nat) : M ActiveRouters unit :=
  active ← gets active_routers_;
  _ ← ASSERT (bool_decide (sid ∈ active)) "inserted_";
  modify (λ w, w <| active_routers_ ::= List.filter (λ i, negb (i =? sid)%nat) |> <| ar_deferred ::= λ l, l ++ [sid] |>).

(** [createCodec] moves the codec out. *)
Definition shadow_createCodec (sid : nat) : M ActiveRouters codec_state :=
  s ← get_shadow sid;
  _ ← on_shadow sid (λ s, s <| sr_codec_ := None |>);
  match sr_codec_ s with Some codec => mret codec | None => panic "null codec" end.

(** [RequestOwner], but for [resetStream] *)
Definition shadow_owner_with (sid : nat) (reset : M ActiveRouters unit) : RequestOwner ActiveRouters := {|
  the_request w := s ← ar_routers w !! sid; sr_upstream_request_ s;
  set_request q w := w <| ar_routers ::= alter (λ s, s <| sr_upstream_request_ := q |>) sid |>;
  shared_metadata w := from_option sr_metadata_ new_MetadataImpl (ar_routers w !! sid);
  set_shared_metadata m w := w <| ar_routers ::= alter (λ s, s <| sr_metadata_ := m |>) sid |>;
  shared_mutation w := from_option sr_mutation_ ∅ (ar_routers w !! sid);
  set_cluster_ o w := w <| ar_routers ::= alter (λ s, s <| sr_cluster_ := o |>) sid |>;
  record_call := shadow_call sid;
  owner_continueDecoding := mret tt;
  owner_sendLocalReply _ _ := mret tt;
  owner_createCodec := shadow_createCodec sid;
  owner_resetStream := reset;
  owner_setUpstreamConnection conn := match conn with Some conn => shadow_call sid (C_release conn) | None => mret tt end;
  owner_onUpstreamHostSelected _ := mret tt
|}.

(** [ShadowRouterImpl::cleanup]; it never closes the connection, so that nothing is
    raised. *)
Definition cleanup (sid : nat) : M ActiveRouters unit :=
  s ← get_shadow sid;
  if sr_removed_ s then mret tt
  else
    _ ← on_shadow sid (λ s, s <| sr_removed_ := true |>);
    _ ← releaseUpStreamConnection (O := shadow_owner_with sid (mret tt)) (mret tt) false;
    remove sid.

(** [ShadowRouterImpl::onEvent], with the [resetStream] that the request calls *)
Definition shadow_onEvent_with (sid : nat) (reset : M ActiveRouters unit) (event : ConnectionEvent) : M ActiveRouters unit :=
  _ ← onUpstreamConnectionEvent (O := shadow_owner_with sid reset) event;
  cleanup sid.

(** [ShadowRouterImpl::resetStream] closes the connection, which raises [LocalClose] if
    the callbacks of the shadow router are on it, as they are for a request; that comes
    back to [resetStream], at most [depth] times. *)
Fixpoint shadow_resetStream (depth : nat) (sid : nat) : M ActiveRouters unit :=
  match depth with
  | O => panic "out of fuel"
  | S depth =>
      s ← get_shadow sid;
      match sr_upstream_request_ s with
      | None => mret tt
      | Some _ =>
          releaseUpStreamConnection (O := shadow_owner_with sid (mret tt))
            (if decide (message_type_ (sr_metadata_ s) = MessageType_Request)
             then shadow_onEvent_with sid (shadow_resetStream depth sid) LocalClose else mret tt) true
      end
  end.

(** The request has no connection when [resetStream] is called again, so that it is
    called at most twice. *)
Definition resetStream_depth : nat := 2.
Definition resetStream (sid : nat) : M ActiveRouters unit := shadow_resetStream resetStream_depth sid.
#[local] Instance shadow_owner (sid : nat) : RequestOwner ActiveRouters := shadow_owner_with sid (resetStream sid).

Definition createUpstreamRequest (sid : nat) : M ActiveRouters bool :=
  s ← get_shadow sid;
  prepared ← prepareUpstreamRequest (O := shadow_owner sid) (sr_cluster_name_ s);
  match prepared with
  | inl _ => mret false
  | inr conn_pool_data =>
      _ ← new_UpstreamRequest (O := shadow_owner sid) (ByPool conn_pool_data);
      _ ← UpstreamRequest_start (O := shadow_owner sid);
      mret true
  end.

Definition requestInProgress (s : ShadowRouterImpl) : bool :=
  match sr_upstream_request_ s with Some q => negb (ur_request_complete_ q) | None => false end.

(** [ShadowWriterImpl::submit]; the shadow router is destroyed on return if there is no
    request. *)
Definition submit (cluster_name : string) (request_metadata : MetadataImpl) (request_mutation : Mutation) (uninitialised : bool) :
    M ActiveRouters unit :=
  sid ← gets ar_next;
  _ ← modify (λ w, w <| ar_next ::= S |>
                     <| ar_routers ::= <[sid := new_ShadowRouterImpl cluster_name request_metadata request_mutation uninitialised]> |>);
  created ← createUpstreamRequest sid;
  if (created : bool) then modify (λ w, w <| active_routers_ ::= cons sid |>)
  else modify (λ w, w <| ar_routers ::= delete sid |>).

(** ** What the connection tells a shadow router *)

(** The result is what is left of the data. *)
Definition shadow_onUpstreamData (sid : nat) (data : buffer) (end_stream : bool) : M ActiveRouters buffer :=
  q ← get_request (O := shadow_owner sid);
  _ ← ASSERT (negb (ur_response_complete_ q)) "!upstream_request_->responseCompleted()";
  _ ← (if ur_response_started_ q then mret tt else onResponseStarted (O := shadow_owner sid));
  s ← get_shadow sid;
  let '(result, (decoder, rest)) := NullResponseDecoder_decode (sr_decoder_ s) data in
  _ ← on_shadow sid (λ s, s <| sr_decoder_ := decoder |>);
  status ← lift result;
  match status with
  | UpstreamResponse_Complete =>
      _ ← onResponseComplete (O := shadow_owner sid);
      _ ← cleanup sid;
      mret rest
  | UpstreamResponse_MoreData =>
      _ ← (if end_stream then cleanup sid else mret tt);
      mret rest
  | _ => panic "not reached"
  end.

Definition shadow_onEvent (sid : nat) (event : ConnectionEvent) : M ActiveRouters unit :=
  shadow_onEvent_with sid (resetStream sid) event.

(** ** Deletion *)

(** The dispatcher deletes what was deferred. *)
Definition delete_deferred : M ActiveRouters unit :=
  modify (λ w, w <| ar_routers ::= λ m, foldr delete m (ar_deferred w) |> <| ar_deferred := [] |>).

(** The destructor of [ActiveRouters]: [router] refers to the first element of the list
    still after [resetStream]. *)
Fixpoint destroy_active (fuel : nat) : M ActiveRouters unit :=
  active ← gets active_routers_;
  match active, fuel with
  | [], _ => mret tt
  | _, O => panic "out of fuel"
  | sid :: _, S fuel =>
      _ ← resetStream sid;
      active ← gets active_routers_;
      if decide (sid ∈ active) then _ ← remove sid; destroy_active fuel
      else panic "use after free"
  end.
End shadow.
