(* ===== verification/ShadowBehaviour.v ===== *)
(** * What mirrored requests do

    A mirrored response is thrown away and its connection given back; a response that
    cannot be decoded stops the process, and so does the end of a worker thread while a
    mirrored request is under way. *)

From S2P Require Import Prelude Envoy Metadata Codec Decoder Network ConnManager UpstreamHandler UpstreamRequest ShadowWriter ConnInvariant.

Section shadow.
Context {E : Envoy} {C : CodecOps E} {N : NetworkOps} {V : RequestEnv}.
Implicit Types (w : ActiveRouters) (s : ShadowRouterImpl) (q : UpstreamRequestBase) (sid : nat).

(** ** Steps *)

Definition with_shadow sid s w : ActiveRouters :=
  {| ar_routers := <[sid := s]> (ar_routers w); active_routers_ := active_routers_ w; ar_deferred := ar_deferred w;
     ar_next := ar_next w; ar_calls := ar_calls w |}.
Definition with_call sid (l : list call) w : ActiveRouters :=
  {| ar_routers := ar_routers w; active_routers_ := active_routers_ w; ar_deferred := ar_deferred w; ar_next := ar_next w;
     ar_calls := ar_calls w ++ (pair sid <$> l) |}.
Definition without sid w : ActiveRouters :=
  {| ar_routers := ar_routers w; active_routers_ := List.filter (λ i, negb (i =? sid)%nat) (active_routers_ w);
     ar_deferred := ar_deferred w ++ [sid]; ar_next := ar_next w; ar_calls := ar_calls w |}.

Lemma with_shadow_twice sid s s' w : with_shadow sid s (with_shadow sid s' w) = with_shadow sid s w.
Proof. unfold with_shadow. cbn. by rewrite insert_insert_eq. Qed.
Lemma with_call_shadow sid l s w : with_call sid l (with_shadow sid s w) = with_shadow sid s (with_call sid l w).
Proof. reflexivity. Qed.
Lemma with_call_nil sid w : with_call sid [] w = w.
Proof. destruct w. unfold with_call. cbn. by rewrite app_nil_r. Qed.
Lemma with_call_app sid l l' w : with_call sid l' (with_call sid l w) = with_call sid (l ++ l') w.
Proof. unfold with_call. cbn. by rewrite fmap_app, app_assoc. Qed.

Lemma alter_put (f : ShadowRouterImpl → ShadowRouterImpl) sid s w :
  ar_routers w !! sid = Some s → w <| ar_routers ::= alter f sid |> = with_shadow sid (f s) w.
Proof.
  intros Hs. destruct w as [routers a d n c]. cbn in Hs. unfold with_shadow. cbn.
  assert (alter f sid routers = <[sid := f s]> routers) as H; [| by rewrite <- H].
  apply map_eq. intros i. destruct (decide (i = sid)) as [->|Hne].
  - by rewrite lookup_alter_eq, lookup_insert_eq, Hs.
  - by rewrite lookup_alter_ne, lookup_insert_ne.
Qed.
Lemma get_shadow_run sid s w : ar_routers w !! sid = Some s → get_shadow sid w = (Return s, w).
Proof. intros Hs. unfold get_shadow. rewrite run_bind. cbn [gets]. by rewrite Hs. Qed.
Lemma on_shadow_run sid f s w : ar_routers w !! sid = Some s → on_shadow sid f w = (Return tt, with_shadow sid (f s) w).
Proof. intros Hs. unfold on_shadow, modify. f_equal. by apply alter_put. Qed.
Lemma lookup_shadow sid s w : ar_routers (with_shadow sid s w) !! sid = Some s.
Proof. apply lookup_insert_eq. Qed.

Section owner.
Context (sid : nat) (reset : M ActiveRouters unit).
Abbreviation owner := (shadow_owner_with sid reset).

Definition owns_request s q w : Prop := ar_routers w !! sid = Some s ∧ sr_upstream_request_ s = Some q.

Lemma shadow_get_request s q w : owns_request s q w → get_request (O := owner) w = (Return q, w).
Proof.
  intros [Hs Hq]. unfold get_request. rewrite run_bind. cbn [gets the_request shadow_owner_with]. cbv beta iota.
  rewrite Hs. cbn [mbind option_bind]. by rewrite Hq.
Qed.
Lemma shadow_on_request f s q w :
  owns_request s q w → on_request (O := owner) f w = (Return tt, with_shadow sid (s <| sr_upstream_request_ := Some (f q) |>) w).
Proof.
  intros Ho. unfold on_request. rewrite run_bind, (shadow_get_request s q) by done. cbn [modify set_request shadow_owner_with].
  destruct Ho as [Hs Hq]. unfold modify. f_equal. by apply (alter_put (λ s, s <| sr_upstream_request_ := Some (f q) |>)).
Qed.
Lemma shadow_call_run c w : shadow_call sid c w = (Return tt, with_call sid [c] w).
Proof. reflexivity. Qed.
Lemma shadow_release c w :
  release (O := owner) c w = (Return tt, with_call sid (if c is Some c then [C_release c] else []) w).
Proof. destruct c; cbn; [done | by rewrite with_call_nil]. Qed.

(** The request after its connection was released *)
Definition released q : UpstreamRequestBase :=
  {| ur_kind := ur_kind q; ur_upstream_host_ := ur_upstream_host_ q; ur_upstream_request_buffer_ := ur_upstream_request_buffer_ q;
     ur_request_complete_ := ur_request_complete_ q; ur_response_started_ := ur_response_started_ q;
     ur_response_complete_ := ur_response_complete_ q; ur_stream_reset_ := true; ur_conn_pool_handle_ := None; ur_conn_data_ := None |}.
Definition release_list q : list call :=
  (if ur_conn_pool_handle_ q is Some h then [C_cancel h] else []) ++ (if ur_conn_data_ q is Some c then [C_release c] else []).
Definition waits_or_holds q : Prop := ur_conn_pool_handle_ q = None ∨ ur_conn_data_ q = None.

Lemma shadow_release_run raise pool s q w :
  owns_request s q w → ur_kind q = ByPool pool → waits_or_holds q →
  releaseUpStreamConnection (O := owner) raise false w =
    (Return tt, with_shadow sid (s <| sr_upstream_request_ := Some (released q) |>) (with_call sid (release_list q) w)).
Proof.
  intros Ho Hk Hw. unfold releaseUpStreamConnection, release_list.
  rewrite run_bind, (shadow_get_request s q) by done. cbv beta iota. rewrite Hk, run_bind, (shadow_on_request _ s q) by done. cbv beta iota.
  rewrite run_bind. cbn [record_call shadow_owner_with].
  destruct (ur_conn_pool_handle_ q) as [h|] eqn:Hh.
  - destruct Hw as [? | Hc]; [congruence |]. rewrite Hc, run_bind. cbn [ASSERT assert_that lift]. cbv beta iota. rewrite run_bind.
    rewrite shadow_call_run, with_call_shadow. cbv beta iota. erewrite shadow_on_request by (split; [apply lookup_shadow | reflexivity]).
    rewrite with_shadow_twice. cbv beta iota. rewrite run_bind. erewrite shadow_on_request by (split; [apply lookup_shadow | reflexivity]).
    rewrite with_shadow_twice. cbv beta iota. cbn [mret M_ret app]. by repeat f_equal.
  - cbn [mret M_ret]. cbv beta iota. rewrite run_bind. erewrite shadow_on_request by (split; [apply lookup_shadow | reflexivity]).
    rewrite with_shadow_twice. cbv beta iota. cbn [app].
    assert (∀ w, with_shadow sid (s <| sr_upstream_request_ := Some (q <| ur_stream_reset_ := true |>) |> <| sr_upstream_request_ :=
      Some (q <| ur_stream_reset_ := true |> <| ur_conn_data_ := None |>) |>) w = with_shadow sid (s <| sr_upstream_request_ := Some (released q) |>) w) as Hs.
    { intros w'. f_equal. destruct q. cbn in Hh. by subst. }
    rewrite Hs. destruct (ur_conn_data_ q); [| by cbn; rewrite with_call_nil]. by rewrite shadow_release, with_call_shadow.
Qed.
End owner.

(** ** The end of a shadow router *)

(** The router after [cleanup] *)
Definition finished s q : ShadowRouterImpl := s <| sr_removed_ := true |> <| sr_upstream_request_ := Some (released q) |>.

Lemma remove_run sid w : sid ∈ active_routers_ w → remove sid w = (Return tt, without sid w).
Proof.
  intros Ha. unfold remove. rewrite run_bind. cbn [gets]. cbv beta iota. rewrite run_bind, bool_decide_true by done. by destruct w.
Qed.
Lemma cleanup_run sid pool s q w :
  owns_request sid s q w → sr_removed_ s = false → ur_kind q = ByPool pool → waits_or_holds q → sid ∈ active_routers_ w →
  cleanup sid w = (Return tt, without sid (with_shadow sid (finished s q) (with_call sid (release_list q) w))).
Proof.
  intros [Hs Hq] Hr Hk Hw Ha. unfold cleanup. rewrite run_bind, (get_shadow_run sid s) by done. cbv beta iota.
  rewrite Hr, run_bind, (on_shadow_run _ _ s) by done. cbv beta iota. rewrite run_bind.
  erewrite (shadow_release_run sid (mret tt) _ pool) by (try (split; [apply lookup_shadow | exact Hq]); done).
  cbv beta iota. rewrite with_call_shadow, with_shadow_twice. by rewrite remove_run.
Qed.
(** A second time nothing happens. *)
Lemma cleanup_again sid s w : ar_routers w !! sid = Some s → sr_removed_ s = true → cleanup sid w = (Return tt, w).
Proof. intros Hs Hr. unfold cleanup. rewrite run_bind, (get_shadow_run sid s) by done. cbv beta iota. by rewrite Hr. Qed.

(** The request while the response is decoded *)
Definition started q : UpstreamRequestBase := q <| ur_response_started_ := true |>.

Lemma data_run sid s q w data end_stream :
  owns_request sid s q w → ur_response_complete_ q = false →
  ∃ q', ur_conn_data_ q' = ur_conn_data_ q ∧ ur_conn_pool_handle_ q' = ur_conn_pool_handle_ q ∧ ur_kind q' = ur_kind q ∧
    ur_response_complete_ q' = false ∧
  shadow_onUpstreamData sid data end_stream w =
    (let '(result, (decoder, rest)) := NullResponseDecoder_decode (sr_decoder_ s) data in
     status ← lift result;
     match status with
     | UpstreamResponse_Complete => _ ← onResponseComplete (O := shadow_owner_with sid (resetStream sid)); _ ← cleanup sid; mret rest
     | UpstreamResponse_MoreData => _ ← (if end_stream then cleanup sid else mret tt); mret rest
     | _ => panic "not reached"
     end) (with_shadow sid (s <| sr_upstream_request_ := Some q' |> <| sr_decoder_ := (NullResponseDecoder_decode (sr_decoder_ s) data).2.1 |>) w).
Proof.
  intros Ho Hc. exists (if ur_response_started_ q then q else started q).
  split_and!; [by destruct (ur_response_started_ q) .. |].
  unfold shadow_onUpstreamData. rewrite run_bind. unfold shadow_owner. rewrite (shadow_get_request sid (resetStream sid) s q w Ho).
  cbv beta iota. rewrite Hc, run_bind. cbn [negb ASSERT assert_that lift]. cbv beta iota. rewrite run_bind.
  destruct Ho as [Hs Hq].
  assert ((if ur_response_started_ q then mret tt else onResponseStarted (O := shadow_owner_with sid (resetStream sid))) w =
    (Return tt, with_shadow sid (s <| sr_upstream_request_ := Some (if ur_response_started_ q then q else started q) |>) w)) as ->.
  { destruct (ur_response_started_ q) eqn:Hst.
    - cbn [mret M_ret]. f_equal. destruct s. cbn in Hq. subst. destruct w as [routers a d n c]. cbn in Hs. unfold with_shadow. cbn.
      by rewrite insert_id.
    - unfold onResponseStarted. by rewrite (shadow_on_request sid (resetStream sid) _ s q). }
  cbv beta iota. rewrite run_bind. erewrite get_shadow_run by apply lookup_shadow. cbv beta iota.
  change (sr_decoder_ (s <| sr_upstream_request_ := ?x |>)) with (sr_decoder_ s).
  destruct (NullResponseDecoder_decode (sr_decoder_ s) data) as [result [decoder rest]]. cbn [fst snd].
  rewrite run_bind. erewrite on_shadow_run by apply lookup_shadow. by rewrite with_shadow_twice.
Qed.

Lemma not_active_without sid w : sid ∉ active_routers_ (without sid w).
Proof. cbn. intros [_ Hne]%list_elem_of_In%List.filter_In. by rewrite Nat.eqb_refl in Hne. Qed.

(** C29: The response to a mirrored request is thrown away: when it is complete the connection is given back, once, the shadow
    router is taken off the list of its thread and left to the dispatcher to delete, no other shadow router changes, and
    nothing else is called, so that the client sees nothing of it; a later event does not remove the router again. *)
Theorem shadow_response_discarded sid pool s q w conn data decoder rest end_stream :
  owns_request sid s q w → ur_kind q = ByPool pool → ur_conn_data_ q = Some conn → ur_conn_pool_handle_ q = None →
  ur_response_complete_ q = false → sr_removed_ s = false → sid ∈ active_routers_ w →
  NullResponseDecoder_decode (sr_decoder_ s) data = (Return UpstreamResponse_Complete, (decoder, rest)) →
  ∃ w', shadow_onUpstreamData sid data end_stream w = (Return rest, w') ∧
    (sid ∉ active_routers_ w') ∧ (∀ i, i ≠ sid → (i ∈ active_routers_ w' ↔ i ∈ active_routers_ w)) ∧
    ar_deferred w' = ar_deferred w ++ [sid] ∧ (∀ i, i ≠ sid → ar_routers w' !! i = ar_routers w !! i) ∧
    ar_calls w' = ar_calls w ++ [(sid, C_release conn)] ∧ cleanup sid w' = (Return tt, w').
Proof.
  intros Ho Hk Hd Hh Hc Hr Ha Hdec. destruct (data_run sid s q w data end_stream Ho Hc) as (q' & Hd' & Hh' & Hk' & Hc' & ->).
  rewrite Hdec, run_bind. cbn [lift fst snd]. cbv beta iota. rewrite run_bind. set (s1 := s <| sr_upstream_request_ := _ |> <| sr_decoder_ := _ |>).
  unfold onResponseComplete. rewrite run_bind, (shadow_get_request sid _ s1 q') by (split; [apply lookup_shadow | done]). cbv beta iota.
  rewrite run_bind, (shadow_on_request sid _ _ s1 q') by (split; [apply lookup_shadow | done]). cbv beta iota. rewrite Hk', Hk, Hd', Hd, run_bind.
  erewrite shadow_on_request by (split; [apply lookup_shadow | reflexivity]). cbv beta iota. rewrite shadow_release. cbv beta iota.
  rewrite !with_shadow_twice, with_call_shadow, run_bind.
  erewrite (cleanup_run sid pool) by first [split; [apply lookup_shadow | reflexivity] | exact Hr | exact Ha | by rewrite <- Hk, <- Hk' | by right].
  cbv beta iota. cbn [mret M_ret]. eexists. split; [reflexivity |]. split_and!.
  - apply not_active_without.
  - intros i Hi. cbn. rewrite !list_elem_of_In, List.filter_In. rewrite (proj2 (Nat.eqb_neq i sid) Hi). cbn. tauto.
  - done.
  - intros i Hi. cbn. by rewrite !lookup_insert_ne.
  - cbn. rewrite Hh', Hh. cbn. by rewrite app_nil_r.
  - eapply cleanup_again; [apply lookup_shadow | done].
Qed.

Lemma decode_throws d data e st :
  nd_decoder_ d = new_DecoderBase MessageType_Response →
  codec_decode (nd_codec_ d, data, fresh_metadata MessageType_Response) = (Throw (EnvoyException e), st) →
  (NullResponseDecoder_decode d data).1 = Return UpstreamResponse_Reset.
Proof.
  intros Hd Hc. destruct st as [[c b] m]. unfold NullResponseDecoder_decode, Decoder.onData, Decoder.start, Decoder.run, onDecodeStream, decode_with_codec, on_decoder. rewrite Hd.
  mstep. cbn [h_decoder new_DecoderBase decode_started_]. cbv beta iota. mstep. rewrite bool_decide_true by done. mstep.
  rewrite bool_decide_true by done. mstep. change (codec_decode _) with (codec_decode (nd_codec_ d, data, fresh_metadata MessageType_Response)).
  rewrite Hc. reflexivity.
Qed.

(** A mirror can stop the proxy: if the bytes it answers with are no response of the protocol, the decoder reports Reset, a
    status that the shadow router takes for impossible. *)
Theorem shadow_undecodable_response_panics sid s q w data e st end_stream :
  owns_request sid s q w → ur_response_complete_ q = false →
  nd_decoder_ (sr_decoder_ s) = new_DecoderBase MessageType_Response →
  codec_decode (nd_codec_ (sr_decoder_ s), data, fresh_metadata MessageType_Response) = (Throw (EnvoyException e), st) →
  (shadow_onUpstreamData sid data end_stream w).1 = Panic "not reached".
Proof.
  intros Ho Hc Hd Hcodec. destruct (data_run sid s q w data end_stream Ho Hc) as (q' & _ & _ & _ & _ & ->).
  pose proof (decode_throws (sr_decoder_ s) data e st Hd Hcodec) as Hdec.
  destruct (NullResponseDecoder_decode (sr_decoder_ s) data) as [result [decoder rest]]. cbn in Hdec. by subst.
Qed.

(** ** The end of a worker thread *)

(** Closing without a connection only forgets the request for one. *)
Lemma shadow_close_none sid reset raise pool s q w :
  owns_request sid s q w → ur_kind q = ByPool pool → ur_conn_pool_handle_ q = None → ur_conn_data_ q = None →
  releaseUpStreamConnection (O := shadow_owner_with sid reset) raise true w =
    (Return tt, with_shadow sid (s <| sr_upstream_request_ := Some (released q) |>) w).
Proof.
  intros Ho Hk Hh Hc. transitivity (releaseUpStreamConnection (O := shadow_owner_with sid reset) raise false w).
  - unfold releaseUpStreamConnection. rewrite !run_bind, (shadow_get_request sid reset s q) by done. cbv beta iota. by rewrite Hk, Hc.
  - rewrite (shadow_release_run sid reset raise pool s q) by (done || by left). unfold release_list. by rewrite Hh, Hc, with_call_nil.
Qed.

Lemma reset_again sid depth pool s q w :
  owns_request sid s q w → ur_kind q = ByPool pool → ur_conn_pool_handle_ q = None → ur_conn_data_ q = None →
  shadow_resetStream (S depth) sid w = (Return tt, with_shadow sid (s <| sr_upstream_request_ := Some (released q) |>) w).
Proof.
  intros Ho Hk Hh Hc. cbn [shadow_resetStream]. rewrite run_bind, (get_shadow_run sid s) by apply Ho. cbv beta iota.
  destruct Ho as [Hs Hq]. rewrite Hq. by apply (shadow_close_none sid _ _ pool).
Qed.

(** The close comes back as an event, which removes the router. *)
Lemma closed_event_run sid pool s q host w :
  owns_request sid s q w → ur_kind q = ByPool pool → ur_conn_pool_handle_ q = None → ur_conn_data_ q = None →
  ur_upstream_host_ q = Some host → ur_response_complete_ q = false → message_type_ (sr_metadata_ s) = MessageType_Request →
  sr_removed_ s = false → sid ∈ active_routers_ w →
  ∃ w', shadow_onEvent_with sid (shadow_resetStream 1 sid) LocalClose w = (Return tt, w') ∧ (sid ∉ active_routers_ w').
Proof.
  intros [Hs Hq] Hk Hh Hc Hhost Hcomp Ht Hr Ha. unfold shadow_onEvent_with, onUpstreamConnectionEvent.
  set (reset := shadow_resetStream 1 sid).
  rewrite run_bind, run_bind, (shadow_get_request sid reset s q) by done. cbv beta iota. rewrite Hcomp, run_bind.
  cbn [negb ASSERT assert_that lift]. cbv beta iota. unfold onUpstreamConnectionReset. rewrite run_bind. cbn [gets]. cbv beta iota.
  cbn [shared_metadata shadow_owner_with]. rewrite Hs. cbn [from_option]. rewrite Ht, decide_False, run_bind by done.
  unfold host_address. rewrite run_bind, run_bind, (shadow_get_request sid reset s q) by done. cbv beta iota. rewrite Hhost.
  cbn [mret M_ret owner_sendLocalReply owner_resetStream shadow_owner_with]. cbv beta iota.
  rewrite run_bind, (shadow_get_request sid reset s q) by done. cbv beta iota. rewrite Hcomp. cbn [negb].
  unfold reset. rewrite (reset_again sid 0 pool s q) by done. cbv beta iota.
  erewrite (cleanup_run sid pool) by first [split; [apply lookup_shadow | reflexivity] | done | by left].
  eexists. split; [reflexivity | apply not_active_without].
Qed.

(** [resetStream] is entered at most twice: the event that closing raises finds no connection. *)
Lemma closed_event_depth sid depth pool s q w :
  owns_request sid s q w → ur_kind q = ByPool pool → ur_conn_pool_handle_ q = None → ur_conn_data_ q = None →
  shadow_onEvent_with sid (shadow_resetStream (S depth) sid) LocalClose w = shadow_onEvent_with sid (shadow_resetStream 1 sid) LocalClose w.
Proof.
  intros Ho Hk Hh Hc. unfold shadow_onEvent_with. rewrite !run_bind. match goal with |- match ?a with _ => _ end = match ?b with _ => _ end => assert (a = b) as ->; [| done] end.
  unfold onUpstreamConnectionEvent. rewrite !run_bind, !(shadow_get_request sid _ s q) by done. cbv beta iota. rewrite !run_bind.
  destruct (ur_response_complete_ q) eqn:Hcomp; cbn [negb ASSERT assert_that lift]; cbv beta iota; [reflexivity |].
  unfold onUpstreamConnectionReset. rewrite !run_bind. cbn [gets]. cbv beta iota. cbn [shared_metadata shadow_owner_with owner_resetStream].
  destruct (decide _); [by rewrite !(reset_again sid _ pool s q) |]. rewrite !run_bind. unfold host_address.
  rewrite !run_bind, !(shadow_get_request sid _ s q) by done. cbv beta iota.
  destruct (ur_upstream_host_ q); cbn [mret M_ret panic owner_sendLocalReply shadow_owner_with]; cbv beta iota; [| reflexivity]. rewrite !run_bind, !(shadow_get_request sid _ s q) by done.
  cbv beta iota. rewrite Hcomp. cbn [negb]. by rewrite !(reset_again sid _ pool s q).
Qed.

(** C30: A worker thread cannot end while a mirrored request waits for its response: the destructor of its list resets the first
    shadow router, whose connection is closed with the callbacks of the router on it; the close comes back to the router,
    which takes itself off the list, and the destructor goes on with a reference to the element that is gone. *)
Theorem shadow_shutdown_use_after_free sid rest pool s q host conn conn' w fuel :
  active_routers_ w = sid :: rest → owns_request sid s q w → ur_kind q = ByPool pool → ur_conn_pool_handle_ q = None →
  ur_conn_data_ q = Some conn → ur_upstream_host_ q = Some host → ur_response_complete_ q = false →
  message_type_ (sr_metadata_ s) = MessageType_Request → sr_removed_ s = false → conn_close conn NoFlush = (conn', true) →
  (destroy_active (S fuel) w).1 = Panic "use after free".
Proof.
  intros Ha [Hs Hq] Hk Hh Hc Hhost Hcomp Ht Hr Hclose.
  assert (∃ w', resetStream sid w = (Return tt, w') ∧ (sid ∉ active_routers_ w')) as (w' & Hreset & Hna).
  { unfold resetStream, resetStream_depth. cbn [shadow_resetStream]. rewrite run_bind, (get_shadow_run sid s) by done. cbv beta iota.
    rewrite Hq, decide_True by done. unfold releaseUpStreamConnection at 1. rewrite run_bind, (shadow_get_request sid _ s q) by done.
    cbv beta iota. rewrite Hk, run_bind, (shadow_on_request sid _ _ s q) by done. cbv beta iota. rewrite Hh, run_bind.
    cbn [mret M_ret]. cbv beta iota. rewrite run_bind. erewrite shadow_on_request by (split; [apply lookup_shadow | reflexivity]).
    rewrite with_shadow_twice. cbv beta iota. rewrite Hc, Hclose, run_bind.
    set (s1 := s <| sr_upstream_request_ := _ |> <| sr_upstream_request_ := _ |>).
    destruct (closed_event_run sid pool s1 (q <| ur_stream_reset_ := true |> <| ur_conn_data_ := None |>) host (with_shadow sid s1 w))
      as (w1 & Hw1 & Hna); [split; [apply lookup_shadow | done] | done | done | done | done | done | done | done | |].
    { cbn. rewrite Ha. left. }
    cbn [shadow_resetStream] in Hw1. rewrite Hw1. cbv beta iota. rewrite shadow_release. eexists. split; [reflexivity | exact Hna]. }
  cbn [destroy_active]. rewrite run_bind. cbn [gets]. cbv beta iota. rewrite Ha, run_bind, Hreset. cbv beta iota. rewrite run_bind.
  cbn [gets]. cbv beta iota. by rewrite decide_False.
Qed.
End shadow.

(** ** Witnesses

    A mirrored request on an open connection, in the small protocol of the connection
    manager, where 7 is a response and 99 is nothing. *)

Definition mw_E : Envoy := toy_E.
Definition mw_N : NetworkOps := list_network.
Definition mw_conn : @connection mw_N := {| lc_state := Connection_Open; lc_written := [([5], false)] |}.
Definition mw_V : @RequestEnv mw_N :=
  {| remoteAddress _ := "10.0.0.2:80"; handler_isPoolReady _ := false; thread_local_cluster _ := None |}.
Definition mw_request : @UpstreamRequestBase mw_E mw_N :=
  @Build_UpstreamRequestBase mw_E mw_N (ByPool (NC_Ready mw_conn "host")) (Some "host") buf_new true false false false None (Some mw_conn).
Definition mw_router : @ShadowRouterImpl mw_E toy_codec mw_N :=
  (new_ShadowRouterImpl "mirror" (setMessageType MessageType_Request new_MetadataImpl) ∅ false) <| sr_upstream_request_ := Some mw_request |>.
Definition mw_world : @ActiveRouters mw_E toy_codec mw_N :=
  @Build_ActiveRouters mw_E toy_codec mw_N {[0%nat := mw_router]} [0%nat] [] 1 [].
Definition mw_data (b : bytes) : @buffer (@envoy_buffer mw_E) := buf_add buf_new b.

Lemma pair_parts {A B D} (p : A * (B * D)) a d : p.1 = a → p.2.2 = d → p = (a, (p.2.1, d)).
Proof. destruct p as [? [? ?]]. by intros <- <-. Qed.
Lemma mw_owns : owns_request 0 mw_router mw_request mw_world.
Proof. split; [apply lookup_singleton_eq | reflexivity]. Qed.

Lemma shadow_response_discarded_witness :
  ∃ w', @shadow_onUpstreamData mw_E toy_codec mw_N 0 (mw_data [7]) false mw_world = (Return (mw_data []), w') ∧
    ar_deferred w' = [0%nat] ∧ ar_calls w' = [(0%nat, C_release mw_conn)].
Proof.
  destruct (@shadow_response_discarded mw_E toy_codec mw_N 0 (NC_Ready mw_conn "host") mw_router mw_request mw_world mw_conn (mw_data [7])
    (NullResponseDecoder_decode (sr_decoder_ mw_router) (mw_data [7])).2.1 (mw_data []) false)
    as (w' & Hr & _ & _ & Hd & _ & Hc & _).
  - exact mw_owns.
  - reflexivity.
  - reflexivity.
  - reflexivity.
  - reflexivity.
  - reflexivity.
  - left.
  - apply pair_parts; vm_compute; reflexivity.
  - exists w'. split; [exact Hr |]. split; [exact Hd | exact Hc].
Defined.

Lemma shadow_undecodable_response_panics_witness :
  (@shadow_onUpstreamData mw_E toy_codec mw_N 0 (mw_data [99]) false mw_world).1 = Panic "not reached".
Proof.
  apply (@shadow_undecodable_response_panics mw_E toy_codec mw_N 0 mw_router mw_request mw_world (mw_data [99]) "bad message"
    (@codec_decode mw_E toy_codec (tt, mw_data [99], fresh_metadata MessageType_Response)).2 false).
  - exact mw_owns.
  - reflexivity.
  - reflexivity.
  - apply pair_fst. vm_compute. reflexivity.
Defined.

Lemma shadow_shutdown_use_after_free_witness :
  (@destroy_active mw_E toy_codec mw_N 1 mw_world).1 = Panic "use after free".
Proof.
  apply (@shadow_shutdown_use_after_free mw_E toy_codec mw_N 0 [] (NC_Ready mw_conn "host") mw_router mw_request "host" mw_conn
    {| lc_state := Connection_Closed; lc_written := [([5], false)] |} mw_world 0); try reflexivity.
  exact mw_owns.
Defined.
