(* ===== verification/Rds.v ===== *)
(** * Route discovery

    Model of [route/rds_impl.{h,cc}] and [route_config_update_receiver_impl.{h,cc}]: how
    a route configuration that comes from the control plane is converted, checked and
    given to the worker threads.  The state is a subscription with its provider, if it
    has one, and the slots of the threads; an update is posted to every thread and runs
    there later. *)

From S2P Require Import Prelude Envoy Metadata Route.

Section rds.
Context {E : Envoy} {R : RouteEnv E}.

(** ** Configurations *)

(** [config::route::v1alpha::RouteConfiguration] *)
Record RouteConfiguration : Type := { cf_name : string; cf_routes : list RouteConfig }.

(** What is read of [envoy::config::route::v3::RouteConfiguration], which carries it *)
Inductive ClusterSpecifier : Type :=
| CS_Cluster (name : string) | CS_WeightedClusters (clusters : list (string * option Z)) | CS_Other.
Record HttpMirrorPolicy : Type := { hm_cluster : string; hm_runtime_fraction : option (string * (Z * Z)) }.
Record HttpRouteAction : Type := {
  ha_cluster_specifier : ClusterSpecifier;
  (** [header().header_name()], empty for a policy of another kind *)
  ha_hash_policy : list string;
  ha_request_mirror_policies : list HttpMirrorPolicy
}.
Record HttpRoute : Type := {
  hr_name : string;
  hr_match : option (list HeaderMatcher);
  hr_route : option HttpRouteAction;
  hr_request_headers_to_add : list (string * string);
  hr_response_headers_to_add : list (string * string)
}.
Record HttpRouteConfiguration : Type := { hc_name : string; hc_virtual_hosts : list (list HttpRoute) }.

(** ** The conversion *)

(** The runtime key of the fraction is not copied; the default of a fraction that is not
    set is zero of a hundred. *)
Definition convert_mirror (p : HttpMirrorPolicy) : MirrorPolicyConfig :=
  {| mp_cluster := hm_cluster p;
     mp_runtime_fraction := Some ("", match hm_runtime_fraction p with Some (_, default_value) => default_value | None => (0, 0) end) |}.

Definition convert_route (httpRoute : HttpRoute) : outcome RouteConfig :=
  _ ← assert_that (if hr_route httpRoute is Some _ then true else false) "httpRoute.has_route()";
  match hr_route httpRoute with
  | None => Panic "httpRoute.has_route()"
  | Some action =>
      Return {| rc_name := hr_name httpRoute;
                rc_cluster := match ha_cluster_specifier action with CS_Cluster name => name | _ => "" end;
                rc_match := match hr_match httpRoute with Some headers => headers | None => [] end;
                rc_weighted_clusters := match ha_cluster_specifier action with CS_WeightedClusters l => Some l | _ => None end;
                rc_request_mutation := hr_request_headers_to_add httpRoute;
                rc_response_mutation := hr_response_headers_to_add httpRoute;
                rc_hash_policy := ha_hash_policy action;
                rc_mirror_policies := convert_mirror <$> ha_request_mirror_policies action |}
  end.

(** The loop over the routes *)
Fixpoint convert_routes (l : list HttpRoute) : outcome (list RouteConfig) :=
  match l with
  | [] => Return []
  | r :: l => r ← convert_route r; l ← convert_routes l; Return (r :: l)
  end.

Definition httpRouteConfig2MetaProtocolRouteConfig (http_route_config : HttpRouteConfiguration) : outcome RouteConfiguration :=
  match hc_virtual_hosts http_route_config with
  | [routes] =>
      _ ← assert_that (if routes is [] then false else true) "routeSize > 0";
      routes ← convert_routes routes;
      Return {| cf_name := hc_name http_route_config; cf_routes := routes |}
  | _ => Panic "http_route_config.virtual_hosts_size() == 1"
  end.

(** ** The state *)

Inductive Config : Type :=
| NullConfigImpl
| ConfigImpl (name_ : string) (route_matcher_ : list RouteEntryImplBase).
Definition new_ConfigImpl (config : RouteConfiguration) : outcome Config :=
  route_matcher ← new_RouteMatcherImpl (cf_routes config);
  Return (ConfigImpl (cf_name config) route_matcher).
Definition Config_route (c : Config) (metadata : MetadataImpl) (random_value : Z) : outcome (option Route) :=
  match c with
  | NullConfigImpl => Return None
  | ConfigImpl _ route_matcher => RouteMatcherImpl_route route_matcher metadata random_value
  end.

(** [MessageUtil::hash] and the clock *)
Class RdsEnv := { config_hash : RouteConfiguration → Z; systemTime : Z }.
Context {D : RdsEnv}.

Record RouteConfigUpdateReceiverImpl : Type := {
  ru_route_config_proto_ : RouteConfiguration;
  ru_last_config_hash_ : Z;
  ru_last_config_version_ : string;
  ru_last_updated_ : Z;
  ru_config_info_ : option (RouteConfiguration * string);
  ru_config_ : option Config
}.
#[global] Instance RouteConfigUpdateReceiverImpl_eta : Eta RouteConfigUpdateReceiverImpl := fun r =>
  {| ru_route_config_proto_ := ru_route_config_proto_ r; ru_last_config_hash_ := ru_last_config_hash_ r;
     ru_last_config_version_ := ru_last_config_version_ r; ru_last_updated_ := ru_last_updated_ r;
     ru_config_info_ := ru_config_info_ r; ru_config_ := ru_config_ r |}.

Definition new_RouteConfigUpdateReceiverImpl : RouteConfigUpdateReceiverImpl :=
  {| ru_route_config_proto_ := {| cf_name := ""; cf_routes := [] |}; ru_last_config_hash_ := 0; ru_last_config_version_ := "";
     ru_last_updated_ := 0; ru_config_info_ := None; ru_config_ := None |}.

(** The slot of a worker thread, with the updates posted to its dispatcher *)
Record ThreadLocalConfig : Type := { tl_config_ : Config; tl_posted : list Config }.

Record RdsRouteConfigSubscription : Type := {
  rd_route_config_name_ : string;
  rd_config_update_info_ : RouteConfigUpdateReceiverImpl;
  (** [route_config_provider_opt_]: the slots of the provider *)
  rd_route_config_provider_opt_ : option (list ThreadLocalConfig);
  (** [local_init_target_.ready()] was called *)
  rd_ready : bool;
  rd_config_reload_ : Z;
  rd_config_reload_time_ms_ : Z;
  rd_update_empty_ : Z
}.
#[global] Instance RdsRouteConfigSubscription_eta : Eta RdsRouteConfigSubscription := fun r =>
  {| rd_route_config_name_ := rd_route_config_name_ r; rd_config_update_info_ := rd_config_update_info_ r;
     rd_route_config_provider_opt_ := rd_route_config_provider_opt_ r; rd_ready := rd_ready r;
     rd_config_reload_ := rd_config_reload_ r; rd_config_reload_time_ms_ := rd_config_reload_time_ms_ r;
     rd_update_empty_ := rd_update_empty_ r |}.

Definition new_RdsRouteConfigSubscription (route_config_name : string) : RdsRouteConfigSubscription :=
  {| rd_route_config_name_ := route_config_name; rd_config_update_info_ := new_RouteConfigUpdateReceiverImpl;
     rd_route_config_provider_opt_ := None; rd_ready := false; rd_config_reload_ := 0; rd_config_reload_time_ms_ := 0;
     rd_update_empty_ := 0 |}.

(** ** RouteConfigUpdateReceiverImpl *)

Definition onUpdateCommon (version_info : string) : M RouteConfigUpdateReceiverImpl unit :=
  modify (λ r, r <| ru_last_config_version_ := version_info |> <| ru_last_updated_ := systemTime |>
                 <| ru_config_info_ := Some (ru_route_config_proto_ r, version_info) |>).

Definition onRdsUpdate (rc : RouteConfiguration) (version_info : string) : M RouteConfigUpdateReceiverImpl bool :=
  let new_hash := config_hash rc in
  last ← gets ru_last_config_hash_;
  if new_hash =? last then mret false
  else
    _ ← modify (λ r, r <| ru_route_config_proto_ := rc |> <| ru_last_config_hash_ := new_hash |>);
    config ← lift (new_ConfigImpl rc);
    _ ← modify (λ r, r <| ru_config_ := Some config |>);
    _ ← onUpdateCommon version_info;
    mret true.

(** ** RdsRouteConfigProviderImpl *)

Definition post (c : Config) (t : ThreadLocalConfig) : ThreadLocalConfig :=
  {| tl_config_ := tl_config_ t; tl_posted := tl_posted t ++ [c] |}.
(** A thread takes the next update. *)
Definition take_posted (t : ThreadLocalConfig) : ThreadLocalConfig :=
  match tl_posted t with [] => t | c :: l => {| tl_config_ := c; tl_posted := l |} end.

(** The constructor, with the number of threads *)
Definition new_RdsRouteConfigProviderImpl (threads : nat) : M RdsRouteConfigSubscription unit :=
  info ← gets rd_config_update_info_;
  initial_config ← (match ru_config_info_ info with
                    | Some _ => lift (new_ConfigImpl (ru_route_config_proto_ info))
                    | None => mret NullConfigImpl
                    end);
  provider ← gets rd_route_config_provider_opt_;
  _ ← ASSERT (if provider is None then true else false) "!subscription_->routeConfigProvider().has_value()";
  modify (λ s, s <| rd_route_config_provider_opt_ := Some (replicate threads {| tl_config_ := initial_config; tl_posted := [] |}) |>).

Definition destroy_RdsRouteConfigProviderImpl : M RdsRouteConfigSubscription unit :=
  provider ← gets rd_route_config_provider_opt_;
  _ ← ASSERT (if provider is Some _ then true else false) "subscription_->routeConfigProvider().has_value()";
  modify (λ s, s <| rd_route_config_provider_opt_ := None |>).

(** [runOnAllThreads] *)
Definition provider_onConfigUpdate : M RdsRouteConfigSubscription unit :=
  info ← gets rd_config_update_info_;
  match ru_config_ info with
  | None => panic "null configuration"
  | Some new_config => modify (λ s, s <| rd_route_config_provider_opt_ ::= option_map (fmap (post new_config)) |>)
  end.

Definition validateConfig (config : RouteConfiguration) : outcome unit := _ ← new_ConfigImpl config; Return tt.

(** ** RdsRouteConfigSubscription *)

Inductive Status : Type := OkStatus | InvalidArgument (message : string) | Internal (message : string).

Definition ready : M RdsRouteConfigSubscription unit := modify (λ s, s <| rd_ready := true |>).

Definition validateUpdateSize (num_resources : Z) : M RdsRouteConfigSubscription bool :=
  if num_resources =? 0 then
    _ ← modify (λ s, s <| rd_update_empty_ ::= Z.succ |>);
    _ ← ready;
    mret false
  else if negb (num_resources =? 1) then throw (EnvoyException ("Unexpected RDS resource length: " +:+ pretty num_resources))
  else mret true.

Definition in_receiver {A} (m : M RouteConfigUpdateReceiverImpl A) : M RdsRouteConfigSubscription A := λ s,
  let '(o, r) := m (rd_config_update_info_ s) in (o, s <| rd_config_update_info_ := r |>).

(** The [try] block of [onConfigUpdate] *)
Definition apply_update (resource : HttpRouteConfiguration) (version_info : string) : M RdsRouteConfigSubscription Status :=
  config ← lift (httpRouteConfig2MetaProtocolRouteConfig resource);
  name ← gets rd_route_config_name_;
  if negb (bool_decide (cf_name config = name)) then
    mret (Internal ("Unexpected RDS configuration (expecting " +:+ name +:+ "): " +:+ cf_name config))
  else
    provider ← gets rd_route_config_provider_opt_;
    _ ← (if provider is Some _ then lift (validateConfig config) else mret tt);
    updated ← in_receiver (onRdsUpdate config version_info);
    _ ← (if (updated : bool) then
           _ ← modify (λ s, s <| rd_config_reload_ ::= Z.succ |> <| rd_config_reload_time_ms_ := systemTime |>);
           if provider is Some _ then provider_onConfigUpdate else mret tt
         else mret tt);
    _ ← ready;
    mret OkStatus.

Definition exn_what (e : exn) : string :=
  match e with EnvoyException w | DownstreamConnectionCloseException w => w | BadAnyCast => "bad any_cast" end.

Definition onConfigUpdate (resources : list HttpRouteConfiguration) (version_info : string) : M RdsRouteConfigSubscription Status :=
  valid ← validateUpdateSize (zlen resources);
  if negb valid then mret (InvalidArgument "Invalid update size")
  else
    match resources with
    | [] => panic "resources[0]"
    | resource :: _ => catch_envoy (apply_update resource version_info) (λ e, mret (Internal (exn_what e)))
    end.

(** The delta variant: each resource has its version. *)
Definition onConfigUpdate_delta (added_resources : list (HttpRouteConfiguration * string)) (removed_resources : list string) :
    M RdsRouteConfigSubscription Status :=
  match removed_resources, added_resources with
  | _ :: _, _ => mret OkStatus
  | [], (_, version) :: _ => onConfigUpdate (fst <$> added_resources) version
  | [], [] => mret OkStatus
  end.

Inductive ConfigUpdateFailureReason : Type := ConnectionFailure | FetchTimedout | UpdateRejected.
Definition onConfigUpdateFailed (reason : ConfigUpdateFailureReason) : M RdsRouteConfigSubscription unit :=
  _ ← ASSERT (if reason is ConnectionFailure then false else true) "ConnectionFailure != reason";
  ready.

(** A worker thread runs the next update posted to it. *)
Definition run_posted (thread : nat) : M RdsRouteConfigSubscription unit :=
  modify (λ s, s <| rd_route_config_provider_opt_ ::= option_map (alter take_posted thread) |>).

(** ** RouteConfigProviderManagerImpl

    The providers by the hash of their [Rds] message, which is also the key of their
    subscription; a static provider is known by its number. *)

Record StaticRouteConfigProviderImpl : Type := { sp_config_ : Config; sp_route_config_proto_ : RouteConfiguration; sp_last_updated_ : Z }.
Definition new_StaticRouteConfigProviderImpl (config : RouteConfiguration) : outcome StaticRouteConfigProviderImpl :=
  c ← new_ConfigImpl config;
  Return {| sp_config_ := c; sp_route_config_proto_ := config; sp_last_updated_ := systemTime |}.

Record RouteConfigProviderManagerImpl : Type := {
  dynamic_route_config_providers_ : gmap Z RdsRouteConfigSubscription;
  static_route_config_providers_ : gmap nat StaticRouteConfigProviderImpl
}.
#[global] Instance RouteConfigProviderManagerImpl_eta : Eta RouteConfigProviderManagerImpl := fun m =>
  {| dynamic_route_config_providers_ := dynamic_route_config_providers_ m; static_route_config_providers_ := static_route_config_providers_ m |}.

(** With the size of [config_source().api_config_source().grpc_services()], of which the
    first is read for a log entry *)
Definition createRdsRouteConfigProvider (manager_identifier : Z) (route_config_name : string) (grpc_services : Z) (threads : nat) :
    M RouteConfigProviderManagerImpl unit :=
  it ← gets (λ m, dynamic_route_config_providers_ m !! manager_identifier);
  match it with
  | None =>
      _ ← ASSERT (0 <? grpc_services) "grpc_services().Get(0)";
      match new_RdsRouteConfigProviderImpl threads (new_RdsRouteConfigSubscription route_config_name) with
      | (Return _, subscription) => modify (λ m, m <| dynamic_route_config_providers_ ::= <[manager_identifier := subscription]> |>)
      | (Throw e, _) => throw e
      | (Panic w, _) => panic w
      end
  | Some subscription =>
      if rd_route_config_provider_opt_ subscription is Some _ then mret tt
      else panic ("cannot find subscribed rds resource " +:+ route_config_name)
  end.

(** The last owner of a provider is gone: the destructor of the provider, then that of
    the subscription. *)
Definition destroyRdsRouteConfigProvider (manager_identifier : Z) : M RouteConfigProviderManagerImpl unit :=
  it ← gets (λ m, dynamic_route_config_providers_ m !! manager_identifier);
  match it with
  | None => mret tt
  | Some subscription =>
      match destroy_RdsRouteConfigProviderImpl subscription with
      | (Return _, _) => modify (λ m, m <| dynamic_route_config_providers_ ::= delete manager_identifier |>)
      | (Throw e, _) => throw e
      | (Panic w, _) => panic w
      end
  end.

Definition createStaticRouteConfigProvider (number : nat) (route_config : RouteConfiguration) : M RouteConfigProviderManagerImpl unit :=
  provider ← lift (new_StaticRouteConfigProviderImpl route_config);
  modify (λ m, m <| static_route_config_providers_ ::= <[number := provider]> |>).
Definition destroyStaticRouteConfigProvider (number : nat) : M RouteConfigProviderManagerImpl unit :=
  modify (λ m, m <| static_route_config_providers_ ::= delete number |>).

(** A dynamic configuration is dumped with its version and time, a static one with its
    time. *)
Definition dump_dynamic (name_matcher : string → bool) (s : RdsRouteConfigSubscription) :
    outcome (list (string * RouteConfiguration * Z)) :=
  let info := rd_config_update_info_ s in
  _ ← assert_that (if rd_route_config_provider_opt_ s is Some _ then true else false) "subscription->route_config_provider_opt_.has_value()";
  Return (match ru_config_info_ info with
          | None => []
          | Some _ =>
              if negb (name_matcher (cf_name (ru_route_config_proto_ info))) then []
              else [(ru_last_config_version_ info, ru_route_config_proto_ info, ru_last_updated_ info)]
          end).
Fixpoint dump_all (name_matcher : string → bool) (l : list RdsRouteConfigSubscription) :
    outcome (list (string * RouteConfiguration * Z)) :=
  match l with
  | [] => Return []
  | s :: l => c ← dump_dynamic name_matcher s; rest ← dump_all name_matcher l; Return (c ++ rest)
  end.
Definition dump_static (name_matcher : string → bool) (p : StaticRouteConfigProviderImpl) : list (RouteConfiguration * Z) :=
  if negb (name_matcher (cf_name (sp_route_config_proto_ p))) then [] else [(sp_route_config_proto_ p, sp_last_updated_ p)].

Definition dumpRouteConfigs (name_matcher : string → bool) (m : RouteConfigProviderManagerImpl) :
    outcome (list (string * RouteConfiguration * Z) * list (RouteConfiguration * Z)) :=
  dynamic ← dump_all name_matcher (snd <$> map_to_list (dynamic_route_config_providers_ m));
  Return (dynamic, map_to_list (static_route_config_providers_ m) ≫= λ p, dump_static name_matcher p.2).
End rds.
