(* ===== verification/RdsBehaviour.v ===== *)
(** * What route discovery does

    A configuration survives the conversion but for the runtime fractions of its
    mirrors; an update is applied as a whole or not at all; every worker thread goes
    through the accepted configurations in their order. *)

From S2P Require Import Prelude Envoy Metadata Route Rds.

Section behaviour.
Context {E : Envoy} {R : RouteEnv E} {D : RdsEnv}.
Implicit Types (s : RdsRouteConfigSubscription) (c : Config) (config : RouteConfiguration).

(** ** Carrying a configuration *)

Definition carry_mirror (p : MirrorPolicyConfig) : HttpMirrorPolicy :=
  {| hm_cluster := mp_cluster p; hm_runtime_fraction := mp_runtime_fraction p |}.
Definition carry_route (r : RouteConfig) : HttpRoute :=
  {| hr_name := rc_name r; hr_match := Some (rc_match r);
     hr_route := Some {| ha_cluster_specifier := match rc_weighted_clusters r with
                                                 | Some l => CS_WeightedClusters l
                                                 | None => CS_Cluster (rc_cluster r)
                                                 end;
                         ha_hash_policy := rc_hash_policy r; ha_request_mirror_policies := carry_mirror <$> rc_mirror_policies r |};
     hr_request_headers_to_add := rc_request_mutation r; hr_response_headers_to_add := rc_response_mutation r |}.
Definition carry config : HttpRouteConfiguration :=
  {| hc_name := cf_name config; hc_virtual_hosts := [carry_route <$> cf_routes config] |}.

(** A route has a cluster or weighted clusters. *)
Definition one_specifier (r : RouteConfig) : Prop := rc_weighted_clusters r ≠ None → rc_cluster r = "".

(** What is left of the fraction of a mirror *)
Definition received_mirror (p : MirrorPolicyConfig) : MirrorPolicyConfig :=
  {| mp_cluster := mp_cluster p;
     mp_runtime_fraction := Some ("", match mp_runtime_fraction p with Some (_, d) => d | None => (0, 0) end) |}.
Definition received_route (r : RouteConfig) : RouteConfig :=
  {| rc_name := rc_name r; rc_cluster := rc_cluster r; rc_match := rc_match r; rc_weighted_clusters := rc_weighted_clusters r;
     rc_request_mutation := rc_request_mutation r; rc_response_mutation := rc_response_mutation r;
     rc_hash_policy := rc_hash_policy r; rc_mirror_policies := received_mirror <$> rc_mirror_policies r |}.

Lemma convert_carry_route (r : RouteConfig) : one_specifier r → convert_route (carry_route r) = Return (received_route r).
Proof.
  intros Hr. unfold convert_route, carry_route, received_route. cbn. rewrite <- list_fmap_compose.
  destruct r as [name cluster mt [ws|] rq rs hp mp]; cbn in *; [| done]. by rewrite Hr.
Qed.
Lemma convert_carry_routes (l : list RouteConfig) :
  Forall one_specifier l → convert_routes (carry_route <$> l) = Return (received_route <$> l).
Proof.
  induction 1 as [|r l Hr _ IH]; [done |]. cbn [fmap list_fmap convert_routes]. rewrite convert_carry_route by done.
  cbn [mbind outcome_bind]. by rewrite IH.
Qed.

(** A route configuration that is carried by the control plane in an HTTP route configuration, each of its routes with a
    cluster or with weighted clusters, comes back with the same routes in the same order, with their matches, clusters,
    weights, mutations and hash policies; only the fractions of the mirrors lose their runtime keys, and a mirror without
    a fraction, which is to get every request, comes back with the fraction zero and gets none. *)
Theorem rds_conversion_roundtrip config :
  cf_routes config ≠ [] → Forall one_specifier (cf_routes config) →
  httpRouteConfig2MetaProtocolRouteConfig (carry config) =
    Return {| cf_name := cf_name config; cf_routes := received_route <$> cf_routes config |} ∧
  ∀ p, default_value_ (new_RequestMirrorPolicyImpl (received_mirror p)) =
       match mp_runtime_fraction p with Some (_, d) => d | None => (0, 0) end.
Proof.
  intros Hne Hf. split; [| by intros [? [[]|]]]. unfold httpRouteConfig2MetaProtocolRouteConfig, carry. cbn [hc_virtual_hosts hc_name].
  rewrite convert_carry_routes by done. destruct (cf_routes config); done.
Qed.

(** ** One update *)

Lemma add_clusters_cases (l : list (string * option Z)) entries total :
  (∃ x, add_clusters l entries total = Return x) ∨ ∃ w, add_clusters l entries total = Throw (EnvoyException w).
Proof.
  revert entries total. induction l as [|[name [weight|]] l IH]; intros entries total; cbn [add_clusters]; [by left; eauto | apply IH | by right; eauto].
Qed.
Lemma new_RouteMatcherImpl_cases (l : list RouteConfig) :
  (∃ x, new_RouteMatcherImpl l = Return x) ∨ ∃ w, new_RouteMatcherImpl l = Throw (EnvoyException w).
Proof.
  induction l as [|r l IH]; cbn [new_RouteMatcherImpl]; [by left; eauto |]. unfold new_RouteEntryImplBase.
  assert ((∃ x, match rc_weighted_clusters r with Some l => add_clusters l [] 0 | None => Return ([], 0) end = Return x) ∨
    ∃ w, match rc_weighted_clusters r with Some l => add_clusters l [] 0 | None => Return ([], 0) end = Throw (EnvoyException w)) as [[[cl t] ->] | [w ->]].
  { destruct (rc_weighted_clusters r) as [ws|]; [apply add_clusters_cases | by left; eauto]. }
  - cbn [mbind outcome_bind]. destruct IH as [[x ->] | [w ->]]; cbn [mbind outcome_bind]; eauto.
  - right. by exists w.
Qed.
Lemma new_ConfigImpl_cases config :
  (∃ c, new_ConfigImpl config = Return c) ∨ ∃ w, new_ConfigImpl config = Throw (EnvoyException w).
Proof.
  unfold new_ConfigImpl. destruct (new_RouteMatcherImpl_cases (cf_routes config)) as [[x ->] | [w ->]]; cbn [mbind outcome_bind]; eauto.
Qed.

(** The receiver that has taken a configuration *)
Definition received config c (version_info : string) : RouteConfigUpdateReceiverImpl :=
  {| ru_route_config_proto_ := config; ru_last_config_hash_ := config_hash config; ru_last_config_version_ := version_info;
     ru_last_updated_ := systemTime; ru_config_info_ := Some (config, version_info); ru_config_ := Some c |}.

Definition reloaded config c (version_info : string) slots s : RdsRouteConfigSubscription :=
  {| rd_route_config_name_ := rd_route_config_name_ s; rd_config_update_info_ := received config c version_info;
     rd_route_config_provider_opt_ := Some (post c <$> slots); rd_ready := true; rd_config_reload_ := Z.succ (rd_config_reload_ s);
     rd_config_reload_time_ms_ := systemTime; rd_update_empty_ := rd_update_empty_ s |}.
Definition readied s : RdsRouteConfigSubscription :=
  {| rd_route_config_name_ := rd_route_config_name_ s; rd_config_update_info_ := rd_config_update_info_ s;
     rd_route_config_provider_opt_ := rd_route_config_provider_opt_ s; rd_ready := true; rd_config_reload_ := rd_config_reload_ s;
     rd_config_reload_time_ms_ := rd_config_reload_time_ms_ s; rd_update_empty_ := rd_update_empty_ s |}.
Definition emptied s : RdsRouteConfigSubscription :=
  {| rd_route_config_name_ := rd_route_config_name_ s; rd_config_update_info_ := rd_config_update_info_ s;
     rd_route_config_provider_opt_ := rd_route_config_provider_opt_ s; rd_ready := true; rd_config_reload_ := rd_config_reload_ s;
     rd_config_reload_time_ms_ := rd_config_reload_time_ms_ s; rd_update_empty_ := Z.succ (rd_update_empty_ s) |}.

(** What becomes of a configuration with a provider in place *)
Definition update_outcome config (version_info : string) slots s : outcome Status * RdsRouteConfigSubscription :=
  if bool_decide (cf_name config = rd_route_config_name_ s) then
    match new_ConfigImpl config with
    | Return c =>
        if config_hash config =? ru_last_config_hash_ (rd_config_update_info_ s) then (Return OkStatus, readied s)
        else (Return OkStatus, reloaded config c version_info slots s)
    | Throw e => (Return (Internal (exn_what e)), s)
    | Panic w => (Panic w, s)
    end
  else (Return (Internal ("Unexpected RDS configuration (expecting " +:+ rd_route_config_name_ s +:+ "): " +:+ cf_name config)), s).

Lemma apply_update_run resource config version_info slots s :
  rd_route_config_provider_opt_ s = Some slots → httpRouteConfig2MetaProtocolRouteConfig resource = Return config →
  catch_envoy (apply_update resource version_info) (λ e, mret (Internal (exn_what e))) s = update_outcome config version_info slots s.
Proof.
  intros Hp Hc. unfold catch_envoy, try_catch, apply_update, update_outcome. rewrite run_bind, Hc. cbn [lift]. cbv beta iota.
  rewrite run_bind. cbn [gets]. cbv beta iota. case_bool_decide as Hn; cbn [negb]; [| done].
  rewrite run_bind. cbn [gets]. cbv beta iota. rewrite Hp, run_bind. unfold validateConfig.
  destruct (new_ConfigImpl_cases config) as [[c Hc'] | [w Hc']]; rewrite Hc'; cbn [mbind outcome_bind lift]; cbv beta iota; [| done].
  rewrite run_bind. unfold in_receiver, onRdsUpdate. rewrite run_bind. cbn [gets]. cbv beta iota.
  destruct (config_hash config =? ru_last_config_hash_ (rd_config_update_info_ s)).
  - cbn [mret M_ret]. cbv beta iota. rewrite run_bind. cbn [mret M_ret]. cbv beta iota. rewrite run_bind. unfold ready. cbn [modify].
    cbv beta iota. cbn [mret M_ret]. destruct s. done.
  - rewrite run_bind. cbn [modify]. cbv beta iota. rewrite run_bind, Hc'. cbn [lift]. cbv beta iota. rewrite run_bind. cbn [modify].
    cbv beta iota. rewrite run_bind. unfold onUpdateCommon. cbn [modify]. cbv beta iota. cbn [mret M_ret]. rewrite run_bind, run_bind.
    cbn [modify]. cbv beta iota. unfold provider_onConfigUpdate. rewrite run_bind. cbn [gets]. cbv beta iota.
    destruct s as [name info provider rdy reload time empty]. cbn in Hp. subst provider. destruct info. reflexivity.
Qed.

Lemma onConfigUpdate_run (resources : list HttpRouteConfiguration) (version_info : string) slots s :
  rd_route_config_provider_opt_ s = Some slots →
  match resources with
  | [] => onConfigUpdate resources version_info s = (Return (InvalidArgument "Invalid update size"), emptied s)
  | [resource] =>
      ∀ config, httpRouteConfig2MetaProtocolRouteConfig resource = Return config →
        onConfigUpdate resources version_info s = update_outcome config version_info slots s
  | _ => ∃ w, onConfigUpdate resources version_info s = (Throw (EnvoyException w), s)
  end.
Proof.
  intros Hp. unfold onConfigUpdate, validateUpdateSize. rewrite !run_bind. destruct resources as [|r [|r' l]].
  - by destruct s.
  - intros config Hc. cbn [zlen length]. change (zlen [r] =? 0) with false. change (zlen [r] =? 1) with true. cbn [negb mret M_ret].
    cbv beta iota. by apply apply_update_run.
  - rewrite !zlen_cons. pose proof (zlen_nonneg l). rewrite (proj2 (Z.eqb_neq _ 0)) by lia. rewrite (proj2 (Z.eqb_neq _ 1)) by lia.
    eexists. reflexivity.
Qed.

(** C35: An update of the route configuration is applied as a whole or not at all. No resource is counted and refused, more than
    one throws; a configuration of another name, or one that cannot be built, is refused with the reason and the receiver
    and every thread keep what they have; one with the hash of the last changes nothing but marks the subscription ready;
    any other becomes the configuration of the receiver, is counted, and is posted to every thread. *)
Theorem rds_update_outcome (resources : list HttpRouteConfiguration) (version_info : string) slots s :
  rd_route_config_provider_opt_ s = Some slots →
  match resources with
  | [] => onConfigUpdate resources version_info s = (Return (InvalidArgument "Invalid update size"), emptied s)
  | [resource] =>
      ∀ config, httpRouteConfig2MetaProtocolRouteConfig resource = Return config →
        onConfigUpdate resources version_info s = update_outcome config version_info slots s
  | _ => ∃ w, onConfigUpdate resources version_info s = (Throw (EnvoyException w), s)
  end.
Proof. apply onConfigUpdate_run. Qed.

(** ** All updates *)

(** The configuration an operation has added *)
Definition accepted s s' : list Config :=
  if rd_config_reload_ s' =? rd_config_reload_ s then []
  else match ru_config_ (rd_config_update_info_ s') with Some c => [c] | None => [] end.

Inductive rds_event : Type :=
| Rds_update (resources : list HttpRouteConfiguration) (version_info : string)
| Rds_delta (added : list (HttpRouteConfiguration * string)) (removed : list string)
| Rds_failed (reason : ConfigUpdateFailureReason)
| Rds_thread (thread : nat).
Definition rds_step (ev : rds_event) s : outcome Status * RdsRouteConfigSubscription :=
  match ev with
  | Rds_update resources version_info => onConfigUpdate resources version_info s
  | Rds_delta added removed => onConfigUpdate_delta added removed s
  | Rds_failed reason => (_ ← onConfigUpdateFailed reason; mret OkStatus) s
  | Rds_thread thread => (_ ← run_posted thread; mret OkStatus) s
  end.

(** The states a subscription can reach, with the configurations it has accepted; before
    the first there is the null configuration. *)
Inductive rds_reachable : list Config → RdsRouteConfigSubscription → Prop :=
| rds_start name threads s :
    new_RdsRouteConfigProviderImpl threads (new_RdsRouteConfigSubscription name) = (Return tt, s) → rds_reachable [NullConfigImpl] s
| rds_event_step hist ev o s s' :
    rds_reachable hist s → rds_step ev s = (o, s') → (∀ w, o ≠ Panic w) → rds_reachable (hist ++ accepted s s') s'.

(** The slot of a thread: it is at one of the accepted configurations, and those after
    it are on their way. *)
Definition follows (hist : list Config) (t : ThreadLocalConfig) : Prop := ∃ pre, hist = pre ++ tl_config_ t :: tl_posted t.
Definition in_step (threads : nat) (hist : list Config) s : Prop :=
  ∃ slots, rd_route_config_provider_opt_ s = Some slots ∧ length slots = threads ∧ Forall (follows hist) slots.

Lemma follows_post hist c t : follows hist t → follows (hist ++ [c]) (post c t).
Proof. intros [pre ->]. exists pre. cbn. by rewrite <- app_assoc. Qed.
Lemma follows_take hist t : follows hist t → follows hist (take_posted t).
Proof.
  intros [pre ->]. unfold take_posted. destruct t as [c [|c' l]]; [by exists pre |]. exists (pre ++ [c]). cbn. by rewrite <- app_assoc.
Qed.
Lemma take_all hist t : follows hist t → last hist = Some (tl_config_ (Nat.iter (length (tl_posted t)) take_posted t)).
Proof.
  intros [pre ->]. rewrite last_app_cons. remember (tl_posted t) as l eqn:Hl. destruct t as [c l']. cbn in Hl. subst l'. cbn [tl_config_].
  revert c. induction l as [|c' l IH]; intros c; [done |]. cbn [length]. rewrite Nat.iter_succ_r. cbn [take_posted tl_posted].
  rewrite <- IH. done.
Qed.

Lemma accepted_same s s' : rd_config_reload_ s' = rd_config_reload_ s → accepted s s' = [].
Proof. intros H. unfold accepted. by rewrite H, Z.eqb_refl. Qed.
Lemma in_step_same threads hist s s' :
  in_step threads hist s → rd_config_reload_ s' = rd_config_reload_ s → rd_route_config_provider_opt_ s' = rd_route_config_provider_opt_ s →
  in_step threads (hist ++ accepted s s') s'.
Proof. intros (slots & Hp & Hl & Hf) Hr Hs. rewrite accepted_same, app_nil_r by done. exists slots. by rewrite Hs. Qed.

Lemma convert_no_throw (r : HttpRouteConfiguration) e : httpRouteConfig2MetaProtocolRouteConfig r ≠ Throw e.
Proof.
  unfold httpRouteConfig2MetaProtocolRouteConfig. destruct (hc_virtual_hosts r) as [|l [|? ?]]; [done | | done].
  assert (∀ e, convert_routes l ≠ Throw e) as Hl.
  { induction l as [|x l IH]; intros e'; cbn [convert_routes]; [done |]. unfold convert_route.
    destruct (hr_route x); cbn [assert_that mbind outcome_bind]; [| done]. destruct (convert_routes l) eqn:Hx; [done | by edestruct IH | done]. }
  destruct l; [done |]. cbn [assert_that mbind outcome_bind]. destruct (convert_routes _) eqn:Hx; [done | by edestruct Hl | done].
Qed.

Lemma in_step_update threads hist resources version_info s o s' :
  in_step threads hist s → onConfigUpdate resources version_info s = (o, s') → (∀ w, o ≠ Panic w) → in_step threads (hist ++ accepted s s') s'.
Proof.
  intros Hin Hrun Hw. pose proof Hin as (slots & Hp & Hl & Hf). pose proof (onConfigUpdate_run resources version_info slots s Hp) as Hout.
  destruct resources as [|r [|r' l]].
  - rewrite Hout in Hrun. simplify_eq. by apply in_step_same.
  - destruct (httpRouteConfig2MetaProtocolRouteConfig r) as [config|e|w] eqn:Hc.
    + rewrite (Hout config eq_refl) in Hrun. unfold update_outcome in Hrun. case_bool_decide; [| simplify_eq; by apply in_step_same].
      destruct (new_ConfigImpl config) as [c|e|w]; [| simplify_eq; by apply in_step_same | simplify_eq; by edestruct Hw].
      destruct (_ =? _); simplify_eq; [by apply in_step_same |]. exists (post c <$> slots). split; [done |]. split; [by rewrite length_fmap |].
      unfold accepted, reloaded. cbn [rd_config_reload_ rd_config_update_info_ received ru_config_]. rewrite (proj2 (Z.eqb_neq _ _)) by lia.
      apply Forall_fmap. eapply Forall_impl; [exact Hf |]. intros t. apply follows_post.
    + by apply convert_no_throw in Hc.
    + edestruct Hw. unfold onConfigUpdate, validateUpdateSize in Hrun. rewrite !run_bind in Hrun. change (zlen [r] =? 0) with false in Hrun.
      change (zlen [r] =? 1) with true in Hrun. cbn [negb mret M_ret] in Hrun. cbv beta iota in Hrun.
      unfold catch_envoy, try_catch, apply_update in Hrun. rewrite run_bind, Hc in Hrun. cbn [lift] in Hrun. by simplify_eq.
  - destruct Hout as [w Hout]. rewrite Hout in Hrun. simplify_eq. by apply in_step_same.
Qed.

Lemma in_step_event threads hist ev s o s' :
  in_step threads hist s → rds_step ev s = (o, s') → (∀ w, o ≠ Panic w) → in_step threads (hist ++ accepted s s') s'.
Proof.
  intros Hin Hrun Hw. destruct ev as [resources version|added removed|reason|thread]; cbn [rds_step] in Hrun.
  - by eapply in_step_update.
  - unfold onConfigUpdate_delta in Hrun. destruct removed as [|x removed]; [destruct added as [|[r v] added] |];
      [cbv [mret M_ret] in Hrun; simplify_eq; by apply in_step_same | by eapply in_step_update | cbv [mret M_ret] in Hrun; simplify_eq; by apply in_step_same].
  - unfold onConfigUpdateFailed, ready in Hrun. rewrite !run_bind in Hrun.
    destruct reason; cbv [ASSERT assert_that lift modify mret M_ret] in Hrun; simplify_eq.
    + by edestruct Hw.
    + by apply in_step_same.
    + by apply in_step_same.
  - unfold run_posted in Hrun. rewrite run_bind in Hrun. cbv [modify mret M_ret] in Hrun. simplify_eq.
    destruct Hin as (slots & Hp & Hl & Hf). rewrite accepted_same, app_nil_r by done. exists (alter take_posted thread slots). split; [| split].
    + destruct s. cbn in Hp. by subst.
    + by rewrite length_alter.
    + apply Forall_alter; [done |]. intros t _ Ht. by apply follows_take.
Qed.

Lemma in_step_start name threads s :
  new_RdsRouteConfigProviderImpl threads (new_RdsRouteConfigSubscription name) = (Return tt, s) → in_step threads [NullConfigImpl] s.
Proof.
  intros Hs. exists (replicate threads {| tl_config_ := NullConfigImpl; tl_posted := [] |}). split; [| split].
  - change s with ((Return tt : outcome unit, s).2). by rewrite <- Hs.
  - apply length_replicate.
  - apply Forall_replicate. by exists [].
Qed.

Lemma reachable_in_step hist s : rds_reachable hist s → ∃ threads, in_step threads hist s.
Proof.
  induction 1 as [name threads s Hs | hist ev o s s' _ [threads IH] Hrun Hw]; exists threads;
    [by eapply in_step_start | by eapply in_step_event].
Qed.

(** C36: Worker threads follow the control plane. Over any sequence of updates, failures and steps of the threads, each thread
    uses one of the configurations that were accepted, never one that was refused, goes through them in the order in
    which they were accepted without leaving one out, and has the last one when it has done what was posted to it. *)
Theorem rds_threads_follow (hist : list Config) s :
  rds_reachable hist s →
  ∃ slots, rd_route_config_provider_opt_ s = Some slots ∧
    ∀ t, t ∈ slots → follows hist t ∧ last hist = Some (tl_config_ (Nat.iter (length (tl_posted t)) take_posted t)).
Proof.
  intros (threads & slots & Hp & _ & Hf)%reachable_in_step. exists slots. split; [done |]. intros t Ht. rewrite Forall_forall in Hf.
  split; [by apply Hf | by apply take_all, Hf].
Qed.
End behaviour.

(** ** Witnesses: a configuration with one route and one mirror, and two threads *)

Definition dw_E : Envoy := list_envoy unit.
Definition dw_R : RouteEnv dw_E := list_route_env dw_E.
Definition dw_D : @RdsEnv dw_E dw_R := {| config_hash c := zlen (cf_routes c); systemTime := 5 |}.
Definition dw_route : @RouteConfig dw_E dw_R :=
  @Build_RouteConfig dw_E dw_R "r" "cluster" [] None [("k", "v")] [] ["user"] [{| mp_cluster := "mirror"; mp_runtime_fraction := None |}].
Definition dw_config : @RouteConfiguration dw_E dw_R := {| cf_name := "routes"; cf_routes := [dw_route] |}.
Definition dw_resource : @HttpRouteConfiguration dw_E dw_R := carry dw_config.
Definition dw_received : @RouteConfiguration dw_E dw_R := {| cf_name := "routes"; cf_routes := [received_route dw_route] |}.

Lemma dw_specifier : one_specifier dw_route.
Proof. intros Hne. by destruct Hne. Qed.

Lemma rds_conversion_roundtrip_witness :
  httpRouteConfig2MetaProtocolRouteConfig dw_resource = Return dw_received.
Proof.
  apply (rds_conversion_roundtrip dw_config); [discriminate |]. apply Forall_singleton. exact dw_specifier.
Defined.

Definition dw_start : @RdsRouteConfigSubscription dw_E dw_R :=
  (new_RdsRouteConfigProviderImpl 2 (new_RdsRouteConfigSubscription "routes")).2.
Definition dw_slots : list (@ThreadLocalConfig dw_E dw_R) := replicate 2 {| tl_config_ := NullConfigImpl; tl_posted := [] |}.

Lemma rds_update_outcome_witness :
  ∃ s', @onConfigUpdate dw_E dw_R dw_D [dw_resource] "1" dw_start = (Return OkStatus, s') ∧ rd_config_reload_ s' = 1.
Proof.
  pose proof (@rds_update_outcome dw_E dw_R dw_D [dw_resource] "1" dw_slots dw_start eq_refl dw_received eq_refl) as H.
  eexists. split; [rewrite H; reflexivity | reflexivity].
Defined.

Definition dw_updated : @RdsRouteConfigSubscription dw_E dw_R := (@rds_step dw_E dw_R dw_D (Rds_update [dw_resource] "1") dw_start).2.
Definition dw_run : @RdsRouteConfigSubscription dw_E dw_R := (@rds_step dw_E dw_R dw_D (Rds_thread 0) dw_updated).2.

Lemma rds_threads_follow_witness :
  ∃ hist slots, rd_route_config_provider_opt_ dw_run = Some slots ∧ length hist = 2%nat ∧
    ∀ t, t ∈ slots → follows hist t ∧ last hist = Some (tl_config_ (Nat.iter (length (tl_posted t)) take_posted t)).
Proof.
  destruct (@rds_threads_follow dw_E dw_R dw_D (([NullConfigImpl] ++ accepted dw_start dw_updated) ++ accepted dw_updated dw_run) dw_run)
    as (slots & Hp & Ht).
  - eapply (rds_event_step _ (Rds_thread 0)); [eapply (rds_event_step _ (Rds_update [dw_resource] "1")); [eapply (rds_start "routes" 2) | |] | |].
    + apply pair_fst. vm_compute. reflexivity.
    + apply surjective_pairing.
    + intros w Hw. vm_compute in Hw. discriminate.
    + apply surjective_pairing.
    + intros w Hw. vm_compute in Hw. discriminate.
  - eexists _, slots. split; [exact Hp |]. split; [| exact Ht]. vm_compute. reflexivity.
Defined.
