(* ===== verification/GlobalRateLimit.v ===== *)
(** * The global rate limiter

    Model of [filters/global_ratelimit] ([ratelimit.h], [ratelimit.cc]): a filter that
    asks a rate limit service, by a blocking call, whether a request may pass.  Envoy's
    clusters, load balancers and header matching, and the service, are parameters; the
    answer of the service may depend on every call the filter made before. *)

From S2P Require Import Prelude Envoy Metadata Codec Decoder Route.

(** ** Configuration *)

Record Descriptor : Type := { property : string; descriptor_key : string }.

Section config.
Context {E : Envoy} {R : RouteEnv E}.

(** The fields of the configuration that the filter reads *)
Record RateLimitConfig : Type := {
  rl_match_metadata : list HeaderMatcher;
  rl_domain : string;
  rl_failure_mode_deny : bool;
  (** [rate_limit_service().grpc_service().envoy_grpc().cluster_name()] *)
  rl_cluster_name : string;
  rl_descriptors : list Descriptor
}.

(** The filter *)
Record RateLimit : Type := { config_ : RateLimitConfig; rl_config_headers_ : list HeaderData }.
Definition new_RateLimit (config : RateLimitConfig) : RateLimit :=
  {| config_ := config; rl_config_headers_ := buildHeaderData <$> rl_match_metadata config |}.
End config.

(** ** The service *)

(** A descriptor of a request has one entry. *)
Record RateLimitRequest : Type := { rr_domain : string; rr_descriptors : list (list (string * string)) }.
Inductive RateLimitCode : Type := Code_UNKNOWN | Code_OK | Code_OVER_LIMIT.
#[global] Instance RateLimitCode_eq_dec : EqDecision RateLimitCode.
Proof. solve_decision. Defined.

(** The calls of the filter: the reply it sends, and the call of the service *)
Inductive rl_call : Type :=
| RL_sendLocalReply (error : Error) (end_stream : bool)
| RL_ShouldRateLimit (addr : string) (request : RateLimitRequest).

Class RateLimitEnv := {
  (** The cluster with the name, if there is one, and the address of the host that its
      load balancer chooses *)
  rl_getThreadLocalCluster : string → option (list rl_call → option string);
  (** The status is ok, and the [overall_code] of the response *)
  stub_ShouldRateLimit : list rl_call → string → RateLimitRequest → bool * RateLimitCode
}.

Section filter.
Context {E : Envoy} {R : RouteEnv E} {G : RateLimitEnv}.

Definition rl_made (c : rl_call) : M (list rl_call) unit := modify (λ w, w ++ [c]).

(** One iteration of the loop over the descriptors *)
Definition descriptor_of (m : MetadataImpl) (d : Descriptor) : outcome (list (string * string)) :=
  value ← getString (property d) m;
  mret [(descriptor_key d, value)].
Fixpoint add_descriptors (m : MetadataImpl) (ds : list Descriptor) : outcome (list (list (string * string))) :=
  match ds with
  | [] => mret []
  | d :: ds =>
      desc ← descriptor_of m d;
      rest ← add_descriptors m ds;
      mret (desc :: rest)
  end.

Definition RateLimit_shouldRateLimit (f : RateLimit) (addr : string) (m : MetadataImpl) : M (list rl_call) bool :=
  if bool_decide (rl_config_headers_ f = []) then mret false
  else if negb (matchAllHeaders (headers_ m) (rl_config_headers_ f)) then mret false
  else
    descriptors ← lift (add_descriptors m (rl_descriptors (config_ f)));
    let request := {| rr_domain := rl_domain (config_ f); rr_descriptors := descriptors |} in
    w ← gets id;
    let '(ok, overall_code) := stub_ShouldRateLimit w addr request in
    _ ← rl_made (RL_ShouldRateLimit addr request);
    if negb ok && rl_failure_mode_deny (config_ f) then mret true
    else if decide (overall_code = Code_OVER_LIMIT) then mret true
    else mret false.

Definition rl_abort (type : ErrorType) (message : string) : M (list rl_call) FilterStatus :=
  _ ← rl_made (RL_sendLocalReply {| error_type := type; error_message := message |} false);
  mret FilterStatus_AbortIteration.

Definition RateLimit_onMessageDecoded (f : RateLimit) (m : MetadataImpl) : M (list rl_call) FilterStatus :=
  let name := rl_cluster_name (config_ f) in
  match rl_getThreadLocalCluster name with
  | None =>
      rl_abort ErrorType_ClusterNotFound
        ("meta protocol global ratelimit: rate limit server cluster not found '" +:+ pretty (request_id_ m) +:+ "'")
  | Some chooseHost =>
      w ← gets id;
      match chooseHost w with
      | None =>
          rl_abort ErrorType_ClusterNotFound
            ("meta protocol global ratelimit: rate limit server host not found for request '" +:+ pretty (request_id_ m) +:+ "'")
      | Some addr =>
          limit ← RateLimit_shouldRateLimit f addr m;
          if (limit : bool) then
            rl_abort ErrorType_OverLimit
              ("meta protocol global ratelimit: request '" +:+ pretty (request_id_ m) +:+ "' has been rate limited")
          else mret FilterStatus_ContinueIteration
      end
  end.
Definition RateLimit_onMessageEncoded (f : RateLimit) (m : MetadataImpl) : M (list rl_call) FilterStatus :=
  mret FilterStatus_ContinueIteration.
End filter.

(** ** Theorems *)

Section theorems.
Context {E : Envoy} {R : RouteEnv E} {G : RateLimitEnv}.

(** The host that is asked *)
Definition rl_host (f : RateLimit) (w : list rl_call) : option string :=
  rl_getThreadLocalCluster (rl_cluster_name (config_ f)) ≫= λ chooseHost, chooseHost w.
(** The rule of the filter applies to a message. *)
Definition rl_applies (f : RateLimit) (m : MetadataImpl) : Prop :=
  rl_config_headers_ f ≠ [] ∧ matchAllHeaders (headers_ m) (rl_config_headers_ f) = true.
(** The answer of the service lets a message pass. *)
Definition rl_lenient (f : RateLimit) (answer : bool * RateLimitCode) : Prop :=
  answer.2 ≠ Code_OVER_LIMIT ∧ (answer.1 = true ∨ rl_failure_mode_deny (config_ f) = false).

Definition rl_replies (calls : list rl_call) : list (ErrorType * bool) :=
  omap (λ c, match c with RL_sendLocalReply e b => Some (error_type e, b) | _ => None end) calls.
Definition rl_asked (calls : list rl_call) : list (string * RateLimitRequest) :=
  omap (λ c, match c with RL_ShouldRateLimit addr r => Some (addr, r) | _ => None end) calls.

Lemma add_descriptors_spec (m : MetadataImpl) ds :
  match add_descriptors m ds with
  | Return l => Forall2 (λ d desc, ∃ v, getString (property d) m = Return v ∧ desc = [(descriptor_key d, v)]) ds l
  | Throw e => e = BadAnyCast ∧ ∃ d, d ∈ ds ∧ getString (property d) m = Throw e
  | Panic _ => False
  end.
Proof.
  induction ds as [|d ds IH]; cbn [add_descriptors]; [constructor |]. unfold descriptor_of.
  destruct (getString (property d) m) as [v| |] eqn:Hv; cbn [mbind outcome_bind mret outcome_ret].
  - destruct (add_descriptors m ds) as [l| |]; cbn [mbind outcome_bind].
    + constructor; [by exists v | done].
    + destruct IH as (-> & d' & Hd & Hg). split; [done |]. exists d'. split; [by right | done].
    + done.
  - split; [| exists d; split; [by left | done]]. unfold getString in Hv. by repeat case_match; simplify_eq.
  - unfold getString in Hv. by repeat case_match.
Qed.

Lemma should_rate_limit_run (f : RateLimit) addr (m : MetadataImpl) w :
  (¬ rl_applies f m ∧ RateLimit_shouldRateLimit f addr m w = (Return false, w)) ∨
  (rl_applies f m ∧
   match add_descriptors m (rl_descriptors (config_ f)) with
   | Return l =>
       let request := {| rr_domain := rl_domain (config_ f); rr_descriptors := l |} in
       ∃ limit, RateLimit_shouldRateLimit f addr m w = (Return limit, w ++ [RL_ShouldRateLimit addr request]) ∧
         (limit = false ↔ rl_lenient f (stub_ShouldRateLimit w addr request))
   | Throw e => RateLimit_shouldRateLimit f addr m w = (Throw e, w)
   | Panic s => RateLimit_shouldRateLimit f addr m w = (Panic s, w)
   end).
Proof.
  unfold RateLimit_shouldRateLimit, rl_applies. case_bool_decide as Hh; [left; by split; [intros [] |] |].
  destruct (matchAllHeaders _ _) eqn:Hm; cbn [negb]; [right | left; by split; [intros [] |]].
  split; [done |]. rewrite run_bind. unfold lift. destruct (add_descriptors m _) as [l| |]; [| done | done]. cbv zeta.
  rewrite run_bind. cbn [gets id]. cbv beta iota.
  destruct (stub_ShouldRateLimit w addr _) as [ok code]. rewrite run_bind. unfold rl_made, modify, rl_lenient. cbn [fst snd].
  destruct ok, (rl_failure_mode_deny (config_ f)); cbn [negb andb]; try (destruct (decide (code = Code_OVER_LIMIT)));
    eexists; (split; [reflexivity |]); naive_solver.
Qed.

(** A rule without conditions asks nobody, and lets every request pass. *)
Lemma rl_without_conditions (f : RateLimit) addr (m : MetadataImpl) w :
  rl_config_headers_ f = [] → RateLimit_shouldRateLimit f addr m w = (Return false, w).
Proof. intros H. destruct (should_rate_limit_run f addr m w) as [[_ ?] | [[Hc _] _]]; [done | by destruct Hc]. Qed.

End theorems.

(** ** Witness *)

(** A rule for the requests of user a, and a service that refuses. *)
Definition gw_E : Envoy := list_envoy unit.
#[local] Instance gw_R : RouteEnv gw_E := list_route_env gw_E.
#[local] Instance gw_G : RateLimitEnv :=
  {| rl_getThreadLocalCluster _ := Some (λ _, Some "10.0.0.1:8081"); stub_ShouldRateLimit _ _ _ := (true, Code_OVER_LIMIT) |}.
Definition gw_filter : RateLimit :=
  new_RateLimit (R := gw_R) {| rl_match_metadata := ([("user", "a")] : list (@HeaderMatcher gw_E gw_R)); rl_domain := "shop"; rl_failure_mode_deny := true;
                   rl_cluster_name := "limits"; rl_descriptors := [{| property := "user"; descriptor_key := "u" |}] |}.
Definition gw_request : MetadataImpl (E := gw_E) := putString "user" "a" new_MetadataImpl.
