(* ===== verification/IstioStats.v ===== *)
(** * Exchange of node metadata, and statistics

    Model of [filters/metadata_exchange] and [filters/istio_stats]: each proxy sends the
    metadata of its node with a request or a response, and the other end reads it for
    the tags of its statistics.  The conversions of Istio between structs and flat
    buffers, and protobuf, are parameters. *)

From Stdlib Require Import Ascii.
From S2P Require Import Prelude Base64 Envoy Metadata Decoder.

(** ** Strings of bytes *)

Definition byte_string (b : bytes) : string := String.string_of_list_ascii ((λ z, ascii_of_N (Z.to_N z)) <$> b).
Definition string_bytes (s : string) : bytes := (λ c, Z.of_N (N_of_ascii c)) <$> String.list_ascii_of_string s.

Lemma string_bytes_string (b : bytes) : is_bytes b → string_bytes (byte_string b) = b.
Proof.
  intros Hb. unfold string_bytes, byte_string. rewrite String.list_ascii_of_string_of_list_ascii, <- list_fmap_compose.
  induction Hb as [|z l Hz _ IH]; [done |]. cbn [fmap list_fmap]. f_equal; [| exact IH].
  unfold compose. unfold is_byte in Hz. rewrite N_ascii_embedding by lia. lia.
Qed.

(** ** Nodes *)

(** What is read of a [FlatNode]; the value of a label may be missing. *)
Record FlatNode : Type := {
  workload_name : option string;
  namespace_ : option string;
  cluster_id : option string;
  labels : option (list (string * option string))
}.

Class IstioEnv := {
  Struct : Type;
  extractNodeFlatBufferFromStruct : Struct → FlatNode;
  extractStructFromNodeFlatBuffer : FlatNode → Struct;
  extractEmptyNodeFlatBuffer : FlatNode;
  serializeToStringDeterministic : Struct → bytes;
  ParseFromString : bytes → option Struct;
  kCanonicalServiceLabelName : string;
  kCanonicalServiceRevisionLabelName : string
}.
(** Protobuf parses what it prints, and a node that was read of a struct survives the
    way through another one. *)
Class IstioLaws (I : IstioEnv) : Prop := {
  parse_serialize s : ParseFromString (serializeToStringDeterministic s) = Some s;
  serialize_bytes s : is_bytes (serializeToStringDeterministic s) ∧ zlen (serializeToStringDeterministic s) < 2 ^ 61;
  node_struct_node s :
    extractNodeFlatBufferFromStruct (extractStructFromNodeFlatBuffer (extractNodeFlatBufferFromStruct s)) =
    extractNodeFlatBufferFromStruct s
}.

Inductive TrafficDirection : Type := UNSPECIFIED | INBOUND | OUTBOUND.
#[global] Instance TrafficDirection_eq_dec : EqDecision TrafficDirection.
Proof. solve_decision. Defined.

Definition ExchangeMetadataHeader : string := "x-envoy-peer-metadata".
Definition ExchangeMetadataHeaderId : string := "x-envoy-peer-metadata-id".

Abbreviation tags := (list (string * string)).

Section filters.
Context {E : Envoy} {I : IstioEnv}.

(** ** MetadataExchangeFilter *)

Record MetadataExchangeFilter : Type := {
  local_node_metadata_ : string;
  local_node_metadata_id_ : string;
  mx_traffic_direction_ : TrafficDirection
}.

(** [loadMetadataFromNodeInfo]: the metadata and the id of the node *)
Definition loadMetadataFromNodeInfo (metadata : option Struct) (id : string) : string * string :=
  match metadata with
  | Some metadata =>
      let fb := extractNodeFlatBufferFromStruct metadata in
      let metadata := extractStructFromNodeFlatBuffer fb in
      let metadata_bytes := serializeToStringDeterministic metadata in
      (byte_string (encode metadata_bytes true), id)
  | None => ("", id)
  end.
Definition new_MetadataExchangeFilter (metadata : option Struct) (id : string) (direction : TrafficDirection) : MetadataExchangeFilter :=
  let '(m, i) := loadMetadataFromNodeInfo metadata id in
  {| local_node_metadata_ := m; local_node_metadata_id_ := i; mx_traffic_direction_ := direction |}.

Definition exchange (f : MetadataExchangeFilter) (mutation : Mutation) : Mutation :=
  <[ExchangeMetadataHeaderId := local_node_metadata_id_ f]> (<[ExchangeMetadataHeader := local_node_metadata_ f]> mutation).
Definition mx_onMessageDecoded (f : MetadataExchangeFilter) (mutation : Mutation) : FilterStatus * Mutation :=
  (FilterStatus_ContinueIteration, if decide (mx_traffic_direction_ f = OUTBOUND) then exchange f mutation else mutation).
Definition mx_onMessageEncoded (f : MetadataExchangeFilter) (mutation : Mutation) : FilterStatus * Mutation :=
  (FilterStatus_ContinueIteration, if decide (mx_traffic_direction_ f = INBOUND) then exchange f mutation else mutation).

(** ** IstioStats *)

(** What is read of [StreamInfo]: the name of the cluster of the upstream, the duration
    in nanoseconds, and the bytes. *)
Record StatsInfo : Type := {
  upstreamClusterInfo : option (option string);
  requestComplete : option Z;
  bytesSent : Z;
  bytesReceived : Z
}.

(** [!view.empty() ? pool_.add(view) : unknown_] of [GetFromFbStringView] *)
Definition known (o : option string) : string :=
  match o with Some s => if bool_decide (s = "") then "unknown" else s | None => "unknown" end.
Definition LookupByKey (key : string) (l : list (string * option string)) : option (option string) :=
  snd <$> List.find (λ kv, bool_decide (kv.1 = key)) l.
Definition label_value (key : string) (l : list (string * option string)) : option string :=
  match LookupByKey key l with Some v => v | None => None end.

Definition populateSourceNodeTags (node : FlatNode) : tags :=
  [("source_workload", known (workload_name node)); ("source_workload_namespace", known (namespace_ node));
   ("source_cluster", known (cluster_id node))] ++
  match labels node with
  | Some labels =>
      [("source_app", known (label_value "app" labels)); ("source_version", known (label_value "version" labels));
       ("source_canonical_service",
        known (match LookupByKey kCanonicalServiceLabelName labels with Some v => v | None => workload_name node end));
       ("source_canonical_revision",
        match LookupByKey kCanonicalServiceRevisionLabelName labels with Some v => known v | None => "latest" end)]
  | None =>
      [("source_app", "unknown"); ("source_version", "unknown"); ("source_canonical_service", "unknown");
       ("source_canonical_revision", "latest")]
  end.

Definition populateDestinationNodeTags (node : FlatNode) : tags :=
  [("destination_workload", known (workload_name node)); ("destination_service_namespace", known (namespace_ node));
   ("destination_workload_namespace", known (namespace_ node)); ("destination_cluster", known (cluster_id node))] ++
  match labels node with
  | Some labels =>
      [("destination_app", known (label_value "app" labels)); ("destination_version", known (label_value "version" labels));
       ("destination_canonical_service",
        known (match LookupByKey kCanonicalServiceLabelName labels with Some v => v | None => workload_name node end));
       ("destination_canonical_revision",
        match LookupByKey kCanonicalServiceRevisionLabelName labels with Some v => known v | None => "latest" end)]
  | None =>
      [("destination_app", "unknown"); ("destination_version", "unknown"); ("destination_canonical_service", "unknown");
       ("destination_canonical_revision", "latest")]
  end.

(** The part of the name after the last separator, by [find_last_of] and [substr] *)
Fixpoint after_last (sep : ascii) (s : string) : option string :=
  match s with
  | EmptyString => None
  | String a s =>
      match after_last sep s with
      | Some rest => Some rest
      | None => if decide (a = sep) then Some s else None
      end
  end.
Definition service_of_cluster (cluster_name : string) : string := default cluster_name (after_last "|" cluster_name).

(** The counters and histograms that are updated, with their tags *)
Inductive metric : Type :=
| Counter (name : string) (t : tags)
| Histogram (name : string) (t : tags) (value : Z).

Definition service_tags (service : string) : tags := [("destination_service", service); ("destination_service_name", service)].

(** The object that reports, shared by the filters of a listener *)
Record IstioStats : Type := { is_traffic_direction_ : TrafficDirection; local_node_info_ : FlatNode }.
Definition new_IstioStats (metadata : option Struct) (traffic_direction : TrafficDirection) : IstioStats :=
  {| is_traffic_direction_ := traffic_direction;
     local_node_info_ := match metadata with Some m => extractNodeFlatBufferFromStruct m | None => extractEmptyNodeFlatBuffer end |}.

(** The tags of a report *)
Definition report_tags (stats : IstioStats) (peer_node : FlatNode) (info : StatsInfo) (response_status : ResponseStatus) (destination_service : string) : tags :=
  let local_node := local_node_info_ stats in
  (if decide (is_traffic_direction_ stats = INBOUND) then
     ("reporter", "destination") :: populateSourceNodeTags peer_node ++ populateDestinationNodeTags local_node ++
     service_tags destination_service
   else
     ("reporter", "source") :: populateSourceNodeTags local_node ++ populateDestinationNodeTags peer_node ++
     match upstreamClusterInfo info with
     | Some (Some cluster_name) => service_tags (service_of_cluster cluster_name)
     | _ => []
     end) ++
  [("response_code", pretty (match response_status with ResponseStatus_Ok => 0 | ResponseStatus_Error => 1 end))].

Definition report (stats : IstioStats) (peer_node : FlatNode) (info : StatsInfo) (response_status : ResponseStatus) (destination_service : string) : list metric :=
  let t := report_tags stats peer_node info response_status destination_service in
  [Counter "wasmcustom.istio_requests_total" t] ++
  match requestComplete info with
  | Some duration => [Histogram "wasmcustom.istio_request_duration_milliseconds" t (duration `quot` 1000000)]
  | None => []
  end ++
  [Histogram "wasmcustom.istio_request_bytes" t (bytesSent info); Histogram "wasmcustom.istio_response_bytes" t (bytesReceived info)].

(** ** StatsFilter *)

Record StatsFilter : Type := {
  sf_traffic_direction_ : TrafficDirection;
  peer_node_info_ : FlatNode;
  istio_stats_ : IstioStats;
  destination_service_ : string
}.
#[global] Instance StatsFilter_eta : Eta StatsFilter := fun f =>
  {| sf_traffic_direction_ := sf_traffic_direction_ f; peer_node_info_ := peer_node_info_ f; istio_stats_ := istio_stats_ f;
     destination_service_ := destination_service_ f |}.
Definition new_StatsFilter (direction : TrafficDirection) (istioStats : IstioStats) (destination_service : string) : StatsFilter :=
  {| sf_traffic_direction_ := direction; peer_node_info_ := extractEmptyNodeFlatBuffer; istio_stats_ := istioStats;
     destination_service_ := destination_service |}.

Definition extractPeerNodeMetadata (metadata : MetadataImpl) : outcome FlatNode :=
  metadataHeader ← getString ExchangeMetadataHeader metadata;
  if bool_decide (metadataHeader = "") then Return extractEmptyNodeFlatBuffer
  else
    bytes ← decodeWithoutPadding (string_bytes metadataHeader);
    match ParseFromString bytes with
    | Some metadata => Return (extractNodeFlatBufferFromStruct metadata)
    | None => Return extractEmptyNodeFlatBuffer
    end.

Definition sf_onMessageDecoded (metadata : MetadataImpl) : M StatsFilter FilterStatus :=
  f ← gets id;
  _ ← (if decide (sf_traffic_direction_ f = INBOUND) then
         node ← lift (extractPeerNodeMetadata metadata);
         modify (λ f, f <| peer_node_info_ := node |>)
       else mret tt);
  mret FilterStatus_ContinueIteration.

(** With the updates of the statistics *)
Definition sf_onMessageEncoded (metadata : MetadataImpl) (info : StatsInfo) : M StatsFilter (FilterStatus * list metric) :=
  f ← gets id;
  _ ← (if decide (sf_traffic_direction_ f = OUTBOUND) then
         node ← lift (extractPeerNodeMetadata metadata);
         modify (λ f, f <| peer_node_info_ := node |>)
       else mret tt);
  f ← gets id;
  mret (FilterStatus_ContinueIteration,
        report (istio_stats_ f) (peer_node_info_ f) info (response_status_ metadata) (destination_service_ f)).
End filters.

(** ** Theorems *)

Lemma encode_empty (b : bytes) : is_bytes b → zlen b < 2 ^ 61 → encode b true = [] → b = [].
Proof.
  intros Hb Hl He. pose proof (decode_encode b true Hb Hl) as Hd. rewrite He in Hd. cbn in Hd. by injection Hd.
Qed.
Lemma encode_bytes (b : bytes) : is_bytes b → zlen b < 2 ^ 61 → is_bytes (encode b true).
Proof.
  intros Hb Hl. rewrite encode_digits by (done || lia). apply Forall_app. split.
  - apply Forall_fmap. eapply Forall_impl; [by apply digits_digit |]. intros v Hv. unfold compose.
    pose proof (upto_forall 64 (λ v, (0 <=? char_at v) && (char_at v <? 256)) ltac:(vm_compute; reflexivity) v Hv) as H.
    cbv beta in H. apply andb_true_iff in H as [H1%Z.leb_le H2%Z.ltb_lt]. done.
  - unfold padding. destruct (length b `mod` 3)%nat as [|[|[|]]]; repeat constructor; unfold is_byte, pad_char; lia.
Qed.

Section theorems.
Context {E : Envoy} {I : IstioEnv} {L : IstioLaws I}.

(** What a proxy sends of its node *)
Definition sent_struct (s : Struct) : Struct := extractStructFromNodeFlatBuffer (extractNodeFlatBufferFromStruct s).

Lemma extract_sent (s : Struct) (node_id : string) (m : MetadataImpl) :
  serializeToStringDeterministic (sent_struct s) ≠ [] →
  getString ExchangeMetadataHeader m = Return (loadMetadataFromNodeInfo (Some s) node_id).1 →
  extractPeerNodeMetadata m = Return (extractNodeFlatBufferFromStruct s).
Proof.
  intros Hne Hm. unfold extractPeerNodeMetadata. rewrite Hm. cbn [mbind outcome_bind loadMetadataFromNodeInfo fst].
  fold (sent_struct s). destruct (serialize_bytes (sent_struct s)) as [Hb Hl]. set (b := serializeToStringDeterministic (sent_struct s)) in *.
  pose proof (encode_bytes b Hb Hl) as Heb.
  rewrite bool_decide_false.
  - rewrite string_bytes_string, decode_encode by done. cbn [mbind outcome_bind]. unfold b. rewrite parse_serialize.
    unfold sent_struct. by rewrite node_struct_node.
  - intros He. apply Hne, encode_empty; [done | done |]. rewrite <- (string_bytes_string (encode b true)) by done. by rewrite He.
Qed.

(** A request that passes the filter of the client's proxy, and a response that passes the
    filter of the server's, carry the node of the sender. *)
Lemma exchange_extract (s : Struct) (node_id : string) (d : TrafficDirection) (mutation : Mutation) (m : MetadataImpl) (v : string) :
  serializeToStringDeterministic (sent_struct s) ≠ [] → getString ExchangeMetadataHeader m = Return v →
  exchange (new_MetadataExchangeFilter (Some s) node_id d) mutation !! ExchangeMetadataHeader = Some v →
  extractPeerNodeMetadata m = Return (extractNodeFlatBufferFromStruct s).
Proof using L.
  intros Hne Hm Hv. unfold exchange in Hv. rewrite lookup_insert_ne, lookup_insert_eq in Hv by done. injection Hv as <-.
  by apply (extract_sent s node_id).
Qed.
Lemma decoded_inbound (m : MetadataImpl) (f : StatsFilter) node :
  extractPeerNodeMetadata m = Return node → sf_traffic_direction_ f = INBOUND →
  sf_onMessageDecoded m f = (Return FilterStatus_ContinueIteration, f <| peer_node_info_ := node |>).
Proof.
  intros Hv Hd. unfold sf_onMessageDecoded. rewrite run_bind. cbn [gets id]. cbv beta iota.
  rewrite decide_True, run_bind, run_bind, Hv by done. reflexivity.
Qed.
Lemma encoded_outbound (m : MetadataImpl) info (f : StatsFilter) node :
  extractPeerNodeMetadata m = Return node → sf_traffic_direction_ f = OUTBOUND →
  sf_onMessageEncoded m info f =
    (Return (FilterStatus_ContinueIteration, report (istio_stats_ f) node info (response_status_ m) (destination_service_ f)),
     f <| peer_node_info_ := node |>).
Proof.
  intros Hv Hd. unfold sf_onMessageEncoded. rewrite run_bind. cbn [gets id]. cbv beta iota.
  rewrite decide_True, run_bind, run_bind, Hv by done. cbn [lift modify]. cbv beta iota. rewrite run_bind. cbn [gets id]. cbv beta iota.
  reflexivity.
Qed.
Lemma encoded_inbound (m : MetadataImpl) info (f : StatsFilter) :
  sf_traffic_direction_ f = INBOUND →
  sf_onMessageEncoded m info f =
    (Return (FilterStatus_ContinueIteration,
             report (istio_stats_ f) (peer_node_info_ f) info (response_status_ m) (destination_service_ f)), f).
Proof.
  intros Hd. unfold sf_onMessageEncoded. rewrite run_bind. cbn [gets id]. cbv beta iota.
  rewrite decide_False, run_bind by congruence. cbn [mret M_ret]. cbv beta iota. rewrite run_bind. cbn [gets id]. cbv beta iota.
  reflexivity.
Qed.

(** *** The two reports of a request *)

Definition metric_tags (x : metric) : tags := match x with Counter _ t => t | Histogram _ t _ => t end.
Definition source_names : list string :=
  ["source_workload"; "source_workload_namespace"; "source_cluster"; "source_app"; "source_version"; "source_canonical_service";
   "source_canonical_revision"].
Definition destination_names : list string :=
  ["destination_workload"; "destination_service_namespace"; "destination_workload_namespace"; "destination_cluster";
   "destination_app"; "destination_version"; "destination_canonical_service"; "destination_canonical_revision"].
(** The tags that describe the two workloads *)
Definition workload_tags (t : tags) : tags := filter (λ kv, kv.1 ∈ source_names ++ destination_names) t.

Lemma source_tag_names n : (populateSourceNodeTags n).*1 = source_names.
Proof. unfold populateSourceNodeTags. by destruct (labels n). Qed.
Lemma destination_tag_names n : (populateDestinationNodeTags n).*1 = destination_names.
Proof. unfold populateDestinationNodeTags. by destruct (labels n). Qed.
Lemma workload_tags_named (t : tags) names : t.*1 = names → names ⊆ source_names ++ destination_names → workload_tags t = t.
Proof.
  intros <-. unfold workload_tags. induction t as [|kv t IH]; [done |]. cbn [fmap list_fmap]. intros Hs.
  rewrite filter_cons_True by (apply Hs; left). f_equal. apply IH. intros x Hx. apply Hs. by right.
Qed.
Lemma workload_tags_node n1 n2 t :
  workload_tags (populateSourceNodeTags n1 ++ populateDestinationNodeTags n2 ++ t) =
  populateSourceNodeTags n1 ++ populateDestinationNodeTags n2 ++ workload_tags t.
Proof.
  unfold workload_tags. rewrite !filter_app. f_equal; [| f_equal].
  - eapply workload_tags_named; [apply source_tag_names | intros x Hx; apply elem_of_app; by left].
  - eapply workload_tags_named; [apply destination_tag_names | intros x Hx; apply elem_of_app; by right].
Qed.
Lemma workload_tags_reporter v t : workload_tags (("reporter", v) :: t) = workload_tags t.
Proof. unfold workload_tags. apply filter_cons_False. apply (bool_decide_unpack _). vm_compute. done. Qed.
Lemma report_workloads x p info st service :
  workload_tags (report_tags x p info st service) =
  if decide (is_traffic_direction_ x = INBOUND) then populateSourceNodeTags p ++ populateDestinationNodeTags (local_node_info_ x)
  else populateSourceNodeTags (local_node_info_ x) ++ populateDestinationNodeTags p.
Proof.
  unfold report_tags. cbv zeta. set (code := [("response_code", _)]).
  destruct (decide _); cbn [app]; rewrite workload_tags_reporter, <- !app_assoc, workload_tags_node.
  - by rewrite app_nil_r.
  - destruct (upstreamClusterInfo info) as [[cluster|]|]; by rewrite app_nil_r.
Qed.

(** The counters that are incremented *)
Definition counters (l : list metric) : list string := omap (λ x, match x with Counter name _ => Some name | _ => None end) l.
Lemma counters_report stats p info st service : counters (report stats p info st service) = ["wasmcustom.istio_requests_total"].
Proof. unfold report. cbv zeta. by destruct (requestComplete info). Qed.

Lemma report_metric_tags stats p info st service x :
  x ∈ report stats p info st service → metric_tags x = report_tags stats p info st service.
Proof.
  unfold report. cbv zeta. rewrite !elem_of_app. intros [H | [H | H]].
  - apply list_elem_of_singleton in H as ->. done.
  - destruct (requestComplete info); [apply list_elem_of_singleton in H as -> | apply elem_of_nil in H]; done.
  - apply elem_of_cons in H as [-> | H%list_elem_of_singleton]; [| subst]; done.
Qed.

(** C38: The statistics of the two proxies of a request agree. The client's proxy sends its node with the request, the server's
    proxy reads it and answers with its own node, which the client's proxy reads; each then reports the call, counting it once,
    and in every metric that either updates the tags of the two workloads are the same: the client's workload is the source and
    the server's the destination, whichever of the two proxies reports. *)
Theorem proxies_report_alike (c s : Struct) (client_id server_id : string) (request response : Mutation) (mq mr ms : MetadataImpl)
    (vq vr service service' : string) (info info' : StatsInfo) :
  serializeToStringDeterministic (sent_struct c) ≠ [] → serializeToStringDeterministic (sent_struct s) ≠ [] →
  (mx_onMessageDecoded (new_MetadataExchangeFilter (Some c) client_id OUTBOUND) request).2 !! ExchangeMetadataHeader = Some vq →
  getString ExchangeMetadataHeader mq = Return vq →
  (mx_onMessageEncoded (new_MetadataExchangeFilter (Some s) server_id INBOUND) response).2 !! ExchangeMetadataHeader = Some vr →
  getString ExchangeMetadataHeader mr = Return vr →
  ∃ server updates_s client updates_c,
    sf_onMessageDecoded mq (new_StatsFilter INBOUND (new_IstioStats (Some s) INBOUND) service) = (Return FilterStatus_ContinueIteration, server) ∧
    sf_onMessageEncoded ms info server = (Return (FilterStatus_ContinueIteration, updates_s), server) ∧
    sf_onMessageEncoded mr info' (new_StatsFilter OUTBOUND (new_IstioStats (Some c) OUTBOUND) service') = (Return (FilterStatus_ContinueIteration, updates_c), client) ∧
    counters updates_s = ["wasmcustom.istio_requests_total"] ∧ counters updates_c = ["wasmcustom.istio_requests_total"] ∧
    ∀ x, x ∈ updates_s ++ updates_c →
      workload_tags (metric_tags x) =
      populateSourceNodeTags (extractNodeFlatBufferFromStruct c) ++ populateDestinationNodeTags (extractNodeFlatBufferFromStruct s).
Proof using L.
  intros Hc Hs Hq Hmq Hr Hmr.
  apply (exchange_extract c client_id OUTBOUND request mq vq Hc Hmq) in Hq.
  apply (exchange_extract s server_id INBOUND response mr vr Hs Hmr) in Hr.
  eexists _, _, _, _. split; [by apply decoded_inbound |]. split; [by apply encoded_inbound |].
  split; [by apply encoded_outbound |]. split; [apply counters_report |]. split; [apply counters_report |].
  intros x [Hx%report_metric_tags | Hx%report_metric_tags]%elem_of_app; rewrite Hx, report_workloads; done.
Qed.
End theorems.

(** ** A witness *)

(** Two nodes, named by a bit *)
Definition toy_node (b : bool) : FlatNode :=
  {| workload_name := Some (if b then "client" else "server"); namespace_ := Some "default"; cluster_id := None;
     labels := Some [("app", Some (if b then "front" else "back"))] |}.
Definition toy_istio : IstioEnv := {|
  Struct := bool;
  extractNodeFlatBufferFromStruct := toy_node;
  extractStructFromNodeFlatBuffer n := bool_decide (workload_name n = Some "client");
  extractEmptyNodeFlatBuffer := {| workload_name := None; namespace_ := None; cluster_id := None; labels := None |};
  serializeToStringDeterministic b := [if b then 1 else 2];
  ParseFromString b := Some (bool_decide (b = [1]));
  kCanonicalServiceLabelName := "service.istio.io/canonical-name";
  kCanonicalServiceRevisionLabelName := "service.istio.io/canonical-revision"
|}.
#[export] Instance toy_istio_laws : IstioLaws toy_istio.
Proof.
  split.
  - by intros [].
  - intros []; split; try reflexivity; repeat constructor; lia.
  - by intros [].
Qed.
Definition toy_info : StatsInfo :=
  {| upstreamClusterInfo := Some (Some "outbound|20880||back"); requestComplete := Some 2500000; bytesSent := 10; bytesReceived := 20 |}.
Definition toy_message (v : string) : @MetadataImpl (list_envoy Empty_set) :=
  @putString (list_envoy Empty_set) ExchangeMetadataHeader v (@new_MetadataImpl (list_envoy Empty_set)).

Lemma proxies_report_alike_witness :
  ∃ server updates_s client updates_c,
    @sf_onMessageDecoded (list_envoy Empty_set) toy_istio (toy_message "AQ==") (@new_StatsFilter toy_istio INBOUND (@new_IstioStats toy_istio (Some false) INBOUND) "back") =
      (Return FilterStatus_ContinueIteration, server) ∧
    @sf_onMessageEncoded (list_envoy Empty_set) toy_istio (toy_message "") toy_info server =
      (Return (FilterStatus_ContinueIteration, updates_s), server) ∧
    @sf_onMessageEncoded (list_envoy Empty_set) toy_istio (toy_message "Ag==") toy_info (@new_StatsFilter toy_istio OUTBOUND (@new_IstioStats toy_istio (Some true) OUTBOUND) "") =
      (Return (FilterStatus_ContinueIteration, updates_c), client) ∧
    counters updates_s = ["wasmcustom.istio_requests_total"] ∧ counters updates_c = ["wasmcustom.istio_requests_total"] ∧
    ∀ x, x ∈ updates_s ++ updates_c →
      workload_tags (metric_tags x) = @populateSourceNodeTags toy_istio (toy_node true) ++ @populateDestinationNodeTags toy_istio (toy_node false).
Proof.
  apply (@proxies_report_alike (list_envoy Empty_set) toy_istio toy_istio_laws true false "a" "b" ∅ ∅ (toy_message "AQ==") (toy_message "Ag==")
    (toy_message "") "AQ==" "Ag==" "back" "" toy_info toy_info); vm_compute; first [discriminate | reflexivity].
Defined.
