(* ===== verification/Listener.v ===== *)
(** * The configuration of a listener

    Model of [config.cc] and [config.h] ([ConfigImpl]) and of
    [tracing/tracer_manager_impl.cc].  Every listener has a configuration; the
    configurations share the providers of routes, kept by [Rds], and the tracers, which
    the tracer manager knows by weak references.  Envoy's registry of factories, its
    percentages and hashes are parameters. *)

From S2P Require Import Prelude Envoy Metadata Route Tracing Rds IstioStats.

(** ** Protobuf messages, as far as they are read *)

Class ConfigEnv := {
  (** [google.protobuf.Any] *)
  Any : Type;
  Percent : Type;
  (** the value of a [Percent] as a [uint32_t], and rounded to a fraction of a maximum, which throws for one that is not a number *)
  percent_uint32 : Percent → Z;
  percent_rounded : Percent → Z → outcome Z;
  DefaultMaxPathTagLength : Z;
  Tracing_Http : Type;
  tracing_hash : Tracing_Http → Z;
  Driver : Type;
  (** [getAndCheckFactory], [translateToFactoryConfig] and [createTracerDriver] *)
  createTracerDriver : Tracing_Http → outcome Driver;
  (** [getAndCheckFactoryByName], [translateOpaqueConfig] and [createFilterFactoryFromProto], with the prefix of the statistics *)
  FilterFactoryCb : Type;
  createFilterFactory : string → Any → string → outcome FilterFactoryCb;
  empty_any : Any;
  (** the same for a codec *)
  CodecPtr : Type;
  createCodecByName : string → Any → outcome CodecPtr;
  AccessLog : Type;
  AccessLogInstance : Type;
  accessLogFromProto : AccessLog → outcome AccessLogInstance;
  rds_hash : Any → string → Z;
  grpc_services_size : Any → Z;
  (** of the context: the direction of the listener, the tracing of the bootstrap configuration and the worker threads *)
  direction : TrafficDirection;
  defaultTracingConfig : option Tracing_Http;
  worker_threads : nat
}.

Record CodecConfig `{ConfigEnv} : Type := { codec_name : string; codec_config : Any }.
Record ApplicationProtocolConfig `{ConfigEnv} : Type :=
  { ap_name : string; ap_codec : option CodecConfig; ap_multiplexing : bool }.
Record TracingProto `{ConfigEnv} : Type := {
  tr_client_sampling : option Percent;
  tr_random_sampling : option Percent;
  tr_overall_sampling : option Percent;
  tr_verbose : bool;
  tr_max_tag_length : option Z;
  tr_provider : option Tracing_Http
}.

Section config.
Context {E : Envoy} {R : RouteEnv E} {D : RdsEnv} {V : ConfigEnv}.

Inductive RouteSpecifier : Type :=
| kRds (config_source : Any) (route_config_name : string)
| kRouteConfig (route_config : RouteConfiguration)
| kNotSet.
Record MetaProtocolProxyConfig : Type := {
  mc_stat_prefix : string;
  mc_application_protocol : string;
  mc_route_specifier : RouteSpecifier;
  mc_codec : CodecConfig;
  mc_filters : list (string * Any);
  mc_tracing : option TracingProto;
  mc_access_log : list AccessLog;
  (** in milliseconds *)
  mc_idle_timeout : option Z;
  mc_protocol : ApplicationProtocolConfig
}.

(** ** ConfigImpl *)

(** [route_config_provider_]: the provider of a subscription, by its key, or a static one *)
Inductive provider : Type := RdsProvider (manager_identifier : Z) | StaticProvider (number : nat).
#[global] Instance provider_eq_dec : EqDecision provider.
Proof. solve_decision. Defined.

Record ProxyConfigImpl : Type := {
  application_protocol_ : string;
  codecConfig_ : CodecConfig;
  application_protocol_config_ : ApplicationProtocolConfig;
  stats_prefix_ : string;
  filter_factories_ : list FilterFactoryCb;
  route_config_provider_ : provider;
  idle_timeout_ : option Z;
  (** the tracer by its number, or the null tracer *)
  tracer_ : option nat;
  (** the configuration of tracing, with [max_tag_length] *)
  tracing_config_ : option (TracingConfig * Z);
  access_logs_ : list AccessLogInstance
}.

Definition applicationProtocol_of (application_protocol : string) (config : ApplicationProtocolConfig) : string :=
  if bool_decide (ap_name config = "") then application_protocol else ap_name config.
Definition ProxyConfigImpl_applicationProtocol (c : ProxyConfigImpl) : string :=
  applicationProtocol_of (application_protocol_ c) (application_protocol_config_ c).
Definition multiplexing (c : ProxyConfigImpl) : bool := ap_multiplexing (application_protocol_config_ c).

(** ** Tracers *)

(** The tracers by the hash of their configuration, as weak references, and the driver of
    every tracer that was made *)
Record MetaProtocolTracerManagerImpl : Type := { meta_protocol_tracers_ : gmap Z nat; tracer_drivers : list Driver }.
#[global] Instance MetaProtocolTracerManagerImpl_eta : Eta MetaProtocolTracerManagerImpl := fun t =>
  {| meta_protocol_tracers_ := meta_protocol_tracers_ t; tracer_drivers := tracer_drivers t |}.

(** ** The process: the two managers and the configurations that are alive *)

Record Process : Type := {
  pr_routes : RouteConfigProviderManagerImpl;
  pr_tracers : MetaProtocolTracerManagerImpl;
  pr_configs : gmap nat ProxyConfigImpl;
  (** the static providers made so far *)
  pr_static_count : nat
}.
#[global] Instance Process_eta : Eta Process := fun p =>
  {| pr_routes := pr_routes p; pr_tracers := pr_tracers p; pr_configs := pr_configs p; pr_static_count := pr_static_count p |}.
Definition new_Process : Process :=
  {| pr_routes := {| dynamic_route_config_providers_ := ∅; static_route_config_providers_ := ∅ |};
     pr_tracers := {| meta_protocol_tracers_ := ∅; tracer_drivers := [] |}; pr_configs := ∅; pr_static_count := 0 |}.

(** The weak reference to a tracer has not expired: a configuration owns it. *)
Definition tracer_alive (p : Process) (t : nat) : bool :=
  existsb (λ c, bool_decide (tracer_ c.2 = Some t)) (map_to_list (pr_configs p)).
Definition provider_owned (p : Process) (v : provider) : bool :=
  existsb (λ c, bool_decide (route_config_provider_ c.2 = v)) (map_to_list (pr_configs p)).

Definition on_tracers (f : MetaProtocolTracerManagerImpl → MetaProtocolTracerManagerImpl) : M Process unit :=
  modify (λ p, p <| pr_tracers ::= f |>).
Definition on_routes {A} (m : M RouteConfigProviderManagerImpl A) : M Process A := λ p,
  let '(o, routes) := m (pr_routes p) in (o, p <| pr_routes := routes |>).

Definition removeExpiredCacheEntries : M Process unit :=
  p ← gets id;
  on_tracers (λ t, t <| meta_protocol_tracers_ ::= base.filter (λ e, tracer_alive p e.2 = true) |>).

(** [emplace] keeps an entry that is there. *)
Definition emplace (cache_key : Z) (t : nat) (m : gmap Z nat) : gmap Z nat :=
  match m !! cache_key with Some _ => m | None => <[cache_key := t]> m end.

Definition getOrCreateMetaProtocolTracer (config : option Tracing_Http) : M Process (option nat) :=
  match config with
  | None => mret None
  | Some config =>
      let cache_key := tracing_hash config in
      p ← gets id;
      let cached := t ← meta_protocol_tracers_ (pr_tracers p) !! cache_key; if tracer_alive p t then Some t else None in
      match cached with
      | Some t => mret (Some t)
      | None =>
          _ ← removeExpiredCacheEntries;
          driver ← lift (createTracerDriver config);
          t ← gets (λ p, length (tracer_drivers (pr_tracers p)));
          _ ← on_tracers (λ m, m <| tracer_drivers ::= (.++ [driver]) |>);
          _ ← on_tracers (λ m, m <| meta_protocol_tracers_ ::= emplace cache_key t |>);
          mret (Some t)
      end
  end.

Definition getPerFilterTracerConfig (tracing : TracingProto) : option Tracing_Http :=
  match tr_provider tracing with
  | Some provider => Some provider
  | None => defaultTracingConfig
  end.

(** [PROTOBUF_PERCENT_TO_ROUNDED_INTEGER_OR_DEFAULT] *)
Definition rounded_or_default (p : option Percent) (max_value default_value : Z) : outcome Z :=
  match p with Some p => percent_rounded p max_value | None => Return default_value end.

Definition tracing_config_of (tracing : TracingProto) : outcome (TracingConfig * Z) :=
  let tracing_operation_name :=
    match direction with UNSPECIFIED => Ingress | INBOUND => Ingress | OUTBOUND => Egress end in
  let client_sampling := (match tr_client_sampling tracing with Some p => percent_uint32 p | None => 100 end, 100) in
  random_sampling_numerator ← rounded_or_default (tr_random_sampling tracing) 10000 10000;
  overall_sampling_numerator ← rounded_or_default (tr_overall_sampling tracing) 10000 10000;
  let max_tag_length := default DefaultMaxPathTagLength (tr_max_tag_length tracing) in
  Return ({| operationName := tracing_operation_name; verbose := tr_verbose tracing; clientSampling := client_sampling;
             randomSampling := (u32 random_sampling_numerator, 10000); overallSampling := (u32 overall_sampling_numerator, 10000) |},
          max_tag_length).

(** The calls of [registerFilter] and of [AccessLogFactory::fromProto], in order *)
Fixpoint each {A B} (f : A → outcome B) (l : list A) : outcome (list B) :=
  match l with
  | [] => Return []
  | a :: l => b ← f a; rest ← each f l; Return (b :: rest)
  end.
Definition registerFilter (stats_prefix : string) (proto_config : string * Any) : outcome FilterFactoryCb :=
  createFilterFactory proto_config.1 proto_config.2 stats_prefix.

(** The [switch] over the route specifier *)
Definition create_provider (s : RouteSpecifier) : M Process provider :=
  match s with
  | kRds config_source name =>
      let manager_identifier := rds_hash config_source name in
      _ ← on_routes (createRdsRouteConfigProvider manager_identifier name (grpc_services_size config_source) worker_threads);
      mret (RdsProvider manager_identifier)
  | kRouteConfig route_config =>
      number ← gets pr_static_count;
      _ ← on_routes (createStaticRouteConfigProvider number route_config);
      _ ← modify (λ p, p <| pr_static_count ::= S |>);
      mret (StaticProvider number)
  | kNotSet => panic "invalid route specifier"
  end.

(** The last [shared_ptr] to a provider is gone. *)
Definition release_provider (v : provider) : M Process unit :=
  p ← gets id;
  if provider_owned p v then mret tt
  else
    match v with
    | RdsProvider manager_identifier => on_routes (destroyRdsRouteConfigProvider manager_identifier)
    | StaticProvider number => on_routes (destroyStaticRouteConfigProvider number)
    end.

(** What follows the provider in the constructor *)
Definition rest_of_ConfigImpl (config : MetaProtocolProxyConfig) (provider : provider) : M Process ProxyConfigImpl :=
  let stats_prefix := "meta_protocol." +:+ applicationProtocol_of (mc_application_protocol config) (mc_protocol config) +:+ "." +:+
                      mc_stat_prefix config +:+ "." in
  filter_factories ← lift (if mc_filters config is [] then each (registerFilter stats_prefix) [("aeraki.meta_protocol.filters.router", empty_any)]
                           else each (registerFilter stats_prefix) (mc_filters config));
  '(tracer, tracing_config) ← match mc_tracing config with
                              | Some tracing =>
                                  tracer ← getOrCreateMetaProtocolTracer (getPerFilterTracerConfig tracing);
                                  tracing_config ← lift (tracing_config_of tracing);
                                  mret (tracer, Some tracing_config)
                              | None => mret (None, None)
                              end;
  access_logs ← lift (each accessLogFromProto (mc_access_log config));
  mret {| application_protocol_ := mc_application_protocol config; codecConfig_ := mc_codec config;
          application_protocol_config_ := mc_protocol config; stats_prefix_ := stats_prefix; filter_factories_ := filter_factories;
          route_config_provider_ := provider; idle_timeout_ := mc_idle_timeout config; tracer_ := tracer;
          tracing_config_ := tracing_config; access_logs_ := access_logs |}.

(** The constructor, for the configuration with a number; an exception destroys the
    members that were made. *)
Definition new_ProxyConfigImpl (number : nat) (config : MetaProtocolProxyConfig) : M Process unit :=
  provider ← create_provider (mc_route_specifier config);
  c ← try_catch (rest_of_ConfigImpl config provider) (λ e, _ ← release_provider provider; throw e);
  modify (λ p, p <| pr_configs ::= <[number := c]> |>).
Definition destroy_ProxyConfigImpl (number : nat) : M Process unit :=
  it ← gets (λ p, pr_configs p !! number);
  match it with
  | Some c =>
      _ ← modify (λ p, p <| pr_configs ::= delete number |>);
      release_provider (route_config_provider_ c)
  | None => mret tt
  end.

(** ** What a connection asks of its configuration *)

Definition createFilterChain {W} (call : FilterFactoryCb → M W unit) (c : ProxyConfigImpl) : M W unit :=
  foldr (λ factory rest, _ ← call factory; rest) (mret tt) (filter_factories_ c).

Definition getCodecConfig (c : ProxyConfigImpl) : CodecConfig :=
  match ap_codec (application_protocol_config_ c) with
  | Some codec => if bool_decide (codec_name codec = "") then codecConfig_ c else codec
  | None => codecConfig_ c
  end.
Definition createCodec (c : ProxyConfigImpl) : outcome CodecPtr :=
  createCodecByName (codec_name (getCodecConfig c)) (codec_config (getCodecConfig c)).

(** [config()] of a provider on a worker thread; a provider that is gone is not defined
    behaviour. *)
Definition provider_config (p : Process) (thread : nat) (v : provider) : outcome Config :=
  match v with
  | RdsProvider manager_identifier =>
      match s ← dynamic_route_config_providers_ (pr_routes p) !! manager_identifier; rd_route_config_provider_opt_ s with
      | Some slots => match slots !! thread with Some t => Return (tl_config_ t) | None => Panic "no slot for the thread" end
      | None => Panic "provider used after its destruction"
      end
  | StaticProvider number =>
      match static_route_config_providers_ (pr_routes p) !! number with
      | Some s => Return (sp_config_ s)
      | None => Panic "provider used after its destruction"
      end
  end.
Definition ProxyConfigImpl_route (p : Process) (thread : nat) (c : ProxyConfigImpl) (metadata : MetadataImpl) (random_value : Z) :
    outcome (option Route) :=
  route_config ← provider_config p thread (route_config_provider_ c);
  Config_route route_config metadata random_value.
End config.
