(* ===== verification/ListenerBehaviour.v ===== *)
(** * Behaviour of the configurations of listeners

    Over every sequence of listeners that come and go, updates of the control plane and
    steps of the worker threads: a listener finds the provider of its routes, and tracers
    are shared. *)

From S2P Require Import Prelude Envoy Metadata Route Tracing Rds RdsBehaviour IstioStats Listener.

Section behaviour.
Context {E : Envoy} {R : RouteEnv E} {D : RdsEnv} {V : ConfigEnv}.

Inductive process_event : Type :=
| Listener_added (number : nat) (config : MetaProtocolProxyConfig)
| Listener_removed (number : nat)
| Rds_event (manager_identifier : Z) (ev : rds_event).

Definition process_step (ev : process_event) (p : Process) : outcome unit * Process :=
  match ev with
  | Listener_added number config => new_ProxyConfigImpl number config p
  | Listener_removed number => destroy_ProxyConfigImpl number p
  | Rds_event id ev =>
      match dynamic_route_config_providers_ (pr_routes p) !! id with
      | Some s =>
          let '(o, s') := rds_step ev s in
          (_ ← o; Return tt, p <| pr_routes ::= λ r, r <| dynamic_route_config_providers_ ::= <[id := s']> |> |>)
      | None => (Return tt, p)
      end
  end.

(** The states of the process, with the messages of the listeners that it has *)
Inductive process_reachable : gmap nat MetaProtocolProxyConfig → Process → Prop :=
| process_start : process_reachable ∅ new_Process
| process_next ms p ev o p' :
    process_reachable ms p → process_step ev p = (o, p') → (∀ w, o ≠ Panic w) →
    (∀ number config, ev = Listener_added number config → pr_configs p !! number = None) →
    process_reachable
      (match ev with
       | Listener_added number config => if o is Return _ then <[number := config]> ms else ms
       | Listener_removed number => delete number ms
       | Rds_event _ _ => ms
       end) p'.

(** ** Providers *)

Definition provider_exists (p : Process) (v : provider) : Prop :=
  match v with
  | RdsProvider id => ∃ s hist, dynamic_route_config_providers_ (pr_routes p) !! id = Some s ∧ rds_reachable hist s ∧ in_step worker_threads hist s
  | StaticProvider n => is_Some (static_route_config_providers_ (pr_routes p) !! n)
  end.
Definition provider_known (p : Process) (v : provider) : Prop :=
  match v with
  | RdsProvider id => is_Some (dynamic_route_config_providers_ (pr_routes p) !! id)
  | StaticProvider n => is_Some (static_route_config_providers_ (pr_routes p) !! n)
  end.
Definition owned (p : Process) (v : provider) : Prop := ∃ n c, pr_configs p !! n = Some c ∧ route_config_provider_ c = v.

(** Every known provider is alive and, but for one that is held elsewhere, owned by a
    listener; every owned one is known. *)
Record providers_ok (p : Process) (held : option provider) : Prop := {
  known_exists v : provider_known p v → provider_exists p v;
  known_owned v : provider_known p v → owned p v ∨ held = Some v;
  owned_known v : owned p v ∨ held = Some v → provider_known p v;
  static_fresh n : is_Some (static_route_config_providers_ (pr_routes p) !! n) → (n < pr_static_count p)%nat
}.

Lemma provider_owned_spec p v : provider_owned p v = true ↔ owned p v.
Proof.
  unfold provider_owned, owned. rewrite existsb_exists. split.
  - intros ([n c] & Hin & Hc%bool_decide_eq_true). exists n, c. split; [| done]. by apply elem_of_map_to_list, list_elem_of_In.
  - intros (n & c & Hc & Hv). exists (n, c). split; [by apply list_elem_of_In, elem_of_map_to_list | by apply bool_decide_eq_true].
Qed.

(** What the rest of a constructor leaves alone *)
Definition same_routes (p p' : Process) : Prop :=
  pr_routes p' = pr_routes p ∧ pr_configs p' = pr_configs p ∧ pr_static_count p' = pr_static_count p.
#[local] Instance same_routes_preorder : PreOrder same_routes.
Proof. split; [done |]. intros p1 p2 p3 (?&?&?) (?&?&?). repeat split; congruence. Qed.
Lemma on_tracers_frames f : frames same_routes (on_tracers f).
Proof. by intros p. Qed.
#[local] Hint Resolve on_tracers_frames : frames.
Lemma rest_frames config v : frames same_routes (rest_of_ConfigImpl config v).
Proof.
  unfold rest_of_ConfigImpl, getOrCreateMetaProtocolTracer, removeExpiredCacheEntries. cbv zeta. frames_auto.
Qed.

Lemma providers_ok_same p p' held : same_routes p p' → providers_ok p held → providers_ok p' held.
Proof.
  intros (Hr & Hc & Hn) [H1 H2 H3 H4].
  split; unfold provider_known, provider_exists, owned in *; rewrite ?Hr, ?Hc, ?Hn; done.
Qed.

(** A provider is held when it has been made or found. *)
Lemma providers_ok_hold p v : providers_ok p None → provider_known p v → providers_ok p (Some v).
Proof.
  intros [H1 H2 H3 H4] Hv. split; [done | | | done].
  - intros v' [Ho | Hh]%H2; [by left | done].
  - intros v' [Ho | [= ->]]; [apply H3; by left | done].
Qed.
Lemma providers_ok_add p p' v :
  providers_ok p None → pr_configs p' = pr_configs p →
  (∀ v', provider_known p' v' ↔ provider_known p v' ∨ v' = v) → (∀ v', v' ≠ v → provider_exists p v' → provider_exists p' v') →
  provider_exists p' v → (∀ n, is_Some (static_route_config_providers_ (pr_routes p') !! n) → (n < pr_static_count p')%nat) →
  providers_ok p' (Some v).
Proof.
  intros [H1 H2 H3 H4] Hc Hk He Hv Hn. split; [| | | done].
  - intros v' [Hv' | ->]%Hk; [| done]. destruct (decide (v' = v)) as [-> |]; [done | by apply He, H1].
  - intros v' [Hv' | ->]%Hk; [| by right]. destruct (H2 v' Hv') as [Ho | Ho]; [| done]. left. unfold owned in *. by rewrite Hc.
  - intros v' Hv'. apply Hk. destruct Hv' as [Ho | [= ->]]; [| by right]. left. apply H3. left. unfold owned in *. by rewrite Hc in Ho.
Qed.

Lemma create_rds_ok p source name v p' :
  providers_ok p None → create_provider (kRds source name) p = (Return v, p') → providers_ok p' (Some v) ∧ pr_configs p' = pr_configs p.
Proof.
  intros Hok. cbn [create_provider]. unfold on_routes, createRdsRouteConfigProvider. rewrite run_bind, run_bind. cbn [gets].
  set (id := rds_hash source name). destruct (dynamic_route_config_providers_ (pr_routes p) !! id) as [s|] eqn:Hs.
  - destruct (rd_route_config_provider_opt_ s); cbv [mret M_ret panic]; intros [= <- <-]. split; [| done].
    eapply providers_ok_hold; [| by exists s]. eapply providers_ok_same; [| done]. by destruct p.
  - rewrite run_bind. destruct (0 <? grpc_services_size source); cbv [ASSERT assert_that lift]; [| done].
    destruct (new_RdsRouteConfigProviderImpl worker_threads (new_RdsRouteConfigSubscription name)) as [[[]| |] s'] eqn:Hn; [| done | done].
    cbv [modify mret M_ret]. intros [= <- <-]. split; [| done]. eapply providers_ok_add; [done | done | | | |].
    + intros [id'|n]; cbn [provider_known]; cbn.
      * rewrite lookup_insert_is_Some'. naive_solver.
      * naive_solver.
    + intros [id'|n] Hne; cbn; [| done]. intros (s0 & hist & H0 & ?). exists s0, hist. by rewrite lookup_insert_ne by naive_solver.
    + exists s', [NullConfigImpl]. cbn. rewrite lookup_insert_eq. split; [done |]. split; [by econstructor | by eapply in_step_start].
    + cbn. apply Hok.
Qed.
Lemma create_static_ok p rc v p' :
  providers_ok p None → create_provider (kRouteConfig rc) p = (Return v, p') → providers_ok p' (Some v) ∧ pr_configs p' = pr_configs p.
Proof.
  intros Hok. cbn [create_provider]. unfold on_routes, createStaticRouteConfigProvider. rewrite run_bind. cbn [gets]. cbv beta iota.
  rewrite run_bind, run_bind. destruct (new_StaticRouteConfigProviderImpl rc) as [s| |]; cbv [lift modify mret M_ret]; [| done | done].
  rewrite run_bind. cbv [modify mret M_ret]. intros [= <- <-]. split; [| done]. eapply providers_ok_add; [done | done | | | |].
  - intros [id'|n]; cbn [provider_known]; cbn; [naive_solver |]. rewrite lookup_insert_is_Some'. naive_solver.
  - intros [id'|n] Hne; cbn; [done |]. intros Hx. by rewrite lookup_insert_ne by naive_solver.
  - cbn. by rewrite lookup_insert_eq.
  - cbn. intros n [-> | Hn%Hok]%lookup_insert_is_Some'; lia.
Qed.
Lemma create_throws p spec e p' : create_provider spec p = (Throw e, p') → same_routes p p'.
Proof.
  destruct spec as [source name|rc|]; cbn [create_provider]; [| | done]; unfold on_routes.
  - unfold createRdsRouteConfigProvider. rewrite !run_bind. cbn [gets].
    destruct (dynamic_route_config_providers_ (pr_routes p) !! _) as [s|].
    + destruct (rd_route_config_provider_opt_ s); done.
    + rewrite run_bind. destruct (0 <? _); cbv [ASSERT assert_that lift]; [| done].
      unfold new_RdsRouteConfigProviderImpl. rewrite run_bind. cbn. done.
  - unfold createStaticRouteConfigProvider. rewrite !run_bind. cbn [gets]. cbv beta iota. rewrite !run_bind.
    destruct (new_StaticRouteConfigProviderImpl rc); cbv [lift modify mret M_ret]; [done | | done]. intros [= <- <-]. by destruct p.
Qed.

Lemma release_ok p v :
  providers_ok p (Some v) →
  ∃ p', release_provider v p = (Return tt, p') ∧ providers_ok p' None ∧ pr_configs p' = pr_configs p ∧ pr_tracers p' = pr_tracers p.
Proof.
  intros [H1 H2 H3 H4]. unfold release_provider. rewrite run_bind. cbn [gets id]. cbv beta iota.
  destruct (provider_owned p v) eqn:Ho.
  { apply provider_owned_spec in Ho. exists p. split; [done |]. split; [| done]. split; [done | | | done].
    - intros v' [Hv' | [= <-]]%H2; by left.
    - intros v' [Hv' | Hv']; [apply H3; by left | done]. }
  assert (¬ owned p v) as Hno by (intros Hx%provider_owned_spec; congruence). clear Ho.
  pose proof (H3 v (or_intror eq_refl)) as Hk. pose proof (H1 v Hk) as He.
  unfold on_routes. destruct v as [id|n]; cbn in He.
  - destruct He as (s & hist & Hs & _ & slots & Hp & _). unfold destroyRdsRouteConfigProvider. rewrite run_bind. cbn [gets]. rewrite Hs.
    unfold destroy_RdsRouteConfigProviderImpl. rewrite !run_bind. cbn [gets]. rewrite Hp. cbv [ASSERT assert_that lift modify mret M_ret].
    eexists. split; [reflexivity |]. split; [| done]. split; cbn; [| | | done].
    + intros [id'|n]; cbn; [intros (s0 & Hs0)|].
      * apply lookup_delete_Some in Hs0 as [Hne Hs0]. rewrite lookup_delete_ne by done. exact (H1 (RdsProvider id') (ex_intro _ s0 Hs0)).
      * apply (H1 (StaticProvider n)).
    + intros [id'|n]; cbn; [intros (s0 & Hs0) | intros Hn].
      * apply lookup_delete_Some in Hs0 as [Hne Hs0]. left. destruct (H2 (RdsProvider id') (ex_intro _ s0 Hs0)) as [Ho|[= Ho]]; [done | congruence].
      * left. by destruct (H2 (StaticProvider n) Hn) as [|[=]].
    + intros v' [Hv' | [=]]. pose proof (H3 v' (or_introl Hv')) as Hk'. destruct v' as [id'|n]; cbn in *; [| done].
      rewrite lookup_delete_ne; [done |]. intros ->. by apply Hno.
  - unfold destroyStaticRouteConfigProvider. cbv [modify]. eexists. split; [reflexivity |]. split; [| done]. split; cbn.
    + intros [id'|n']; cbn; [apply (H1 (RdsProvider id')) |]. done.
    + intros [id'|n']; cbn; [intros Hid | intros (s0 & Hs0)].
      * left. by destruct (H2 (RdsProvider id') Hid) as [|[=]].
      * apply lookup_delete_Some in Hs0 as [Hne Hs0]. left. destruct (H2 (StaticProvider n') (ex_intro _ s0 Hs0)) as [Ho|[= Ho]]; [done | congruence].
    + intros v' [Hv' | [=]]. pose proof (H3 v' (or_introl Hv')) as Hk'. destruct v' as [id'|n']; cbn in *; [done |].
      rewrite lookup_delete_ne; [done |]. intros ->. by apply Hno.
    + intros n' (s0 & [Hne Hs0]%lookup_delete_Some). apply H4. by exists s0.
Qed.
(** ** Tracers *)

(** The tracing provider that a message asks for *)
Definition wanted (m : MetaProtocolProxyConfig) : option Tracing_Http := mc_tracing m ≫= getPerFilterTracerConfig.

(** The cache: every tracer was made for a configuration with its key, and has one key. *)
Record cache_ok (t : MetaProtocolTracerManagerImpl) : Prop := {
  cache_driver k n : meta_protocol_tracers_ t !! k = Some n →
    ∃ h d, tracing_hash h = k ∧ createTracerDriver h = Return d ∧ tracer_drivers t !! n = Some d;
  cache_inj k k' n : meta_protocol_tracers_ t !! k = Some n → meta_protocol_tracers_ t !! k' = Some n → k = k'
}.
(** The tracers that are alive stay in the cache. *)
Definition keeps (p p' : Process) : Prop :=
  ∀ k t, meta_protocol_tracers_ (pr_tracers p) !! k = Some t → tracer_alive p t = true → meta_protocol_tracers_ (pr_tracers p') !! k = Some t.
Definition traced_by (p : Process) (h : option Tracing_Http) (r : option nat) : Prop :=
  match h with
  | None => r = None
  | Some h => ∃ t, r = Some t ∧ meta_protocol_tracers_ (pr_tracers p) !! tracing_hash h = Some t
  end.

Lemma tracer_alive_spec p t : tracer_alive p t = true ↔ ∃ n c, pr_configs p !! n = Some c ∧ tracer_ c = Some t.
Proof.
  unfold tracer_alive. rewrite existsb_exists. split.
  - intros ([n c] & Hin & Hc%bool_decide_eq_true). exists n, c. split; [| done]. by apply elem_of_map_to_list, list_elem_of_In.
  - intros (n & c & Hc & Hv). exists (n, c). split; [by apply list_elem_of_In, elem_of_map_to_list | by apply bool_decide_eq_true].
Qed.

Lemma cache_filter t (P : nat → bool) :
  cache_ok t → cache_ok (t <| meta_protocol_tracers_ ::= base.filter (λ e, P e.2 = true) |>).
Proof.
  intros [H1 H2]. split; cbn.
  - intros k n [Hk _]%map_lookup_filter_Some. by apply H1.
  - intros k k' n [Hk _]%map_lookup_filter_Some [Hk' _]%map_lookup_filter_Some. by apply (H2 _ _ n).
Qed.
Lemma cache_emplace t h d :
  cache_ok t → meta_protocol_tracers_ t !! tracing_hash h = None → createTracerDriver h = Return d →
  cache_ok (t <| tracer_drivers ::= (.++ [d]) |> <| meta_protocol_tracers_ ::= emplace (tracing_hash h) (length (tracer_drivers t)) |>).
Proof.
  intros [H1 H2] Hn Hd. unfold emplace.
  assert (∀ k, meta_protocol_tracers_ t !! k ≠ Some (length (tracer_drivers t))) as Hnew.
  { intros k (h' & d' & _ & _ & Hl)%H1. apply lookup_lt_Some in Hl. lia. }
  split; cbn; rewrite Hn.
  - intros k n [[<- <-] | [Hne Hk]]%lookup_insert_Some.
    + exists h, d. split; [done |]. split; [done |]. by rewrite lookup_app_r, Nat.sub_diag by lia.
    + destruct (H1 k n Hk) as (h' & d' & ? & ? & Hl). exists h', d'. split; [done |]. split; [done |]. by apply lookup_app_l_Some.
  - intros k k' n [[<- <-] | [Hne Hk]]%lookup_insert_Some [[<- Heq] | [Hne' Hk']]%lookup_insert_Some; try done.
    + by apply Hnew in Hk'.
    + subst n. by apply Hnew in Hk.
    + by apply (H2 _ _ n).
Qed.

Lemma get_or_create_ok config p o p' :
  cache_ok (pr_tracers p) → getOrCreateMetaProtocolTracer config p = (o, p') →
  cache_ok (pr_tracers p') ∧ keeps p p' ∧ (∀ r, o = Return r → traced_by p' config r).
Proof.
  intros Hok. unfold getOrCreateMetaProtocolTracer. destruct config as [h|].
  2: { cbv [mret M_ret]. intros [= <- <-]. split; [done |]. split; [by intros k t |]. by intros r [= <-]. }
  cbv zeta. rewrite run_bind. cbn [gets id]. cbv beta iota.
  destruct (t ← meta_protocol_tracers_ (pr_tracers p) !! tracing_hash h; if tracer_alive p t then Some t else None) as [t|] eqn:Hc.
  { cbv [mret M_ret]. intros [= <- <-]. split; [done |]. split; [by intros k t' |]. intros r [= <-]. exists t. split; [done |].
    destruct (meta_protocol_tracers_ (pr_tracers p) !! tracing_hash h) as [t'|]; cbn in Hc; [| done].
    destruct (tracer_alive p t'); congruence. }
  unfold removeExpiredCacheEntries. rewrite run_bind, run_bind. cbn [gets id]. cbv beta iota. cbv [on_tracers modify].
  set (t1 := (pr_tracers p) <| meta_protocol_tracers_ ::= base.filter (λ e, tracer_alive p e.2 = true) |>).
  assert (cache_ok t1) as Hok1 by (by apply (cache_filter (pr_tracers p) (tracer_alive p))).
  assert (∀ k t, meta_protocol_tracers_ (pr_tracers p) !! k = Some t → tracer_alive p t = true → meta_protocol_tracers_ t1 !! k = Some t) as Hk1.
  { intros k t Hk Ha. cbn. by apply map_lookup_filter_Some. }
  assert (meta_protocol_tracers_ t1 !! tracing_hash h = None) as Hn.
  { cbn. apply map_lookup_filter_None. destruct (meta_protocol_tracers_ (pr_tracers p) !! tracing_hash h) as [t|] eqn:Ht; [right | by left].
    intros t' [= <-]. cbn in Hc |- *. by destruct (tracer_alive p t). }
  rewrite run_bind. cbv [lift]. destruct (createTracerDriver h) as [d| |] eqn:Hd; intros Hrun;
    [| injection Hrun as <- <-; split; [exact Hok1 |]; by split; [exact Hk1 |]..].
  rewrite run_bind in Hrun. cbn [gets] in Hrun. cbv beta iota in Hrun. rewrite !run_bind in Hrun. cbv [mret M_ret] in Hrun.
  injection Hrun as <- <-. pose proof (cache_emplace t1 h d Hok1 Hn Hd) as Hok2. split; [exact Hok2 |]. split.
  - intros k t Hk Ha. specialize (Hk1 k t Hk Ha). cbn in Hk1, Hn |- *. unfold emplace. rewrite Hn.
    rewrite lookup_insert_ne; [done |]. intros <-. congruence.
  - intros r [= <-]. eexists. split; [reflexivity |]. cbn in Hn |- *. unfold emplace. rewrite Hn. apply lookup_insert_eq.
Qed.
Lemma rest_tracers config v p o p' :
  cache_ok (pr_tracers p) → rest_of_ConfigImpl config v p = (o, p') →
  cache_ok (pr_tracers p') ∧ keeps p p' ∧ (∀ c, o = Return c → route_config_provider_ c = v ∧ traced_by p' (wanted config) (tracer_ c)).
Proof.
  intros Hok. assert (keeps p p) as Hkp by (by intros k t). unfold rest_of_ConfigImpl. cbv zeta. rewrite run_bind. unfold lift.
  destruct (match mc_filters config with [] => _ | _ :: _ => _ end) as [fs| |]; [| by intros [= <- <-]..].
  rewrite run_bind. unfold wanted. destruct (mc_tracing config) as [tr|]; cbn [mbind option_bind].
  - rewrite run_bind. destruct (getOrCreateMetaProtocolTracer (getPerFilterTracerConfig tr) p) as [o1 p1] eqn:Hg.
    destruct (get_or_create_ok _ _ _ _ Hok Hg) as (Hok1 & Hk1 & Ht1). destruct o1 as [t| |]; [| by intros [= <- <-]..].
    rewrite run_bind. destruct (tracing_config_of tr); [| by intros [= <- <-]..]. cbv [mret M_ret]. rewrite run_bind.
    destruct (each accessLogFromProto _); intros [= <- <-]; (split; [done |]); (split; [done |]); intros c [=]; subst c. split; [done |]. by apply Ht1.
  - cbv [mret M_ret]. rewrite run_bind.
    destruct (each accessLogFromProto _); intros [= <- <-]; (split; [done |]); (split; [done |]); intros c [=]; subst c. by split.
Qed.

(** What a provider does not touch *)
Definition same_listeners (p p' : Process) : Prop := pr_tracers p' = pr_tracers p ∧ pr_configs p' = pr_configs p.
#[local] Instance same_listeners_preorder : PreOrder same_listeners.
Proof. split; [done |]. intros p1 p2 p3 [] []. split; congruence. Qed.
Lemma on_routes_frames {A} (m : M RouteConfigProviderManagerImpl A) : frames same_listeners (on_routes m).
Proof. intros p. unfold on_routes. by destruct (m (pr_routes p)). Qed.
#[local] Hint Resolve on_routes_frames : frames.
Lemma create_provider_frames spec : frames same_listeners (create_provider spec).
Proof. unfold create_provider. frames_auto. by apply frames_modify. Qed.

(** Each listener has the tracer of its message. *)
Definition listeners_ok (ms : gmap nat MetaProtocolProxyConfig) (p : Process) : Prop :=
  ∀ n, match pr_configs p !! n, ms !! n with
       | Some c, Some m => traced_by p (wanted m) (tracer_ c)
       | None, None => True
       | _, _ => False
       end.
Lemma listeners_keep ms p p' : listeners_ok ms p → keeps p p' → pr_configs p' = pr_configs p → listeners_ok ms p'.
Proof.
  intros Hl Hk Hc n. specialize (Hl n). rewrite Hc. destruct (pr_configs p !! n) as [c|] eqn:Hn; [| done].
  destruct (ms !! n) as [m|]; [| done]. unfold traced_by in *. destruct (wanted m) as [h|]; [| done].
  destruct Hl as (t & Ht & Hl). exists t. split; [done |]. apply Hk; [done |]. apply tracer_alive_spec. by exists n, c.
Qed.

Record process_ok (ms : gmap nat MetaProtocolProxyConfig) (p : Process) : Prop := {
  ok_providers : providers_ok p None;
  ok_cache : cache_ok (pr_tracers p);
  ok_listeners : listeners_ok ms p
}.

Lemma create_provider_ok p spec v p' :
  providers_ok p None → create_provider spec p = (Return v, p') → providers_ok p' (Some v) ∧ pr_configs p' = pr_configs p.
Proof. destruct spec; [apply create_rds_ok | apply create_static_ok | done]. Qed.

(** The listener that is added owns the provider that is held. *)
Lemma add_config_ok ms p number config c v :
  providers_ok p (Some v) → cache_ok (pr_tracers p) → listeners_ok ms p → pr_configs p !! number = None →
  route_config_provider_ c = v → traced_by p (wanted config) (tracer_ c) →
  process_ok (<[number := config]> ms) (p <| pr_configs ::= <[number := c]> |>).
Proof.
  intros [H1 H2 H3 H4] Hc Hl Hf Hv Ht.
  assert (∀ v', owned (p <| pr_configs ::= <[number := c]> |>) v' ↔ owned p v' ∨ v' = v) as Ho.
  { intros v'. unfold owned. cbn. split.
    - intros (n & c' & [[<- <-] | [Hne Hn]]%lookup_insert_Some & <-); [by right | left; by exists n, c'].
    - intros [(n & c' & Hn & <-) | ->].
      + exists n, c'. split; [| done]. rewrite lookup_insert_ne; [done |]. intros ->. congruence.
      + exists number, c. by rewrite lookup_insert_eq. }
  split; [split | exact Hc |].
  - exact H1.
  - intros v' Hv'. left. apply Ho. destruct (H2 v' Hv') as [Hx | [= ->]]; [by left | by right].
  - intros v' [Hv' | [=]]. apply Ho in Hv'. apply H3. destruct Hv' as [Hx | ->]; [by left | by right].
  - exact H4.
  - intros n. cbn. destruct (decide (n = number)) as [-> |].
    + by rewrite !lookup_insert_eq.
    + rewrite !lookup_insert_ne by done. apply Hl.
Qed.
Lemma keeps_same p p' : pr_tracers p' = pr_tracers p → keeps p p'.
Proof. intros Ht k t. by rewrite Ht. Qed.

Lemma added_ok ms p number config o p' :
  process_ok ms p → pr_configs p !! number = None → new_ProxyConfigImpl number config p = (o, p') → (∀ w, o ≠ Panic w) →
  process_ok (if o is Return _ then <[number := config]> ms else ms) p'.
Proof.
  intros [Hpo Hca Hli] Hf. unfold new_ProxyConfigImpl. rewrite run_bind.
  pose proof (create_provider_frames (mc_route_specifier config) p) as [Ht1 Hc1].
  destruct (create_provider (mc_route_specifier config) p) as [o1 p1] eqn:Hcr. cbn [snd] in Ht1, Hc1.
  assert (listeners_ok ms p1) as Hl1 by (eapply listeners_keep; [done | by apply keeps_same | done]).
  destruct o1 as [v|e|w]; [| intros [= <- <-] Hw..].
  2: { apply create_throws in Hcr. split; [by eapply providers_ok_same | by rewrite Ht1 | done]. }
  2: by edestruct Hw.
  destruct (create_provider_ok _ _ _ _ Hpo Hcr) as [Hh _]. rewrite run_bind. unfold try_catch.
  pose proof (rest_frames config v p1) as (Hr2 & Hc2 & Hn2). destruct (rest_of_ConfigImpl config v p1) as [o2 p2] eqn:Hre.
  cbn [snd] in Hr2, Hc2, Hn2. rewrite <- Ht1 in Hca. destruct (rest_tracers _ _ _ _ _ Hca Hre) as (Hca2 & Hk2 & Hres).
  assert (listeners_ok ms p2) as Hl2 by (by eapply listeners_keep).
  assert (providers_ok p2 (Some v)) as Hh2 by (exact (providers_ok_same _ _ _ (conj Hr2 (conj Hc2 Hn2)) Hh)).
  destruct o2 as [c|e|w].
  - cbv [modify]. intros [= <- <-] _. destruct (Hres c eq_refl). apply (add_config_ok ms p2 number config c v); try done. congruence.
  - destruct (release_ok p2 v Hh2) as (p3 & Hrel & Hok3 & Hc3 & Ht3). rewrite run_bind, Hrel. cbv [throw]. intros [= <- <-] _.
    split; [done | by rewrite Ht3 |]. eapply listeners_keep; [done | by apply keeps_same | done].
  - intros [= <- <-] Hw. by edestruct Hw.
Qed.

Lemma removed_ok ms p number o p' :
  process_ok ms p → destroy_ProxyConfigImpl number p = (o, p') → process_ok (delete number ms) p'.
Proof.
  intros [Hpo Hca Hli]. unfold destroy_ProxyConfigImpl. rewrite run_bind. cbn [gets].
  assert (listeners_ok (delete number ms) (p <| pr_configs ::= delete number |>)) as Hl1.
  { intros n. cbn. destruct (decide (n = number)) as [-> | Hne]; [by rewrite !lookup_delete_eq |]. rewrite !lookup_delete_ne by done. apply Hli. }
  destruct (pr_configs p !! number) as [c|] eqn:Hn; cbv [mret M_ret].
  2: { intros [= <- <-]. split; [done | done |]. specialize (Hli number) as Hm. rewrite Hn in Hm.
       destruct (ms !! number) eqn:Hms; [done |]. by rewrite delete_id. }
  rewrite run_bind. cbv [modify]. set (p1 := p <| pr_configs ::= delete number |>). destruct Hpo as [H1 H2 H3 H4].
  assert (∀ v, owned p1 v → owned p v) as Ho.
  { intros v (n & c' & Hc' & <-). cbn in Hc'. apply lookup_delete_Some in Hc' as [Hne Hc']. by exists n, c'. }
  assert (providers_ok p1 (Some (route_config_provider_ c))) as Hp1.
  { split; [exact H1 | | | exact H4].
    - intros v [(n & c' & Hc' & <-) | [=]]%H2. destruct (decide (n = number)) as [-> |].
      + right. congruence.
      + left. exists n, c'. split; [| done]. cbn. by rewrite lookup_delete_ne.
    - intros v [Hv | [= <-]]; apply H3; left; [by apply Ho | by exists number, c]. }
  destruct (release_ok _ _ Hp1) as (p2 & -> & Hok & Hc & Ht). intros [= <- <-]. split; [done | by rewrite Ht |].
  eapply listeners_keep; [done | by apply keeps_same | done].
Qed.

Lemma rds_event_ok ms p id ev o p' :
  process_ok ms p → process_step (Rds_event id ev) p = (o, p') → (∀ w, o ≠ Panic w) → process_ok ms p'.
Proof.
  intros [[H1 H2 H3 H4] Hca Hli]. cbn [process_step]. destruct (dynamic_route_config_providers_ (pr_routes p) !! id) as [s|] eqn:Hs.
  2: { by intros [= <- <-]. }
  destruct (rds_step ev s) as [o1 s'] eqn:Hst. intros [= <- <-] Hw.
  assert (∀ w, o1 ≠ Panic w) as Hw1 by (intros w ->; by edestruct Hw).
  assert (∀ v, provider_known (p <| pr_routes ::= λ r, r <| dynamic_route_config_providers_ ::= <[id := s']> |> |>) v ↔ provider_known p v) as Hk.
  { intros [id'|n]; cbn; [| done]. rewrite lookup_insert_is_Some'. split; [| by right]. intros [<- | Hx]; [by exists s | done]. }
  split; [split | exact Hca | exact Hli].
  - intros v Hv. apply Hk, H1 in Hv. destruct v as [id'|n]; cbn in *; [| done]. destruct (decide (id = id')) as [<- | Hne].
    + destruct Hv as (s0 & hist & Hs0 & Hre & Hin). assert (s0 = s) as -> by congruence. exists s', (hist ++ accepted s s').
      rewrite lookup_insert_eq. split; [done |]. split; [by econstructor | by eapply in_step_event].
    + by rewrite lookup_insert_ne.
  - intros v Hv%Hk. by apply H2.
  - intros v Hv. by apply Hk, H3.
  - exact H4.
Qed.

Lemma new_Process_ok : process_ok ∅ new_Process.
Proof.
  split; [split | split | done].
  - intros [id|n] [x Hx]; done.
  - intros [id|n] [x Hx]; done.
  - intros v [(n & c & Hn & _) | [=]]. done.
  - by intros n [x Hx].
  - done.
  - done.
Qed.
Lemma process_reachable_ok ms p : process_reachable ms p → process_ok ms p.
Proof.
  induction 1 as [|ms p ev o p' _ IH Hst Hw Hf]; [apply new_Process_ok |]. destruct ev as [number config|number|id ev].
  - eapply added_ok; [done | by eapply Hf | done | done].
  - by eapply removed_ok.
  - by eapply rds_event_ok.
Qed.

(** C39: Routes of listeners. However listeners come and go, also when they fail to start, and whatever the control plane sends: a
    listener routes each message by the configuration of its own provider, which has not been destroyed, and for a provider
    that follows the control plane this is one of the configurations that the subscription has accepted, or the null
    configuration before the first. No provider is left without a listener that uses it. *)
Theorem listener_routes_served (ms : gmap nat MetaProtocolProxyConfig) (p : Process) :
  process_reachable ms p →
  (∀ n c thread, pr_configs p !! n = Some c → (thread < worker_threads)%nat →
     ∃ config, (∀ m random, ProxyConfigImpl_route p thread c m random = Config_route config m random) ∧
       match route_config_provider_ c with
       | RdsProvider id => ∃ s hist, dynamic_route_config_providers_ (pr_routes p) !! id = Some s ∧ rds_reachable hist s ∧ config ∈ hist
       | StaticProvider k => sp_config_ <$> static_route_config_providers_ (pr_routes p) !! k = Some config
       end) ∧
  (∀ v, provider_known p v → ∃ n c, pr_configs p !! n = Some c ∧ route_config_provider_ c = v).
Proof.
  intros [[H1 H2 H3 _] _ _]%process_reachable_ok. split.
  - intros n c thread Hc Hth. unfold ProxyConfigImpl_route, provider_config.
    assert (provider_exists p (route_config_provider_ c)) as He by (apply H1, H3; left; by exists n, c).
    destruct (route_config_provider_ c) as [id|k]; cbn in He.
    + destruct He as (s & hist & Hs & Hre & slots & Hp & Hl & Hf). rewrite Hs. cbn [mbind option_bind]. rewrite Hp.
      destruct (slots !! thread) as [t|] eqn:Ht; [| apply lookup_ge_None in Ht; lia]. exists (tl_config_ t). split; [done |].
      exists s, hist. split; [done |]. split; [done |]. rewrite Forall_lookup in Hf. destruct (Hf thread t Ht) as [pre ->].
      apply elem_of_app. right. by left.
    + destruct He as [s Hs]. rewrite Hs. exists (sp_config_ s). done.
  - intros v [Ho | [=]]%H2. done.
Qed.

(** A listener whose tracing configuration names no provider has the tracer of the
    bootstrap configuration, if there is one. *)
Lemma listener_default_tracer ms p n m tr c :
  process_reachable ms p → ms !! n = Some m → pr_configs p !! n = Some c →
  mc_tracing m = Some tr → tr_provider tr = None → traced_by p defaultTracingConfig (tracer_ c).
Proof.
  intros [_ _ Hl]%process_reachable_ok Hm Hc Htr Hp. specialize (Hl n). rewrite Hc, Hm in Hl.
  unfold wanted, getPerFilterTracerConfig in Hl. rewrite Htr in Hl. cbn in Hl. by rewrite Hp in Hl.
Qed.

(** The provider that the message of a listener names *)
Definition own_provider (m : MetaProtocolProxyConfig) : option Tracing_Http := mc_tracing m ≫= tr_provider.

(** C40: Tracers of listeners. However listeners come and go: two listeners that name a tracing provider share a tracer exactly
    when the configurations of the providers have the same hash, and the driver of a tracer was made from a configuration
    with this hash. A listener without tracing configuration has the null tracer. *)
Theorem listener_tracers_shared (ms : gmap nat MetaProtocolProxyConfig) (p : Process) (n n' : nat) m m' c c' :
  process_reachable ms p → ms !! n = Some m → ms !! n' = Some m' → pr_configs p !! n = Some c → pr_configs p !! n' = Some c' →
  (mc_tracing m = None → tracer_ c = None) ∧
  ∀ h h', own_provider m = Some h → own_provider m' = Some h' →
    (tracer_ c = tracer_ c' ↔ tracing_hash h = tracing_hash h') ∧
    ∃ t made d, tracer_ c = Some t ∧ tracer_drivers (pr_tracers p) !! t = Some d ∧ createTracerDriver made = Return d ∧
      tracing_hash made = tracing_hash h.
Proof.
  intros [_ [Hd Hi] Hl]%process_reachable_ok Hm Hm' Hc Hc'. pose proof (Hl n) as H1. pose proof (Hl n') as H2. rewrite Hc, Hm in H1.
  rewrite Hc', Hm' in H2. unfold traced_by in H1, H2. split; [intros Hn; unfold wanted in H1; by rewrite Hn in H1 |].
  assert (∀ x h, own_provider x = Some h → wanted x = Some h) as Hown.
  { intros x h. unfold own_provider, wanted, getPerFilterTracerConfig. destruct (mc_tracing x) as [tr|]; [| done]. cbn. by intros ->. }
  intros h h' Hh%Hown Hh'%Hown. rewrite Hh in H1. rewrite Hh' in H2.
  destruct H1 as (t & Ht & Hk), H2 as (t' & Ht' & Hk'). rewrite Ht, Ht'. split.
  - split; [intros [= ->]; by eapply Hi | intros He; congruence].
  - destruct (Hd _ _ Hk) as (made & d & ? & ? & ?). by exists t, made, d.
Qed.
End behaviour.

(** ** Witnesses: a listener that follows the control plane and one with a static route, both traced *)

Definition lw_V : ConfigEnv := {|
  Any := unit; Percent := Z; percent_uint32 := u32; percent_rounded p max_value := Return (p * max_value / 100);
  DefaultMaxPathTagLength := 256; Tracing_Http := Z; tracing_hash := λ h, h; Driver := Z; createTracerDriver := λ h, Return (h + 1);
  FilterFactoryCb := string; createFilterFactory name _ _ := Return name; empty_any := tt; CodecPtr := string;
  createCodecByName name _ := Return name; AccessLog := unit; AccessLogInstance := unit; accessLogFromProto := Return;
  rds_hash _ _ := 7; grpc_services_size _ := 1; direction := INBOUND; defaultTracingConfig := None; worker_threads := 2 |}.
Definition lw_tracing : @TracingProto lw_V := @Build_TracingProto lw_V None (Some 50) None false None (Some 9).
Definition lw_config (r : @RouteSpecifier dw_E dw_R lw_V) : @MetaProtocolProxyConfig dw_E dw_R lw_V :=
  @Build_MetaProtocolProxyConfig dw_E dw_R lw_V "listener" "demo" r (@Build_CodecConfig lw_V "codec" tt) [] (Some lw_tracing) [] None
    (@Build_ApplicationProtocolConfig lw_V "" None false).
Definition lw_rds : @MetaProtocolProxyConfig dw_E dw_R lw_V := lw_config (@kRds dw_E dw_R lw_V tt "routes").
Definition lw_static : @MetaProtocolProxyConfig dw_E dw_R lw_V := lw_config (@kRouteConfig dw_E dw_R lw_V dw_config).

Definition lw_event1 : @process_event dw_E dw_R lw_V := Listener_added 0 lw_rds.
Definition lw_event2 : @process_event dw_E dw_R lw_V := Listener_added 1 lw_static.
Definition lw_p1 : @Process dw_E dw_R lw_V := (@process_step dw_E dw_R dw_D lw_V lw_event1 new_Process).2.
Definition lw_p2 : @Process dw_E dw_R lw_V := (@process_step dw_E dw_R dw_D lw_V lw_event2 lw_p1).2.
Definition lw_ms : gmap nat (@MetaProtocolProxyConfig dw_E dw_R lw_V) := <[1%nat := lw_static]> (<[0%nat := lw_rds]> ∅).

Definition lw_has (p : @Process dw_E dw_R lw_V) (n : nat) : bool := if pr_configs p !! n is Some _ then true else false.
Lemma lw_listener p n : lw_has p n = true → ∃ c, pr_configs p !! n = Some c.
Proof. unfold lw_has. destruct (pr_configs p !! n) as [c|]; [by exists c | done]. Qed.
Lemma lw_free p n : lw_has p n = false → pr_configs p !! n = None.
Proof. unfold lw_has. by destruct (pr_configs p !! n). Qed.

Lemma step_returned {A B} (r : outcome A * B) : (if r.1 is Return _ then true else false) = true → ∃ a, r = (Return a, r.2).
Proof. destruct r as [[a| |] b]; cbn; [by exists a | done | done]. Qed.
Lemma lw_reachable : @process_reachable dw_E dw_R dw_D lw_V lw_ms lw_p2.
Proof.
  destruct (step_returned (@process_step dw_E dw_R dw_D lw_V lw_event1 new_Process)) as [a1 H1]; [vm_compute; reflexivity |].
  destruct (step_returned (@process_step dw_E dw_R dw_D lw_V lw_event2 lw_p1)) as [a2 H2]; [vm_compute; reflexivity |].
  apply (process_next (<[0%nat := lw_rds]> ∅) lw_p1 lw_event2 (Return a2) lw_p2); [| exact H2 | done |].
  - apply (process_next ∅ new_Process lw_event1 (Return a1) lw_p1); [constructor | exact H1 | done | by intros n c [= <- <-]].
  - intros n c [= <- <-]. apply lw_free. vm_compute. reflexivity.
Qed.

Lemma listener_routes_served_witness :
  ∃ c config, pr_configs lw_p2 !! 0%nat = Some c ∧
    ∀ m random, @ProxyConfigImpl_route dw_E dw_R lw_V lw_p2 1 c m random = Config_route config m random.
Proof.
  destruct (lw_listener lw_p2 0) as [c Hc]; [vm_compute; reflexivity |].
  destruct (proj1 (@listener_routes_served dw_E dw_R dw_D lw_V lw_ms lw_p2 lw_reachable) 0%nat c 1%nat Hc) as (config & Hr & _); [cbn; lia |].
  by exists c, config.
Defined.

Lemma listener_tracers_shared_witness :
  ∃ c c', pr_configs lw_p2 !! 0%nat = Some c ∧ pr_configs lw_p2 !! 1%nat = Some c' ∧ tracer_ c = tracer_ c'.
Proof.
  destruct (lw_listener lw_p2 0) as [c Hc]; [vm_compute; reflexivity |].
  destruct (lw_listener lw_p2 1) as [c' Hc']; [vm_compute; reflexivity |].
  exists c, c'. split; [done |]. split; [done |].
  apply (proj2 (@listener_tracers_shared dw_E dw_R dw_D lw_V lw_ms lw_p2 0 1 lw_rds lw_static c c' lw_reachable eq_refl eq_refl Hc Hc') 9 9);
    reflexivity.
Defined.
