(* ===== verification/Chain.v ===== *)
(** * The filter chain of a listener

    The filters of [filters/] that keep no state between messages, as programs over the
    callbacks of the connection manager: metadata exchange, statistics, the global rate
    limiter and, at the end, the router.  Each program reads the objects the filter is
    given, runs the operation of the component and then makes the calls that the component
    has recorded, in their order; no component reads what such a call changes.  The chain
    is an instance of [ProxyConfig], with the routes of a configuration of [Rds].  The
    local rate limiter shares its buckets between messages and connections, and is not
    among the filters. *)

From S2P Require Import Prelude Base64 Envoy Metadata Codec Decoder Network ConnManager UpstreamHandler Route RequestId Tracing UpstreamRequest Router Rds IstioStats GlobalRateLimit.

Section chain.
Context {E : Envoy} {C : CodecOps E} {N : NetworkOps} {V : RequestEnv} {R : RouteEnv E} {D : TracingDriver} {I : IstioEnv} {G : RateLimitEnv}.

(** A filter with its state: the metrics that the statistics filter has updated, the
    calls of the rate limiter, and the router once it has a message. *)
Inductive proxy_filter : Type :=
| PF_MetadataExchange (f : MetadataExchangeFilter)
| PF_Stats (f : StatsFilter) (updates : list metric)
| PF_RateLimit (f : RateLimit) (calls : list rl_call)
| PF_Router (r : option Router).

(** The configuration of a filter before the router, and the context of the factories:
    the node and the direction of the listener *)
Inductive filter_config : Type :=
| CFG_MetadataExchange
| CFG_IstioStats (destination_service : string)
| CFG_RateLimit (cfg : RateLimitConfig).
Record FactoryContext : Type := { node_metadata : option Struct; node_id : string; direction : TrafficDirection }.

(** What the functions of the factories create for a message.  The [IstioStats] of a
    listener is created once; it is a value, which no message changes. *)
Definition MetadataExchangeFilterConfig_create (context : FactoryContext) : proxy_filter :=
  PF_MetadataExchange (new_MetadataExchangeFilter (node_metadata context) (node_id context) (direction context)).
Definition StatsFilterConfig_create (context : FactoryContext) (destination_service : string) : proxy_filter :=
  let stats := new_IstioStats (node_metadata context) (direction context) in
  PF_Stats (new_StatsFilter (direction context) stats destination_service) [].
Definition RateLimitFilterConfig_create (cfg : RateLimitConfig) : proxy_filter := PF_RateLimit (new_RateLimit cfg) [].
Definition RouterFilterConfig_create : proxy_filter := PF_Router None.
Definition create_filter (context : FactoryContext) (cfg : filter_config) : proxy_filter :=
  match cfg with
  | CFG_MetadataExchange => MetadataExchangeFilterConfig_create context
  | CFG_IstioStats destination_service => StatsFilterConfig_create context destination_service
  | CFG_RateLimit cfg => RateLimitFilterConfig_create cfg
  end.

(** The context of the chain: what the router sees of its message besides the route, the
    stream information, and the configuration of the connection. *)
Class ChainEnv := {
  chain_router : RouterEnv;
  chain_stats_info : StatsInfo;
  (** the number of a connection in the connection manager *)
  chain_connection : connection → Z;
  chain_context : FactoryContext;
  chain_configs : list filter_config;
  chain_routes : Config;
  chain_protocol : string;
  chain_idle_timeout : option Z;
  chain_random : nat → Z;
  chain_cluster : string → bool;
  chain_pool : string → option (string * pool_start)
}.
Context {H : ChainEnv}.

Definition chain_filters : list proxy_filter := create_filter chain_context <$> chain_configs.

Definition router_env (route : option Route) : RouterEnv := {|
  cb_route := route;
  cb_tracingConfig := cb_tracingConfig (RouterEnv := chain_router);
  cb_streamInfo := cb_streamInfo (RouterEnv := chain_router);
  cb_multiplexing := cb_multiplexing (RouterEnv := chain_router);
  cb_getUpstreamHandler := cb_getUpstreamHandler (RouterEnv := chain_router);
  random_uuid := random_uuid (RouterEnv := chain_router);
  useRequestIdForTraceSampling := useRequestIdForTraceSampling (RouterEnv := chain_router);
  atoull_16 := atoull_16 (RouterEnv := chain_router);
  featureEnabledAny := featureEnabledAny (RouterEnv := chain_router);
  rand := rand (RouterEnv := chain_router)
|}.

(** ** Filters as programs *)

Abbreviation prog := (filter_prog Route).

Definition of_outcome {A} (o : outcome A) (k : A → prog (proxy_filter * FilterStatus)) : prog (proxy_filter * FilterStatus) :=
  match o with Return a => k a | Throw e => F_Throw e | Panic w => F_Panic w end.

Definition exchange_prog (f : MetadataExchangeFilter) (op : MetadataExchangeFilter → Mutation → FilterStatus * Mutation) :
    prog (proxy_filter * FilterStatus) :=
  F_Call CB_mutation (λ mutation,
    F_Call (CB_setMutation (op f mutation).2) (λ _, F_Return (PF_MetadataExchange f, (op f mutation).1))).

Definition stats_decoded_prog (f : StatsFilter) (updates : list metric) : prog (proxy_filter * FilterStatus) :=
  F_Call CB_metadata (λ m,
    let '(o, f) := sf_onMessageDecoded m f in
    of_outcome o (λ status, F_Return (PF_Stats f updates, status))).
Definition stats_encoded_prog (f : StatsFilter) (updates : list metric) : prog (proxy_filter * FilterStatus) :=
  F_Call CB_metadata (λ m,
    let '(o, f) := sf_onMessageEncoded m chain_stats_info f in
    of_outcome o (λ '(status, new), F_Return (PF_Stats f (updates ++ new), status))).

(** The calls of the rate limiter: the call of the service is no call of the connection
    manager. *)
Fixpoint make_rl_calls (calls : list rl_call) (k : prog (proxy_filter * FilterStatus)) : prog (proxy_filter * FilterStatus) :=
  match calls with
  | [] => k
  | RL_sendLocalReply error end_stream :: calls => F_Call (CB_sendLocalReply (AppException error) end_stream) (λ _, make_rl_calls calls k)
  | RL_ShouldRateLimit _ _ :: calls => make_rl_calls calls k
  end.
Definition limit_prog (f : RateLimit) (calls : list rl_call) : prog (proxy_filter * FilterStatus) :=
  F_Call CB_metadata (λ m,
    let '(o, calls') := RateLimit_onMessageDecoded f m calls in
    make_rl_calls (drop (length calls) calls') (of_outcome o (λ status, F_Return (PF_RateLimit f calls', status)))).

(** The calls of the router that are calls of the connection manager.  While a filter
    runs, [continueDecoding] would enter the chain again. *)
Fixpoint make_calls (calls : list call) (k : prog (proxy_filter * FilterStatus)) : prog (proxy_filter * FilterStatus) :=
  match calls with
  | [] => k
  | c :: calls =>
      let k := make_calls calls k in
      match c with
      | C_sendLocalReply response end_stream => F_Call (CB_sendLocalReply response end_stream) (λ _, k)
      | C_resetStream => F_Call CB_resetStream (λ _, k)
      | C_setUpstreamConnection (Some conn) => F_Call (CB_setUpstreamConnection (chain_connection conn)) (λ _, k)
      | C_setUpstreamConnection None => F_Panic "null upstream connection"
      | C_startUpstreamResponse => F_Call CB_startUpstreamResponse (λ _, k)
      | C_onUpstreamResponse => F_Call CB_onUpstreamResponse (λ _, k)
      | C_continueDecoding => F_Panic "continueDecoding inside the chain"
      | _ => k
      end
  end.
Definition router_decoded_prog : prog (proxy_filter * FilterStatus) :=
  F_Call CB_metadata (λ m,
  F_Call CB_mutation (λ mutation,
  F_Call CB_route (λ route,
    let '(o, r) := Router_onMessageDecoded (X := router_env route) (new_Router m mutation) in
    F_Call (CB_setMetadata (ro_request_metadata_ r)) (λ _,
    F_Call (CB_setMutation (ro_request_mutation r)) (λ _,
    make_calls (ro_calls r) (of_outcome o (λ status, F_Return (PF_Router (Some r), status)))))))).
Definition router_encoded_prog (r : Router) : prog (proxy_filter * FilterStatus) :=
  F_Call CB_metadata (λ m,
    let '(o, r') := Router_onMessageEncoded m r in
    make_calls (drop (length (ro_calls r)) (ro_calls r')) (of_outcome o (λ status, F_Return (PF_Router (Some r'), status)))).

Definition proxy_onMessageDecoded (f : proxy_filter) : prog (proxy_filter * FilterStatus) :=
  match f with
  | PF_MetadataExchange f => exchange_prog f mx_onMessageDecoded
  | PF_Stats f updates => stats_decoded_prog f updates
  | PF_RateLimit f calls => limit_prog f calls
  | PF_Router _ => router_decoded_prog
  end.
Definition proxy_onMessageEncoded (f : proxy_filter) : prog (proxy_filter * FilterStatus) :=
  match f with
  | PF_MetadataExchange f => exchange_prog f mx_onMessageEncoded
  | PF_Stats f updates => stats_encoded_prog f updates
  | PF_RateLimit f calls => F_Return (PF_RateLimit f calls, FilterStatus_ContinueIteration)
  | PF_Router (Some r) => router_encoded_prog r
  | PF_Router None => F_Return (PF_Router None, FilterStatus_ContinueIteration)
  end.

(** Every factory adds its filter with [addFilter]; the router is the last. *)
Definition chain_proxy : ProxyConfig E := {|
  filter := proxy_filter;
  route_t := Route;
  filter_onMessageDecoded := proxy_onMessageDecoded;
  filter_onMessageEncoded := proxy_onMessageEncoded;
  filterFactory := AddFilter <$> (chain_filters ++ [RouterFilterConfig_create]);
  routerConfig_route m random := Config_route chain_routes m random;
  applicationProtocol := chain_protocol;
  idleTimeout := chain_idle_timeout;
  random := chain_random;
  getThreadLocalCluster := chain_cluster;
  createTcpPoolData := chain_pool
|}.
End chain.
