(* ===== verification/ChainBehaviour.v ===== *)
(** * A request through the filter chain

    The connection manager runs the chain of [Chain] as the filters one after the other,
    each on what the one before has left.  With that, a request from its decoding to the
    bytes that the router writes, or to the reply that the client gets. *)

From S2P Require Import Prelude Base64 Envoy Metadata Codec Decoder Network ConnManager ConnFrames ConnInvariant ConnBehaviour UpstreamHandler Route RequestId Tracing UpstreamRequest Router RouterAccount RouterOutcome Rds IstioStats GlobalRateLimit Chain.

Section behaviour.
Context {E : Envoy} {C : CodecOps E} {N : NetworkOps} {V : RequestEnv} {R : RouteEnv E} {D : TracingDriver} {I : IstioEnv} {G : RateLimitEnv} {H : ChainEnv}.
#[local] Existing Instance chain_proxy.
Abbreviation ConnectionManager := (Host nat CM).
Implicit Types (h : ConnectionManager) (a : ActiveMessage) (m : MetadataImpl).

(** ** The chain as a function *)

(** What a filter before the router says of a request: it goes on with a mutation, or is
    refused with an error. *)
Inductive verdict : Type := Passed (mutation : Mutation) | Refused (error : Error).

Definition refusal (calls : list rl_call) : option Error :=
  last (omap (λ c, match c with RL_sendLocalReply e _ => Some e | _ => None end) calls).
Definition judge (f : proxy_filter) (m : MetadataImpl) (mutation : Mutation) : outcome (proxy_filter * verdict) :=
  match f with
  | PF_MetadataExchange f => Return (PF_MetadataExchange f, Passed (mx_onMessageDecoded f mutation).2)
  | PF_Stats f updates => let '(o, f) := sf_onMessageDecoded m f in _ ← o; Return (PF_Stats f updates, Passed mutation)
  | PF_RateLimit f calls =>
      let '(o, calls') := RateLimit_onMessageDecoded f m calls in
      _ ← o; Return (PF_RateLimit f calls', match refusal (drop (length calls) calls') with Some e => Refused e | None => Passed mutation end)
  | PF_Router _ => Panic "the router is the last filter"
  end.
Fixpoint judge_all (fs : list proxy_filter) (m : MetadataImpl) (mutation : Mutation) : outcome (list proxy_filter * verdict) :=
  match fs with
  | [] => Return ([], Passed mutation)
  | f :: fs =>
      '(f, v) ← judge f m mutation;
      match v with
      | Refused e => Return (f :: fs, Refused e)
      | Passed mutation => '(fs, v) ← judge_all fs m mutation; Return (f :: fs, v)
      end
  end.

(** ** Messages in the connection manager *)

Definition stored (mid : nat) a h : ConnectionManager := h <| h_world ::= λ c, c <| objects ::= <[mid := a]> |> |>.
Lemma put_put mid a a' h : stored mid a (stored mid a' h) = stored mid a h.
Proof. unfold stored, upd. cbn. by rewrite insert_insert_eq. Qed.
Lemma put_id mid a h : objects (h_world h) !! mid = Some a → stored mid a h = h.
Proof. intros Ha. unfold stored, upd. destruct h as [d k b [o n l df s st dn i u nh w de]]. cbn in *. by rewrite insert_id. Qed.
Lemma lookup_put mid a h : objects (h_world (stored mid a h)) !! mid = Some a.
Proof. cbn. apply lookup_insert_eq. Qed.
Lemma get_put mid a h : get_message mid (stored mid a h) = (Return a, stored mid a h).
Proof. by rewrite get_message_run, lookup_put. Qed.
Lemma on_put mid f a h : on_message mid f (stored mid a h) = (Return tt, stored mid (f a) h).
Proof. rewrite on_message_run, lookup_put. f_equal. apply put_put. Qed.

(** ** The filters before the router *)

Lemma limit_shape (f : RateLimit) m calls st calls' :
  RateLimit_onMessageDecoded f m calls = (Return st, calls') →
  ∃ new, calls' = calls ++ new ∧
    ((st = FilterStatus_ContinueIteration ∧ refusal new = None ∧ ∀ k, make_rl_calls new k = k) ∨
     (st = FilterStatus_AbortIteration ∧ ∃ e, refusal new = Some e ∧
        ∀ k, make_rl_calls new k = F_Call (CB_sendLocalReply (AppException e) false) (λ _, k))).
Proof.
  unfold RateLimit_onMessageDecoded, rl_abort. destruct (rl_getThreadLocalCluster _) as [chooseHost|].
  2: { rewrite run_bind. cbv [rl_made modify mret M_ret]. intros [= <- <-]. eexists. split; [done |]. right. split; [done |]. by eexists. }
  rewrite run_bind. cbn [gets id]. cbv beta iota. destruct (chooseHost calls) as [addr|].
  2: { rewrite run_bind. cbv [rl_made modify mret M_ret]. intros [= <- <-]. eexists. split; [done |]. right. split; [done |]. by eexists. }
  rewrite run_bind. destruct (should_rate_limit_run f addr m calls) as [[_ ->] | [_ Hr]].
  { cbv [mret M_ret]. intros [= <- <-]. exists []. rewrite app_nil_r. by split; [| left]. }
  destruct (add_descriptors m _) as [l| |]; [| by rewrite Hr..]. destruct Hr as (limit & -> & _). destruct limit.
  - cbv beta iota. rewrite run_bind. cbv [rl_made modify mret M_ret]. intros [= <- <-]. rewrite <- app_assoc. eexists. split; [done |].
    right. split; [done |]. by eexists.
  - cbv [mret M_ret]. intros [= <- <-]. eexists. split; [done |]. by left.
Qed.

Lemma exchange_status f mutation : (mx_onMessageDecoded f mutation).1 = FilterStatus_ContinueIteration.
Proof. done. Qed.
Lemma stats_status (f f' : StatsFilter) m st : sf_onMessageDecoded m f = (Return st, f') → st = FilterStatus_ContinueIteration.
Proof.
  unfold sf_onMessageDecoded. rewrite run_bind. cbn [gets id]. cbv beta iota. rewrite run_bind.
  destruct (if decide _ then _ else _) as [[?| |] ?]; by intros [= <- <-].
Qed.

(** The message when a filter has been called *)
Definition called (i : nat) (f : proxy_filter) a : ActiveMessage := a <| am_filters ::= <[i := f]> |>.
Definition mutated (mutation : Mutation) a : ActiveMessage := a <| am_mutation := mutation |>.
Lemma mutated_id a : mutated (am_mutation a) a = a.
Proof. by destruct a. Qed.

Lemma call_passes mid i a h f f' m mutation :
  am_metadata_ a = Some m → am_filters a !! i = Some (f : filter) → judge f m (am_mutation a) = Return (f', Passed mutation) →
  call_filter false mid i (stored mid a h) = (Return FilterStatus_ContinueIteration, stored mid (called i f' (mutated mutation a)) h).
Proof.
  intros Hm Hf. unfold call_filter. rewrite run_bind, get_put. cbv beta iota. rewrite Hf. cbn [filter_onMessageDecoded chain_proxy].
  rewrite run_bind. destruct f as [x|x u|x calls|]; cbn [judge proxy_onMessageDecoded]; [| | | done].
  - intros [= <- <-]. unfold exchange_prog. cbn [run_filter do_callback]. rewrite run_bind, run_bind, get_put. cbv [mret M_ret]. cbv beta iota.
    rewrite run_bind, on_put. cbv beta iota. rewrite run_bind, on_put. reflexivity.
  - destruct (sf_onMessageDecoded m x) as [[st| |] x'] eqn:Hx; cbn; try done. intros [= <- <-]. apply stats_status in Hx as Hst. subst st.
    unfold stats_decoded_prog. cbn [run_filter do_callback]. rewrite run_bind, run_bind, get_put. cbv beta iota.
    cbn [ConnManager.shared_metadata]. rewrite Hm. cbv [mret M_ret]. rewrite Hx. cbn [of_outcome run_filter]. cbv [mret M_ret].
    rewrite run_bind, on_put, mutated_id. reflexivity.
  - destruct (RateLimit_onMessageDecoded x m calls) as [[st| |] calls'] eqn:Hx; cbn; try done.
    destruct (limit_shape _ _ _ _ _ Hx) as (new & -> & Hcase). rewrite drop_app_length. destruct Hcase as [(-> & Hr & Hk) | (-> & e & Hr & Hk)];
      rewrite Hr; [| done]. intros [= <- <-].
    unfold limit_prog. cbn [run_filter do_callback]. rewrite run_bind, run_bind, get_put. cbv beta iota.
    cbn [ConnManager.shared_metadata]. rewrite Hm. cbv [mret M_ret]. rewrite Hx, drop_app_length, Hk. cbn [of_outcome run_filter]. cbv [mret M_ret].
    rewrite run_bind, on_put, mutated_id. reflexivity.
Qed.

Context {L : EnvoyLaws E} {NL : NetworkLaws N}.

(** [h1] is [h] after one reply with the bytes of [b]. *)
Definition answered (b : buffer) h h1 : Prop :=
  active_message_list_ (h_world h1) = active_message_list_ (h_world h) ∧ deferred (h_world h1) = deferred (h_world h) ∧
  conn_written (downstream (h_world h1)) = conn_written (downstream (h_world h)) ++ [(contents b, false)].
(** A reply can be written. *)
Definition can_answer m (e : Error) (b : buffer) h : Prop :=
  NoDup (active_message_list_ (h_world h)) ∧ conn_state (downstream (h_world h)) = Connection_Open ∧
  ∃ c, codec_onError m e (h_codec h, buf_new) = (Return tt, (c, b)).
Definition marked a : ActiveMessage := a <| am_local_response_sent_ := true |>.

Lemma reply_put mid a h m e b :
  am_metadata_ a = Some m → can_answer m e b h →
  ∃ h1, sendLocalReply mid (AppException e) false (stored mid a h) = (Return tt, stored mid (marked a) h1) ∧ answered b h h1.
Proof using L NL.
  intros Hm (Hnd & Ho & c & He).
  destruct (CM_sendLocalReply_run m e false (stored mid a h) c b Hnd Ho He) as (h1 & Hrun & (_ & _ & Hobj & _ & _ & Hrest) & Hw).
  unfold sendLocalReply. rewrite run_bind, get_put. cbv beta iota. rewrite Hm, run_bind, Hrun. cbv beta iota.
  rewrite on_message_run, Hobj, lookup_put. exists h1. split; [done |]. by destruct (Hrest eq_refl).
Qed.

Lemma call_refused mid i a h f f' m e b :
  am_metadata_ a = Some m → am_filters a !! i = Some (f : filter) → judge f m (am_mutation a) = Return (f', Refused e) → can_answer m e b h →
  ∃ h1, call_filter false mid i (stored mid a h) = (Return FilterStatus_AbortIteration, stored mid (called i f' (marked a)) h1) ∧ answered b h h1.
Proof using L NL.
  intros Hm Hf Hj Hb. destruct f as [x|x u|x calls|]; cbn [judge] in Hj; [done | | | done].
  { by destruct (sf_onMessageDecoded m x) as [[st| |] x']. }
  destruct (RateLimit_onMessageDecoded x m calls) as [[st| |] calls'] eqn:Hx; cbn in Hj; try done.
  destruct (limit_shape _ _ _ _ _ Hx) as (new & -> & Hcase). rewrite drop_app_length in Hj.
  destruct Hcase as [(-> & Hr & Hk) | (-> & e' & Hr & Hk)]; rewrite Hr in Hj; [done |]. injection Hj as <- <-.
  destruct (reply_put mid a h m e' b Hm Hb) as (h1 & Hrun & Ha). exists h1. split; [| done].
  unfold call_filter. rewrite run_bind, get_put. cbv beta iota. rewrite Hf. cbn [filter_onMessageDecoded chain_proxy proxy_onMessageDecoded].
  rewrite run_bind. unfold limit_prog. cbn [run_filter do_callback]. rewrite run_bind, run_bind, get_put. cbv beta iota.
  cbn [ConnManager.shared_metadata]. rewrite Hm. cbv [mret M_ret]. rewrite Hx, drop_app_length, Hk. cbn [run_filter do_callback].
  rewrite run_bind, Hrun. cbn [of_outcome run_filter]. cbv [mret M_ret]. rewrite run_bind, on_put. reflexivity.
Qed.

(** ** The chain *)

Definition with_filters (l : list proxy_filter) a : ActiveMessage := a <| am_filters := l |>.
Lemma called_at (pre post : list proxy_filter) f f' a :
  am_filters a = pre ++ f :: post → called (length pre) f' a = with_filters (pre ++ f' :: post) a.
Proof. intros Hf. unfold called, with_filters, upd. rewrite Hf. f_equal.
  pose proof (insert_app_r pre (f :: post) 0 f') as Hi. rewrite Nat.add_0_r in Hi. exact Hi.
Qed.
Lemma lookup_at (pre post : list proxy_filter) (f : proxy_filter) : (pre ++ f :: post) !! length pre = Some f.
Proof. by rewrite lookup_app_r, Nat.sub_diag. Qed.

Lemma apply_passed mid m (fs fs' pre post : list proxy_filter) mutation rest a h :
  am_metadata_ a = Some m → am_local_response_sent_ a = false → am_filters a = pre ++ fs ++ post →
  judge_all fs m (am_mutation a) = Return (fs', Passed mutation) →
  apply_filters false mid (seq (length pre) (length fs) ++ rest) (stored mid a h) =
  apply_filters false mid rest (stored mid (mutated mutation (with_filters (pre ++ fs' ++ post) a)) h).
Proof.
  revert pre a fs'. induction fs as [|f fs IH]; intros pre a fs' Hm Hs Hf; cbn [judge_all].
  { intros [= <- <-]. f_equal. f_equal. cbn [app] in *. destruct a. cbn in *. by subst. }
  destruct (judge f m (am_mutation a)) as [[f1 v]| |] eqn:Hj; cbn [mbind outcome_bind]; [| done | done]. destruct v as [mu1|]; [| done].
  destruct (judge_all fs m mu1) as [[fs1 v]| |] eqn:Hjs; cbn [mbind outcome_bind]; [| done | done]. intros [= <- ->].
  cbn [length seq app apply_filters]. assert (am_filters a !! length pre = Some (f : filter)) as Hl by (rewrite Hf; apply lookup_at).
  rewrite run_bind, (call_passes mid (length pre) a h f f1 m mu1 Hm Hl Hj). cbv beta iota. rewrite run_bind, get_put. cbv beta iota.
  assert (am_filters (mutated mu1 a) = pre ++ f :: fs ++ post) as Hf1 by exact Hf. rewrite (called_at pre (fs ++ post) f f1 _ Hf1).
  change (am_local_response_sent_ (with_filters _ (mutated mu1 a))) with (am_local_response_sent_ a). rewrite Hs, decide_False by (by intros []).
  specialize (IH (pre ++ [f1]) (with_filters (pre ++ f1 :: fs ++ post) (mutated mu1 a)) fs1 Hm Hs). rewrite length_app, Nat.add_1_r in IH.
  rewrite IH; [| by rewrite <- app_assoc | done]. do 2 f_equal. unfold with_filters, mutated. rewrite <- app_assoc. by destruct a.
Qed.

(** [a'] is the refused message. *)
Definition turned_down (l : list proxy_filter) m a a' : Prop :=
  am_filters a' = l ∧ am_metadata_ a' = Some m ∧ am_local_response_sent_ a' = true ∧ am_decoder_filters_ a' = am_decoder_filters_ a.

Lemma apply_refused mid m (fs fs' pre post : list proxy_filter) e b rest a h :
  am_metadata_ a = Some m → am_local_response_sent_ a = false → am_filters a = pre ++ fs ++ post →
  judge_all fs m (am_mutation a) = Return (fs', Refused e) → can_answer m e b h →
  ∃ h1 a', apply_filters false mid (seq (length pre) (length fs) ++ rest) (stored mid a h) = (Return None, stored mid a' h1) ∧
    turned_down (pre ++ fs' ++ post) m a a' ∧ answered b h h1.
Proof using L NL.
  revert pre a fs'. induction fs as [|f fs IH]; intros pre a fs' Hm Hs Hf; cbn [judge_all]; [done |].
  destruct (judge f m (am_mutation a)) as [[f1 v]| |] eqn:Hj; cbn [mbind outcome_bind]; [| done | done].
  assert (am_filters a !! length pre = Some (f : filter)) as Hl by (rewrite Hf; apply lookup_at). cbn [length seq app apply_filters].
  destruct v as [mu1|e'].
  - destruct (judge_all fs m mu1) as [[fs1 v]| |] eqn:Hjs; cbn [mbind outcome_bind]; [| done | done]. intros [= <- ->] Hb.
    rewrite run_bind, (call_passes mid (length pre) a h f f1 m mu1 Hm Hl Hj). cbv beta iota. rewrite run_bind, get_put. cbv beta iota.
    assert (am_filters (mutated mu1 a) = pre ++ f :: fs ++ post) as Hf1 by exact Hf. rewrite (called_at pre (fs ++ post) f f1 _ Hf1).
    change (am_local_response_sent_ (with_filters _ (mutated mu1 a))) with (am_local_response_sent_ a). rewrite Hs, decide_False by (by intros []).
    destruct (IH (pre ++ [f1]) (with_filters (pre ++ f1 :: fs ++ post) (mutated mu1 a)) fs1 Hm Hs) as (h1 & a' & Hrun & Ht & Hw);
      [by rewrite <- app_assoc | done | done |]. rewrite length_app, Nat.add_1_r in Hrun. exists h1, a'. split; [exact Hrun |].
    split; [| done]. rewrite <- app_assoc in Ht. exact Ht.
  - intros [= <- ->] Hb. destruct (call_refused mid (length pre) a h f f1 m e b Hm Hl Hj Hb) as (h1 & Hrun & Hw).
    rewrite run_bind, Hrun. cbv beta iota. rewrite run_bind, get_put. cbv beta iota. eexists h1, _. split; [reflexivity |]. split; [| done].
    assert (am_filters (marked a) = pre ++ f :: fs ++ post) as Hf1 by exact Hf. by rewrite (called_at pre (fs ++ post) f f1 _ Hf1).
Qed.

(** ** The router *)

(** A call that the connection manager does not see *)
Definition silent (c : call) : bool :=
  match c with
  | C_sendLocalReply _ _ | C_resetStream | C_setUpstreamConnection _ | C_startUpstreamResponse | C_onUpstreamResponse | C_continueDecoding => false
  | _ => true
  end.
Lemma make_silent_app calls rest k : forallb silent calls = true → make_calls (calls ++ rest) k = make_calls rest k.
Proof. induction calls as [|c l IH]; [done |]. cbn. intros [Hc Hl]%andb_true_iff. destruct c; cbn in Hc; try done; by apply IH. Qed.
Lemma make_silent calls k : forallb silent calls = true → make_calls calls k = k.
Proof. intros Hs. rewrite <- (app_nil_r calls). by rewrite (make_silent_app calls [] k Hs). Qed.
Lemma mirror_silent {X : RouterEnv} policies n copy mutation : forallb silent (mirror_calls policies n copy mutation) = true.
Proof.
  revert n. induction policies as [|p l IH]; intros n; cbn [mirror_calls]; [done |]. rewrite forallb_app, IH, andb_true_r.
  by destruct (shouldShadow _ _).
Qed.

(** The message when the router has run *)
Definition routed (route : option Route) (r : Router) a : ActiveMessage :=
  a <| am_cached_route_ := Some route |> <| am_metadata_ := Some (ro_request_metadata_ r) |> <| am_mutation := ro_request_mutation r |>.

Lemma route_put mid a h m route :
  am_cached_route_ a = None → am_metadata_ a = Some m → Config_route chain_routes m (am_stream_id_ a) = Return route →
  ConnManager.route mid (stored mid a h) = (Return route, stored mid (a <| am_cached_route_ := Some (route : option route_t) |>) h).
Proof.
  intros Hc Hm Hr. unfold ConnManager.route. rewrite run_bind, get_put. cbv beta iota. rewrite Hc, Hm. cbn [routerConfig_route chain_proxy].
  rewrite run_bind. cbn [lift]. rewrite Hr. cbv beta iota. rewrite run_bind, on_put. reflexivity.
Qed.

(** The router runs on the message; what follows are its calls. *)
Lemma router_runs mid i a h f0 m route o r :
  am_cached_route_ a = None → am_metadata_ a = Some m → am_filters a !! i = Some (PF_Router f0 : filter) →
  Config_route chain_routes m (am_stream_id_ a) = Return route →
  Router_onMessageDecoded (X := router_env route) (new_Router m (am_mutation a)) = (o, r) →
  call_filter false mid i (stored mid a h) =
    ('(f', status) ← run_filter false mid (make_calls (ro_calls r) (of_outcome o (λ status, F_Return (PF_Router (Some r), status))));
     _ ← on_message mid (λ a, called i f' a); mret status) (stored mid (routed route r a) h).
Proof.
  intros Hc Hm Hf Hr Hrun. unfold call_filter. rewrite run_bind, get_put. cbv beta iota. rewrite Hf.
  cbn [filter_onMessageDecoded chain_proxy proxy_onMessageDecoded]. rewrite run_bind. unfold router_decoded_prog. cbn [run_filter do_callback].
  rewrite run_bind, run_bind, get_put. cbv beta iota. cbn [ConnManager.shared_metadata]. rewrite Hm. cbv [mret M_ret]. rewrite run_bind, run_bind, get_put.
  cbv beta iota. rewrite run_bind, (route_put mid a h m route Hc Hm Hr). cbv beta iota. cbn [ConnManager.shared_mutation]. rewrite Hrun.
  cbn [run_filter do_callback]. rewrite run_bind, on_put. cbv beta iota. rewrite run_bind, on_put. cbv beta iota. reflexivity.
Qed.

Lemma router_goes_on mid i a h f0 m route status r :
  am_cached_route_ a = None → am_metadata_ a = Some m → am_filters a !! i = Some (PF_Router f0 : filter) →
  Config_route chain_routes m (am_stream_id_ a) = Return route →
  Router_onMessageDecoded (X := router_env route) (new_Router m (am_mutation a)) = (Return status, r) → forallb silent (ro_calls r) = true →
  call_filter false mid i (stored mid a h) = (Return status, stored mid (called i (PF_Router (Some r)) (routed route r a)) h).
Proof.
  intros Hc Hm Hf Hr Hrun Hs. rewrite (router_runs mid i a h f0 m route _ _ Hc Hm Hf Hr Hrun), (make_silent _ _ Hs).
  cbn [of_outcome run_filter]. rewrite run_bind. cbv [mret M_ret]. rewrite run_bind, on_put. reflexivity.
Qed.
Lemma router_rejects mid i a h f0 m route e detail r b :
  am_cached_route_ a = None → am_metadata_ a = Some m → am_filters a !! i = Some (PF_Router f0 : filter) →
  Config_route chain_routes m (am_stream_id_ a) = Return route →
  Router_onMessageDecoded (X := router_env route) (new_Router m (am_mutation a)) = (Return FilterStatus_AbortIteration, r) →
  ro_calls r = rejected e detail → can_answer (ro_request_metadata_ r) e b h →
  ∃ h1, call_filter false mid i (stored mid a h) =
    (Return FilterStatus_AbortIteration, stored mid (called i (PF_Router (Some r)) (marked (routed route r a))) h1) ∧ answered b h h1.
Proof using L NL.
  intros Hc Hm Hf Hr Hrun Hcs Hb. rewrite (router_runs mid i a h f0 m route _ _ Hc Hm Hf Hr Hrun), Hcs.
  destruct (reply_put mid (routed route r a) h (ro_request_metadata_ r) e b eq_refl Hb) as (h1 & Hrep & Ha). exists h1. split; [| done].
  cbn [rejected make_calls of_outcome run_filter do_callback]. rewrite run_bind, run_bind, Hrep. cbv [mret M_ret]. rewrite run_bind, on_put. reflexivity.
Qed.

(** The message is taken off the list and handed to deferred deletion. *)
Definition dropped (mid : nat) h : ConnectionManager :=
  h <| h_world ::= λ c, c <| active_message_list_ ::= List.filter (λ i, bool_decide (i ≠ mid)) |> <| deferred ::= λ l, l ++ [mid] |> |>.
Lemma dropped_off mid h : mid ∈ deferred (h_world (dropped mid h)) ∧ (mid ∉ active_message_list_ (h_world (dropped mid h))).
Proof.
  split; [apply elem_of_app; right; left |]. intros [_ Hf]%list_elem_of_In%List.filter_In. by apply bool_decide_eq_true_1 in Hf.
Qed.
Lemma delete_run mid h :
  deferredDeleteMessage mid h = (Return tt, if bool_decide (mid ∈ active_message_list_ (h_world h)) then dropped mid h else h).
Proof.
  unfold deferredDeleteMessage, get_cm. rewrite run_bind. cbn [gets]. cbv beta iota. by destruct (bool_decide (mid ∈ active_message_list_ (h_world h))).
Qed.

(** A router whose pool fails while it is asked: it replies and drops the message. *)
Lemma router_fails mid i a h f0 m route e pre post status r b :
  am_cached_route_ a = None → am_metadata_ a = Some m → am_filters a !! i = Some (PF_Router f0 : filter) →
  Config_route chain_routes m (am_stream_id_ a) = Return route →
  Router_onMessageDecoded (X := router_env route) (new_Router m (am_mutation a)) = (Return status, r) →
  ro_calls r = pre ++ [C_sendLocalReply (AppException e) false; C_resetStream] ++ post → forallb silent pre = true → forallb silent post = true →
  can_answer (ro_request_metadata_ r) e b h → mid ∈ active_message_list_ (h_world h) →
  ∃ h1, call_filter false mid i (stored mid a h) =
    (Return status, stored mid (called i (PF_Router (Some r)) (marked (routed route r a))) (dropped mid h1)) ∧ answered b h h1.
Proof using L NL.
  intros Hc Hm Hf Hr Hrun Hcs Hpre Hpost Hb Hin. rewrite (router_runs mid i a h f0 m route _ _ Hc Hm Hf Hr Hrun), Hcs, make_silent_app by done.
  destruct (reply_put mid (routed route r a) h (ro_request_metadata_ r) e b eq_refl Hb) as (h1 & Hrep & Ha). exists h1. split; [| done].
  cbn [app make_calls run_filter do_callback]. rewrite make_silent by done. rewrite run_bind, run_bind, Hrep. cbv beta iota.
  rewrite run_bind. unfold resetStream. rewrite delete_run, bool_decide_true by (change (mid ∈ active_message_list_ (h_world h1)); rewrite (proj1 Ha); exact Hin). cbv beta iota.
  change (dropped mid (stored mid ?x h1)) with (stored mid x (dropped mid h1)).
  cbn [of_outcome run_filter]. cbv [mret M_ret]. rewrite run_bind, on_put. reflexivity.
Qed.

Definition no_route (m : MetadataImpl) : Error :=
  {| error_type := ErrorType_RouteNotFound;
     error_message := "meta protocol router: no matched route for request '" +:+ pretty (request_id_ m) +:+ "'" |}.
Lemma unrouted_run m mutation :
  requests m →
  ∃ r, Router_onMessageDecoded (X := router_env None) (new_Router m mutation) = (Return FilterStatus_AbortIteration, r) ∧
    ro_upstream_request_ r = None ∧ ro_calls r = rejected (no_route m) "no_matched_route" ∧ ro_request_metadata_ r = m.
Proof.
  intros Ht. unfold Router_onMessageDecoded. rewrite run_bind. cbn [gets]. cbv beta iota. rewrite run_bind. unfold ASSERT.
  rewrite bool_decide_true by exact Ht. cbn [assert_that lift]. cbv beta iota. rewrite run_bind. cbn [modify cb_route router_env]. cbv beta iota.
  rewrite run_bind. cbn [gets]. cbv beta iota. rewrite reject_run. eexists. split; [reflexivity |]. done.
Qed.

(** ** A request from its decoding on *)

(** What a message is before its filters run *)
Definition untouched a b : Prop :=
  am_cached_route_ b = am_cached_route_ a ∧ am_local_response_sent_ b = am_local_response_sent_ a ∧ am_stream_id_ b = am_stream_id_ a.
Lemma add_filters (l : list proxy_filter) a :
  let a' := foldl add_entry a (AddFilter <$> (l : list filter)) in
  am_filters a' = am_filters a ++ (l : list filter) ∧ am_decoder_filters_ a' = am_decoder_filters_ a ++ seq (length (am_filters a)) (length l) ∧
  untouched a a'.
Proof.
  cbv zeta. revert a. induction l as [|f l IH]; intros a; cbn [fmap list_fmap foldl]; [by rewrite !app_nil_r |].
  destruct (IH (add_entry a (@AddFilter (@filter E chain_proxy) f))) as (-> & -> & Hu). cbn. rewrite length_app, Nat.add_1_r, <- !app_assoc.
  split; [done |]. split; [done |]. exact Hu.
Qed.
Lemma chain_created sid :
  let a := createFilterChain (new_ActiveMessage sid) in
  am_filters a = chain_filters ++ [PF_Router None] ∧ am_decoder_filters_ a = seq 0 (length chain_filters) ++ [length chain_filters] ∧
  untouched (new_ActiveMessage sid) a.
Proof.
  cbv zeta. unfold createFilterChain. destruct (add_filters (chain_filters ++ [PF_Router None]) (new_ActiveMessage sid)) as (Hf & Hd & Hu).
  split; [exact Hf |]. split; [| exact Hu]. etrans; [exact Hd |].
  cbn [new_ActiveMessage am_decoder_filters_ am_filters app length]. rewrite length_app. cbn [length]. by rewrite Nat.add_1_r, seq_S.
Qed.

(** The request is counted, and the message gets its metadata and its mutation. *)
Definition counted h : ConnectionManager := h <| h_world ::= λ c, c <| stats_ ::= stat_add request_decoding_success_ 1 |> |>.
Definition given m (mutation : Mutation) a : ActiveMessage :=
  a <| am_bytes_sent ::= λ n, u64 (n + getMessageSize m) |> <| am_metadata_ := Some (putString ApplicationProtocol chain_protocol m) |>
    <| am_filter_action_ := true |> <| am_mutation := mutation |>.
Definition finished (status : FilterStatus) (mid : nat) : M ConnectionManager unit :=
  match status with
  | FilterStatus_PauseIteration => on_message mid (λ a, a <| am_pending_stream_decoded_ := true |>)
  | FilterStatus_AbortIteration => deferredDeleteMessage mid
  | FilterStatus_ContinueIteration => maybeDeferredDeleteMessage mid
  | FilterStatus_Retry => panic "invalid filter status"
  end.

Lemma decoded_chain mid m mutation a h :
  objects (h_world h) !! mid = Some a → message_type_ m = MessageType_Request → am_local_response_sent_ a = false →
  onMessageDecoded mid m mutation h =
    (r ← apply_filters false mid (am_decoder_filters_ a);
     status ← match r with
              | Some status => mret status
              | None => _ ← on_message mid (λ a, a <| am_filter_action_ := false |>); mret FilterStatus_ContinueIteration
              end;
     finished status mid) (stored mid (given m mutation a) (counted h)).
Proof.
  intros Ha Ht Hs. unfold onMessageDecoded, stat_inc, on_cm. rewrite run_bind. cbn [modify]. cbv beta iota. fold (counted h).
  rewrite <- (put_id mid a (counted h)) by exact Ha. rewrite (put_put mid (given m mutation a) a), run_bind, on_put. cbv beta iota. rewrite run_bind.
  cbv zeta. unfold switch_message_type. change (message_type_ (putString ApplicationProtocol applicationProtocol m)) with (message_type_ m).
  rewrite Ht. cbv [mret M_ret]. rewrite run_bind, on_put. cbv beta iota. rewrite run_bind, on_put. cbv beta iota.
  match goal with |- context [stored mid ?x (counted h)] => change x with (given m mutation a) end. unfold applyDecoderFilters.
  rewrite !run_bind, get_put. cbv beta iota. rewrite run_bind. change (am_filter_action_ (given m mutation a)) with true.
  cbn [ASSERT assert_that lift]. cbv beta iota. rewrite run_bind.
  change (am_local_response_sent_ (given m mutation a)) with (am_local_response_sent_ a). rewrite Hs.
  change (drop (commonPrefix None CanStartFromCurrent) (am_decoder_filters_ (given m mutation a))) with (am_decoder_filters_ a).
  destruct (apply_filters false mid (am_decoder_filters_ a) _) as [[[st|]| |] h1]; reflexivity.
Qed.

Lemma new_Router_idle m mutation : idle (new_Router m mutation).
Proof. done. Qed.
Lemma judge_all_length fs m mutation fs' v : judge_all fs m mutation = Return (fs', v) → length fs' = length fs.
Proof.
  revert mutation fs'. induction fs as [|f fs IH]; intros mutation fs'; cbn [judge_all]; [by intros [= <- _] |].
  destruct (judge f m mutation) as [[f1 [mu1|e]]| |]; cbn [mbind outcome_bind]; [| by intros [= <- _] | done | done].
  destruct (judge_all fs m mu1) as [[fs1 v1]| |] eqn:Hj; cbn [mbind outcome_bind]; [| done | done]. intros [= <- ->]. cbn. by rewrite (IH _ _ Hj).
Qed.

(** The message is to be deleted, or it already is. *)
Definition pending_delete (mid : nat) h : Prop :=
  mid ∈ active_message_list_ (h_world h) ∨ (mid ∈ deferred (h_world h) ∧ (mid ∉ active_message_list_ (h_world h))).
Lemma pending_deleted mid h :
  pending_delete mid h →
  ∃ h', deferredDeleteMessage mid h = (Return tt, h') ∧ mid ∈ deferred (h_world h') ∧ (mid ∉ active_message_list_ (h_world h')) ∧
    objects (h_world h') = objects (h_world h) ∧ downstream (h_world h') = downstream (h_world h).
Proof.
  intros Hp. rewrite delete_run. destruct Hp as [Hin | [Hd Hin]].
  - rewrite bool_decide_true by done. exists (dropped mid h). destruct (dropped_off mid h). by split_and!.
  - rewrite bool_decide_false by done. by exists h.
Qed.

(** A message that has its reply is deleted at the end of the chain. *)
Lemma answered_end mid a h m :
  am_metadata_ a = Some m → am_local_response_sent_ a = true → pending_delete mid h →
  ∃ h', (status ← (_ ← on_message mid (λ a, a <| am_filter_action_ := false |>); mret FilterStatus_ContinueIteration); finished status mid) (stored mid a h)
          = (Return tt, h') ∧
    (∃ a', objects (h_world h') !! mid = Some a' ∧ am_filters a' = am_filters a) ∧ mid ∈ deferred (h_world h') ∧
    (mid ∉ active_message_list_ (h_world h')) ∧ conn_written (downstream (h_world h')) = conn_written (downstream (h_world h)).
Proof.
  intros Hm Hs Hin. rewrite run_bind, run_bind, on_put. cbv [mret M_ret]. cbn [finished].
  rewrite (maybeDeferredDelete_run mid _ _ m (lookup_put mid _ h)) by exact Hm. change (am_local_response_sent_ _) with (am_local_response_sent_ a) at 1.
  rewrite Hs. cbn [orb].
  match goal with |- context [deferredDeleteMessage mid ?x] => destruct (pending_deleted mid x) as (h' & -> & Hd & Ha & Ho & Hw); [exact Hin |] end.
  exists h'. split; [done |]. split; [| split_and!; [done | done |]].
  - rewrite Ho. cbn. rewrite lookup_insert_eq. by eexists.
  - by rewrite Hw.
Qed.

(** Why a request is refused, with the error of the reply and the metadata it is made for *)
Inductive refused_with m (mutation : Mutation) (sid : Z) : Error → MetadataImpl → Prop :=
| by_filter fs' e :
    judge_all chain_filters m mutation = Return (fs', Refused e) → refused_with m mutation sid e m
| without_route fs' mutation' :
    judge_all chain_filters m mutation = Return (fs', Passed mutation') → Config_route chain_routes m sid = Return None →
    refused_with m mutation sid (no_route m) m
| without_upstream fs' mutation' route r1 e detail :
    judge_all chain_filters m mutation = Return (fs', Passed mutation') → Config_route chain_routes m sid = Return (Some route) →
    identify_and_trace (X := router_env (Some route)) (clusterName route) (with_route (Some route) (new_Router m mutation')) = (Return tt, r1) →
    destination (clusterName route) = inl (e, detail) →
    refused_with m mutation sid e (ro_request_metadata_ r1)
| pool_overflow fs' mutation' route r1 host :
    judge_all chain_filters m mutation = Return (fs', Passed mutation') → Config_route chain_routes m sid = Return (Some route) →
    identify_and_trace (X := router_env (Some route)) (clusterName route) (with_route (Some route) (new_Router m mutation')) = (Return tt, r1) →
    requests (ro_request_metadata_ r1) → destination (clusterName route) = inr (NC_Failure Overflow host) →
    refused_with m mutation sid {| error_type := ErrorType_Unspecified; error_message := reset_message Overflow host |}
      ((ro_request_metadata_ r1) <| origin_message_ := (buf_move_all buf_new (origin_message_ (ro_request_metadata_ r1))).2 |>).

(** The last filter, the router, has no connection to an upstream. *)
Definition nothing_sent a : Prop :=
  ∃ o : option Router, last (am_filters a) = Some (PF_Router o : filter) ∧ ∀ r, o = Some r → conn_of r = None.
(** The message is refused: the client has one more reply, and the message will be deleted. *)
Definition refused_run (mid : nat) a0 (b : buffer) h h0 : Prop :=
  ∃ h1 a', apply_filters false mid (am_decoder_filters_ a0) h0 = (Return None, stored mid a' h1) ∧
    is_Some (am_metadata_ a') ∧ am_local_response_sent_ a' = true ∧ nothing_sent a' ∧ pending_delete mid h1 ∧
    conn_written (downstream (h_world h1)) = conn_written (downstream (h_world h)) ++ [(contents b, false)].

Lemma answered_run mid b h h1 : mid ∈ active_message_list_ (h_world h) → answered b h h1 → pending_delete mid h1.
Proof. intros Hin (Hal & _). left. by rewrite Hal. Qed.

(** A router that answers the client, after the other filters *)
Lemma chain_answers mid m mutation sid fs' mutation' route r status b h :
  let m' := putString ApplicationProtocol chain_protocol m in
  judge_all chain_filters m' mutation = Return (fs', Passed mutation') → Config_route chain_routes m' sid = Return route → conn_of r = None →
  let a := createFilterChain (new_ActiveMessage sid) in
  (∀ i a1, am_cached_route_ a1 = None → am_metadata_ a1 = Some m' → am_filters a1 !! i = Some (PF_Router None : filter) →
     Config_route chain_routes m' (am_stream_id_ a1) = Return route → am_mutation a1 = mutation' →
     ∃ h2, call_filter false mid i (stored mid a1 (counted h)) = (Return status, stored mid (called i (PF_Router (Some r)) (marked (routed route r a1))) h2) ∧
       pending_delete mid h2 ∧ conn_written (downstream (h_world h2)) = conn_written (downstream (h_world h)) ++ [(contents b, false)]) →
  refused_run mid a b h (stored mid (given m mutation a) (counted h)).
Proof.
  intros m' Hj Hr Hq a Hcall. destruct (chain_created sid) as (Hf & Hd & Hc & Hs & Hid). fold a in Hf, Hd, Hc, Hs, Hid. unfold refused_run. rewrite Hd.
  pose proof (judge_all_length _ _ _ _ _ Hj) as Hlen.
  rewrite (apply_passed mid m' chain_filters fs' [] [PF_Router None] mutation' _ (given m mutation a)) by done. cbn [app apply_filters].
  set (a1 := mutated mutation' (with_filters (fs' ++ [PF_Router None]) (given m mutation a))).
  destruct (Hcall (length chain_filters) a1) as (h2 & Hrun & Hp & Hw); [exact Hc | done | | rewrite <- Hr; f_equal; exact Hid | done |].
  { rewrite <- Hlen. exact (lookup_at fs' [] (PF_Router None)). }
  rewrite run_bind, Hrun. cbv beta iota. rewrite run_bind, get_put. cbv beta iota. eexists h2, _. split; [reflexivity |].
  split; [by eexists |]. split; [done |]. split; [| done]. exists (Some r). split; [| by intros r0 [= <-]].
  rewrite <- Hlen, (called_at fs' [] (PF_Router None) (PF_Router (Some r)) (marked (routed route r a1)) eq_refl). exact (last_app_cons fs' [] (PF_Router (Some r))).
Qed.

(** Every refusal ends in one reply. *)
Lemma refused_runs mid m m' mutation sid e b h :
  mid ∈ active_message_list_ (h_world h) → message_type_ m = MessageType_Request → cb_multiplexing (RouterEnv := chain_router) = false →
  refused_with (putString ApplicationProtocol chain_protocol m) mutation sid e m' → can_answer m' e b h →
  let a := createFilterChain (new_ActiveMessage sid) in refused_run mid a b h (stored mid (given m mutation a) (counted h)).
Proof using L NL.
  intros Hin Ht Hmux Hre Hb a. assert (requests (putString ApplicationProtocol chain_protocol m)) as Hrq by (left; exact Ht).
  destruct Hre as [fs' e Hj | fs' mutation' Hj Hr | fs' mutation' route r1 e detail Hj Hr Hi Hdest | fs' mutation' route r1 host Hj Hr Hi Ht1 Hdest].
  - destruct (chain_created sid) as (Hf & Hd & Hc & Hs & Hid). fold a in Hf, Hd, Hc, Hs, Hid.
    destruct (apply_refused mid (putString ApplicationProtocol chain_protocol m) chain_filters fs' [] [PF_Router None] e b [length chain_filters]
      (given m mutation a) (counted h) eq_refl Hs Hf Hj Hb) as (h1 & a' & Hrun & (Hf' & Hm' & Hs' & _) & Hans).
    unfold refused_run. rewrite Hd. exists h1, a'. split; [exact Hrun |]. split; [by eexists |]. split; [done |].
    split; [| split; [exact (answered_run mid b (counted h) h1 Hin Hans) | by destruct Hans as (_ & _ & Hw)]].
    exists None. split; [| done]. rewrite Hf'. exact (last_app_cons fs' [] (PF_Router None)).
  - destruct (unrouted_run _ mutation' Hrq) as (r & Hrun & Hq & Hcs & Hm). rewrite <- Hm in Hb at 1.
    apply (chain_answers mid m mutation sid fs' mutation' None r FilterStatus_AbortIteration b h Hj Hr); [unfold conn_of; by rewrite Hq |].
    intros i a1 Hc1 Hm1 Hf1 Hr1 <-. destruct (router_rejects mid i a1 (counted h) None _ None _ _ r b Hc1 Hm1 Hf1 Hr1 Hrun Hcs Hb) as (h1 & Hcall & Hans).
    exists h1. split; [exact Hcall |]. split; [exact (answered_run mid b (counted h) h1 Hin Hans) | by destruct Hans as (_ & _ & Hw)].
  - destruct (routed_refused (X := router_env (Some route)) route _ r1 eq_refl Hmux (new_Router_idle _ _) Hrq Hi e detail Hdest)
      as (r & Hrun & Hq & Hcs & Hm). rewrite <- Hm in Hb.
    apply (chain_answers mid m mutation sid fs' mutation' (Some route) r FilterStatus_AbortIteration b h Hj Hr); [unfold conn_of; by rewrite Hq |].
    intros i a1 Hc1 Hm1 Hf1 Hr1 <-. destruct (router_rejects mid i a1 (counted h) None _ (Some route) _ _ r b Hc1 Hm1 Hf1 Hr1 Hrun Hcs Hb) as (h1 & Hcall & Hans).
    exists h1. split; [exact Hcall |]. split; [exact (answered_run mid b (counted h) h1 Hin Hans) | by destruct Hans as (_ & _ & Hw)].
  - destruct (routed_failed (X := router_env (Some route)) route _ r1 eq_refl Hmux (new_Router_idle _ _) Hrq Ht1 Hi Overflow host Hdest)
      as (r & Hrun & Hq & Hcs & Hm). rewrite <- Hm in Hb.
    apply (chain_answers mid m mutation sid fs' mutation' (Some route) r FilterStatus_ContinueIteration b h Hj Hr Hq).
    intros i a1 Hc1 Hm1 Hf1 Hr1 <-.
    destruct (router_fails mid i a1 (counted h) None _ (Some route) _ (outset (clusterName route) ++ [C_hostSelected host]) _ _ r b Hc1 Hm1 Hf1 Hr1 Hrun Hcs)
      as (h1 & Hcall & Hans); [done | apply mirror_silent | exact Hb | exact Hin |].
    exists (dropped mid h1). split; [exact Hcall |]. split; [right; apply dropped_off |]. by destruct Hans as (_ & _ & Hw).
Qed.

(** C5: A request that is refused, from its decoding to the reply: whether a filter of the chain refuses it (the global rate
    limiter), no route matches it, its cluster is unknown, in maintenance or without a healthy host, or the pool has too
    many connections, the client gets exactly one reply, the one that the codec makes of the error; the message is taken
    off the list and handed to deferred deletion; and the router holds no connection to an upstream. *)
Theorem request_refused_once (mid : nat) (h : ConnectionManager) (m m' : MetadataImpl) (mutation : Mutation) (sid : Z) (e : Error) (b : buffer) :
  objects (h_world h) !! mid = Some (createFilterChain (new_ActiveMessage sid)) → mid ∈ active_message_list_ (h_world h) →
  message_type_ m = MessageType_Request → cb_multiplexing (RouterEnv := chain_router) = false →
  refused_with (putString ApplicationProtocol chain_protocol m) mutation sid e m' → can_answer m' e b h →
  ∃ h', onMessageDecoded mid m mutation h = (Return tt, h') ∧
    conn_written (downstream (h_world h')) = conn_written (downstream (h_world h)) ++ [(contents b, false)] ∧
    mid ∈ deferred (h_world h') ∧ (mid ∉ active_message_list_ (h_world h')) ∧
    ∃ a', objects (h_world h') !! mid = Some a' ∧ nothing_sent a'.
Proof using L NL.
  intros Ha Hin Ht Hmux Hre Hb. destruct (chain_created sid) as (_ & _ & _ & Hs & _).
  destruct (refused_runs mid m m' mutation sid e b h Hin Ht Hmux Hre Hb) as (h1 & a' & Hap & [m1 Hm1] & Hs1 & Hns & Hp & Hw).
  destruct (answered_end mid a' h1 m1 Hm1 Hs1 Hp) as (h' & Hend & (a2 & Ha2 & Hf2) & Hde & Hac & Hwr).
  exists h'. rewrite (decoded_chain mid m mutation _ h Ha Ht Hs), run_bind, Hap. split; [exact Hend |]. rewrite Hwr, Hw.
  split; [done |]. split; [done |]. split; [done |]. exists a2. split; [done |]. unfold nothing_sent. by rewrite Hf2.
Qed.

(** A router that takes the request, after the other filters *)
Lemma chain_accepted mid m mutation sid fs' mutation' route r status h :
  objects (h_world h) !! mid = Some (createFilterChain (new_ActiveMessage sid)) →
  let m' := putString ApplicationProtocol chain_protocol m in
  judge_all chain_filters m' mutation = Return (fs', Passed mutation') → Config_route chain_routes m' sid = Return route →
  Router_onMessageDecoded (X := router_env route) (new_Router m' mutation') = (Return status, r) → forallb silent (ro_calls r) = true →
  let a := createFilterChain (new_ActiveMessage sid) in
  ∃ a', apply_filters false mid (am_decoder_filters_ a) (stored mid (given m mutation a) (counted h)) =
      (Return (if decide (status = FilterStatus_ContinueIteration) then None else Some status), stored mid a' (counted h)) ∧
    am_metadata_ a' = Some (ro_request_metadata_ r) ∧ am_local_response_sent_ a' = false ∧ am_filters a' = fs' ++ [PF_Router (Some r)] ∧
    am_mutation a' = ro_request_mutation r ∧ am_filter_action_ a' = true ∧ am_decoder_filters_ a' = am_decoder_filters_ a.
Proof.
  intros Ha m' Hj Hr Hrun Hsil a. destruct (chain_created sid) as (Hf & Hd & Hc & Hs & Hid). fold a in Hf, Hd, Hc, Hs, Hid. rewrite Hd.
  pose proof (judge_all_length _ _ _ _ _ Hj) as Hlen.
  rewrite (apply_passed mid m' chain_filters fs' [] [PF_Router None] mutation' _ (given m mutation a)) by done. cbn [app apply_filters].
  set (a1 := mutated mutation' (with_filters (fs' ++ [PF_Router None]) (given m mutation a))).
  assert (am_filters a1 !! length chain_filters = Some (PF_Router None : filter)) as Hl by (rewrite <- Hlen; exact (lookup_at fs' [] (PF_Router None))).
  assert (Config_route chain_routes m' (am_stream_id_ a1) = Return route) as Hr1 by (rewrite <- Hr; f_equal; exact Hid).
  rewrite run_bind, (router_goes_on mid (length chain_filters) a1 (counted h) None m' route status r Hc eq_refl Hl Hr1 Hrun Hsil). cbv beta iota.
  rewrite run_bind, get_put. cbv beta iota. rewrite <- Hlen.
  rewrite (called_at fs' [] (PF_Router None) (PF_Router (Some r)) (routed route r a1) eq_refl).
  change (am_local_response_sent_ (with_filters _ (routed route r a1))) with (am_local_response_sent_ a). rewrite Hs.
  cbn [new_ActiveMessage am_local_response_sent_]. exists (with_filters (fs' ++ [PF_Router (Some r)]) (routed route r a1)).
  split; [| split_and!; [done | done | done | done | done | rewrite Hlen; exact Hd]]. destruct (decide (status = FilterStatus_ContinueIteration)) as [-> | Hne].
  - rewrite decide_False by (by intros []). reflexivity.
  - rewrite decide_True by done. reflexivity.
Qed.

(** A request that waits for its connection: the message and its router *)
Record waiting (sid : Z) (fs' : list proxy_filter) (route : Route) (r1 : Router) (handle : Z) a (r : Router) : Prop := {
  wa_filters : am_filters a = fs' ++ [PF_Router (Some r)];
  wa_decoders : am_decoder_filters_ a = seq 0 (length fs') ++ [length fs'];
  wa_metadata : am_metadata_ a = Some (ro_request_metadata_ r);
  wa_mutation : am_mutation a = ro_request_mutation r;
  wa_action : am_filter_action_ a = true;
  wa_pending : am_pending_stream_decoded_ a = true;
  wa_unanswered : am_local_response_sent_ a = false;
  wa_router_metadata : ro_request_metadata_ r =
    (ro_request_metadata_ r1) <| origin_message_ := (buf_move_all buf_new (origin_message_ (ro_request_metadata_ r1))).2 |>;
  wa_router_mutation : ro_request_mutation r = requestMutation route (ro_request_mutation r1);
  wa_request : ro_upstream_request_ r =
    Some ((new_request (NC_Pending handle) (buf_move_all buf_new (origin_message_ (ro_request_metadata_ r1))).1) <| ur_conn_pool_handle_ := Some handle |>)
}.
Lemma request_waits mid h m mutation mutation' sid fs' route r1 handle :
  objects (h_world h) !! mid = Some (createFilterChain (new_ActiveMessage sid)) → message_type_ m = MessageType_Request →
  cb_multiplexing (RouterEnv := chain_router) = false →
  let m' := putString ApplicationProtocol chain_protocol m in
  judge_all chain_filters m' mutation = Return (fs', Passed mutation') → Config_route chain_routes m' sid = Return (Some route) →
  identify_and_trace (X := router_env (Some route)) (clusterName route) (with_route (Some route) (new_Router m' mutation')) = (Return tt, r1) →
  destination (clusterName route) = inr (NC_Pending handle) →
  ∃ a r, onMessageDecoded mid m mutation h = (Return tt, stored mid a (counted h)) ∧ waiting sid fs' route r1 handle a r.
Proof.
  intros Ha Ht Hmux m' Hj Hr Hi Hd. assert (requests m') as Hrq by (left; exact Ht). destruct (chain_created sid) as (_ & Hds & _ & Hs & _).
  destruct (routed_waits (X := router_env (Some route)) route _ r1 eq_refl Hmux (new_Router_idle m' mutation') Hrq Hi handle Hd)
    as (r & Hrun & Hq & Hm & Hmut & Hcs).
  destruct (chain_accepted mid m mutation sid fs' mutation' (Some route) r _ h Ha Hj Hr Hrun) as (a' & Hap & Hm' & Hs' & Hf' & Hmu' & Hfa' & Hd').
  { rewrite Hcs, forallb_app. apply mirror_silent. }
  rewrite (decoded_chain mid m mutation _ h Ha Ht Hs), run_bind, Hap. rewrite decide_False by done. cbv beta iota.
  rewrite run_bind. cbv [mret M_ret]. cbn [finished]. rewrite on_put. eexists _, r. split; [reflexivity |].
  split; [exact Hf' | | exact Hm' | exact Hmu' | exact Hfa' | done | exact Hs' | exact Hm | exact Hmut | exact Hq].
  rewrite (judge_all_length _ _ _ _ _ Hj). cbn. by rewrite Hd', Hds.
Qed.

(** C4: A request that is sent, from its decoding to the upstream. When every filter of the chain lets it pass, a route of the
    current configuration matches it and its cluster has a connection, then the bytes that the codec makes of the client's
    message, with the mutations of all filters and of the route in the metadata and the address of the upstream, are written
    once to that connection, and the client is written nothing. The message stays alive for its response. *)
Theorem request_sent_once (mid : nat) (h : ConnectionManager) (m : MetadataImpl) (mutation mutation' : Mutation) (sid : Z)
    (fs' : list proxy_filter) (route : Route) (r1 : Router) (conn : connection) (host : string) (data : bytes) :
  objects (h_world h) !! mid = Some (createFilterChain (new_ActiveMessage sid)) → message_type_ m = MessageType_Request →
  cb_multiplexing (RouterEnv := chain_router) = false →
  let m' := putString ApplicationProtocol chain_protocol m in
  judge_all chain_filters m' mutation = Return (fs', Passed mutation') → Config_route chain_routes m' sid = Return (Some route) →
  identify_and_trace (X := router_env (Some route)) (clusterName route) (with_route (Some route) (new_Router m' mutation')) = (Return tt, r1) →
  message_type_ (ro_request_metadata_ r1) = MessageType_Request → destination (clusterName route) = inr (NC_Ready conn host) →
  let '(message, rest) := buf_move_all buf_new (origin_message_ (ro_request_metadata_ r1)) in
  encodes (addressed conn ((ro_request_metadata_ r1) <| origin_message_ := rest |>)) (requestMutation route (ro_request_mutation r1)) message data →
  ∃ h' a' r', onMessageDecoded mid m mutation h = (Return tt, h') ∧ objects (h_world h') !! mid = Some a' ∧
    am_filters a' = fs' ++ [PF_Router (Some r')] ∧ conn_of r' = Some (conn_write conn data false) ∧ am_local_response_sent_ a' = false ∧
    downstream (h_world h') = downstream (h_world h) ∧ active_message_list_ (h_world h') = active_message_list_ (h_world h) ∧
    deferred (h_world h') = deferred (h_world h).
Proof.
  intros Ha Ht Hmux m' Hj Hr Hi Ht1 Hd. rewrite (surjective_pairing (buf_move_all _ _)). intros He.
  assert (requests m') as Hrq by (left; exact Ht). assert (requests (ro_request_metadata_ r1)) as Hrq1 by (by left).
  destruct (chain_created sid) as (_ & _ & _ & Hs & _). pose proof (new_Router_idle m' mutation') as Hidle.
  destruct (routed_sent (X := router_env (Some route)) route _ r1 eq_refl Hmux Hidle Hrq Hrq1 Hi conn host data Hd He) as (r' & Hrun & Hq & Hcs & Hm).
  destruct (chain_accepted mid m mutation sid fs' mutation' (Some route) r' _ h Ha Hj Hr Hrun) as (a' & Hap & Hm' & Hs' & Hf' & _).
  { rewrite Hcs, !forallb_app, mirror_silent. unfold streams. by rewrite bool_decide_false by (rewrite Ht1; done). }
  rewrite (decoded_chain mid m mutation _ h Ha Ht Hs), run_bind, Hap. rewrite decide_True by done. cbv beta iota.
  rewrite run_bind, run_bind, on_put. cbv [mret M_ret]. cbn [finished].
  rewrite (maybeDeferredDelete_run mid _ _ (ro_request_metadata_ r') (lookup_put mid _ _)) by exact Hm'.
  change (am_local_response_sent_ _) with (am_local_response_sent_ a') at 1. rewrite Hs'.
  assert (message_type_ (ro_request_metadata_ r') = MessageType_Request) as Hmt by (rewrite Hm; exact Ht1). rewrite Hmt. cbn [orb one_way]. cbv [mret M_ret].
  eexists _, _, r'. split; [reflexivity |]. split; [cbn; apply lookup_insert_eq |]. split; [exact Hf' |].
  split; [| done]. unfold conn_of. rewrite Hq. unfold streams. by rewrite bool_decide_false by (rewrite Ht1; done).
Qed.
End behaviour.
