(* ===== verification/ChainResponse.v ===== *)
(** * A response through the filter chain

    The encoder half of [ChainBehaviour]: the filters see the response in their order, and
    the client gets it with the mutations they have made. *)

From S2P Require Import Prelude Base64 Envoy Metadata Codec Decoder Network ConnManager ConnFrames ConnInvariant ConnBehaviour UpstreamHandler Route RequestId Tracing UpstreamRequest Router RouterAccount RouterOutcome Rds IstioStats GlobalRateLimit Chain ChainBehaviour.

Section response.
Context {E : Envoy} {C : CodecOps E} {N : NetworkOps} {V : RequestEnv} {R : RouteEnv E} {D : TracingDriver} {I : IstioEnv} {G : RateLimitEnv} {H : ChainEnv}.
#[local] Existing Instance chain_proxy.
Abbreviation ConnectionManager := (Host nat CM).
Implicit Types (h : ConnectionManager) (a : ActiveMessage) (m : MetadataImpl).

(** ** The encoder filters as a function *)

Definition respond (f : proxy_filter) m (mutation : Mutation) : outcome (proxy_filter * Mutation) :=
  match f with
  | PF_MetadataExchange f => Return (PF_MetadataExchange f, (mx_onMessageEncoded f mutation).2)
  | PF_Stats f updates =>
      let '(o, f) := sf_onMessageEncoded m chain_stats_info f in '(_, new) ← o; Return (PF_Stats f (updates ++ new), mutation)
  | PF_RateLimit f calls => Return (PF_RateLimit f calls, mutation)
  | PF_Router None => Return (PF_Router None, mutation)
  | PF_Router (Some r) => let '(o, r) := Router_onMessageEncoded m r in _ ← o; Return (PF_Router (Some r), mutation)
  end.
Fixpoint respond_all (fs : list proxy_filter) m (mutation : Mutation) : outcome (list proxy_filter * Mutation) :=
  match fs with
  | [] => Return ([], mutation)
  | f :: fs =>
      '(f, mutation) ← respond f m mutation;
      '(fs, mutation) ← respond_all fs m mutation;
      Return (f :: fs, mutation)
  end.

Definition with_response (rd : ActiveResponseDecoder) a : ActiveMessage := a <| am_response_decoder_ := Some rd |>.
Definition rewritten (mutation : Mutation) (rd : ActiveResponseDecoder) : ActiveResponseDecoder := rd <| rd_mutation := mutation |>.
Lemma rewritten_id rd : rewritten (rd_mutation rd) rd = rd.
Proof. by destruct rd. Qed.
Lemma with_response_id rd a : am_response_decoder_ a = Some rd → with_response rd a = a.
Proof. intros Hr. destruct a. cbn in Hr. by subst. Qed.

Lemma set_response_mutation mutation rd a :
  am_response_decoder_ a = Some rd → ConnManager.set_shared_mutation true mutation a = with_response (rewritten mutation rd) a.
Proof. intros Hr. destruct a. cbn in Hr. by subst. Qed.

Lemma stats_encoded_status (f f' : StatsFilter) m info st new :
  sf_onMessageEncoded m info f = (Return (st, new), f') → st = FilterStatus_ContinueIteration.
Proof.
  unfold sf_onMessageEncoded. rewrite run_bind. cbn [gets id]. cbv beta iota. rewrite run_bind.
  destruct (if decide _ then _ else _) as [[?| |] ?]; [| done | done]. rewrite run_bind. cbn [gets id]. cbv beta iota. by intros [= <- <- <-].
Qed.
(** What the router records of a response is for the host of the upstream only. *)
Lemma router_encoded (r r' : Router) m st :
  Router_onMessageEncoded m r = (Return st, r') →
  st = FilterStatus_ContinueIteration ∧ ∃ new, ro_calls r' = ro_calls r ++ new ∧ forallb silent new = true.
Proof.
  unfold Router_onMessageEncoded. rewrite run_bind. cbn [gets]. cbv beta iota. destruct (ro_upstream_request_ r) as [q|].
  2: { cbv [mret M_ret]. intros [= <- <-]. split; [done |]. exists []. by rewrite app_nil_r. }
  rewrite run_bind. cbn [modify]. cbv beta iota zeta. rewrite run_bind.
  destruct (response_status_ m); [case_decide |]; (destruct (ur_upstream_host_ q) as [host|]; [| done]); cbv [made modify mret M_ret];
    intros [= <- <-]; (split; [done |]); eexists; (split; [reflexivity | done]).
Qed.

Lemma call_responds mid i a h f f' m rd mutation :
  am_response_decoder_ a = Some rd → rd_metadata_ rd = Some m → am_filters a !! i = Some (f : filter) →
  respond f m (rd_mutation rd) = Return (f', mutation) →
  call_filter true mid i (stored mid a h) =
    (Return FilterStatus_ContinueIteration, stored mid (called i f' (with_response (rewritten mutation rd) a)) h).
Proof.
  intros Hrd Hm Hf. unfold call_filter. rewrite run_bind, get_put. cbv beta iota. rewrite Hf. cbn [filter_onMessageEncoded chain_proxy].
  rewrite run_bind.
  assert (ConnManager.shared_metadata true a = Some m) as Hsm by (cbn; by rewrite Hrd).
  assert (with_response (rewritten (rd_mutation rd) rd) a = a) as Hsame by (rewrite rewritten_id; by apply with_response_id).
  destruct f as [x|x u|x calls|[r|]]; cbn [respond proxy_onMessageEncoded].
  - intros [= <- <-]. unfold exchange_prog. cbn [run_filter do_callback]. rewrite run_bind, run_bind, get_put. cbv [mret M_ret]. cbv beta iota.
    assert (ConnManager.shared_mutation true a = rd_mutation rd) as Hmu by (cbn; by rewrite Hrd). rewrite Hmu.
    rewrite run_bind, on_put, (set_response_mutation _ rd a Hrd). cbv beta iota. rewrite run_bind, on_put. reflexivity.
  - destruct (sf_onMessageEncoded m chain_stats_info x) as [[[st new]| |] x'] eqn:Hx; cbn [mbind outcome_bind]; try done. intros [= <- <-].
    apply stats_encoded_status in Hx as Hst. subst st. rewrite Hsame.
    unfold stats_encoded_prog. cbn [run_filter do_callback]. rewrite run_bind, run_bind, get_put. cbv beta iota. rewrite Hsm. cbv [mret M_ret].
    rewrite Hx. cbn [of_outcome run_filter]. cbv [mret M_ret]. rewrite run_bind, on_put. reflexivity.
  - intros [= <- <-]. rewrite Hsame. cbn [run_filter]. cbv [mret M_ret]. rewrite run_bind, on_put. reflexivity.
  - destruct (Router_onMessageEncoded m r) as [[st| |] r'] eqn:Hx; cbn [mbind outcome_bind]; try done. intros [= <- <-].
    destruct (router_encoded _ _ _ _ Hx) as (-> & new & Hc & Hsil). rewrite Hsame.
    unfold router_encoded_prog. cbn [run_filter do_callback]. rewrite run_bind, run_bind, get_put. cbv beta iota. rewrite Hsm. cbv [mret M_ret].
    rewrite Hx, Hc, drop_app_length, (make_silent _ _ Hsil). cbn [of_outcome run_filter]. cbv [mret M_ret]. rewrite run_bind, on_put. reflexivity.
  - intros [= <- <-]. rewrite Hsame. cbn [run_filter]. cbv [mret M_ret]. rewrite run_bind, on_put. reflexivity.
Qed.

Lemma apply_responds mid m (fs fs' pre : list proxy_filter) mutation rd a h :
  am_response_decoder_ a = Some rd → rd_metadata_ rd = Some m → am_local_response_sent_ a = false → am_filters a = pre ++ fs →
  respond_all fs m (rd_mutation rd) = Return (fs', mutation) →
  apply_filters true mid (seq (length pre) (length fs)) (stored mid a h) =
    (Return None, stored mid (with_filters (pre ++ fs') (with_response (rewritten mutation rd) a)) h).
Proof.
  revert pre a rd fs'. induction fs as [|f fs IH]; intros pre a rd fs' Hrd Hm Hs Hf; cbn [respond_all].
  { intros [= <- <-]. cbn [length seq apply_filters]. rewrite rewritten_id, with_response_id by done. cbv [mret M_ret].
    do 2 f_equal. destruct a. cbn in *. by subst. }
  destruct (respond f m (rd_mutation rd)) as [[f1 mu1]| |] eqn:Hj; cbn [mbind outcome_bind]; [| done | done].
  destruct (respond_all fs m mu1) as [[fs1 mu2]| |] eqn:Hjs; cbn [mbind outcome_bind]; [| done | done]. intros [= <- <-].
  cbn [length seq apply_filters]. assert (am_filters a !! length pre = Some (f : filter)) as Hl by (rewrite Hf; apply lookup_at).
  rewrite run_bind, (call_responds mid (length pre) a h f f1 m rd mu1 Hrd Hm Hl Hj). cbv beta iota. rewrite run_bind, get_put. cbv beta iota.
  set (a1 := with_response (rewritten mu1 rd) a). rewrite (called_at pre fs f f1 a1) by exact Hf.
  change (am_local_response_sent_ (with_filters _ a1)) with (am_local_response_sent_ a). rewrite Hs, decide_False by (by intros []).
  specialize (IH (pre ++ [f1]) (with_filters (pre ++ f1 :: fs) a1) (rewritten mu1 rd) fs1 eq_refl Hm Hs).
  rewrite length_app, Nat.add_1_r in IH. rewrite IH; [| by rewrite <- app_assoc | done]. rewrite <- app_assoc. done.
Qed.

(** ** The response decoder *)

Abbreviation response_host := (Host unit ConnectionManager).
Definition at_world (w : ConnectionManager) (x : response_host) : response_host :=
  {| h_decoder := h_decoder x; h_codec := h_codec x; h_buffer := h_buffer x; h_world := w |}.
Definition at_codec (c : codec_state) (x : response_host) : response_host :=
  {| h_decoder := h_decoder x; h_codec := c; h_buffer := h_buffer x; h_world := h_world x |}.
Lemma in_world_bind {A B} (f : M ConnectionManager A) (k : A → M response_host B) (a : A) w w' x :
  f w = (Return a, w') → (in_world f ≫= k) (at_world w x) = k a (at_world w' x).
Proof. intros Hf. rewrite run_bind. unfold in_world. cbn [h_world at_world]. by rewrite Hf. Qed.
Lemma in_world_run {A} (f : M ConnectionManager A) (o : outcome A) w w' x : f w = (o, w') → in_world f (at_world w x) = (o, at_world w' x).
Proof. intros Hf. unfold in_world. cbn [h_world at_world]. by rewrite Hf. Qed.

Definition received m (mutation : Mutation) (rd : ActiveResponseDecoder) : ActiveResponseDecoder :=
  rd <| rd_metadata_ := Some m |> <| rd_mutation := mutation |>.
Lemma on_response_put mid f a rd w :
  am_response_decoder_ a = Some rd → on_response mid f (stored mid a w) = (Return tt, stored mid (with_response (f rd) a) w).
Proof. intros Hr. unfold on_response. rewrite on_put. do 2 f_equal. destruct a. cbn in Hr. by subst. Qed.

Definition tallied (s : Stat) (w : ConnectionManager) : ConnectionManager := w <| h_world ::= λ c, c <| stats_ ::= stat_add s 1 |> |>.
Definition wrote (d : bytes) (e : bool) (w : ConnectionManager) : ConnectionManager := w <| h_world ::= λ c, c <| downstream ::= λ k, conn_write k d e |> |>.
Lemma stat_put mid s a w : stat_inc s (stored mid a w) = (Return tt, stored mid a (tallied s w)).
Proof. reflexivity. Qed.
Lemma write_put mid d e a w : write_downstream d e (stored mid a w) = (Return tt, stored mid a (wrote d e w)).
Proof. reflexivity. Qed.
Lemma error_stat_put mid t a w :
  (if decide (t = MessageType_Error) then stat_inc response_business_exception_ else mret tt) (stored mid a w) =
  (Return tt, stored mid a (if decide (t = MessageType_Error) then tallied response_business_exception_ w else w)).
Proof. by case_decide. Qed.

(** The encoder filters have run. *)
Definition encoded (fs : list proxy_filter) (mutation : Mutation) (rd : ActiveResponseDecoder) a : ActiveMessage :=
  (with_filters fs (with_response (rewritten mutation rd) a)) <| am_encoder_filter_action_ := false |>.
Lemma encoders_run mid m (fs fs' : list proxy_filter) mutation rd a w x :
  am_response_decoder_ a = Some rd → rd_metadata_ rd = Some m → am_local_response_sent_ a = false → am_filters a = fs →
  (am_encoder_filters_ a).*1 = seq 0 (length fs) → respond_all fs m (rd_mutation rd) = Return (fs', mutation) →
  applyMessageEncodedFilters mid (at_world (stored mid a w) x) =
    (Return FilterStatus_ContinueIteration, at_world (stored mid (encoded fs' mutation rd a) w) x).
Proof.
  intros Hrd Hm Hs Hf He Hj. unfold applyMessageEncodedFilters.
  rewrite (in_world_bind _ _ tt _ _ _ (on_put mid _ a w)). set (a1 := a <| am_encoder_filter_action_ := true |>).
  assert (applyEncoderFilters mid None CanStartFromCurrent (stored mid a1 w) =
    (Return FilterStatus_ContinueIteration, stored mid (encoded fs' mutation rd a) w)) as Hap.
  { unfold applyEncoderFilters. rewrite run_bind, get_put. cbv beta iota. rewrite run_bind.
    change (am_encoder_filter_action_ a1) with true. cbn [ASSERT assert_that lift]. cbv beta iota. rewrite run_bind.
    change (am_local_response_sent_ a1) with (am_local_response_sent_ a). rewrite Hs.
    change (drop (commonPrefix None CanStartFromCurrent) (am_encoder_filters_ a1).*1) with ((am_encoder_filters_ a).*1). rewrite He.
    pose proof (apply_responds mid m fs fs' [] mutation rd a1 w Hrd Hm Hs Hf Hj) as Hap. cbn [length app] in Hap. rewrite Hap. cbv beta iota. rewrite run_bind, on_put. reflexivity. }
  rewrite (in_world_bind _ _ _ _ _ _ Hap). reflexivity.
Qed.

(** C7: A response that comes back, from its decoding to the client. When the filters of the chain take it, they see it in their
    order: metadata exchange adds the node of this proxy, the statistics are reported with the node of the peer, the router
    records the result for the host. Then the bytes that the codec makes of the response, with the mutations of all filters
    and the address of the upstream, are written once to the client, the response is counted once and the decoder is
    complete; no filter can keep the response from the client or answer in its place. *)
Theorem response_forwarded_once (mid : nat) (x : response_host) (m : MetadataImpl) (mutation mutation' : Mutation) (a : ActiveMessage)
    (rd : ActiveResponseDecoder) (fs fs' : list proxy_filter) (request : MetadataImpl) (address : string) (c : codec_state) (b : buffer) :
  objects (h_world (h_world x)) !! mid = Some a → am_response_decoder_ a = Some rd → am_filters a = fs →
  (am_encoder_filters_ a).*1 = seq 0 (length fs) → am_local_response_sent_ a = false →
  message_type_ m = MessageType_Response ∨ message_type_ m = MessageType_Error →
  let m' := setStreamInfo (Z.of_nat mid) m in
  respond_all fs m' mutation = Return (fs', mutation') →
  conn_state (downstream (h_world (h_world x))) = Connection_Open → am_metadata_ a = Some request →
  getString RealServerAddress request = Return address →
  codec_encode (putString RealServerAddress address m') mutation' (h_codec x, origin_message_ m) = (Return tt, (c, b)) →
  ∃ x' a' rd', response_onMessageDecoded mid m mutation x = (Return tt, x') ∧ h_codec x' = c ∧
    downstream (h_world (h_world x')) = conn_write (downstream (h_world (h_world x))) (contents b) false ∧
    objects (h_world (h_world x')) !! mid = Some a' ∧ am_filters a' = fs' ∧ am_response_decoder_ a' = Some rd' ∧
    rd_complete_ rd' = true ∧ rd_response_status_ rd' = UpstreamResponse_Complete ∧
    stats_ (h_world (h_world x')) response_ = stats_ (h_world (h_world x)) response_ + 1.
Proof.
  intros Ha Hrd Hf He Hs Ht m' Hj Hopen Hrq Hadr Hcod. set (w := h_world x) in *.
  assert (x = at_world (stored mid a w) x) as Hx by (rewrite (put_id mid a w Ha); by destruct x). rewrite Hx. clear Hx.
  unfold response_onMessageDecoded. rewrite run_bind. unfold ASSERT. rewrite bool_decide_true by done. cbn [assert_that lift]. cbv beta iota.
  rewrite (in_world_bind _ _ tt _ _ _ (on_put mid _ a w)).
  set (a1 := a <| am_bytes_received ::= _ |>). assert (am_response_decoder_ a1 = Some rd) as Hrd1 by exact Hrd.
  rewrite (in_world_bind _ _ tt _ _ _ (on_response_put mid _ a1 rd w Hrd1)). fold m'. fold (received m' mutation rd).
  set (rd1 := received m' mutation rd). set (a2 := with_response rd1 a1).
  rewrite run_bind, (encoders_run mid m' fs fs' mutation' rd1 a2 w x eq_refl eq_refl Hs Hf He Hj). cbv beta iota.
  rewrite decide_False by (by intros []). set (a3 := encoded fs' mutation' rd1 a2).
  assert (get_cm (λ c, conn_state (downstream c)) (stored mid a3 w) = (Return Connection_Open, stored mid a3 w)) as Hst
    by (unfold get_cm, gets; cbn; by rewrite Hopen).
  rewrite (in_world_bind _ _ _ _ _ _ Hst), decide_False by (by intros []). rewrite (in_world_bind _ _ _ _ _ _ (get_put mid a3 w)).
  assert (get_response mid (stored mid a3 w) = (Return (rewritten mutation' rd1), stored mid a3 w)) as Hgr by (unfold get_response; by rewrite run_bind, get_put).
  rewrite (in_world_bind _ _ _ _ _ _ Hgr). change (am_metadata_ a3) with (am_metadata_ a). rewrite Hrq.
  change (rd_metadata_ (rewritten mutation' rd1)) with (Some m'). cbv beta iota. rewrite run_bind. unfold lift. rewrite Hadr. cbv beta iota zeta.
  rewrite run_bind. unfold response_encode at 1. change (h_codec (at_world (stored mid a3 w) x)) with (h_codec x).
  change (origin_message_ (putString RealServerAddress address m')) with (origin_message_ m).
  change (rd_mutation (rewritten mutation' rd1)) with mutation'. rewrite Hcod. cbn [fmap outcome_fmap].
  change ((at_world (stored mid a3 w) x) <| h_codec := c |>) with (at_world (stored mid a3 w) (at_codec c x)). set (m3 := _ <| origin_message_ := b |>).
  rewrite (in_world_bind _ _ _ _ _ _ (write_put mid _ false a3 w)).
  rewrite (in_world_bind _ _ _ _ _ _ (on_response_put mid _ a3 (rewritten mutation' rd1) _ eq_refl)).
  rewrite (in_world_bind _ _ _ _ _ _ (stat_put mid response_ _ _)), (in_world_bind _ _ _ _ _ _ (stat_put mid response_decoding_success_ _ _)).
  rewrite (in_world_bind _ _ _ _ _ _ (error_stat_put mid _ _ _)), (in_world_bind _ _ _ _ _ _ (stat_put mid _ _ _)).
  erewrite in_world_run by (apply on_response_put; reflexivity). eexists _, _, _. split; [reflexivity |]. split; [done |].
  split; [by case_decide |]. split; [apply lookup_put |]. split; [done |]. split; [done |]. split; [done |]. split; [done |].
  unfold tallied. destruct (decide (message_type_ m3 = MessageType_Error)), (response_status_ m3); cbn; unfold stat_add; repeat case_decide; done.
Qed.
End response.
