(* ===== verification/ChainEvents.v ===== *)
(** * What the pool tells a request that waits

    A router that waits for a connection is called by the pool later, outside of the chain.
    Its calls reach the connection manager, [continueDecoding] among them, which resumes
    the chain behind the router.  With that, a request whose connection comes late, from
    its decoding to the bytes that are written, or to the reply that the client gets. *)

From S2P Require Import Prelude Base64 Envoy Metadata Codec Decoder Network ConnManager ConnFrames ConnInvariant ConnBehaviour UpstreamHandler Route RequestId Tracing UpstreamRequest Router RouterAccount RouterOutcome Rds IstioStats GlobalRateLimit Chain ChainBehaviour.

Section events.
Context {E : Envoy} {C : CodecOps E} {N : NetworkOps} {V : RequestEnv} {R : RouteEnv E} {D : TracingDriver} {I : IstioEnv} {G : RateLimitEnv} {H : ChainEnv}.
#[local] Existing Instance chain_proxy.
Abbreviation ConnectionManager := (Host nat CM).
Implicit Types (h : ConnectionManager) (a : ActiveMessage) (m : MetadataImpl) (r : Router).

(** ** Events of the router of a message *)

(** A call of the router, which is the [i]-th filter of its message *)
Definition run_call (mid i : nat) (c : call) : M ConnectionManager unit :=
  match c with
  | C_sendLocalReply response end_stream => sendLocalReply mid response end_stream
  | C_resetStream => ConnManager.resetStream mid
  | C_setUpstreamConnection (Some conn) => setUpstreamConnection mid (chain_connection conn)
  | C_setUpstreamConnection None => panic "null upstream connection"
  | C_startUpstreamResponse => startUpstreamResponse mid
  | C_onUpstreamResponse => onUpstreamResponse mid
  | C_continueDecoding => continueDecoding mid i
  | _ => mret tt
  end.
Fixpoint run_calls (mid i : nat) (calls : list call) : M ConnectionManager unit :=
  match calls with [] => mret tt | c :: calls => _ ← run_call mid i c; run_calls mid i calls end.

(** An operation of the router, which shares the metadata and the mutation with its
    message, and then its calls.  The router is the last filter: what its calls change is
    not read by the rest of the operation. *)
Definition router_event (mid i : nat) (op : M Router unit) : M ConnectionManager unit :=
  a ← get_message mid;
  match am_filters a !! i, am_metadata_ a with
  | Some (PF_Router (Some r)), Some m =>
      let '(o, r') := op (r <| ro_request_metadata_ := m |> <| ro_request_mutation := am_mutation a |>) in
      _ ← on_message mid (λ a, called i (PF_Router (Some r')) (a <| am_metadata_ := Some (ro_request_metadata_ r') |> <| am_mutation := ro_request_mutation r' |>));
      _ ← run_calls mid i (drop (length (ro_calls r)) (ro_calls r'));
      lift o
  | _, _ => panic "no router"
  end.

(** What the pool tells the router: it has the connection, or there will be none. *)
Inductive pool_event : Type := PE_Ready (conn : connection) (host : string) | PE_Failure (reason : PoolFailureReason) (host : string).
Definition on_pool (mid i : nat) (e : pool_event) : M ConnectionManager unit :=
  router_event mid i (match e with
                      | PE_Ready conn host => UpstreamRequest_onPoolReady conn host
                      | PE_Failure reason host => UpstreamRequest_onPoolFailure reason host
                      end).

(** ** How the chain goes on *)

Lemma run_silent mid i calls rest h : forallb silent calls = true → run_calls mid i (calls ++ rest) h = run_calls mid i rest h.
Proof. induction calls as [|c l IH]; [done |]. cbn. intros [Hc Hl]%andb_true_iff. destruct c; cbn in Hc; try done; by apply IH. Qed.

Context {L : EnvoyLaws E} {NL : NetworkLaws N}.

(** Behind the last filter nothing is left to run, and the message ends as one that was not paused. *)
Lemma continue_run mid i a h m :
  am_metadata_ a = Some m → contents (origin_message_ m) = [] → am_filter_action_ a = true → am_pending_stream_decoded_ a = true →
  drop (S i) (am_decoder_filters_ a) = [] →
  continueDecoding mid i (stored mid a h) = maybeDeferredDeleteMessage mid (stored mid (a <| am_filter_action_ := false |>) h).
Proof using L.
  intros Hm Hb Hf Hp Hd. unfold continueDecoding. rewrite run_bind, get_put. cbv beta iota. rewrite Hm.
  rewrite buf_length_spec, Hb. change (zlen [] =? 0) with true. cbv iota. rewrite run_bind. unfold applyDecoderFilters. rewrite run_bind, get_put. cbv beta iota.
  rewrite run_bind, Hf. cbn [ASSERT assert_that lift]. cbv beta iota. rewrite run_bind.
  assert ((if am_local_response_sent_ a then mret None else apply_filters false mid (drop (commonPrefix (Some i) AlwaysStartFromNext) (am_decoder_filters_ a)))
    (stored mid a h) = (Return None, stored mid a h)) as ->.
  { change (commonPrefix (Some i) AlwaysStartFromNext) with (S i). rewrite Hd. by destruct (am_local_response_sent_ a). }
  cbv beta iota. rewrite run_bind, on_put. cbv [mret M_ret]. rewrite decide_True by done. rewrite run_bind, get_put. cbv beta iota.
  change (am_pending_stream_decoded_ (a <| am_filter_action_ := false |>)) with (am_pending_stream_decoded_ a). by rewrite Hp.
Qed.

(** An event that reaches a waiting router *)
Lemma waiting_event_run mid sid fs' route r1 handle a r op o r' new h :
  waiting sid fs' route r1 handle a r → op r = (o, r') → ro_calls r' = ro_calls r ++ new →
  let a' := a <| am_filters := fs' ++ [PF_Router (Some r')] |> <| am_metadata_ := Some (ro_request_metadata_ r') |>
              <| am_mutation := ro_request_mutation r' |> in
  router_event mid (length fs') op (stored mid a h) = (_ ← run_calls mid (length fs') new; lift o) (stored mid a' h).
Proof.
  intros Hw Hop Hc a'. unfold router_event. rewrite run_bind, get_put. cbv beta iota.
  assert (am_filters a !! length fs' = Some (PF_Router (Some r) : proxy_filter)) as Hl by (rewrite (wa_filters _ _ _ _ _ _ _ Hw); exact (lookup_at fs' [] _)).
  rewrite Hl.
  rewrite (wa_metadata _ _ _ _ _ _ _ Hw), (wa_mutation _ _ _ _ _ _ _ Hw).
  assert (r <| ro_request_metadata_ := ro_request_metadata_ r |> <| ro_request_mutation := ro_request_mutation r |> = r) as -> by by destruct r.
  rewrite Hop. cbv beta iota. rewrite run_bind, on_put. cbv beta iota. rewrite Hc, drop_app_length.
  f_equal. rewrite (called_at fs' [] (PF_Router (Some r))) by exact (wa_filters _ _ _ _ _ _ _ Hw). reflexivity.
Qed.

Lemma behind_last n : drop (S n) (seq 0 n ++ [n]) = [].
Proof. apply drop_ge. rewrite length_app, length_seq. cbn. lia. Qed.

(** A connection that comes: the message ends as one whose filters have all continued. *)
Lemma resumed_run mid i a h m :
  am_metadata_ a = Some m → contents (origin_message_ m) = [] → am_filter_action_ a = true → am_pending_stream_decoded_ a = true →
  drop (S i) (am_decoder_filters_ a) = [] → am_local_response_sent_ a = false → message_type_ m = MessageType_Request →
  ∃ h2 a2, continueDecoding mid i (stored mid a h) = (Return tt, h2) ∧ objects (h_world h2) !! mid = Some a2 ∧ am_filters a2 = am_filters a ∧
    am_local_response_sent_ a2 = false ∧ am_pending_stream_decoded_ a2 = false ∧ downstream (h_world h2) = downstream (h_world h) ∧
    active_message_list_ (h_world h2) = active_message_list_ (h_world h) ∧ deferred (h_world h2) = deferred (h_world h).
Proof using L.
  intros Hm Hb Hf Hp Hd Hs Ht. rewrite (continue_run mid i a h m Hm Hb Hf Hp Hd).
  rewrite (maybeDeferredDelete_run mid _ _ m (lookup_put mid _ _)) by exact Hm. change (am_local_response_sent_ _) with (am_local_response_sent_ a) at 1.
  rewrite Hs, Ht. cbn [orb one_way]. cbv [mret M_ret]. eexists _, _. split; [reflexivity |]. split; [cbn; apply lookup_insert_eq |]. done.
Qed.

(** A failure that comes: the message is deleted once, also if the chain is resumed. *)
Lemma dropped_run mid i a h m :
  am_metadata_ a = Some m → contents (origin_message_ m) = [] → am_filter_action_ a = true → am_pending_stream_decoded_ a = true →
  drop (S i) (am_decoder_filters_ a) = [] → am_local_response_sent_ a = true →
  ∃ h2 a2, continueDecoding mid i (stored mid a (dropped mid h)) = (Return tt, h2) ∧ objects (h_world h2) !! mid = Some a2 ∧ am_filters a2 = am_filters a ∧
    downstream (h_world h2) = downstream (h_world h) ∧ mid ∈ deferred (h_world h2) ∧ (mid ∉ active_message_list_ (h_world h2)).
Proof using L.
  intros Hm Hb Hf Hp Hd Hs. rewrite (continue_run mid i a _ m Hm Hb Hf Hp Hd).
  rewrite (maybeDeferredDelete_run mid _ _ m (lookup_put mid _ _)) by exact Hm. change (am_local_response_sent_ _) with (am_local_response_sent_ a) at 1.
  rewrite Hs. cbn [orb].
  match goal with |- context [deferredDeleteMessage mid ?x] => destruct (pending_deleted mid x) as (h' & -> & Hde & Ha & Ho & Hw); [right; exact (dropped_off mid h) |] end.
  eexists h', _. split; [done |]. split; [rewrite Ho; cbn; apply lookup_insert_eq |]. split; [done |]. split; [by rewrite Hw | done].
Qed.

Definition failure_error (reason : PoolFailureReason) (host : string) : Error :=
  {| error_type := ErrorType_Unspecified; error_message := reset_message reason host |}.

Lemma failure_run mid i a h m reason host b :
  am_metadata_ a = Some m → contents (origin_message_ m) = [] → am_filter_action_ a = true → am_pending_stream_decoded_ a = true →
  drop (S i) (am_decoder_filters_ a) = [] → can_answer m (failure_error reason host) b h → mid ∈ active_message_list_ (h_world h) →
  ∃ h2 a2, run_calls mid i (failure_calls reason host) (stored mid a h) = (Return tt, h2) ∧ objects (h_world h2) !! mid = Some a2 ∧
    am_filters a2 = am_filters a ∧ conn_written (downstream (h_world h2)) = conn_written (downstream (h_world h)) ++ [(contents b, false)] ∧
    mid ∈ deferred (h_world h2) ∧ (mid ∉ active_message_list_ (h_world h2)).
Proof using L NL.
  intros Hm Hb Hf Hp Hd Hans Hin. unfold failure_calls. cbn [app reset_calls run_calls run_call]. rewrite run_bind. cbv [mret M_ret]. rewrite run_bind.
  destruct (reply_put mid a h m _ b Hm Hans) as (h1 & Hrep & Hal & _ & Hwr). change (unspecified (reset_message reason host)) with (AppException (failure_error reason host)). rewrite Hrep. cbv beta iota.
  rewrite run_bind. unfold resetStream. rewrite delete_run, bool_decide_true by (change (mid ∈ active_message_list_ (h_world h1)); by rewrite Hal).
  cbv beta iota. change (dropped mid (stored mid ?x h1)) with (stored mid x (dropped mid h1)).
  destruct (dropped_run mid i (marked a) h1 m Hm Hb Hf Hp Hd eq_refl) as (h2 & a2 & Hrun & Ho & Hfs & Hdn & Hde & Hac).
  destruct reason; cbn [run_calls run_call].
  1: { exists (stored mid (marked a) (dropped mid h1)), (marked a). split; [reflexivity |]. split; [apply lookup_put |].
       split; [done |]. split; [exact Hwr | exact (dropped_off mid h1)]. }
  all: exists h2, a2; rewrite run_bind, ?Hrun; cbv [mret M_ret]; rewrite ?run_bind, ?Hrun; split; [done |]; split; [done |]; split; [done |];
    split; [by rewrite Hdn | done].
Qed.

(** C6: A request whose connection comes late. The chain pauses at the router, nothing is written and the message stays on the
    list; then the pool calls the router. If it has the connection, the bytes that the codec makes of the client's message,
    with the mutations of all filters and of the route, are written once to it, the chain is resumed behind the router and
    ends, and the client is written nothing. If it fails, for any reason, the client gets exactly one reply that names the
    reason, and the message is handed to deferred deletion once, although the router resets it and resumes the chain. *)
Theorem waiting_request_settled (mid : nat) (h : ConnectionManager) (m : MetadataImpl) (mutation mutation' : Mutation) (sid : Z)
    (fs' : list proxy_filter) (route : Route) (r1 : Router) (handle : Z) (event : pool_event) :
  objects (h_world h) !! mid = Some (createFilterChain (new_ActiveMessage sid)) → mid ∈ active_message_list_ (h_world h) →
  message_type_ m = MessageType_Request → cb_multiplexing (RouterEnv := chain_router) = false →
  let m' := putString ApplicationProtocol chain_protocol m in
  judge_all chain_filters m' mutation = Return (fs', Passed mutation') → Config_route chain_routes m' sid = Return (Some route) →
  identify_and_trace (X := router_env (Some route)) (clusterName route) (with_route (Some route) (new_Router m' mutation')) = (Return tt, r1) →
  message_type_ (ro_request_metadata_ r1) = MessageType_Request → destination (clusterName route) = inr (NC_Pending handle) →
  let '(message, rest) := buf_move_all buf_new (origin_message_ (ro_request_metadata_ r1)) in
  let metadata := (ro_request_metadata_ r1) <| origin_message_ := rest |> in
  ∃ h1, onMessageDecoded mid m mutation h = (Return tt, h1) ∧ downstream (h_world h1) = downstream (h_world h) ∧
    active_message_list_ (h_world h1) = active_message_list_ (h_world h) ∧
    match event with
    | PE_Ready conn host =>
        ∀ data, encodes (addressed conn metadata) (requestMutation route (ro_request_mutation r1)) message data →
        ∃ h2 a2 r2, on_pool mid (length fs') event h1 = (Return tt, h2) ∧ objects (h_world h2) !! mid = Some a2 ∧
          am_filters a2 = fs' ++ [PF_Router (Some r2)] ∧ conn_of r2 = Some (conn_write conn data false) ∧
          am_local_response_sent_ a2 = false ∧ am_pending_stream_decoded_ a2 = false ∧ downstream (h_world h2) = downstream (h_world h) ∧
          active_message_list_ (h_world h2) = active_message_list_ (h_world h) ∧ deferred (h_world h2) = deferred (h_world h)
    | PE_Failure reason host =>
        ∀ b, can_answer metadata (failure_error reason host) b h →
        ∃ h2 a2, on_pool mid (length fs') event h1 = (Return tt, h2) ∧
          conn_written (downstream (h_world h2)) = conn_written (downstream (h_world h)) ++ [(contents b, false)] ∧
          mid ∈ deferred (h_world h2) ∧ (mid ∉ active_message_list_ (h_world h2)) ∧ objects (h_world h2) !! mid = Some a2 ∧ nothing_sent a2
    end.
Proof using L NL.
  intros Ha Hin Ht Hmux m' Hj Hr Hi Ht1 Hd. rewrite (surjective_pairing (buf_move_all _ _)). intros metadata.
  destruct (request_waits mid h m mutation mutation' sid fs' route r1 handle Ha Ht Hmux Hj Hr Hi Hd) as (a & r & Hdec & Hw).
  exists (stored mid a (counted h)). split; [exact Hdec |]. split; [done |]. split; [done |]. clear Hdec.
  pose proof (wa_router_metadata _ _ _ _ _ _ _ Hw) as Hm. fold metadata in Hm. pose proof (wa_router_mutation _ _ _ _ _ _ _ Hw) as Hmu.
  assert (contents (origin_message_ metadata) = []) as Hb by exact (buf_move_all_src _ _).
  assert (drop (S (length fs')) (am_decoder_filters_ a) = []) as Hl by (rewrite (wa_decoders _ _ _ _ _ _ _ Hw); apply behind_last).
  destruct event as [conn host|reason host].
  - intros data He.
    epose proof (pool_ready_run (NC_Pending handle) conn host _ data r (wa_request _ _ _ _ _ _ _ Hw) eq_refl eq_refl) as Hrun.
    rewrite Hm, Hmu in Hrun. specialize (Hrun (or_introl Ht1) He).
    rewrite (bool_decide_true (_ ≠ None)) in Hrun by done.
    unfold on_pool. rewrite (waiting_event_run mid sid fs' route r1 handle a r _ _ _ _ (counted h) Hw Hrun eq_refl), run_bind.
    unfold streams, sent_calls. rewrite !bool_decide_false by (cbn; by rewrite Ht1). cbn [app].
    match goal with |- context [run_calls _ _ (?c1 :: ?c2 :: ?c3 :: ?l)] => change (c1 :: c2 :: c3 :: l) with ([c1; c2; c3] ++ l) end.
    rewrite run_silent by done. cbn [run_calls run_call]. rewrite run_bind.
    match goal with |- context [continueDecoding mid _ (stored mid ?x _)] =>
      destruct (resumed_run mid (length fs') x (counted h) (addressed conn metadata) eq_refl Hb (wa_action _ _ _ _ _ _ _ Hw)
        (wa_pending _ _ _ _ _ _ _ Hw) Hl (wa_unanswered _ _ _ _ _ _ _ Hw) Ht1) as (h2 & a2 & Hc & Ho & Hf & Hrest) end.
    rewrite Hc. cbv [mret M_ret lift]. eexists h2, a2, _. split; [reflexivity |]. split; [exact Ho |]. split; [exact Hf |].
    split; [reflexivity | exact Hrest].
  - intros b Hans.
    epose proof (pool_failure_run (NC_Pending handle) reason host _ r (wa_request _ _ _ _ _ _ _ Hw) eq_refl eq_refl) as Hrun.
    rewrite Hm in Hrun. specialize (Hrun ltac:(cbn; by rewrite Ht1)).
    unfold on_pool. rewrite (waiting_event_run mid sid fs' route r1 handle a r _ _ _ _ (counted h) Hw Hrun eq_refl), run_bind.
    match goal with |- context [run_calls mid _ _ (stored mid ?x _)] =>
      destruct (failure_run mid (length fs') x (counted h) metadata reason host b) as (h2 & a2 & Hc & Ho & Hf & Hwr & Hde & Hac);
        [cbn; by rewrite Hm | done | exact (wa_action _ _ _ _ _ _ _ Hw) | exact (wa_pending _ _ _ _ _ _ _ Hw) | exact Hl | exact Hans | exact Hin |] end.
    rewrite Hc. cbv [lift]. eexists h2, a2. split; [reflexivity |]. split; [exact Hwr |]. split; [done |]. split; [done |]. split; [done |].
    eexists. split; [rewrite Hf; exact (last_app_cons fs' [] _) |]. by intros r0 [= <-].
Qed.
End events.
