(* ===== verification/ChainWitness.v ===== *)
(** * The theorems about the filter chain on concrete requests

    A chain that exchanges metadata, counts and limits, with the small protocol of the
    connection manager and the environments of the other examples. *)

From S2P Require Import Prelude Base64 Envoy Metadata Codec Decoder Network ConnManager ConnFrames ConnInvariant ConnBehaviour UpstreamHandler Route RequestId Tracing UpstreamRequest Router RouterAccount RouterOutcome RouterWitness Rds IstioStats GlobalRateLimit Chain ChainBehaviour ChainResponse ChainEvents.

#[local] Instance cw_V : @RequestEnv rw_N := rw_V (Some (NC_Ready rw_conn "host")).
#[local] Instance cw_R : RouteEnv rw_E := rw_R.
#[local] Instance cw_D : @TracingDriver rw_E := rw_D.
#[local] Instance cw_I : IstioEnv := toy_istio.
(** The service says that everything is over the limit. *)
#[local] Instance cw_G : RateLimitEnv :=
  {| rl_getThreadLocalCluster _ := Some (λ _, Some "10.0.0.2:8081"); stub_ShouldRateLimit _ _ _ := (true, Code_OVER_LIMIT) |}.

Definition cw_limit (conditions : list (@HeaderMatcher rw_E rw_R)) : @RateLimitConfig rw_E rw_R :=
  @Build_RateLimitConfig rw_E rw_R conditions "domain" true "limits" [].
Definition cw_routes : @Config rw_E rw_R := ConfigImpl "routes" [r_entry rw_route].

Definition cw_chain (conditions : list (@HeaderMatcher rw_E rw_R)) : @ChainEnv rw_E rw_N rw_R cw_I := {|
  chain_router := rw_X;
  chain_stats_info := toy_info;
  chain_connection _ := 0;
  chain_context := {| node_metadata := Some true; node_id := "client"; direction := OUTBOUND |};
  chain_configs := [CFG_MetadataExchange; CFG_IstioStats "backend"; CFG_RateLimit (cw_limit conditions)];
  chain_routes := cw_routes;
  chain_protocol := "toy";
  chain_idle_timeout := None;
  chain_random := Z.of_nat;
  chain_cluster _ := true;
  chain_pool _ := None
|}.

Definition cw_open : @ChainEnv rw_E rw_N rw_R cw_I := cw_chain [].
Definition cw_closed : @ChainEnv rw_E rw_N rw_R cw_I := cw_chain [(ApplicationProtocol, "toy")].

(** A connection with one message that waits for its request *)
Definition cw_host_with (V : @RequestEnv rw_N) (H : @ChainEnv rw_E rw_N rw_R cw_I) :=
  let P := @chain_proxy rw_E toy_codec rw_N V rw_R rw_D cw_I cw_G H in
  ({| h_decoder := new_DecoderBase MessageType_Request; h_codec := codec_init; h_buffer := buf_new;
      h_world := {| objects := {[0%nat := createFilterChain (new_ActiveMessage 3)]}; next_id := 1; active_message_list_ := [0%nat];
                    deferred := []; active_stream_map_ := ∅; stats_ := λ _, 0; downstream := rw_conn; idle_timer_ := None;
                    upstream_handler_manager_ := ∅; next_handler := 0; upstream_written := []; destroyed := [] |} |}
   : @Host rw_E toy_codec nat (@CM rw_E toy_codec rw_N P)).
Definition cw_host := cw_host_with cw_V.

Definition cw_message : @MetadataImpl rw_E := putString ApplicationProtocol "toy" rw_request.

(** ** Reading results without normalising their types *)

Lemma passed_result {A} (o : outcome (A * verdict)) :
  (if o is Return (_, Passed _) then true else false) = true → ∃ fs mutation, o = Return (fs, Passed mutation).
Proof. destruct o as [[fs [mutation|]]| |]; cbn; [by exists fs, mutation | done..]. Qed.
Lemma refused_result {A} (o : outcome (A * verdict)) (t : ErrorType) :
  (if o is Return (_, Refused e) then bool_decide (error_type e = t) else false) = true → ∃ fs e, o = Return (fs, Refused e) ∧ error_type e = t.
Proof. destruct o as [[fs [|e]]| |]; cbn; [done | | done..]. intros Ht%bool_decide_eq_true. by exists fs, e. Qed.
Lemma route_result {A} (o : outcome (option A)) : (if o is Return (Some _) then true else false) = true → ∃ a, o = Return (Some a).
Proof. destruct o as [[a|]| |]; cbn; [by exists a | done..]. Qed.

(** ** A request that the limiter refuses *)

Lemma request_refused_once_witness :
  ∃ h', @onMessageDecoded rw_E toy_codec rw_N (chain_proxy (H := cw_closed)) 0 rw_request ∅ (cw_host cw_closed) = (Return tt, h') ∧
    conn_written (downstream (h_world h')) = [([8], false)] ∧ 0%nat ∈ deferred (h_world h').
Proof.
  destruct (refused_result (judge_all (@chain_filters _ _ _ _ cw_closed) cw_message ∅) ErrorType_OverLimit) as (fs & e & Hj & _);
    [vm_compute; reflexivity |].
  destruct (@request_refused_once rw_E toy_codec rw_N cw_V rw_R rw_D cw_I cw_G cw_closed (list_envoy_laws Empty_set) list_network_laws
    0 (cw_host cw_closed) rw_request cw_message ∅ 3 e (buf_add buf_new [8])) as (h' & Hrun & Hw & Hd & _).
  - reflexivity.
  - by left.
  - reflexivity.
  - reflexivity.
  - exact (by_filter _ _ _ _ _ Hj).
  - split_and!; [apply NoDup_singleton | reflexivity | by exists tt].
  - exists h'. split; [exact Hrun |]. split; [exact Hw | exact Hd].
Defined.

(** ** A request that is sent *)

Lemma cw_encodes (m : @MetadataImpl rw_E) mutation message :
  contents message = [6; 1] → @encodes rw_E toy_codec m mutation message [6; 1].
Proof. exact (rw_encodes m mutation message). Qed.

(** The router that identifies and traces the request, for any mutation of the filters before it *)
Definition cw_identified (route : Route) (mutation : Mutation) : outcome unit * Router :=
  @identify_and_trace rw_E rw_N rw_R rw_D (router_env (H := cw_open) (Some route)) (clusterName route)
    (with_route (Some route) (new_Router cw_message mutation)).

Definition cw_judged := judge_all (@chain_filters _ _ _ _ cw_open) cw_message ∅.
Definition cw_mutation : Mutation := match cw_judged with Return (_, Passed mutation) => mutation | _ => ∅ end.
Definition cw_route : Route := match Config_route cw_routes cw_message 3 with Return (Some route) => route | _ => rw_route end.

Lemma request_sent_once_witness :
  ∃ h' a' fs r', @onMessageDecoded rw_E toy_codec rw_N (chain_proxy (H := cw_open)) 0 rw_request ∅ (cw_host cw_open) = (Return tt, h') ∧
    objects (h_world h') !! 0%nat = Some a' ∧ am_filters (P := chain_proxy (H := cw_open)) a' = fs ++ [PF_Router (Some r')] ∧ conn_of r' = Some (conn_write rw_conn [6; 1] false) ∧
    cw_mutation !! ExchangeMetadataHeader = Some "AQ==".
Proof.
  destruct (passed_result cw_judged) as (fs & mutation & Hj); [vm_compute; reflexivity |].
  assert (mutation = cw_mutation) as -> by (unfold cw_mutation; by rewrite Hj).
  destruct (route_result (Config_route cw_routes cw_message 3)) as (route & Hr); [vm_compute; reflexivity |].
  assert (route = cw_route) as -> by (unfold cw_route; by rewrite Hr).
  pose proof (@request_sent_once rw_E toy_codec rw_N cw_V rw_R rw_D cw_I cw_G cw_open 0 (cw_host cw_open) rw_request ∅ cw_mutation 3 fs cw_route
    (cw_identified cw_route cw_mutation).2 rw_conn "host" [6; 1]) as H.
  rewrite (surjective_pairing (buf_move_all _ _)) in H.
  destruct (H eq_refl eq_refl eq_refl Hj Hr) as (h' & a' & r' & Hrun & Ha & Hf & Hc & _).
  - unfold cw_identified. apply pair_fst. vm_compute. reflexivity.
  - vm_compute. reflexivity.
  - reflexivity.
  - apply cw_encodes. vm_compute. reflexivity.
  - exists h', a', fs, r'. split; [exact Hrun |]. split; [exact Ha |]. split; [exact Hf |]. split; [exact Hc |]. vm_compute. reflexivity.
Defined.

(** ** A request that waits for its connection *)

Definition cw_late : @RequestEnv rw_N := rw_V (Some (NC_Pending 7)).

Lemma waiting_request_settled_witness :
  ∃ h1 h2 a2 fs r2, @onMessageDecoded rw_E toy_codec rw_N (@chain_proxy rw_E toy_codec rw_N cw_late rw_R rw_D cw_I cw_G cw_open) 0 rw_request ∅ (cw_host_with cw_late cw_open) = (Return tt, h1) ∧
    @on_pool rw_E toy_codec rw_N cw_late rw_R rw_D cw_I cw_G cw_open 0 3 (PE_Ready rw_conn "host") h1 = (Return tt, h2) ∧
    objects (h_world h2) !! 0%nat = Some a2 ∧ @am_filters rw_E toy_codec (@chain_proxy rw_E toy_codec rw_N cw_late rw_R rw_D cw_I cw_G cw_open) a2 = fs ++ [PF_Router (Some r2)] ∧ conn_of r2 = Some (conn_write rw_conn [6; 1] false).
Proof.
  destruct (passed_result cw_judged) as (fs & mutation & Hj); [vm_compute; reflexivity |].
  assert (mutation = cw_mutation) as -> by (unfold cw_mutation; by rewrite Hj).
  destruct (route_result (Config_route cw_routes cw_message 3)) as (route & Hr); [vm_compute; reflexivity |].
  assert (route = cw_route) as -> by (unfold cw_route; by rewrite Hr).
  pose proof (@waiting_request_settled rw_E toy_codec rw_N cw_late rw_R rw_D cw_I cw_G cw_open (list_envoy_laws Empty_set) list_network_laws
    0 (cw_host_with cw_late cw_open) rw_request ∅ cw_mutation 3 fs cw_route (cw_identified cw_route cw_mutation).2 7 (PE_Ready rw_conn "host")) as H.
  rewrite (surjective_pairing (buf_move_all _ _)) in H.
  destruct (H eq_refl) as (h1 & Hdec & _ & _ & Hev); [by left | reflexivity | reflexivity | exact Hj | exact Hr | | | reflexivity |].
  - unfold cw_identified. apply pair_fst. vm_compute. reflexivity.
  - vm_compute. reflexivity.
  - destruct (Hev [6; 1]) as (h2 & a2 & r2 & Hp & Ha & Hf & Hc & _); [apply cw_encodes; vm_compute; reflexivity |].
    exists h1, h2, a2, fs, r2. split; [exact Hdec |]. split; [| split; [exact Ha | split; [exact Hf | exact Hc]]].
    assert (length fs = 3%nat) as <- by exact (judge_all_length _ _ _ _ _ Hj). exact Hp.
Defined.

(** ** A response *)

Definition cw_response : @MetadataImpl rw_E :=
  (@setMessageType rw_E MessageType_Response new_MetadataImpl) <| origin_message_ := buf_add buf_new [7; 2] |>.
Definition cw_decoder : @ActiveResponseDecoder rw_E toy_codec :=
  {| rd_decoder_ := new_DecoderBase MessageType_Response; rd_codec_ := codec_init; rd_metadata_ := None; rd_mutation := ∅;
     rd_complete_ := false; rd_response_status_ := UpstreamResponse_MoreData |}.
Definition cw_waiting : @ActiveMessage rw_E toy_codec (chain_proxy (H := cw_open)) :=
  (createFilterChain (new_ActiveMessage 3)) <| am_metadata_ := Some (putString RealServerAddress "10.0.0.1:80" cw_message) |>
    <| am_response_decoder_ := Some cw_decoder |>.
Definition cw_manager := (cw_host cw_open) <| h_world ::= λ c, c <| objects := {[0%nat := cw_waiting]} |> |>.
Definition cw_upstream : @Host rw_E toy_codec unit (@Host rw_E toy_codec nat (@CM rw_E toy_codec rw_N (chain_proxy (H := cw_open)))) :=
  {| h_decoder := new_DecoderBase MessageType_Response; h_codec := codec_init; h_buffer := buf_new; h_world := cw_manager |}.

Lemma returned {A B} (o : outcome (A * B)) : (if o is Return _ then true else false) = true → ∃ a b, o = Return (a, b).
Proof. destruct o as [[a b]| |]; cbn; [by exists a, b | done..]. Qed.

Lemma response_forwarded_once_witness :
  ∃ x', @response_onMessageDecoded rw_E toy_codec rw_N (chain_proxy (H := cw_open)) 0 cw_response ∅ cw_upstream = (Return tt, x') ∧
    conn_written (downstream (h_world (h_world x'))) = [([7; 2], false)].
Proof.
  destruct (returned (respond_all (H := cw_open) (am_filters cw_waiting) (setStreamInfo (Z.of_nat 0) cw_response) ∅)) as (fs' & mutation' & Hj);
    [vm_compute; reflexivity |].
  destruct (@response_forwarded_once rw_E toy_codec rw_N cw_V rw_R rw_D cw_I cw_G cw_open 0 cw_upstream cw_response ∅ mutation' cw_waiting cw_decoder
    (am_filters cw_waiting) fs' (putString RealServerAddress "10.0.0.1:80" cw_message) "10.0.0.1:80" tt (buf_add buf_new [7; 2]))
    as (x' & a' & rd' & Hrun & _ & Hd & _).
  - reflexivity.
  - reflexivity.
  - reflexivity.
  - reflexivity.
  - reflexivity.
  - by left.
  - exact Hj.
  - reflexivity.
  - reflexivity.
  - vm_compute. reflexivity.
  - reflexivity.
  - exists x'. split; [exact Hrun |]. exact (f_equal (@conn_written rw_N) Hd).
Defined.
